(** * aester-dex: a shallow embedding of the signal-and-state pipeline

    The TypeScript sources are embedded class by class, one Rocq module per
    class, each method a function that takes the object state and returns the
    new state next to its result.

    Numbers.  A JavaScript [number] that carries a price, a volume or an
    indicator value is an exact rational ([Q]): the statements about such
    values are about the arithmetic the code writes down, and the rounding,
    the overflow and the infinities of IEEE-754 have no counterpart there.
    Two places go further.  A position amount is a [number], a rational or
    [NaN]: the builtin [parseFloat] returns [NaN] on text that is no number,
    and the sources store and compare the amount unguarded (the entry price
    and the profit are read with [|| 0]).  And [RSIDouble] is the RSI once
    more on binary64 numbers, to settle what rounding does to its range.
    The balance reaches the orchestrator parsed, as a rational.  Every
    division the sources perform is written out, with its guard where the
    sources have one; a division by zero the sources do not guard (the
    directional indicators of adx.ts on flat bars) is 0 here and [NaN] in the
    code, and no statement is about such a value.  Timestamps, lengths and
    counters are integers ([Z]).

    Effects.  [Date.now()] is an input of the functions that read it.  The
    executor is an external collaborator: its outcome is an input of the
    orchestrator step.  [enterPosition] and [closePosition] are [async] and
    nobody awaits them.  The functions of [BotRunner] run each of them to
    completion where it is called, which is the pipeline serialised as
    section 5 of the specification asks; [BotRunner.Async] splits both at
    their [await], keeps the calls in flight and lets them settle in later
    turns of the event loop, in any order, which is what an executor that
    takes time does.  Timers ([setTimeout]) are separate events of the
    orchestrator.  The builtin [parseFloat] is a parameter, a function from
    strings to numbers; [DecimalReader] gives it on decimal literals. *)

From Stdlib Require Import ZArith QArith Qabs List Sorted Ascii String Bool
  Lia Lqa.
From Stdlib Require Import Floats.
From Stdlib Require Uint63.
Import ListNotations.

Local Open Scope Q_scope.

(** ** JavaScript helpers on numbers and arrays *)

(** [a < b] as a boolean. *)
Definition Qltb (a b : Q) : bool := negb (Qle_bool b a).

(** [Math.max] and [Math.min] of two numbers. *)
Definition qmax (a b : Q) : Q := if Qle_bool a b then b else a.
Definition qmin (a b : Q) : Q := if Qle_bool a b then a else b.

(** [arr.reduce((sum, v) => sum + v, 0)]. *)
Definition sum (l : list Q) : Q := fold_left Qplus l 0.

(** [arr.length] as a number. *)
Definition len {A : Type} (l : list A) : Z := Z.of_nat (List.length l).

(** [arr.push(x)]. *)
Definition push {A : Type} (l : list A) (x : A) : list A := l ++ [x].

(** [arr.shift()], the array that is left. *)
Definition shift {A : Type} (l : list A) : list A := tl l.

(** [arr.slice(-n)]. *)
Definition slice_last {A : Type} (n : nat) (l : list A) : list A :=
  skipn (List.length l - n) l.

(** [x || 0] on a number. *)
Definition or_zero (x : Q) : Q := if Qeq_bool x 0 then 0 else x.

(** A number that can be [NaN]: what [parseFloat] returns, and what is
    stored from it unguarded. *)
Inductive number := NaN | Fin (q : Q).

Coercion Fin : Q >-> number.

(** [Math.abs(x)] and [x - y]: [NaN] when an operand is. *)
Definition nabs (x : number) : number :=
  match x with Fin q => Fin (Qabs q) | NaN => NaN end.

Definition nsub (x y : number) : number :=
  match x, y with Fin a, Fin b => Fin (a - b) | _, _ => NaN end.

(** [x < y] and [x === y]: false when an operand is [NaN]. *)
Definition nltb (x y : number) : bool :=
  match x, y with Fin a, Fin b => Qltb a b | _, _ => false end.

Definition neqb (x y : number) : bool :=
  match x, y with Fin a, Fin b => Qeq_bool a b | _, _ => false end.

(** [x || 0]: [NaN] is falsy. *)
Definition nor_zero (x : number) : Q :=
  match x with Fin q => or_zero q | NaN => 0 end.

(** ** Shared types (types.ts) *)

Record Tick := mkTick {
  timestamp : Z;
  price : Q;
  size : option Q
}.

Record SyntheticBar := mkBar {
  startTime : Z;
  endTime : Z;
  open : Q;
  high : Q;
  low : Q;
  close : Q;
  volume : Q
}.

Inductive PositionSide := long | short | flat.

Definition PositionSide_eqb (a b : PositionSide) : bool :=
  match a, b with
  | long, long | short, short | flat, flat => true
  | _, _ => false
  end.

Record IndicatorSnapshot := mkIndicators {
  ind_emaFast : Q;
  ind_emaMid : Q;
  ind_emaSlow : Q;
  ind_rsi : Q
}.

Record TrendSnapshot := mkTrend {
  bullStack : bool;
  bearStack : bool;
  longLook : bool;
  shortLook : bool;
  longTrig : bool;
  shortTrig : bool
}.

(** A non-null [StrategySignal]; [null] is [None] at the use sites.  The
    field [type] is "long" or "short". *)
Record StrategySignal := mkSignal {
  type : PositionSide;
  reason : string;
  system : option string;
  indicators : IndicatorSnapshot;
  trend : TrendSnapshot
}.

Record PositionState := mkPosition {
  pos_side : PositionSide;
  pos_size : number;
  entryPrice : option Q;
  openedAt : option Z
}.

Record TradeInstruction := mkOrder {
  ord_side : PositionSide;
  ord_size : Q;
  ord_leverage : Q;
  ord_price : Q;
  signalReason : string;
  ord_timestamp : Z
}.

(** ** indicators/ema.ts *)

Module EMA.

Record t := mk {
  smoothing : Q;
  length : Z;
  initialized : bool;
  current : Q
}.

(** The constructor; [None] is the thrown error. *)
Definition new (length : Z) : option t :=
  if (length <=? 0)%Z then None
  else Some (mk (2 / (inject_Z length + 1)) length false 0).

Definition update (e : t) (value : Q) : t * Q :=
  if negb (initialized e) then
    (mk (smoothing e) (length e) true value, value)
  else
    let c := value * smoothing e + current e * (1 - smoothing e) in
    (mk (smoothing e) (length e) true c, c).

(** The getter [value]; [None] is the thrown error. *)
Definition value (e : t) : option Q :=
  if negb (initialized e) then None else Some (current e).

Definition isReady (e : t) : bool := initialized e.

End EMA.

(** ** indicators/rsi.ts *)

Module RSI.

Record t := mk {
  avgGain : Q;
  avgLoss : Q;
  prevValue : option Q;
  length : Z;
  alpha : Q;
  ready : bool;
  rsiValue : option Q;
  updateCount : Z
}.

Definition new (length : Z) : option t :=
  if (length <? 2)%Z then None
  else Some (mk 0 0 None length (1 / inject_Z length) false None 0).

(** The value computed from the two running averages (the "edge cases" and
    the general formula at the end of [update]). *)
Definition rsiOf (g l : Q) : Q :=
  if Qeq_bool l 0 then (if Qltb 0 g then 100 else 50)
  else if Qeq_bool g 0 then 0
  else 100 - 100 / (1 + g / l).

Definition update (r : t) (value : Q) : t * Q :=
  match prevValue r with
  | None =>
      (mk (avgGain r) (avgLoss r) (Some value) (length r) (alpha r)
          (ready r) (Some 50) 1, 50)
  | Some prev =>
      let delta := value - prev in
      let gain := qmax delta 0 in
      let loss := qmax (- delta) 0 in
      let n := (updateCount r + 1)%Z in
      let g :=
        if (n <=? length r)%Z
        then (avgGain r * inject_Z (n - 1) + gain) / inject_Z n
        else avgGain r * (1 - alpha r) + gain * alpha r in
      let l :=
        if (n <=? length r)%Z
        then (avgLoss r * inject_Z (n - 1) + loss) / inject_Z n
        else avgLoss r * (1 - alpha r) + loss * alpha r in
      let rdy := if negb (ready r) && (length r <=? n)%Z then true else ready r in
      (mk g l (Some value) (length r) (alpha r) rdy (Some (rsiOf g l)) n,
       rsiOf g l)
  end.

Definition isReady (r : t) : bool := ready r.
Definition value (r : t) : option Q := rsiValue r.

End RSI.

(** ** indicators/rsi.ts, in double precision

    The same class on binary64 numbers, with the rounding, the [NaN] and
    the infinities of the arithmetic the code runs on. *)

Module RSIDouble.

(** A counter as a number. *)
Definition of_count (n : Z) : float := PrimFloat.of_uint63 (Uint63.of_Z n).

(** [Math.max] of two numbers: [NaN] when one of them is, and [+0] above
    [-0]. *)
Definition fmax (a b : float) : float :=
  if PrimFloat.is_nan a || PrimFloat.is_nan b then PrimFloat.nan
  else if PrimFloat.ltb a b then b
  else if PrimFloat.ltb b a then a
  else if PrimFloat.is_zero a then PrimFloat.add a b
  else a.

Record t := mk {
  avgGain : float;
  avgLoss : float;
  prevValue : option float;
  length : Z;
  alpha : float;
  ready : bool;
  rsiValue : option float;
  updateCount : Z
}.

Definition new (length : Z) : option t :=
  if (length <? 2)%Z then None
  else Some (mk 0%float 0%float None length (1 / of_count length)%float
                false None 0).

Definition update (r : t) (value : float) : t * float :=
  match prevValue r with
  | None =>
      (mk (avgGain r) (avgLoss r) (Some value) (length r) (alpha r)
          (ready r) (Some 50%float) 1, 50%float)
  | Some prev =>
      let delta := (value - prev)%float in
      let gain := fmax delta 0%float in
      let loss := fmax (- delta)%float 0%float in
      let n := (updateCount r + 1)%Z in
      let g :=
        if (n <=? length r)%Z
        then ((avgGain r * of_count (n - 1) + gain) / of_count n)%float
        else (avgGain r * (1 - alpha r) + gain * alpha r)%float in
      let l :=
        if (n <=? length r)%Z
        then ((avgLoss r * of_count (n - 1) + loss) / of_count n)%float
        else (avgLoss r * (1 - alpha r) + loss * alpha r)%float in
      let rdy := if negb (ready r) && (length r <=? n)%Z then true else ready r in
      let v :=
        if PrimFloat.eqb l 0%float
        then (if PrimFloat.ltb 0%float g then 100%float else 50%float)
        else if PrimFloat.eqb g 0%float then 0%float
        else (100 - 100 / (1 + g / l))%float in
      (mk g l (Some value) (length r) (alpha r) rdy (Some v) n, v)
  end.

End RSIDouble.

(** ** indicators/adx.ts *)

Module ADX.

Record t := mk {
  length : Z;
  trValues : list Q;
  plusDMValues : list Q;
  minusDMValues : list Q;
  dxValues : list Q;
  prevHigh : option Q;
  prevLow : option Q;
  prevClose : option Q;
  prevATR : option Q;
  prevPlusDI : option Q;
  prevMinusDI : option Q;
  adxValue : option Q;
  updateCount : Z
}.

Definition new (length : Z) : option t :=
  if (length <? 2)%Z then None
  else Some (mk length [] [] [] [] None None None None None None None 0).

(** [this.prevATR!] and its siblings: the non-null assertion is erased at
    run time, and [null] in arithmetic counts as 0. *)
Definition bang (x : option Q) : Q := match x with Some v => v | None => 0 end.

Definition update (a : t) (high low close : Q) : t * option Q :=
  match prevHigh a, prevLow a, prevClose a with
  | Some pH, Some pL, Some pC =>
      let n := (updateCount a + 1)%Z in
      let tr := qmax (qmax (high - low) (Qabs (high - pC))) (Qabs (low - pC)) in
      let plusDM :=
        if Qltb pH high && Qltb pL low then qmax (high - pH) 0 else 0 in
      let minusDM :=
        if Qltb high pH && Qltb low pL then qmax (pL - low) 0 else 0 in
      let trs0 := push (trValues a) tr in
      let pdm0 := push (plusDMValues a) plusDM in
      let mdm0 := push (minusDMValues a) minusDM in
      let over := (length a <? len trs0)%Z in
      let trs := if over then shift trs0 else trs0 in
      let pdm := if over then shift pdm0 else pdm0 in
      let mdm := if over then shift mdm0 else mdm0 in
      if (n <? length a + 1)%Z then
        (mk (length a) trs pdm mdm (dxValues a) (Some high) (Some low)
            (Some close) (prevATR a) (prevPlusDI a) (prevMinusDI a)
            (adxValue a) n, None)
      else
        let first := (n =? length a + 1)%Z in
        let alpha := 1 / inject_Z (length a) in
        let atr :=
          if first then sum trs / inject_Z (length a)
          else bang (prevATR a) * (1 - alpha) + tr * alpha in
        let plusDI :=
          if first then sum pdm / inject_Z (length a) / atr * 100
          else (bang (prevPlusDI a) / 100 * bang (prevATR a) * (1 - alpha)
                + plusDM * alpha) / atr * 100 in
        let minusDI :=
          if first then sum mdm / inject_Z (length a) / atr * 100
          else (bang (prevMinusDI a) / 100 * bang (prevATR a) * (1 - alpha)
                + minusDM * alpha) / atr * 100 in
        let dx := Qabs (plusDI - minusDI) / (plusDI + minusDI) * 100 in
        let dxs := if first then push (dxValues a) dx else dxValues a in
        let adx :=
          if first then
            (if (length a <=? len dxs)%Z
             then Some (sum dxs / inject_Z (len dxs))
             else adxValue a)
          else
            match adxValue a with
            | Some v => Some (v * (1 - alpha) + dx * alpha)
            | None => None
            end in
        (mk (length a) trs pdm mdm dxs (Some high) (Some low) (Some close)
            (Some atr) (Some plusDI) (Some minusDI) adx n, adx)
  | _, _, _ =>
      (mk (length a) (trValues a) (plusDMValues a) (minusDMValues a)
          (dxValues a) (Some high) (Some low) (Some close) (prevATR a)
          (prevPlusDI a) (prevMinusDI a) (adxValue a) (updateCount a), None)
  end.

Definition value (a : t) : option Q := adxValue a.

Definition isReady (a : t) : bool :=
  match adxValue a with Some _ => true | None => false end.

Definition isTrending (a : t) (threshold : Q) : bool :=
  match adxValue a with Some v => Qltb threshold v | None => false end.

End ADX.

(** ** virtualBarBuilder.ts *)

Module VirtualBarBuilder.

Record t := mk {
  bar : option SyntheticBar;
  timeframeMs : Z
}.

Definition new (timeframeMs : Z) : option t :=
  if (timeframeMs <=? 0)%Z then None else Some (mk None timeframeMs).

Definition createBar (tick : Tick) : SyntheticBar :=
  mkBar (timestamp tick) (timestamp tick) (price tick) (price tick)
        (price tick) (price tick)
        (match size tick with Some s => s | None => 0 end).

(** [if (tick.size)]: defined and not zero. *)
Definition truthy_size (tick : Tick) : option Q :=
  match size tick with
  | Some s => if Qeq_bool s 0 then None else Some s
  | None => None
  end.

(** [pushTick]: the builder afterwards and [closedBar]; [currentBar] is the
    builder's [bar] afterwards. *)
Definition pushTick (b : t) (tick : Tick) : t * option SyntheticBar :=
  match bar b with
  | None => (mk (Some (createBar tick)) (timeframeMs b), None)
  | Some cur =>
      let elapsed := (timestamp tick - startTime cur)%Z in
      if (timeframeMs b <=? elapsed)%Z then
        (mk (Some (createBar tick)) (timeframeMs b), Some cur)
      else
        let vol := match truthy_size tick with
                   | Some s => volume cur + s
                   | None => volume cur
                   end in
        (mk (Some (mkBar (startTime cur) (timestamp tick) (open cur)
                         (qmax (high cur) (price tick))
                         (qmin (low cur) (price tick))
                         (price tick) vol))
            (timeframeMs b), None)
  end.

(** Feeding a sequence of ticks; the closed bars in the order of emission. *)
Fixpoint feed (b : t) (ticks : list Tick) : t * list SyntheticBar :=
  match ticks with
  | [] => (b, [])
  | tk :: rest =>
      let '(b1, closed) := pushTick b tk in
      let '(b2, bars) := feed b1 rest in
      (b2, match closed with Some c => c :: bars | None => bars end)
  end.

End VirtualBarBuilder.

(** ** watermellonEngine.ts *)

Module WatermellonEngine.

Record WatermellonConfig := mkConfig {
  timeframeMs : Z;
  emaFastLen : Z;
  emaMidLen : Z;
  emaSlowLen : Z;
  rsiLength : Z;
  rsiMinLong : Q;
  rsiMaxShort : Q
}.

Record t := mk {
  config : WatermellonConfig;
  emaFast : EMA.t;
  emaMid : EMA.t;
  emaSlow : EMA.t;
  rsi : RSI.t;
  lastLongLook : bool;
  lastShortLook : bool
}.

Definition new (c : WatermellonConfig) : option t :=
  match EMA.new (emaFastLen c), EMA.new (emaMidLen c),
        EMA.new (emaSlowLen c), RSI.new (rsiLength c) with
  | Some f, Some m, Some s, Some r => Some (mk c f m s r false false)
  | _, _, _, _ => None
  end.

Definition update (e : t) (closePrice : Q) : t * option StrategySignal :=
  let '(f, emaFastValue) := EMA.update (emaFast e) closePrice in
  let '(m, emaMidValue) := EMA.update (emaMid e) closePrice in
  let '(s, emaSlowValue) := EMA.update (emaSlow e) closePrice in
  let '(r, rsiValue) := RSI.update (rsi e) closePrice in
  let ind := mkIndicators emaFastValue emaMidValue emaSlowValue rsiValue in
  let bull := Qltb emaMidValue emaFastValue && Qltb emaSlowValue emaMidValue in
  let bear := Qltb emaFastValue emaMidValue && Qltb emaMidValue emaSlowValue in
  let lLook := bull && Qltb (rsiMinLong (config e)) rsiValue in
  let sLook := bear && Qltb rsiValue (rsiMaxShort (config e)) in
  let lTrig := lLook && negb (lastLongLook e) in
  let sTrig := sLook && negb (lastShortLook e) in
  let e' := mk (config e) f m s r lLook sLook in
  let tr := mkTrend bull bear lLook sLook lTrig sTrig in
  if lTrig then (e', Some (mkSignal long "long-trigger" None ind tr))
  else if sTrig then (e', Some (mkSignal short "short-trigger" None ind tr))
  else (e', None).

End WatermellonEngine.

(** ** peachHybridEngine.ts *)

Module PeachHybridEngine.

Record PeachV1Config := mkV1 {
  emaFastLen : Z;
  emaMidLen : Z;
  emaSlowLen : Z;
  emaMicroFastLen : Z;
  emaMicroSlowLen : Z;
  rsiLength : Z;
  rsiMinLong : Q;
  rsiMaxShort : Q;
  minBarsBetween : Z;
  minMovePercent : Q
}.

Record PeachV2Config := mkV2 {
  v2_emaFastLen : Z;
  v2_emaMidLen : Z;
  v2_emaSlowLen : Z;
  rsiMomentumThreshold : Q;
  volumeLookback : Z;
  volumeMultiplier : Q;
  exitVolumeMultiplier : Q
}.

Record PeachConfig := mkConfig {
  timeframeMs : Z;
  v1 : PeachV1Config;
  v2 : PeachV2Config
}.

Record t := mk {
  config : PeachConfig;
  v1EmaFast : EMA.t;
  v1EmaMid : EMA.t;
  v1EmaSlow : EMA.t;
  v1EmaMicroFast : EMA.t;
  v1EmaMicroSlow : EMA.t;
  v1Rsi : RSI.t;
  v1LastLongLook : bool;
  v1LastShortLook : bool;
  v1LastLongPrice : Q;
  v1LastShortPrice : Q;
  v1BarsSinceLastSignal : Z;
  v2EmaFast : EMA.t;
  v2EmaMid : EMA.t;
  v2EmaSlow : EMA.t;
  v2Rsi : RSI.t;
  v2RsiHistory : list Q;
  volumeHistory : list Q;
  adx : ADX.t;
  position : option PositionSide
}.

Definition new (c : PeachConfig) : option t :=
  match EMA.new (emaFastLen (v1 c)), EMA.new (emaMidLen (v1 c)),
        EMA.new (emaSlowLen (v1 c)), EMA.new (emaMicroFastLen (v1 c)),
        EMA.new (emaMicroSlowLen (v1 c)), RSI.new (rsiLength (v1 c)),
        EMA.new (v2_emaFastLen (v2 c)), EMA.new (v2_emaMidLen (v2 c)),
        EMA.new (v2_emaSlowLen (v2 c)), RSI.new 14, ADX.new 14 with
  | Some f, Some m, Some s, Some mf, Some ms, Some r,
    Some f2, Some m2, Some s2, Some r2, Some a =>
      Some (mk c f m s mf ms r false false 0 0 0 f2 m2 s2 r2 [] [] a None)
  | _, _, _, _, _, _, _, _, _, _, _ => None
  end.

(** The part of the engine that [checkV1System] reads and writes. *)
Definition setV1 (e : t) (ll sl : bool) (lp sp : Q) (bars : Z) : t :=
  mk (config e) (v1EmaFast e) (v1EmaMid e) (v1EmaSlow e) (v1EmaMicroFast e)
     (v1EmaMicroSlow e) (v1Rsi e) ll sl lp sp bars (v2EmaFast e) (v2EmaMid e)
     (v2EmaSlow e) (v2Rsi e) (v2RsiHistory e) (volumeHistory e) (adx e)
     (position e).

(** [RSI.update] returns a number, never [null]; the engine's [null] checks
    on an RSI value are kept, on an option that is always [Some].

    The local constants of [checkV1System], by name. *)
Definition bullStackOf (emaFast emaMid emaSlow : Q) : bool :=
  Qltb emaMid emaFast && Qltb emaSlow emaMid.

Definition bearStackOf (emaFast emaMid emaSlow : Q) : bool :=
  Qltb emaFast emaMid && Qltb emaMid emaSlow.

Definition longLookOf (c : PeachV1Config)
    (emaFast emaMid emaSlow emaMicroFast emaMicroSlow rsi : Q) : bool :=
  bullStackOf emaFast emaMid emaSlow && Qltb emaMicroSlow emaMicroFast
  && Qltb (rsiMinLong c) rsi.

Definition shortLookOf (c : PeachV1Config)
    (emaFast emaMid emaSlow emaMicroFast emaMicroSlow rsi : Q) : bool :=
  bearStackOf emaFast emaMid emaSlow && Qltb emaMicroFast emaMicroSlow
  && Qltb rsi (rsiMaxShort c).

(** [movePercent >= minMovePercent] against one stamped entry price. *)
Definition moveMet (c : PeachV1Config) (price last : Q) : bool :=
  Qle_bool (minMovePercent c) (Qabs ((price - last) / last) * 100).

Definition priceMoveMet (e : t) (price : Q) : bool :=
  let c := v1 (config e) in
  let met1 :=
    if Qltb 0 (v1LastLongPrice e) then moveMet c price (v1LastLongPrice e)
    else true in
  if Qltb 0 (v1LastShortPrice e)
  then met1 && moveMet c price (v1LastShortPrice e)
  else met1.

Definition checkV1System (e : t)
    (price emaFast emaMid emaSlow emaMicroFast emaMicroSlow : Q)
    (rsi : option Q) : t * option StrategySignal :=
  match rsi with
  | None => (e, None)
  | Some rsi =>
      let c := v1 (config e) in
      let bull := bullStackOf emaFast emaMid emaSlow in
      let bear := bearStackOf emaFast emaMid emaSlow in
      let lLook :=
        longLookOf c emaFast emaMid emaSlow emaMicroFast emaMicroSlow rsi in
      let sLook :=
        shortLookOf c emaFast emaMid emaSlow emaMicroFast emaMicroSlow rsi in
      if (v1BarsSinceLastSignal e <? minBarsBetween c)%Z then (e, None)
      else if negb (priceMoveMet e price) then (e, None)
      else
        let lTrig := lLook && negb (v1LastLongLook e) in
        let sTrig := sLook && negb (v1LastShortLook e) in
        let ind := mkIndicators emaFast emaMid emaSlow rsi in
        let tr := mkTrend bull bear lLook sLook lTrig sTrig in
        if lTrig then
          (setV1 e lLook sLook price (v1LastShortPrice e) 0,
           Some (mkSignal long "v1-long" (Some "v1"%string) ind tr))
        else if sTrig then
          (setV1 e lLook sLook (v1LastLongPrice e) price 0,
           Some (mkSignal short "v1-short" (Some "v1"%string) ind tr))
        else
          (setV1 e lLook sLook (v1LastLongPrice e) (v1LastShortPrice e)
                 (v1BarsSinceLastSignal e), None)
  end.

(** [checkV2System] reads the engine and changes nothing. *)
Definition checkV2System (e : t) (price emaFast emaMid emaSlow : Q)
    (rsi : option Q) (volume barOpen barClose : Q) : option StrategySignal :=
  match rsi with
  | None => None
  | Some rsi =>
      if (len (v2RsiHistory e) <? 2)%Z then None
      else
        let rsiMomentum :=
          last (v2RsiHistory e) 0 - hd 0 (v2RsiHistory e) in
        let rsiSurge :=
          Qle_bool (rsiMomentumThreshold (v2 (config e))) (Qabs rsiMomentum) in
        let avgVolume :=
          sum (volumeHistory e) / inject_Z (len (volumeHistory e)) in
        let volumeSpike :=
          Qle_bool (avgVolume * volumeMultiplier (v2 (config e))) volume in
        let volumeColor := Qltb barOpen barClose in
        let emaBullish := Qltb emaMid emaFast && Qltb emaSlow emaMid in
        let emaBearish := Qltb emaFast emaMid && Qltb emaMid emaSlow in
        let ind := mkIndicators emaFast emaMid emaSlow rsi in
        if rsiSurge && Qltb 0 rsiMomentum && volumeSpike && volumeColor
           && emaBullish then
          Some (mkSignal long "v2-long" (Some "v2"%string) ind
                  (mkTrend emaBullish emaBearish true false true false))
        else if rsiSurge && Qltb rsiMomentum 0 && volumeSpike
                && negb volumeColor && emaBearish then
          Some (mkSignal short "v2-short" (Some "v2"%string) ind
                  (mkTrend emaBullish emaBearish false true false true))
        else None
  end.

Definition update (e : t) (bar : SyntheticBar) : t * option StrategySignal :=
  let closePrice := close bar in
  let vol := volume bar in
  let '(f1, v1EmaFastV) := EMA.update (v1EmaFast e) closePrice in
  let '(m1, v1EmaMidV) := EMA.update (v1EmaMid e) closePrice in
  let '(s1, v1EmaSlowV) := EMA.update (v1EmaSlow e) closePrice in
  let '(mf, v1EmaMicroFastV) := EMA.update (v1EmaMicroFast e) closePrice in
  let '(ms, v1EmaMicroSlowV) := EMA.update (v1EmaMicroSlow e) closePrice in
  let '(r1, v1RsiV) := RSI.update (v1Rsi e) closePrice in
  let '(f2, v2EmaFastV) := EMA.update (v2EmaFast e) closePrice in
  let '(m2, v2EmaMidV) := EMA.update (v2EmaMid e) closePrice in
  let '(s2, v2EmaSlowV) := EMA.update (v2EmaSlow e) closePrice in
  let '(r2, v2RsiV) := RSI.update (v2Rsi e) closePrice in
  let '(a, _) := ADX.update (adx e) (high bar) (low bar) closePrice in
  let h0 := push (v2RsiHistory e) v2RsiV in
  let h := if (2 <? len h0)%Z then shift h0 else h0 in
  let vh0 := push (volumeHistory e) vol in
  let maxVolumeHistory := Z.max (volumeLookback (v2 (config e))) 10 in
  let vh := if (maxVolumeHistory <? len vh0)%Z then shift vh0 else vh0 in
  let e1 :=
    mk (config e) f1 m1 s1 mf ms r1 (v1LastLongLook e) (v1LastShortLook e)
       (v1LastLongPrice e) (v1LastShortPrice e)
       (v1BarsSinceLastSignal e + 1)%Z f2 m2 s2 r2 h vh a (position e) in
  let '(e2, v1Signal) :=
    checkV1System e1 closePrice v1EmaFastV v1EmaMidV v1EmaSlowV
                  v1EmaMicroFastV v1EmaMicroSlowV (Some v1RsiV) in
  match v1Signal with
  | Some sg => (e2, Some sg)
  | None =>
      (e2, checkV2System e2 closePrice v2EmaFastV v2EmaMidV v2EmaSlowV
                         (Some v2RsiV) vol (open bar) (close bar))
  end.

Definition setPosition (e : t) (side : PositionSide) : t :=
  mk (config e) (v1EmaFast e) (v1EmaMid e) (v1EmaSlow e) (v1EmaMicroFast e)
     (v1EmaMicroSlow e) (v1Rsi e) (v1LastLongLook e) (v1LastShortLook e)
     (v1LastLongPrice e) (v1LastShortPrice e) (v1BarsSinceLastSignal e)
     (v2EmaFast e) (v2EmaMid e) (v2EmaSlow e) (v2Rsi e) (v2RsiHistory e)
     (volumeHistory e) (adx e) (Some side).

Record ExitDetails := mkDetails {
  d_rsiMomentum : Q;
  d_volume : Q;
  d_avgVolume : Q;
  d_volumeMultiplier : Q;
  d_recentRSI : list Q;
  d_adverseRSI : bool;
  d_position : PositionSide
}.

Record ExitCheck := mkExit {
  shouldExit : bool;
  exit_reason : string;
  details : option ExitDetails
}.

Definition noExit : ExitCheck := mkExit false EmptyString None.

Definition checkExitConditions (e : t) (bar : SyntheticBar) : ExitCheck :=
  match position e with
  | None | Some flat => noExit
  | Some side =>
      let vol := volume bar in
      let avgVolume :=
        if (0 <? len (volumeHistory e))%Z
        then sum (volumeHistory e) / inject_Z (len (volumeHistory e))
        else vol in
      if (3 <=? len (v2RsiHistory e))%Z then
        let recentRSI := slice_last 3 (v2RsiHistory e) in
        let rsiMomentum := Qabs (last recentRSI 0 - hd 0 recentRSI) in
        let volMult := if Qltb 0 avgVolume then vol / avgVolume else 1 in
        let rsiFlattening := Qltb rsiMomentum 2 in
        let volumeDrop := Qltb volMult (exitVolumeMultiplier (v2 (config e))) in
        let adverseRSI :=
          match side with
          | long => Qltb (last recentRSI 0) (hd 0 recentRSI)
          | short => Qltb (hd 0 recentRSI) (last recentRSI 0)
          | flat => false
          end in
        if (rsiFlattening && volumeDrop) || adverseRSI then
          mkExit true
            (if adverseRSI then "rsi-reversal" else "rsi-flattening-volume-drop")
            (Some (mkDetails rsiMomentum vol avgVolume volMult recentRSI
                             adverseRSI side))
        else noExit
      else noExit
  end.

Definition shouldAllowTrading (e : t) (adxThreshold : Q) : bool :=
  negb (ADX.isReady (adx e)) || ADX.isTrending (adx e) adxThreshold.

End PeachHybridEngine.

(** ** state/positionState.ts *)

Module PositionStateManager.

Record PendingOrder := mkPending {
  po_side : PositionSide;
  po_size : Q;
  po_timestamp : Z
}.

Record LocalPositionState := mkLocal {
  size : number;
  side : PositionSide;
  avgEntry : Q;
  unrealizedPnl : Q;
  lastUpdate : Z;
  orderId : option string;
  pendingOrder : option PendingOrder
}.

Record t := mk {
  state : LocalPositionState;
  reconciliationFailures : Z
}.

Definition maxReconciliationFailures : Z := 2.

(** The field initialisers; [now] is [Date.now()]. *)
Definition new (now : Z) : t := mk (mkLocal 0 flat 0 0 now None None) 0.

(** A [Partial<LocalPositionState>]: the keys that are present. *)
Record Update := mkUpdate {
  u_size : option number;
  u_side : option PositionSide;
  u_avgEntry : option Q;
  u_unrealizedPnl : option Q;
  u_orderId : option string;
  u_pendingOrder : option PendingOrder
}.

Definition orElse {A : Type} (x : option A) (d : A) : A :=
  match x with Some v => v | None => d end.

Definition updateLocalState (m : t) (now : Z) (u : Update) : t :=
  let s := state m in
  mk (mkLocal (orElse (u_size u) (size s)) (orElse (u_side u) (side s))
        (orElse (u_avgEntry u) (avgEntry s))
        (orElse (u_unrealizedPnl u) (unrealizedPnl s)) now
        (match u_orderId u with Some o => Some o | None => orderId s end)
        (match u_pendingOrder u with
         | Some p => Some p
         | None => pendingOrder s
         end))
     (reconciliationFailures m).

(** The argument of [updateFromRest]: the exchange's strings. *)
Record RestState := mkRest {
  positionAmt : string;
  rest_entryPrice : string;
  unrealizedProfit : string
}.

Record Normalized := mkNorm {
  n_size : number;
  n_side : PositionSide;
  n_avgEntry : Q;
  n_unrealizedPnl : Q
}.

Definition isFlat (s : PositionSide) : bool := PositionSide_eqb s flat.

Definition reconcile (rest local : Normalized) : bool :=
  let sizeMatch := nltb (nabs (nsub (n_size rest) (n_size local))) (1 # 10000) in
  let sideMatch := PositionSide_eqb (n_side rest) (n_side local) in
  if isFlat (n_side rest) && isFlat (n_side local) then
    sizeMatch && sideMatch
  else
    let entryMatch :=
      Qeq_bool (n_avgEntry rest) 0
      || Qltb (Qabs (n_avgEntry rest - n_avgEntry local) / n_avgEntry rest)
              (1 # 100) in
    sizeMatch && sideMatch && entryMatch.

(** [this.reconciliationFailures = 0; this.state = {...this.state,
    ...restStateNormalized, lastUpdate: Date.now()}]. *)
Definition overwrite (m : t) (now : Z) (r : Normalized) : t :=
  mk (mkLocal (n_size r) (n_side r) (n_avgEntry r) (n_unrealizedPnl r) now
        (orderId (state m)) (pendingOrder (state m)))
     0.

Section WithParseFloat.

(** The builtin [parseFloat] on the strings the exchange sends. *)
Variable parseFloat : string -> number.

Definition normalize (restState : RestState) : Normalized :=
  let sz := parseFloat (positionAmt restState) in
  let sd := if nltb 0 sz then long else if nltb sz 0 then short else flat in
  mkNorm (nabs sz) sd (nor_zero (parseFloat (rest_entryPrice restState)))
         (nor_zero (parseFloat (unrealizedProfit restState))).

Definition updateFromRest (m : t) (now : Z) (restState : RestState) : t * bool :=
  let restStateNormalized := normalize restState in
  let s := state m in
  let localStateNormalized :=
    mkNorm (size s) (side s) (avgEntry s) (unrealizedPnl s) in
  if reconcile restStateNormalized localStateNormalized then
    (overwrite m now restStateNormalized, true)
  else if isFlat (n_side restStateNormalized)
          && negb (isFlat (n_side localStateNormalized)) then
    (overwrite m now restStateNormalized, true)
  else if negb (isFlat (n_side restStateNormalized))
          && isFlat (n_side localStateNormalized) then
    (overwrite m now restStateNormalized, true)
  else
    (mk (state m) (reconciliationFailures m + 1)%Z, false).

End WithParseFloat.

Definition shouldFreezeTrading (m : t) : bool :=
  (maxReconciliationFailures <=? reconciliationFailures m)%Z.

Definition resetReconciliationFailures (m : t) : t := mk (state m) 0.

Definition getState (m : t) : LocalPositionState := state m.

Definition withPending (m : t) (p : option PendingOrder) : t :=
  let s := state m in
  mk (mkLocal (size s) (side s) (avgEntry s) (unrealizedPnl s) (lastUpdate s)
        (orderId s) p)
     (reconciliationFailures m).

Definition clearPendingOrder (m : t) : t := withPending m None.

Definition setPendingOrder (m : t) (order : PendingOrder) : t :=
  withPending m (Some order).

End PositionStateManager.

(** ** execution/orderTracker.ts

    The key [order-<timestamp>] is the timestamp.  The map keeps insertion
    order, as a JavaScript [Map] does. *)

Module OrderTracker.

Record OrderConfirmation := mkConfirmation {
  orderId : Z;
  side : PositionSide;
  size : Q;
  price : Q;
  timestamp : Z;
  confirmed : bool;
  confirmedAt : option Z
}.

Definition t := list (Z * OrderConfirmation).

Fixpoint set (m : t) (k : Z) (v : OrderConfirmation) : t :=
  match m with
  | [] => [(k, v)]
  | (k', v') :: rest =>
      if (k' =? k)%Z then (k, v) :: rest else (k', v') :: set rest k v
  end.

Fixpoint get (m : t) (k : Z) : option OrderConfirmation :=
  match m with
  | [] => None
  | (k', v') :: rest => if (k' =? k)%Z then Some v' else get rest k
  end.

Definition delete (m : t) (k : Z) : t :=
  filter (fun kv => negb (fst kv =? k)%Z) m.

Definition trackOrder (m : t) (order : TradeInstruction) (orderId : Z) : t :=
  set m orderId
      (mkConfirmation orderId (ord_side order) (ord_size order)
         (ord_price order) (ord_timestamp order) false None).

(** The callback of the expiry timer set by [trackOrder]. *)
Definition expire (m : t) (orderId : Z) : t :=
  match get m orderId with
  | Some pending => if negb (confirmed pending) then delete m orderId else m
  | None => m
  end.

Definition confirmOrder (m : t) (now : Z) (orderId : Z) : t * bool :=
  match get m orderId with
  | Some o =>
      (set m orderId
           (mkConfirmation (OrderTracker.orderId o) (side o) (size o) (price o)
              (timestamp o) true (Some now)), true)
  | None => (m, false)
  end.

Definition confirmByPositionChange (m : t) (now : Z) (sd : PositionSide)
    (sz : number) : t :=
  match find (fun kv =>
                negb (confirmed (snd kv))
                && PositionSide_eqb (side (snd kv)) sd
                && nltb (nabs (nsub (size (snd kv)) sz)) (1 # 10000)) m with
  | Some (k, _) => fst (confirmOrder m now k)
  | None => m
  end.

Definition hasPendingOrders (m : t) : bool := (0 <? len m)%Z.

Definition clearOrder (m : t) (orderId : Z) : t := delete m orderId.

Definition clearAll (m : t) : t := [].

End OrderTracker.

(** ** The class TradeStatistics of bot/botRunner.ts *)

Module TradeStatistics.

Record CurrentTrade := mkCurrent {
  c_id : Z;
  c_side : PositionSide;
  c_entryPrice : Q;
  c_entryTime : Z;
  c_size : Q;
  c_leverage : Q
}.

Record TradeRecord := mkTrade {
  id : Z;
  side : PositionSide;
  entryPrice : Q;
  exitPrice : Q;
  entryTime : Z;
  exitTime : Z;
  size : Q;
  pnl : Q;
  pnlPercent : Q;
  reason : string;
  leverage : Q
}.

Record t := mk {
  trades : list TradeRecord;
  currentTrade : option CurrentTrade
}.

Definition new : t := mk [] None.

Definition startTrade (s : t) (now : Z) (sd : PositionSide)
    (entry sz lev : Q) : t :=
  mk (trades s) (Some (mkCurrent now sd entry now sz lev)).

Definition priceDiff (c : CurrentTrade) (exit : Q) : Q :=
  match c_side c with
  | long => exit - c_entryPrice c
  | _ => c_entryPrice c - exit
  end.

Definition calculatePnL (c : CurrentTrade) (exit : Q) : Q :=
  priceDiff c exit * c_size c.

Definition calculatePnLPercent (c : CurrentTrade) (exit : Q) : Q :=
  priceDiff c exit / c_entryPrice c * 100 * c_leverage c.

Definition closeTrade (s : t) (now : Z) (exit : Q) (why : string) : t :=
  match currentTrade s with
  | None => s
  | Some c =>
      mk (push (trades s)
            (mkTrade (c_id c) (c_side c) (c_entryPrice c) exit (c_entryTime c)
               now (c_size c) (calculatePnL c exit)
               (calculatePnLPercent c exit) why (c_leverage c)))
         None
  end.

(** [this.trades.slice(-limit)]; [slice(-0)] is the whole array. *)
Definition getRecentTrades (s : t) (limit : nat) : list TradeRecord :=
  match limit with
  | O => trades s
  | _ => slice_last limit (trades s)
  end.

(** A number that can be [Infinity]. *)
Inductive Ratio := Finite (q : Q) | Infinity.

Record Stats := mkStats {
  totalTrades : Z;
  winningTrades : Z;
  losingTrades : Z;
  winRate : Q;
  totalPnL : Q;
  avgWin : Q;
  avgLoss : Q;
  profitFactor : Ratio;
  maxDrawdown : Q;
  largestWin : Q;
  largestLoss : Q
}.

(** [ts.reduce((sum, t) => sum + t.pnl, 0)]. *)
Definition sumPnl (ts : list TradeRecord) : Q :=
  fold_left (fun sum t => sum + pnl t) ts 0.

(** One round of the drawdown loop of [getStats] on its three variables
    [peak], [maxDrawdown] and [runningPnL]. *)
Definition drawdownStep (acc : Q * Q * Q) (trade : TradeRecord) : Q * Q * Q :=
  let '(peak, maxDrawdown, runningPnL) := acc in
  let runningPnL := runningPnL + pnl trade in
  let peak := if Qltb peak runningPnL then runningPnL else peak in
  let drawdown := peak - runningPnL in
  let maxDrawdown :=
    if Qltb maxDrawdown drawdown then drawdown else maxDrawdown in
  (peak, maxDrawdown, runningPnL).

(** [Math.max(...xs)] and [Math.min(...xs)] on an array that is not empty. *)
Definition maxOf (xs : list Q) : Q :=
  match xs with x :: rest => fold_left qmax rest x | [] => 0 end.

Definition minOf (xs : list Q) : Q :=
  match xs with x :: rest => fold_left qmin rest x | [] => 0 end.

Definition getStats (s : t) : Stats :=
  if (len (trades s) =? 0)%Z then
    mkStats 0 0 0 0 0 0 0 (Finite 0) 0 0 0
  else
    let winning := filter (fun t => Qltb 0 (pnl t)) (trades s) in
    let losing := filter (fun t => Qltb (pnl t) 0) (trades s) in
    let totalPnL := sumPnl (trades s) in
    let avgWin :=
      if (0 <? len winning)%Z then sumPnl winning / inject_Z (len winning)
      else 0 in
    let avgLoss :=
      if (0 <? len losing)%Z then Qabs (sumPnl losing / inject_Z (len losing))
      else 0 in
    let '(_, maxDrawdown, _) := fold_left drawdownStep (trades s) (0, 0, 0) in
    let largestWin :=
      if (0 <? len winning)%Z then maxOf (map pnl winning) else 0 in
    let largestLoss :=
      if (0 <? len losing)%Z then minOf (map pnl losing) else 0 in
    mkStats (len (trades s)) (len winning) (len losing)
      (inject_Z (len winning) / inject_Z (len (trades s)) * 100)
      totalPnL avgWin avgLoss
      (if Qltb 0 avgLoss then
         Finite (avgWin * inject_Z (len winning)
                 / (avgLoss * inject_Z (len losing)))
       else if Qltb 0 avgWin then Infinity else Finite 0)
      maxDrawdown largestWin largestLoss.

End TradeStatistics.

(** ** bot/botRunner.ts

    The emitter is a trace: every [emit] appends to [emitted].  A log entry
    keeps its message (without a leading pictograph) and drops its payload;
    the console and the files written (warm state, trade CSV) are outside the
    model.  The signal key [<type>-<endTime>] is the pair, the order id
    [order-<timestamp>] is the timestamp. *)

Module BotRunner.

Inductive Mode := dry_run | live.

Record RiskConfig := mkRisk {
  maxPositionSize : Q;
  maxLeverage : Q;
  maxFlipsPerHour : Z;
  stopLossPct : option Q;
  takeProfitPct : option Q;
  useStopLoss : option bool;
  emergencyStopLoss : option Q;
  maxPositions : option Z;
  positionSizePct : option Q;
  requireTrendingMarket : option bool;
  adxThreshold : option Q
}.

(** [strategyType] with the [strategy] it selects. *)
Inductive Strategy :=
| watermellon (c : WatermellonEngine.WatermellonConfig)
| peach_hybrid (c : PeachHybridEngine.PeachConfig).

Record AppConfig := mkApp {
  mode : Mode;
  strategy : Strategy;
  risk : RiskConfig
}.

Inductive Engine :=
| Watermellon (e : WatermellonEngine.t)
| Peach (e : PeachHybridEngine.t).

Inductive Emitted :=
| EmitSignal (s : StrategySignal) (b : SyntheticBar)
| EmitPosition (p : PositionState)
| EmitLog (message : string)
| EmitStop.

(** What the executor does with a call: it resolves, rejects with a
    balance-related error, or rejects with another error. *)
Inductive Outcome := Resolved | BalanceError | OtherError.

(** The surroundings of one event: [Date.now()] and the executor. *)
Record Env := mkEnv {
  now : Z;
  enterOutcome : Outcome;
  closeResolves : bool
}.

Definition HOUR_MS : Z := 60 * 60 * 1000.
Definition WARMUP_BARS : Z := 10.
Definition MIN_HOLD_BARS : Z := 6.

Record t := mk {
  config : AppConfig;
  barBuilder : VirtualBarBuilder.t;
  engine : Engine;
  stateManager : PositionStateManager.t;
  orderTracker : OrderTracker.t;
  tradeStats : TradeStatistics.t;
  position : PositionState;
  flipHistory : list Z;
  tradingFrozen : bool;
  freezeUntil : Z;
  processedSignals : list (PositionSide * Z);
  lastBarCloseTime : Z;
  highestPrice : option Q;
  lowestPrice : option Q;
  barCount : Z;
  positionOpenedAt : Z;
  usdtBalance : Q;
  lastBalanceLog : Z;
  emitted : list Emitted
}.

Definition isPeachHybrid (b : t) : bool :=
  match engine b with Peach _ => true | Watermellon _ => false end.

(** Assignments to single fields. *)
Definition with_barBuilder (b : t) (x : VirtualBarBuilder.t) : t :=
  mk (config b) x (engine b) (stateManager b) (orderTracker b) (tradeStats b)
     (position b) (flipHistory b) (tradingFrozen b) (freezeUntil b)
     (processedSignals b) (lastBarCloseTime b) (highestPrice b)
     (lowestPrice b) (barCount b) (positionOpenedAt b) (usdtBalance b)
     (lastBalanceLog b) (emitted b).

Definition with_engine (b : t) (x : Engine) : t :=
  mk (config b) (barBuilder b) x (stateManager b) (orderTracker b)
     (tradeStats b) (position b) (flipHistory b) (tradingFrozen b)
     (freezeUntil b) (processedSignals b) (lastBarCloseTime b)
     (highestPrice b) (lowestPrice b) (barCount b) (positionOpenedAt b)
     (usdtBalance b) (lastBalanceLog b) (emitted b).

Definition with_stateManager (b : t) (x : PositionStateManager.t) : t :=
  mk (config b) (barBuilder b) (engine b) x (orderTracker b) (tradeStats b)
     (position b) (flipHistory b) (tradingFrozen b) (freezeUntil b)
     (processedSignals b) (lastBarCloseTime b) (highestPrice b)
     (lowestPrice b) (barCount b) (positionOpenedAt b) (usdtBalance b)
     (lastBalanceLog b) (emitted b).

Definition with_orderTracker (b : t) (x : OrderTracker.t) : t :=
  mk (config b) (barBuilder b) (engine b) (stateManager b) x (tradeStats b)
     (position b) (flipHistory b) (tradingFrozen b) (freezeUntil b)
     (processedSignals b) (lastBarCloseTime b) (highestPrice b)
     (lowestPrice b) (barCount b) (positionOpenedAt b) (usdtBalance b)
     (lastBalanceLog b) (emitted b).

Definition with_tradeStats (b : t) (x : TradeStatistics.t) : t :=
  mk (config b) (barBuilder b) (engine b) (stateManager b) (orderTracker b) x
     (position b) (flipHistory b) (tradingFrozen b) (freezeUntil b)
     (processedSignals b) (lastBarCloseTime b) (highestPrice b)
     (lowestPrice b) (barCount b) (positionOpenedAt b) (usdtBalance b)
     (lastBalanceLog b) (emitted b).

Definition with_position (b : t) (x : PositionState) : t :=
  mk (config b) (barBuilder b) (engine b) (stateManager b) (orderTracker b)
     (tradeStats b) x (flipHistory b) (tradingFrozen b) (freezeUntil b)
     (processedSignals b) (lastBarCloseTime b) (highestPrice b)
     (lowestPrice b) (barCount b) (positionOpenedAt b) (usdtBalance b)
     (lastBalanceLog b) (emitted b).

Definition with_flipHistory (b : t) (x : list Z) : t :=
  mk (config b) (barBuilder b) (engine b) (stateManager b) (orderTracker b)
     (tradeStats b) (position b) x (tradingFrozen b) (freezeUntil b)
     (processedSignals b) (lastBarCloseTime b) (highestPrice b)
     (lowestPrice b) (barCount b) (positionOpenedAt b) (usdtBalance b)
     (lastBalanceLog b) (emitted b).

Definition with_frozen (b : t) (x : bool) (until : Z) : t :=
  mk (config b) (barBuilder b) (engine b) (stateManager b) (orderTracker b)
     (tradeStats b) (position b) (flipHistory b) x until
     (processedSignals b) (lastBarCloseTime b) (highestPrice b)
     (lowestPrice b) (barCount b) (positionOpenedAt b) (usdtBalance b)
     (lastBalanceLog b) (emitted b).

Definition with_processedSignals (b : t) (x : list (PositionSide * Z)) : t :=
  mk (config b) (barBuilder b) (engine b) (stateManager b) (orderTracker b)
     (tradeStats b) (position b) (flipHistory b) (tradingFrozen b)
     (freezeUntil b) x (lastBarCloseTime b) (highestPrice b) (lowestPrice b)
     (barCount b) (positionOpenedAt b) (usdtBalance b) (lastBalanceLog b)
     (emitted b).

Definition with_barClock (b : t) (lastClose count : Z) : t :=
  mk (config b) (barBuilder b) (engine b) (stateManager b) (orderTracker b)
     (tradeStats b) (position b) (flipHistory b) (tradingFrozen b)
     (freezeUntil b) (processedSignals b) lastClose (highestPrice b)
     (lowestPrice b) count (positionOpenedAt b) (usdtBalance b)
     (lastBalanceLog b) (emitted b).

Definition with_trailing (b : t) (hi lo : option Q) : t :=
  mk (config b) (barBuilder b) (engine b) (stateManager b) (orderTracker b)
     (tradeStats b) (position b) (flipHistory b) (tradingFrozen b)
     (freezeUntil b) (processedSignals b) (lastBarCloseTime b) hi lo
     (barCount b) (positionOpenedAt b) (usdtBalance b) (lastBalanceLog b)
     (emitted b).

Definition with_positionOpenedAt (b : t) (x : Z) : t :=
  mk (config b) (barBuilder b) (engine b) (stateManager b) (orderTracker b)
     (tradeStats b) (position b) (flipHistory b) (tradingFrozen b)
     (freezeUntil b) (processedSignals b) (lastBarCloseTime b)
     (highestPrice b) (lowestPrice b) (barCount b) x (usdtBalance b)
     (lastBalanceLog b) (emitted b).

Definition with_balance (b : t) (bal : Q) (lastLog : Z) : t :=
  mk (config b) (barBuilder b) (engine b) (stateManager b) (orderTracker b)
     (tradeStats b) (position b) (flipHistory b) (tradingFrozen b)
     (freezeUntil b) (processedSignals b) (lastBarCloseTime b)
     (highestPrice b) (lowestPrice b) (barCount b) (positionOpenedAt b) bal
     lastLog (emitted b).

Definition emit (b : t) (e : Emitted) : t :=
  mk (config b) (barBuilder b) (engine b) (stateManager b) (orderTracker b)
     (tradeStats b) (position b) (flipHistory b) (tradingFrozen b)
     (freezeUntil b) (processedSignals b) (lastBarCloseTime b)
     (highestPrice b) (lowestPrice b) (barCount b) (positionOpenedAt b)
     (usdtBalance b) (lastBalanceLog b) (push (emitted b) e).

Definition log (b : t) (message : string) : t := emit b (EmitLog message).

(** The warm state read back by [StatePersistence.load]. *)
Record Saved := mkSaved {
  saved_position : PositionStateManager.LocalPositionState;
  saved_lastBarCloseTime : Z
}.

Definition loadWarmState (b : t) (now : Z) (saved : option Saved) : t :=
  match saved with
  | None => b
  | Some sv =>
      let p := saved_position sv in
      let b1 := with_barClock b (saved_lastBarCloseTime sv) (barCount b) in
      let b2 :=
        with_stateManager b1
          (PositionStateManager.updateLocalState (stateManager b1) now
             (PositionStateManager.mkUpdate
                (Some (PositionStateManager.size p))
                (Some (PositionStateManager.side p))
                (Some (PositionStateManager.avgEntry p))
                (Some (PositionStateManager.unrealizedPnl p))
                (PositionStateManager.orderId p)
                (PositionStateManager.pendingOrder p))) in
      let b3 :=
        with_position b2
          (mkPosition (PositionStateManager.side p)
             (PositionStateManager.size p)
             (if Qltb 0 (PositionStateManager.avgEntry p)
              then Some (PositionStateManager.avgEntry p) else None)
             None) in
      log b3 "Warm state loaded"
  end.

(** The constructor; [None] when a constructor it calls throws. *)
Definition new (c : AppConfig) (now : Z) (saved : option Saved) : option t :=
  let timeframeMs :=
    match strategy c with
    | peach_hybrid pc => PeachHybridEngine.timeframeMs pc
    | watermellon wc => WatermellonEngine.timeframeMs wc
    end in
  match VirtualBarBuilder.new timeframeMs with
  | None => None
  | Some bb =>
      let eng :=
        match strategy c with
        | peach_hybrid pc => option_map Peach (PeachHybridEngine.new pc)
        | watermellon wc => option_map Watermellon (WatermellonEngine.new wc)
        end in
      match eng with
      | None => None
      | Some e =>
          Some (loadWarmState
                  (mk c bb e (PositionStateManager.new now) []
                      TradeStatistics.new (mkPosition flat 0 None None) []
                      false 0 [] 0 None None 0 0 0 0 [])
                  now saved)
      end
  end.

Definition canFlip (b : t) (timestamp : Z) : t * bool :=
  let windowStart := (timestamp - HOUR_MS)%Z in
  let fh := filter (fun t => (windowStart <=? t)%Z) (flipHistory b) in
  (with_flipHistory b fh,
   negb (maxFlipsPerHour (risk (config b)) <=? len fh)%Z).

Definition recordFlip (b : t) (timestamp : Z) : t :=
  with_flipHistory b (push (flipHistory b) timestamp).

Definition engineSetPosition (b : t) (side : PositionSide) : t :=
  match engine b with
  | Peach e => with_engine b (Peach (PeachHybridEngine.setPosition e side))
  | Watermellon _ => b
  end.

Definition logTradeStats (b : t) : t :=
  if (0 <? len (TradeStatistics.trades (tradeStats b)))%Z
  then log b "Trade Statistics" else b.

(** The keys of [meta] that [closePosition] reads. *)
Record Meta := mkMeta {
  meta_close : option Q;
  meta_price : option Q
}.

Definition closePosition (b : t) (env : Env) (reason : string)
    (meta : option Meta) : t :=
  if PositionSide_eqb (pos_side (position b)) flat then b
  else
    let fallback :=
      match entryPrice (position b) with Some p => or_zero p | None => 0 end in
    let exitPrice :=
      match meta with
      | Some m =>
          match meta_close m, meta_price m with
          | Some c, _ => c
          | None, Some p => p
          | None, None => fallback
          end
      | None => fallback
      end in
    if negb (closeResolves env) then b
    else
      let b1 :=
        with_tradeStats b
          (TradeStatistics.closeTrade (tradeStats b) (now env) exitPrice
             reason) in
      let b2 :=
        match TradeStatistics.getRecentTrades (tradeStats b1) 1 with
        | [] => b1
        | _ :: _ => log b1 "Trade Completed"
        end in
      let b3 := engineSetPosition b2 flat in
      let b4 := logTradeStats b3 in
      let b5 := with_trailing b4 None None in
      let b6 := with_position b5 (mkPosition flat 0 None None) in
      emit b6 (EmitPosition (position b6)).

Definition enterPosition (b : t) (env : Env) (side : PositionSide)
    (order : TradeInstruction) : t :=
  let requiredMargin := ord_size order / ord_leverage order in
  let b0 := log b "Checking balance before entering position" in
  let poor :=
    match mode (config b0) with
    | dry_run => false
    | live => Qltb (usdtBalance b0) requiredMargin
    end in
  if poor then log b0 "Insufficient balance to enter position"
  else
    match enterOutcome env with
    | BalanceError => log b0 "Order failed: Insufficient balance"
    | OtherError => b0
    | Resolved =>
        let orderId := ord_timestamp order in
        let b1 :=
          with_orderTracker b0
            (OrderTracker.trackOrder (orderTracker b0) order orderId) in
        let b2 :=
          with_stateManager b1
            (PositionStateManager.setPendingOrder (stateManager b1)
               (PositionStateManager.mkPending side (ord_size order)
                  (ord_timestamp order))) in
        let b3 :=
          with_position b2
            (mkPosition side (ord_size order) (Some (ord_price order))
               (Some (ord_timestamp order))) in
        let b4 := with_positionOpenedAt b3 (barCount b3) in
        let b5 :=
          with_trailing b4
            (match side with long => Some (ord_price order) | _ => None end)
            (match side with short => Some (ord_price order) | _ => None end) in
        let b6 :=
          with_stateManager b5
            (PositionStateManager.updateLocalState (stateManager b5) (now env)
               (PositionStateManager.mkUpdate (Some (Fin (ord_size order)))
                  (Some side) (Some (ord_price order)) None None None)) in
        let b7 := engineSetPosition b6 side in
        let b8 :=
          with_tradeStats b7
            (TradeStatistics.startTrade (tradeStats b7) (now env) side
               (ord_price order) (ord_size order) (ord_leverage order)) in
        let b9 := recordFlip b8 (ord_timestamp order) in
        emit b9 (EmitPosition (position b9))
    end.

Definition opposite (s : PositionSide) : PositionSide :=
  match s with long => short | short => long | flat => flat end.

Definition truthy (x : option bool) : bool :=
  match x with Some v => v | None => false end.

(** [x && x > 0] on an optional number. *)
Definition positive (x : option Q) : option Q :=
  match x with
  | Some v => if Qltb 0 v then Some v else None
  | None => None
  end.

(** The market regime filter at the head of [applySignal]: whether it
    drops the signal. *)
Definition regimeBlocks (b : t) : bool :=
  let r := risk (config b) in
  match engine b with
  | Peach e =>
      truthy (requireTrendingMarket r)
      && negb (PeachHybridEngine.shouldAllowTrading e
                 (match adxThreshold r with Some x => x | None => 25 end))
  | Watermellon _ => false
  end.

Definition applySignal (b : t) (env : Env) (signal : StrategySignal)
    (bar : SyntheticBar) : t :=
  let r := risk (config b) in
  if regimeBlocks b then log b "Skipping signal - market not trending"
  else
    let timestamp := endTime bar in
    let size :=
      match positive (positionSizePct r) with
      | Some pct =>
          let availableForPosition :=
            usdtBalance b * (pct / 100) * (7 # 10) in
          qmin (qmax (qmin (availableForPosition * maxLeverage r)
                           (maxPositionSize r)) 5) 500
      | None => maxPositionSize r
      end in
    let order :=
      mkOrder (type signal) size (maxLeverage r) (close bar) (reason signal)
              timestamp in
    match type signal with
    | flat => b
    | sd =>
        if PositionSide_eqb (pos_side (position b)) sd then b
        else
          let '(b1, ok) := canFlip b timestamp in
          if negb ok then
            log b1 (match sd with
                    | long => "Flip budget exhausted, ignoring long signal"
                    | _ => "Flip budget exhausted, ignoring short signal"
                    end)
          else if PositionSide_eqb (pos_side (position b1)) (opposite sd) then
            let barsHeld := (barCount b1 - positionOpenedAt b1)%Z in
            if (barsHeld <? MIN_HOLD_BARS)%Z then
              log b1 "Minimum hold time not met, ignoring flip signal"
            else
              let b2 :=
                closePosition b1 env
                  (match sd with long => "flip-long" | _ => "flip-short" end)
                  (Some (mkMeta None (Some (close bar)))) in
              enterPosition b2 env sd order
          else enterPosition b1 env sd order
    end.

Definition sideIs (b : t) (s : PositionSide) : bool :=
  PositionSide_eqb (pos_side (position b)) s.

(** [evaluateProtectiveExits] once the position is known to be open at
    [entry]: trailing extrema, trailing stop, emergency stop, stop-loss,
    take-profit, in this order. *)
Definition protectiveExitsAt (b : t) (env : Env) (bar : SyntheticBar)
    (entry : Q) : t :=
  let r := risk (config b) in
  let close := close bar in
  let b1 :=
    match pos_side (position b) with
    | long =>
        match highestPrice b with
        | None => with_trailing b (Some close) (lowestPrice b)
        | Some h =>
            if Qltb h close then with_trailing b (Some close) (lowestPrice b)
            else b
        end
    | short =>
        match lowestPrice b with
        | None => with_trailing b (highestPrice b) (Some close)
        | Some l =>
            if Qltb close l then with_trailing b (highestPrice b) (Some close)
            else b
        end
    | flat => b
    end in
  let trailingStopPct := 1 # 2 in
  let trailingHit :=
    if isPeachHybrid b1 then
      match pos_side (position b1), highestPrice b1, lowestPrice b1 with
      | long, Some h, _ =>
          let currentProfit := (close - entry) / entry * 100 in
          Qltb (1 # 2) currentProfit
          && Qle_bool close (h * (1 - trailingStopPct / 100))
      | short, _, Some l =>
          let currentProfit := (entry - close) / entry * 100 in
          Qltb (1 # 2) currentProfit
          && Qle_bool (l * (1 + trailingStopPct / 100)) close
      | _, _, _ => false
      end
    else false in
  if trailingHit then
    closePosition (log b1 "Trailing stop-loss triggered") env "trailing-stop"
                  (Some (mkMeta (Some close) None))
  else
    let hit (pct : Q) : bool :=
      let threshold :=
        if sideIs b1 long then entry * (1 - pct / 100)
        else entry * (1 + pct / 100) in
      (sideIs b1 long && Qle_bool close threshold)
      || (sideIs b1 short && Qle_bool threshold close) in
    let emergencyHit :=
      match positive (emergencyStopLoss r) with
      | Some pct =>
          (isPeachHybrid b1 || truthy (useStopLoss r)) && hit pct
      | None => false
      end in
    if emergencyHit then
      closePosition (log b1 "Emergency stop-loss triggered") env
                    "emergency-stop" (Some (mkMeta (Some close) None))
    else
      let stopHit :=
        match positive (stopLossPct r) with
        | Some pct => truthy (useStopLoss r) && hit pct
        | None => false
        end in
      if stopHit then
        closePosition (log b1 "Stop-loss triggered") env "stop-loss"
                      (Some (mkMeta (Some close) None))
      else
        match positive (takeProfitPct r) with
        | Some pct =>
            let target :=
              if sideIs b1 long then entry * (1 + pct / 100)
              else entry * (1 - pct / 100) in
            if (sideIs b1 long && Qle_bool target close)
               || (sideIs b1 short && Qle_bool close target) then
              closePosition (log b1 "Take-profit triggered") env "take-profit"
                            (Some (mkMeta (Some close) None))
            else b1
        | None => b1
        end.

(** [!this.position.entryPrice] is true for a missing and for a zero entry
    price. *)
Definition evaluateProtectiveExits (b : t) (env : Env) (bar : SyntheticBar)
    : t :=
  if sideIs b flat then b
  else
    match entryPrice (position b) with
    | None => b
    | Some entry =>
        if Qeq_bool entry 0 then b else protectiveExitsAt b env bar entry
    end.

(** The periodic indicator log of [handleBarClose]. *)
Definition logIndicators (b : t) : t :=
  if (lastBarCloseTime b mod 10 =? 0)%Z then
    match engine b with
    | Peach _ => log b "Peach indicators updated"
    | Watermellon _ => log b "Watermellon indicators updated"
    end
  else b.

(** [handleBarClose] from the engine update on: the engine is fed the bar
    (the hybrid engine) or its close (the trend engine). *)
Definition updateEngine (b : t) (bar : SyntheticBar)
    : t * option StrategySignal :=
  match engine b with
  | Peach e =>
      let '(e', s) := PeachHybridEngine.update e bar in
      (with_engine b (Peach e'), s)
  | Watermellon e =>
      let '(e', s) := WatermellonEngine.update e (close bar) in
      (with_engine b (Watermellon e'), s)
  end.

(** [handleBarClose] from [if (!signal) return] on: deduplication by key,
    the [signal] event, [applySignal]. *)
Definition dispatchSignal (b : t) (env : Env) (bar : SyntheticBar)
    (signal : option StrategySignal) : t :=
  match signal with
  | None => b
  | Some sg =>
      let signalKey := (type sg, endTime bar) in
      if existsb (fun k => PositionSide_eqb (fst k) (fst signalKey)
                           && (snd k =? snd signalKey)%Z)
                 (processedSignals b) then b
      else
        let ps0 := push (processedSignals b) signalKey in
        let ps := if (100 <? len ps0)%Z then shift ps0 else ps0 in
        let b4 := with_processedSignals b ps in
        let b5 := emit b4 (EmitSignal sg bar) in
        let b6 := log b5 "Signal emitted" in
        applySignal b6 env sg bar
  end.

(** The hybrid exit check of [handleBarClose]. *)
Definition exitCheck (b : t) (bar : SyntheticBar)
    : PeachHybridEngine.ExitCheck :=
  match engine b with
  | Peach e =>
      if negb (sideIs b flat)
      then PeachHybridEngine.checkExitConditions e bar
      else PeachHybridEngine.noExit
  | Watermellon _ => PeachHybridEngine.noExit
  end.

Definition handleBarClose (b : t) (env : Env) (bar : SyntheticBar) : t :=
  if (endTime bar <=? lastBarCloseTime b)%Z then b
  else
    let b1 := with_barClock b (endTime bar) (barCount b + 1)%Z in
    if (barCount b1 <=? WARMUP_BARS)%Z then
      let b2 :=
        if (barCount b1 =? 1)%Z then log b1 "Warmup period started" else b1 in
      if (barCount b2 =? WARMUP_BARS)%Z
      then log b2 "Warmup complete - trading enabled" else b2
    else
      let frozenNow := tradingFrozen b1 && (now env <? freezeUntil b1)%Z in
      if frozenNow then log b1 "Skipping signal - trading frozen"
      else
        let b2 :=
          if tradingFrozen b1 then with_frozen b1 false (freezeUntil b1)
          else b1 in
        let exitSignal := exitCheck b2 bar in
        if PeachHybridEngine.shouldExit exitSignal then
          closePosition (log b2 "Peach exit condition triggered") env
            (PeachHybridEngine.exit_reason exitSignal)
            (match PeachHybridEngine.details exitSignal with
             | Some _ => Some (mkMeta None None)
             | None => None
             end)
        else
          let '(b3, signal) := updateEngine b2 bar in
          dispatchSignal (logIndicators b3) env bar signal.

Definition handleTick (b : t) (env : Env) (tick : Tick) : t :=
  let '(bb, closedBar) := VirtualBarBuilder.pushTick (barBuilder b) tick in
  let b1 := with_barBuilder b bb in
  match closedBar with
  | Some bar => handleBarClose (evaluateProtectiveExits b1 env bar) env bar
  | None => b1
  end.

Definition freezeTrading (b : t) (env : Env) (durationMs : Z) : t :=
  log (with_frozen b true (now env + durationMs)%Z)
      "Trading frozen due to reconciliation failures".

(** The callback of the timer set by [freezeTrading]. *)
Definition unfreeze (b : t) : t :=
  let b1 := with_frozen b false (freezeUntil b) in
  let b2 :=
    with_stateManager b1
      (PositionStateManager.resetReconciliationFailures (stateManager b1)) in
  log b2 "Trading unfrozen".

(** The position record handed over by the poller. *)
Record AsterPositionResponse := mkResponse {
  positionAmt : string;
  resp_entryPrice : string;
  unRealizedProfit : string
}.

(** [s || "0"] on a string. *)
Definition or_zero_string (s : string) : string :=
  if String.eqb s EmptyString then "0"%string else s.

Section WithParseFloat.

Variable parseFloat : string -> number.

(** The handler of the poller's [position] event in [startRestPolling]. *)
Definition onRestPosition (b : t) (env : Env)
    (position : AsterPositionResponse) : t :=
  let '(sm, reconciled) :=
    PositionStateManager.updateFromRest parseFloat (stateManager b) (now env)
      (PositionStateManager.mkRest (positionAmt position)
         (or_zero_string (resp_entryPrice position))
         (or_zero_string (unRealizedProfit position))) in
  let b1 := with_stateManager b sm in
  if negb reconciled then
    let b2 := log b1 "State reconciliation failed" in
    if PositionStateManager.shouldFreezeTrading (stateManager b2)
    then freezeTrading b2 env 60000 else b2
  else
    let size := parseFloat (positionAmt position) in
    let b2 :=
      if negb (neqb size 0) then
        let side := if nltb 0 size then long else short in
        with_orderTracker b1
          (OrderTracker.confirmByPositionChange (orderTracker b1) (now env)
             side (nabs size))
      else
        with_stateManager b1
          (PositionStateManager.clearPendingOrder (stateManager b1)) in
    let state := PositionStateManager.getState (stateManager b2) in
    with_position b2
      (mkPosition (PositionStateManager.side state)
         (PositionStateManager.size state)
         (if Qltb 0 (PositionStateManager.avgEntry state)
          then Some (PositionStateManager.avgEntry state) else None)
         (Some (PositionStateManager.lastUpdate state))).

(** The handler of the poller's [balance] event, from the point where the
    USDT record has been looked up and its available balance parsed:
    [None] when the response is empty or has no USDT record. *)
Definition onRestBalance (b : t) (env : Env) (usdt : option Q) : t :=
  match usdt with
  | None => log b "WARNING: USDT balance not found"
  | Some newBalance =>
      let balanceChanged := Qltb (1 # 100) (Qabs (newBalance - usdtBalance b)) in
      if balanceChanged || (lastBalanceLog b =? 0)%Z
         || (60000 <? now env - lastBalanceLog b)%Z then
        with_balance (log b "USDT Balance") newBalance (now env)
      else with_balance b newBalance (lastBalanceLog b)
  end.

(** What can happen to a running orchestrator. *)
Inductive Event :=
| OnTick (env : Env) (tick : Tick)
| OnRestPosition (env : Env) (position : AsterPositionResponse)
| OnRestBalance (env : Env) (usdt : option Q)
| OnUnfreezeTimer
| OnOrderExpiry (orderId : Z).

Definition step (b : t) (ev : Event) : t :=
  match ev with
  | OnTick env tick => handleTick b env tick
  | OnRestPosition env position => onRestPosition b env position
  | OnRestBalance env usdt => onRestBalance b env usdt
  | OnUnfreezeTimer => unfreeze b
  | OnOrderExpiry orderId =>
      with_orderTracker b (OrderTracker.expire (orderTracker b) orderId)
  end.

Definition run (b : t) (evs : list Event) : t := fold_left step evs b.

End WithParseFloat.

(** The entries recorded on the emitter: the [position] events that carry an
    open position, with the time the position was opened at. *)
Definition entryTime (e : Emitted) : option Z :=
  match e with
  | EmitPosition p =>
      if PositionSide_eqb (pos_side p) flat then None else openedAt p
  | _ => None
  end.

Fixpoint entryTimes (es : list Emitted) : list Z :=
  match es with
  | [] => []
  | e :: rest =>
      match entryTime e with
      | Some t => t :: entryTimes rest
      | None => entryTimes rest
      end
  end.

(** *** The executor's calls in flight

    [enterPosition] and [closePosition] are [async] and none of their
    callers awaits them: a call runs up to its [await], where the request
    has been handed to the executor, and returns; the rest of the method
    runs when the executor's promise settles, after the handler that made
    the call has returned and, with an executor that waits for the
    exchange, possibly after later ticks.  The definitions above run each
    method to its end where it is called, which is the serialised pipeline
    that section 5 of the specification asks for.  The definitions below
    split the two methods at their [await] and keep the calls that have not
    settled next to the orchestrator; their callers are written out again
    on that state.  Calls settle one at a time, in any order. *)

Module Async.

(** A call of the executor that has not settled, with what the rest of the
    calling method reads. *)
Inductive Pending :=
| Entering (side : PositionSide) (order : TradeInstruction)
| Closing (reason : string) (exitPrice : Q).

Record Running := mkRunning {
  bot : t;
  inFlight : list Pending
}.

Definition onBot (r : Running) (b : t) : Running := mkRunning b (inFlight r).

Definition await (r : Running) (p : Pending) : Running :=
  mkRunning (bot r) (push (inFlight r) p).

(** [closePosition] up to [await this.executor.closePosition(reason, meta)]. *)
Definition closePosition (r : Running) (reason : string)
    (meta : option Meta) : Running :=
  let b := bot r in
  if PositionSide_eqb (pos_side (position b)) flat then r
  else
    let fallback :=
      match entryPrice (position b) with Some p => or_zero p | None => 0 end in
    let exitPrice :=
      match meta with
      | Some m =>
          match meta_close m, meta_price m with
          | Some c, _ => c
          | None, Some p => p
          | None, None => fallback
          end
      | None => fallback
      end in
    await r (Closing reason exitPrice).

(** [closePosition] from the [await] on, when the call has resolved. *)
Definition closePositionResumed (b : t) (now : Z) (reason : string)
    (exitPrice : Q) : t :=
  let b1 :=
    with_tradeStats b
      (TradeStatistics.closeTrade (tradeStats b) now exitPrice reason) in
  let b2 :=
    match TradeStatistics.getRecentTrades (tradeStats b1) 1 with
    | [] => b1
    | _ :: _ => log b1 "Trade Completed"
    end in
  let b3 := engineSetPosition b2 flat in
  let b4 := logTradeStats b3 in
  let b5 := with_trailing b4 None None in
  let b6 := with_position b5 (mkPosition flat 0 None None) in
  emit b6 (EmitPosition (position b6)).

(** [enterPosition] up to [await this.executor.enterLong(order)] or
    [enterShort(order)]. *)
Definition enterPosition (r : Running) (side : PositionSide)
    (order : TradeInstruction) : Running :=
  let requiredMargin := ord_size order / ord_leverage order in
  let b0 := log (bot r) "Checking balance before entering position" in
  let poor :=
    match mode (config b0) with
    | dry_run => false
    | live => Qltb (usdtBalance b0) requiredMargin
    end in
  if poor then onBot r (log b0 "Insufficient balance to enter position")
  else await (onBot r b0) (Entering side order).

(** [enterPosition] from the [await] on: the [catch] block when the call was
    rejected, the rest of the method when it resolved. *)
Definition enterPositionResumed (b : t) (now : Z) (outcome : Outcome)
    (side : PositionSide) (order : TradeInstruction) : t :=
  match outcome with
  | BalanceError => log b "Order failed: Insufficient balance"
  | OtherError => b
  | Resolved =>
      let orderId := ord_timestamp order in
      let b1 :=
        with_orderTracker b
          (OrderTracker.trackOrder (orderTracker b) order orderId) in
      let b2 :=
        with_stateManager b1
          (PositionStateManager.setPendingOrder (stateManager b1)
             (PositionStateManager.mkPending side (ord_size order)
                (ord_timestamp order))) in
      let b3 :=
        with_position b2
          (mkPosition side (ord_size order) (Some (ord_price order))
             (Some (ord_timestamp order))) in
      let b4 := with_positionOpenedAt b3 (barCount b3) in
      let b5 :=
        with_trailing b4
          (match side with long => Some (ord_price order) | _ => None end)
          (match side with short => Some (ord_price order) | _ => None end) in
      let b6 :=
        with_stateManager b5
          (PositionStateManager.updateLocalState (stateManager b5) now
             (PositionStateManager.mkUpdate (Some (Fin (ord_size order)))
                (Some side) (Some (ord_price order)) None None None)) in
      let b7 := engineSetPosition b6 side in
      let b8 :=
        with_tradeStats b7
          (TradeStatistics.startTrade (tradeStats b7) now side
             (ord_price order) (ord_size order) (ord_leverage order)) in
      let b9 := recordFlip b8 (ord_timestamp order) in
      emit b9 (EmitPosition (position b9))
  end.

Definition applySignal (r : Running) (signal : StrategySignal)
    (bar : SyntheticBar) : Running :=
  let b := bot r in
  let rk := risk (config b) in
  if regimeBlocks b
  then onBot r (log b "Skipping signal - market not trending")
  else
    let timestamp := endTime bar in
    let size :=
      match positive (positionSizePct rk) with
      | Some pct =>
          let availableForPosition :=
            usdtBalance b * (pct / 100) * (7 # 10) in
          qmin (qmax (qmin (availableForPosition * maxLeverage rk)
                           (maxPositionSize rk)) 5) 500
      | None => maxPositionSize rk
      end in
    let order :=
      mkOrder (type signal) size (maxLeverage rk) (close bar) (reason signal)
              timestamp in
    match type signal with
    | flat => r
    | sd =>
        if PositionSide_eqb (pos_side (position b)) sd then r
        else
          let '(b1, ok) := canFlip b timestamp in
          if negb ok then
            onBot r
              (log b1 (match sd with
                       | long => "Flip budget exhausted, ignoring long signal"
                       | _ => "Flip budget exhausted, ignoring short signal"
                       end))
          else if PositionSide_eqb (pos_side (position b1)) (opposite sd) then
            let barsHeld := (barCount b1 - positionOpenedAt b1)%Z in
            if (barsHeld <? MIN_HOLD_BARS)%Z then
              onBot r
                (log b1 "Minimum hold time not met, ignoring flip signal")
            else
              let r2 :=
                closePosition (onBot r b1)
                  (match sd with long => "flip-long" | _ => "flip-short" end)
                  (Some (mkMeta None (Some (close bar)))) in
              enterPosition r2 sd order
          else enterPosition (onBot r b1) sd order
    end.

Definition protectiveExitsAt (r : Running) (bar : SyntheticBar)
    (entry : Q) : Running :=
  let b := bot r in
  let rk := risk (config b) in
  let close := close bar in
  let b1 :=
    match pos_side (position b) with
    | long =>
        match highestPrice b with
        | None => with_trailing b (Some close) (lowestPrice b)
        | Some h =>
            if Qltb h close then with_trailing b (Some close) (lowestPrice b)
            else b
        end
    | short =>
        match lowestPrice b with
        | None => with_trailing b (highestPrice b) (Some close)
        | Some l =>
            if Qltb close l then with_trailing b (highestPrice b) (Some close)
            else b
        end
    | flat => b
    end in
  let trailingStopPct := 1 # 2 in
  let trailingHit :=
    if isPeachHybrid b1 then
      match pos_side (position b1), highestPrice b1, lowestPrice b1 with
      | long, Some h, _ =>
          let currentProfit := (close - entry) / entry * 100 in
          Qltb (1 # 2) currentProfit
          && Qle_bool close (h * (1 - trailingStopPct / 100))
      | short, _, Some l =>
          let currentProfit := (entry - close) / entry * 100 in
          Qltb (1 # 2) currentProfit
          && Qle_bool (l * (1 + trailingStopPct / 100)) close
      | _, _, _ => false
      end
    else false in
  if trailingHit then
    closePosition (onBot r (log b1 "Trailing stop-loss triggered"))
                  "trailing-stop" (Some (mkMeta (Some close) None))
  else
    let hit (pct : Q) : bool :=
      let threshold :=
        if sideIs b1 long then entry * (1 - pct / 100)
        else entry * (1 + pct / 100) in
      (sideIs b1 long && Qle_bool close threshold)
      || (sideIs b1 short && Qle_bool threshold close) in
    let emergencyHit :=
      match positive (emergencyStopLoss rk) with
      | Some pct =>
          (isPeachHybrid b1 || truthy (useStopLoss rk)) && hit pct
      | None => false
      end in
    if emergencyHit then
      closePosition (onBot r (log b1 "Emergency stop-loss triggered"))
                    "emergency-stop" (Some (mkMeta (Some close) None))
    else
      let stopHit :=
        match positive (stopLossPct rk) with
        | Some pct => truthy (useStopLoss rk) && hit pct
        | None => false
        end in
      if stopHit then
        closePosition (onBot r (log b1 "Stop-loss triggered")) "stop-loss"
                      (Some (mkMeta (Some close) None))
      else
        match positive (takeProfitPct rk) with
        | Some pct =>
            let target :=
              if sideIs b1 long then entry * (1 + pct / 100)
              else entry * (1 - pct / 100) in
            if (sideIs b1 long && Qle_bool target close)
               || (sideIs b1 short && Qle_bool close target) then
              closePosition (onBot r (log b1 "Take-profit triggered"))
                            "take-profit" (Some (mkMeta (Some close) None))
            else onBot r b1
        | None => onBot r b1
        end.

Definition evaluateProtectiveExits (r : Running) (bar : SyntheticBar)
    : Running :=
  if sideIs (bot r) flat then r
  else
    match entryPrice (position (bot r)) with
    | None => r
    | Some entry =>
        if Qeq_bool entry 0 then r else protectiveExitsAt r bar entry
    end.

Definition dispatchSignal (r : Running) (bar : SyntheticBar)
    (signal : option StrategySignal) : Running :=
  match signal with
  | None => r
  | Some sg =>
      let b := bot r in
      let signalKey := (type sg, endTime bar) in
      if existsb (fun k => PositionSide_eqb (fst k) (fst signalKey)
                           && (snd k =? snd signalKey)%Z)
                 (processedSignals b) then r
      else
        let ps0 := push (processedSignals b) signalKey in
        let ps := if (100 <? len ps0)%Z then shift ps0 else ps0 in
        let b4 := with_processedSignals b ps in
        let b5 := emit b4 (EmitSignal sg bar) in
        let b6 := log b5 "Signal emitted" in
        applySignal (onBot r b6) sg bar
  end.

Definition handleBarClose (r : Running) (now : Z) (bar : SyntheticBar)
    : Running :=
  let b := bot r in
  if (endTime bar <=? lastBarCloseTime b)%Z then r
  else
    let b1 := with_barClock b (endTime bar) (barCount b + 1)%Z in
    if (barCount b1 <=? WARMUP_BARS)%Z then
      let b2 :=
        if (barCount b1 =? 1)%Z then log b1 "Warmup period started" else b1 in
      onBot r
        (if (barCount b2 =? WARMUP_BARS)%Z
         then log b2 "Warmup complete - trading enabled" else b2)
    else
      let frozenNow := tradingFrozen b1 && (now <? freezeUntil b1)%Z in
      if frozenNow then onBot r (log b1 "Skipping signal - trading frozen")
      else
        let b2 :=
          if tradingFrozen b1 then with_frozen b1 false (freezeUntil b1)
          else b1 in
        let exitSignal := exitCheck b2 bar in
        if PeachHybridEngine.shouldExit exitSignal then
          closePosition (onBot r (log b2 "Peach exit condition triggered"))
            (PeachHybridEngine.exit_reason exitSignal)
            (match PeachHybridEngine.details exitSignal with
             | Some _ => Some (mkMeta None None)
             | None => None
             end)
        else
          let '(b3, signal) := updateEngine b2 bar in
          dispatchSignal (onBot r (logIndicators b3)) bar signal.

(** Both calls are made before any call that was started settles. *)
Definition handleTick (r : Running) (now : Z) (tick : Tick) : Running :=
  let '(bb, closedBar) :=
    VirtualBarBuilder.pushTick (barBuilder (bot r)) tick in
  let r1 := onBot r (with_barBuilder (bot r) bb) in
  match closedBar with
  | Some bar => handleBarClose (evaluateProtectiveExits r1 bar) now bar
  | None => r1
  end.

(** The promise of the call in flight at position [i] settles at time
    [now]; a rejected [closePosition] is caught by nobody. *)
Definition settle (r : Running) (i : nat) (now : Z) (outcome : Outcome)
    : Running :=
  match nth_error (inFlight r) i with
  | None => r
  | Some p =>
      let others := firstn i (inFlight r) ++ skipn (S i) (inFlight r) in
      match p with
      | Entering side order =>
          mkRunning (enterPositionResumed (bot r) now outcome side order)
                    others
      | Closing reason exitPrice =>
          match outcome with
          | Resolved =>
              mkRunning (closePositionResumed (bot r) now reason exitPrice)
                        others
          | _ => mkRunning (bot r) others
          end
      end
  end.

Section WithParseFloat.

Variable parseFloat : string -> number.

(** A turn of the event loop: an event is handled (of its surroundings
    only the time is read), or a call in flight settles. *)
Inductive Turn :=
| Handle (ev : Event)
| Settle (i : nat) (now : Z) (outcome : Outcome).

Definition turn (r : Running) (tn : Turn) : Running :=
  match tn with
  | Handle (OnTick env tick) => handleTick r (now env) tick
  | Handle ev => onBot r (step parseFloat (bot r) ev)
  | Settle i now outcome => settle r i now outcome
  end.

Definition run (r : Running) (tns : list Turn) : Running :=
  fold_left turn tns r.

End WithParseFloat.

End Async.

End BotRunner.

(** ** The builtin [parseFloat], on decimal literals

    As the language defines it: leading white space is skipped, then the
    longest prefix that is a decimal literal is read (a sign, digits with
    an optional fraction or a fraction alone, an optional exponent), and
    text without such a prefix reads as [NaN].  The value is the literal's,
    without rounding; the literal [Infinity] has no value here and reads as
    [NaN]. *)

Module DecimalReader.

Definition digit (c : Ascii.ascii) : option Z :=
  let n := Z.of_nat (Ascii.nat_of_ascii c) in
  if ((48 <=? n) && (n <=? 57))%Z then Some (n - 48)%Z else None.

Definition whiteSpace (c : Ascii.ascii) : bool :=
  let n := Z.of_nat (Ascii.nat_of_ascii c) in
  ((9 <=? n) && (n <=? 13) || (n =? 32))%Z.

Fixpoint trimStart (s : string) : string :=
  match s with
  | String c rest => if whiteSpace c then trimStart rest else s
  | EmptyString => s
  end.

(** A run of digits: their number so far, how many were read, and what is
    left. *)
Fixpoint digits (s : string) (acc : Z) (count : nat) : Z * nat * string :=
  match s with
  | String c rest =>
      match digit c with
      | Some d => digits rest (acc * 10 + d)%Z (S count)
      | None => (acc, count, s)
      end
  | EmptyString => (acc, count, s)
  end.

(** The exponent part at the head of [s], 0 when there is none. *)
Definition exponent (s : string) : Z :=
  let signed (neg : bool) (t : string) : Z :=
    let '(e, n, _) := digits t 0 0 in
    match n with
    | O => 0%Z
    | S _ => if neg then (- e)%Z else e
    end in
  match s with
  | String c rest =>
      if (Ascii.eqb c "e" || Ascii.eqb c "E")%bool then
        match rest with
        | String "-"%char t => signed true t
        | String "+"%char t => signed false t
        | _ => signed false rest
        end
      else 0%Z
  | EmptyString => 0%Z
  end.

Definition scale (q : Q) (e : Z) : Q :=
  if (0 <=? e)%Z then q * inject_Z (10 ^ e) else q / inject_Z (10 ^ (- e)).

Definition unsigned (s : string) : number :=
  let '(w, nw, rest) := digits s 0 0 in
  match rest with
  | String "."%char frac =>
      let '(f, nf, rest') := digits frac 0 0 in
      match nw, nf with
      | O, O => NaN
      | _, _ =>
          Fin (scale (inject_Z w + inject_Z f / inject_Z (10 ^ Z.of_nat nf))
                     (exponent rest'))
      end
  | _ =>
      match nw with
      | O => NaN
      | S _ => Fin (scale (inject_Z w) (exponent rest))
      end
  end.

Definition parseFloat (s : string) : number :=
  match trimStart s with
  | String "-"%char rest =>
      match unsigned rest with Fin q => Fin (- q) | NaN => NaN end
  | String "+"%char rest => unsigned rest
  | t => unsigned t
  end.

End DecimalReader.

(** ** The class KeyManager

    A key is a string of code units. *)

Module KeyManager.

Definition REDACTED : string := "***REDACTED***".

(** [!key] holds of the empty string, which is shorter than 8 as well. *)
Definition redactKey (key : string) : string :=
  if (String.length key <? 8)%nat then REDACTED
  else
    (substring 0 4 key
     ++ REDACTED
     ++ substring (String.length key - 4) 4 key)%string.

End KeyManager.

(** * Vocabulary of the properties

    Runs of the objects above over input sequences, the predicates the
    theorems are stated with, and the concrete data of the scenarios. *)

(** ** Numbers *)

(** The number [x] is not [NaN] and its value is [q]. *)
Definition value_is (x : number) (q : Q) : Prop :=
  match x with Fin a => a == q | NaN => False end.

(** ** Bars *)

Definition bar_ok (b : SyntheticBar) : Prop :=
  low b <= open b /\ open b <= high b /\
  low b <= close b /\ close b <= high b /\
  0 <= volume b /\ (startTime b <= endTime b)%Z.

Definition tick_ok (tk : Tick) : Prop :=
  0 < price tk /\ match size tk with Some s => 0 <= s | None => True end.

(** Timestamps that never go back, from [t0] on. *)
Fixpoint nondecreasing_from (t0 : Z) (ticks : list Tick) : Prop :=
  match ticks with
  | [] => True
  | tk :: rest =>
      (t0 <= timestamp tk)%Z /\ nondecreasing_from (timestamp tk) rest
  end.

Definition nondecreasing (ticks : list Tick) : Prop :=
  match ticks with
  | [] => True
  | tk :: rest => nondecreasing_from (timestamp tk) rest
  end.

(** Each emitted bar starts no earlier than the one before it ended. *)
Fixpoint consecutive_ok (bars : list SyntheticBar) : Prop :=
  match bars with
  | b1 :: (b2 :: _) as rest =>
      (endTime b1 <= startTime b2)%Z /\ consecutive_ok rest
  | _ => True
  end.

Definition starts_from (t0 : Z) (bars : list SyntheticBar) : Prop :=
  match bars with
  | [] => True
  | b1 :: _ => (t0 <= startTime b1)%Z
  end.

(** ** RSI *)

(** The values returned by successive calls of [update]. *)
Fixpoint RSI_run (r : RSI.t) (xs : list Q) : RSI.t * list Q :=
  match xs with
  | [] => (r, [])
  | x :: rest =>
      let '(r1, out) := RSI.update r x in
      let '(r2, outs) := RSI_run r1 rest in
      (r2, out :: outs)
  end.

Definition in_range (v : Q) : Prop := 0 <= v /\ v <= 100.

(** The double-precision RSI after successive calls of [update]. *)
Definition RSIDouble_run (r : RSIDouble.t) (xs : list float) : RSIDouble.t :=
  fold_left (fun r x => fst (RSIDouble.update r x)) xs r.

(** What every reachable RSI object satisfies. *)
Definition wf (r : RSI.t) : Prop :=
  0 <= RSI.avgGain r /\ 0 <= RSI.avgLoss r /\ (0 <= RSI.updateCount r)%Z /\
  (2 <= RSI.length r)%Z /\ RSI.alpha r = 1 / inject_Z (RSI.length r) /\
  (forall v, RSI.rsiValue r = Some v -> in_range v).

(** ** ADX *)

(** A sample of (high, low, close). *)
Definition HLC : Type := Q * Q * Q.

Definition ADX_step (a : ADX.t) (x : HLC) : ADX.t :=
  let '(h, l, c) := x in fst (ADX.update a h l c).

Definition ADX_run (a : ADX.t) (xs : list HLC) : ADX.t :=
  fold_left ADX_step xs a.

(** The ADX before its value is set: at most the one DX sample of update
    [length + 1] is ever stored. *)
Definition adx_cold (a : ADX.t) : Prop :=
  ADX.adxValue a = None /\ (2 <= ADX.length a)%Z /\
  ((ADX.updateCount a <= ADX.length a)%Z -> ADX.dxValues a = []) /\
  (0 <= ADX.updateCount a)%Z.

(** The previous sample is there. *)
Definition primed (a : ADX.t) : Prop :=
  ADX.prevHigh a <> None /\ ADX.prevLow a <> None /\ ADX.prevClose a <> None.

(** ** The hybrid engine *)

(** Calls a client can make on a hybrid engine. *)
Inductive EngineCall :=
| CallUpdate (bar : SyntheticBar)
| CallSetPosition (side : PositionSide).

Definition engine_call (e : PeachHybridEngine.t) (c : EngineCall)
    : PeachHybridEngine.t :=
  match c with
  | CallUpdate bar => fst (PeachHybridEngine.update e bar)
  | CallSetPosition side => PeachHybridEngine.setPosition e side
  end.

Definition engine_run (e : PeachHybridEngine.t) (cs : list EngineCall)
    : PeachHybridEngine.t := fold_left engine_call cs e.

Definition engine_after (e : PeachHybridEngine.t) (bars : list SyntheticBar)
    : PeachHybridEngine.t :=
  engine_run e (map CallUpdate bars).

(** The reasons of the signals returned bar by bar. *)
Definition engine_signals (e : PeachHybridEngine.t) (bars : list SyntheticBar)
    : list (option string) :=
  snd (fold_left
         (fun acc bar =>
            let '(e1, out) := PeachHybridEngine.update (fst acc) bar in
            (e1, snd acc ++ [option_map reason out]))
         bars (e, [])).

(** [longLook] as [checkV1System] computes it on the bar [update] is
    given. *)
Definition longLookAt (e : PeachHybridEngine.t) (bar : SyntheticBar) : bool :=
  PeachHybridEngine.longLookOf
    (PeachHybridEngine.v1 (PeachHybridEngine.config e))
    (snd (EMA.update (PeachHybridEngine.v1EmaFast e) (close bar)))
    (snd (EMA.update (PeachHybridEngine.v1EmaMid e) (close bar)))
    (snd (EMA.update (PeachHybridEngine.v1EmaSlow e) (close bar)))
    (snd (EMA.update (PeachHybridEngine.v1EmaMicroFast e) (close bar)))
    (snd (EMA.update (PeachHybridEngine.v1EmaMicroSlow e) (close bar)))
    (snd (RSI.update (PeachHybridEngine.v1Rsi e) (close bar))).

(** [longLook] of [checkV1System] on the indicator values the engine holds,
    which are the values [update] hands over. *)
Definition v1LongLookNow (e : PeachHybridEngine.t) : bool :=
  PeachHybridEngine.longLookOf
    (PeachHybridEngine.v1 (PeachHybridEngine.config e))
    (EMA.current (PeachHybridEngine.v1EmaFast e))
    (EMA.current (PeachHybridEngine.v1EmaMid e))
    (EMA.current (PeachHybridEngine.v1EmaSlow e))
    (EMA.current (PeachHybridEngine.v1EmaMicroFast e))
    (EMA.current (PeachHybridEngine.v1EmaMicroSlow e))
    (match RSI.rsiValue (PeachHybridEngine.v1Rsi e) with
     | Some r => r
     | None => 0
     end).

(** What every reachable hybrid engine satisfies. *)
Definition engine_inv (e : PeachHybridEngine.t) : Prop :=
  adx_cold (PeachHybridEngine.adx e) /\
  (len (PeachHybridEngine.v2RsiHistory e) <= 2)%Z /\
  ADX.length (PeachHybridEngine.adx e) = 14%Z.

(** ** The orchestrator *)

(** The times of the entries recorded so far. *)
Definition entries (b : BotRunner.t) : list Z :=
  BotRunner.entryTimes (BotRunner.emitted b).

(** The part of a hybrid engine that the regime gate and the exit detector
    depend on. *)
Definition engine_view (b : BotRunner.t) : option (ADX.t * list Q) :=
  match BotRunner.engine b with
  | BotRunner.Peach e =>
      Some (PeachHybridEngine.adx e, PeachHybridEngine.v2RsiHistory e)
  | BotRunner.Watermellon _ => None
  end.

(** What the gates of the orchestrator look at and only an entry, a new bar
    or an engine update changes. *)
Definition core (b : BotRunner.t) :=
  (BotRunner.config b, BotRunner.flipHistory b, entries b,
   BotRunner.lastBarCloseTime b, BotRunner.barCount b,
   BotRunner.positionOpenedAt b, engine_view b).

Definition engine_ok (b : BotRunner.t) : Prop :=
  match BotRunner.engine b with
  | BotRunner.Peach e => engine_inv e
  | BotRunner.Watermellon _ => True
  end.

(** The closed window of one hour that starts at [w]. *)
Definition in_window (w t : Z) : bool :=
  ((w <=? t) && (t <=? w + BotRunner.HOUR_MS))%Z.

Definition window_ok (m : Z) (ts : list Z) : Prop :=
  forall w, (len (filter (in_window w) ts) <= m)%Z.

(** The timestamps from [cutoff] on, as [canFlip] keeps them. *)
Definition since (cutoff : Z) (ts : list Z) : list Z :=
  filter (fun t => (cutoff <=? t)%Z) ts.

(** The flip history is the recorded entries from some cut-off on, the
    cut-off is at least an hour behind the bar clock, and no window of an
    hour holds more entries than the budget. *)
Definition flip_inv (b : BotRunner.t) : Prop :=
  window_ok
    (Z.max 0 (BotRunner.maxFlipsPerHour (BotRunner.risk (BotRunner.config b))))
    (entries b) /\
  exists cutoff,
    (cutoff <= BotRunner.lastBarCloseTime b - BotRunner.HOUR_MS)%Z /\
    BotRunner.flipHistory b = since cutoff (entries b).

(** [b'] comes from [b] without an entry: the flip history is as it was or
    pruned to [fh]. *)
Definition unentered (b b' : BotRunner.t) (fh : list Z) : Prop :=
  BotRunner.config b' = BotRunner.config b /\ entries b' = entries b /\
  BotRunner.lastBarCloseTime b' = BotRunner.lastBarCloseTime b /\
  BotRunner.barCount b' = BotRunner.barCount b /\
  BotRunner.positionOpenedAt b' = BotRunner.positionOpenedAt b /\
  engine_view b' = engine_view b /\
  (BotRunner.flipHistory b' = BotRunner.flipHistory b
   \/ BotRunner.flipHistory b' = fh).

(** [b'] comes from [b] by one entry at time [ts]. *)
Definition entered (b b' : BotRunner.t) (fh : list Z) (ts : Z) : Prop :=
  BotRunner.config b' = BotRunner.config b /\
  BotRunner.flipHistory b' = fh ++ [ts] /\
  entries b' = entries b ++ [ts] /\
  BotRunner.lastBarCloseTime b' = BotRunner.lastBarCloseTime b /\
  BotRunner.barCount b' = BotRunner.barCount b /\
  BotRunner.positionOpenedAt b' = BotRunner.barCount b /\
  engine_view b' = engine_view b.


(** What every reachable orchestrator on configuration [c] satisfies. *)
Definition good (c : BotRunner.AppConfig) (b : BotRunner.t) : Prop :=
  BotRunner.config b = c /\ flip_inv b /\ engine_ok b.

(** The orchestrator run with the decimal reader for [parseFloat]. *)
Definition bot_run : BotRunner.t -> list BotRunner.Event -> BotRunner.t :=
  BotRunner.run DecimalReader.parseFloat.

(** ** Scenario data *)

(** The hybrid configuration of test-bot.ts, which is the default one. *)
Definition test_peach_config : PeachHybridEngine.PeachConfig :=
  PeachHybridEngine.mkConfig 30000
    (PeachHybridEngine.mkV1 8 21 48 5 13 14 42 58 1 (1 # 10))
    (PeachHybridEngine.mkV2 3 8 13 3 4 (15 # 10) (12 # 10)).

Definition test_risk : BotRunner.RiskConfig :=
  BotRunner.mkRisk 100 5 12 None None (Some false) (Some 2) (Some 1%Z) None
                   (Some false) (Some 25).

Definition hybrid_app : BotRunner.AppConfig :=
  BotRunner.mkApp BotRunner.dry_run (BotRunner.peach_hybrid test_peach_config)
                  test_risk.

Definition fresh_ema (n : Z) : EMA.t := EMA.mk (2 / (inject_Z n + 1)) n false 0.

Definition fresh_rsi (n : Z) : RSI.t :=
  RSI.mk 0 0 None n (1 / inject_Z n) false None 0.

Definition fresh_rsi_double (n : Z) : RSIDouble.t :=
  RSIDouble.mk 0%float 0%float None n (1 / RSIDouble.of_count n)%float false
    None 0.

(** [n] closes that fall by 1 from [x] on. *)
Fixpoint falling_by_one (n : nat) (x : float) : list float :=
  match n with
  | O => []
  | S k => x :: falling_by_one k (x - 1)%float
  end.

(** The closes 1000, 1001, 1000, 999, ..., 528: one rise, then 473 falls. *)
Definition long_decline : list float :=
  1000%float :: falling_by_one 474 1001%float.

Definition fresh_adx (n : Z) : ADX.t :=
  ADX.mk n [] [] [] [] None None None None None None None 0.

(** The hybrid engine as its constructor leaves it, on the configuration of
    the tests. *)
Definition fresh_engine : PeachHybridEngine.t :=
  PeachHybridEngine.mk test_peach_config (fresh_ema 8) (fresh_ema 21)
    (fresh_ema 48) (fresh_ema 5) (fresh_ema 13) (fresh_rsi 14) false false 0 0
    0 (fresh_ema 3) (fresh_ema 8) (fresh_ema 13) (fresh_rsi 14) [] []
    (fresh_adx 14) None.

(** The orchestrator as its constructor leaves it at time 0 without a warm
    state. *)
Definition fresh_bot : BotRunner.t :=
  BotRunner.mk hybrid_app (VirtualBarBuilder.mk None 30000)
    (BotRunner.Peach fresh_engine) (PositionStateManager.new 0) []
    TradeStatistics.new (mkPosition flat 0 None None) [] false 0 [] 0 None
    None 0 0 0 0 [].

(** An executor that resolves every call, at time 0. *)
Definition calm : BotRunner.Env := BotRunner.mkEnv 0 BotRunner.Resolved true.

(** A bar of one tick at price [p], the [k]-th of 30 s. *)
Definition one_tick_bar (k : Z) (p : Q) : SyntheticBar :=
  mkBar (k * 30000) (k * 30000) p p p p 10.

(** Scenario S2: closes 99, 100, 100.05, 100.15. *)
Definition s2_bars : list SyntheticBar :=
  [one_tick_bar 1 99; one_tick_bar 2 100; one_tick_bar 3 (10005 # 100);
   one_tick_bar 4 (10015 # 100)].

(** A long position, then closes 100, 101, 100, 99: the RSI falls. *)
Definition falling_calls : list EngineCall :=
  [CallSetPosition long; CallUpdate (one_tick_bar 1 100);
   CallUpdate (one_tick_bar 2 101); CallUpdate (one_tick_bar 3 100);
   CallUpdate (one_tick_bar 4 99)].

(** The ticks of the bar-builder test of test-bot.ts, from time 0, and two
    more that close a second bar. *)
Definition test_ticks : list Tick :=
  [mkTick 0 100 (Some 1); mkTick 5000 101 (Some 2);
   mkTick 10000 102 (Some (3 # 2)); mkTick 15000 103 (Some 2);
   mkTick 20000 104 (Some 1); mkTick 25000 105 (Some 2);
   mkTick 30000 106 (Some 1); mkTick 45000 99 None;
   mkTick 61000 100 (Some 0)].

(** The closes of the RSI test of test-bot.ts. *)
Definition test_closes : list Q :=
  [100; 101; 102; 103; 102; 101; 100; 99; 98; 97; 98; 99; 100; 101; 102;
   103; 104].

Definition adx_samples : list HLC :=
  [(101, 99, 100); (102, 100, 101); (103, 101, 102); (104, 102, 103);
   (105, 103, 104); (106, 104, 105)].

(** The tick [offset] ms into the [k]-th timeframe of 30 s, of size 1. *)
Definition tick_in (k offset : Z) (p : Q) : Tick :=
  mkTick (1000000 + (k - 1) * 30000 + offset) p (Some 1).

Definition on_tick (k offset : Z) (p : Q) : BotRunner.Event :=
  BotRunner.OnTick calm (tick_in k offset p).

(** Ten bars of warm-up at 90, a jump to 101 (V1 long, entry at bar 12), a
    drop to 98.9 (emergency stop at bar 13, no signal), a green bar of double
    volume up to 105 (V2 long, entry at bar 14). *)
Definition reentry_ticks : list BotRunner.Event :=
  [on_tick 1 0 90; on_tick 2 0 90; on_tick 3 0 90; on_tick 4 0 90;
   on_tick 5 0 90; on_tick 6 0 90; on_tick 7 0 90; on_tick 8 0 90;
   on_tick 9 0 90; on_tick 10 0 90; on_tick 11 0 90; on_tick 12 0 101;
   on_tick 13 0 (989 # 10); on_tick 14 0 104; on_tick 14 1000 105;
   on_tick 15 0 105].




(** Scenario S5: a budget of two flips per hour, flips recorded at 1000 s
    and ten minutes later, a long signal on the bar that closes another ten
    minutes later. *)
Definition tight_risk : BotRunner.RiskConfig :=
  BotRunner.mkRisk 100 5 2 None None (Some false) (Some 2) (Some 1%Z) None
                   (Some false) (Some 25).

Definition tight_bot : BotRunner.t :=
  BotRunner.mk
    (BotRunner.mkApp BotRunner.dry_run
       (BotRunner.peach_hybrid test_peach_config) tight_risk)
    (VirtualBarBuilder.mk None 30000) (BotRunner.Peach fresh_engine)
    (PositionStateManager.new 0) [] TradeStatistics.new
    (mkPosition flat 0 None None) [1000000; 1600000]%Z false 0 [] 2170000
    None None 40 21 0 0 [].

Definition long_signal : StrategySignal :=
  mkSignal long "v1-long" (Some "v1"%string) (mkIndicators 3 2 1 60)
           (mkTrend true false true false true false).

Definition s5_bar : SyntheticBar := mkBar 2170000 2200000 99 100 99 100 10.

(** A warm state with a long position of 100 entered at 100, last bar closed
    at 50 s; the same without a position. *)
Definition warm_long : BotRunner.Saved :=
  BotRunner.mkSaved
    (PositionStateManager.mkLocal 100 long 100 0 0 None None) 50000.

Definition warm_flat : BotRunner.Saved :=
  BotRunner.mkSaved
    (PositionStateManager.mkLocal 0 flat 0 0 0 None None) 50000.

Definition warm_long_bot : BotRunner.t :=
  BotRunner.loadWarmState fresh_bot 0 (Some warm_long).

Definition warm_flat_bot : BotRunner.t :=
  BotRunner.loadWarmState fresh_bot 0 (Some warm_flat).

(** Two ticks with timestamps behind the warm state's last bar close: the
    first opens [stale_bar], the second closes it. *)
Definition stale_first : Tick := mkTick 1000 97 (Some 1).
Definition stale_second : Tick := mkTick 31000 97 (Some 1).
Definition stale_bar : SyntheticBar := mkBar 1000 1000 97 97 97 97 1.

(** A local long position of 100 with a pending order and one failed
    reconciliation; the exchange's flat record. *)
Definition long_local : PositionStateManager.t :=
  PositionStateManager.mk
    (PositionStateManager.mkLocal 100 long (1005 # 10) 0 0 None
       (Some (PositionStateManager.mkPending long 100 0)))
    1.

Definition flat_response : BotRunner.AsterPositionResponse :=
  BotRunner.mkResponse "0" "0" "0".

(** ** Further runs, predicates and scenario data *)

(** The values returned by successive calls of [EMA.update]. *)
Fixpoint EMA_run (e : EMA.t) (xs : list Q) : EMA.t * list Q :=
  match xs with
  | [] => (e, [])
  | x :: rest =>
      let '(e1, out) := EMA.update e x in
      let '(e2, outs) := EMA_run e1 rest in
      (e2, out :: outs)
  end.

(** Each value above (below) the one before it. *)
Fixpoint rising_from (x0 : Q) (xs : list Q) : Prop :=
  match xs with
  | [] => True
  | x :: rest => x0 < x /\ rising_from x rest
  end.

Fixpoint falling_from (x0 : Q) (xs : list Q) : Prop :=
  match xs with
  | [] => True
  | x :: rest => x < x0 /\ falling_from x rest
  end.

(** Each bar starts at least [tf] after the one before it started. *)
Fixpoint starts_apart (tf : Z) (bars : list SyntheticBar) : Prop :=
  match bars with
  | b1 :: (b2 :: _) as rest =>
      (startTime b1 + tf <= startTime b2)%Z /\ starts_apart tf rest
  | _ => True
  end.

(** An RSI of length [n] after [k] updates. *)
Definition rsi_seen (n k : Z) (r : RSI.t) : Prop :=
  RSI.length r = n /\
  (k = 0%Z -> RSI.prevValue r = None /\ RSI.ready r = false) /\
  ((1 <= k)%Z ->
   RSI.prevValue r <> None /\ RSI.updateCount r = k /\
   RSI.ready r = (n <=? k)%Z).

(** The averages of an RSI that has seen no loss (no gain) so far. *)
Definition no_loss (r : RSI.t) : Prop :=
  RSI.avgLoss r == 0 /\ 0 <= RSI.avgGain r /\ (1 <= RSI.updateCount r)%Z /\
  (2 <= RSI.length r)%Z /\ RSI.alpha r = 1 / inject_Z (RSI.length r).

Definition no_gain (r : RSI.t) : Prop :=
  RSI.avgGain r == 0 /\ 0 <= RSI.avgLoss r /\ (1 <= RSI.updateCount r)%Z /\
  (2 <= RSI.length r)%Z /\ RSI.alpha r = 1 / inject_Z (RSI.length r).

(** The bar under construction spans less than the timeframe. *)
Definition open_span_ok (b : VirtualBarBuilder.t) : Prop :=
  match VirtualBarBuilder.bar b with
  | Some cur =>
      (endTime cur - startTime cur < VirtualBarBuilder.timeframeMs b)%Z
  | None => True
  end.

(** The three windows of an ADX: as long as each other, as many samples as
    updates were counted but at most [length], none of them negative. *)
Definition adx_windows (a : ADX.t) : Prop :=
  len (ADX.trValues a) = Z.min (ADX.length a) (ADX.updateCount a) /\
  len (ADX.plusDMValues a) = len (ADX.trValues a) /\
  len (ADX.minusDMValues a) = len (ADX.trValues a) /\
  Forall (Qle 0) (ADX.trValues a) /\ Forall (Qle 0) (ADX.plusDMValues a) /\
  Forall (Qle 0) (ADX.minusDMValues a) /\
  (0 <= ADX.updateCount a)%Z /\ (2 <= ADX.length a)%Z.

(** A signal whose trend snapshot agrees with its type: the stack, the look
    and the trigger of its side are set, those of the other side are not. *)
Definition signal_consistent (s : StrategySignal) : Prop :=
  match type s with
  | long =>
      bullStack (trend s) = true /\ bearStack (trend s) = false /\
      longLook (trend s) = true /\ shortLook (trend s) = false /\
      longTrig (trend s) = true /\ shortTrig (trend s) = false
  | short =>
      bullStack (trend s) = false /\ bearStack (trend s) = true /\
      longLook (trend s) = false /\ shortLook (trend s) = true /\
      longTrig (trend s) = false /\ shortTrig (trend s) = true
  | flat => False
  end.

(** The hybrid engine of [update] at the point where it calls
    [checkV1System]: indicators fed, bar counter incremented, histories
    pushed and trimmed. *)
Definition fed (e : PeachHybridEngine.t) (bar : SyntheticBar)
    : PeachHybridEngine.t :=
  let h0 :=
    push (PeachHybridEngine.v2RsiHistory e)
         (snd (RSI.update (PeachHybridEngine.v2Rsi e) (close bar))) in
  let vh0 := push (PeachHybridEngine.volumeHistory e) (volume bar) in
  let maxVolumeHistory :=
    Z.max (PeachHybridEngine.volumeLookback
             (PeachHybridEngine.v2 (PeachHybridEngine.config e))) 10 in
  PeachHybridEngine.mk (PeachHybridEngine.config e)
    (fst (EMA.update (PeachHybridEngine.v1EmaFast e) (close bar)))
    (fst (EMA.update (PeachHybridEngine.v1EmaMid e) (close bar)))
    (fst (EMA.update (PeachHybridEngine.v1EmaSlow e) (close bar)))
    (fst (EMA.update (PeachHybridEngine.v1EmaMicroFast e) (close bar)))
    (fst (EMA.update (PeachHybridEngine.v1EmaMicroSlow e) (close bar)))
    (fst (RSI.update (PeachHybridEngine.v1Rsi e) (close bar)))
    (PeachHybridEngine.v1LastLongLook e) (PeachHybridEngine.v1LastShortLook e)
    (PeachHybridEngine.v1LastLongPrice e)
    (PeachHybridEngine.v1LastShortPrice e)
    (PeachHybridEngine.v1BarsSinceLastSignal e + 1)%Z
    (fst (EMA.update (PeachHybridEngine.v2EmaFast e) (close bar)))
    (fst (EMA.update (PeachHybridEngine.v2EmaMid e) (close bar)))
    (fst (EMA.update (PeachHybridEngine.v2EmaSlow e) (close bar)))
    (fst (RSI.update (PeachHybridEngine.v2Rsi e) (close bar)))
    (if (2 <? len h0)%Z then shift h0 else h0)
    (if (maxVolumeHistory <? len vh0)%Z then shift vh0 else vh0)
    (fst (ADX.update (PeachHybridEngine.adx e) (high bar) (low bar)
            (close bar)))
    (PeachHybridEngine.position e).

(** The call of [checkV1System] that [update] makes. *)
Definition v1Check (e : PeachHybridEngine.t) (bar : SyntheticBar)
    : PeachHybridEngine.t * option StrategySignal :=
  PeachHybridEngine.checkV1System (fed e bar) (close bar)
    (snd (EMA.update (PeachHybridEngine.v1EmaFast e) (close bar)))
    (snd (EMA.update (PeachHybridEngine.v1EmaMid e) (close bar)))
    (snd (EMA.update (PeachHybridEngine.v1EmaSlow e) (close bar)))
    (snd (EMA.update (PeachHybridEngine.v1EmaMicroFast e) (close bar)))
    (snd (EMA.update (PeachHybridEngine.v1EmaMicroSlow e) (close bar)))
    (Some (snd (RSI.update (PeachHybridEngine.v1Rsi e) (close bar)))).

(** The call of [checkV2System] that [update] makes when V1 is silent. *)
Definition v2Check (e : PeachHybridEngine.t) (bar : SyntheticBar)
    : option StrategySignal :=
  PeachHybridEngine.checkV2System (fst (v1Check e bar)) (close bar)
    (snd (EMA.update (PeachHybridEngine.v2EmaFast e) (close bar)))
    (snd (EMA.update (PeachHybridEngine.v2EmaMid e) (close bar)))
    (snd (EMA.update (PeachHybridEngine.v2EmaSlow e) (close bar)))
    (Some (snd (RSI.update (PeachHybridEngine.v2Rsi e) (close bar))))
    (volume bar) (open bar) (close bar).

Definition is_v1 (s : StrategySignal) : Prop := system s = Some "v1"%string.

(** The percent move of [price] from [last], as [checkV1System] computes
    it. *)
Definition movePercent (price last : Q) : Q :=
  Qabs ((price - last) / last) * 100.

(** ** Scenario data: a V1 long at 100, then a V1 short at 90 *)
Definition after_99 : PeachHybridEngine.t :=
  engine_after fresh_engine [one_tick_bar 1 99].

(** The size of the volume window of the hybrid engine. *)
Definition volume_window (c : PeachHybridEngine.PeachConfig) : nat :=
  Z.to_nat
    (Z.max (PeachHybridEngine.volumeLookback (PeachHybridEngine.v2 c)) 10).

(** The local state as [updateFromRest] compares it. *)
Definition local_snapshot (m : PositionStateManager.t)
    : PositionStateManager.Normalized :=
  PositionStateManager.mkNorm
    (PositionStateManager.size (PositionStateManager.state m))
    (PositionStateManager.side (PositionStateManager.state m))
    (PositionStateManager.avgEntry (PositionStateManager.state m))
    (PositionStateManager.unrealizedPnl (PositionStateManager.state m)).

(** An order as [confirmOrder] leaves it. *)
Definition confirmed_at (now : Z) (o : OrderTracker.OrderConfirmation)
    : OrderTracker.OrderConfirmation :=
  OrderTracker.mkConfirmation (OrderTracker.orderId o) (OrderTracker.side o)
    (OrderTracker.size o) (OrderTracker.price o) (OrderTracker.timestamp o)
    true (Some now).

(** The test of the loop of [confirmByPositionChange]. *)
Definition awaits (sd : PositionSide) (sz : Q)
    (kv : Z * OrderTracker.OrderConfirmation) : bool :=
  negb (OrderTracker.confirmed (snd kv))
  && PositionSide_eqb (OrderTracker.side (snd kv)) sd
  && Qltb (Qabs (OrderTracker.size (snd kv) - sz)) (1 # 10000).

(** The keys of a tracker, which are unique in a JavaScript [Map]. *)
Definition keys (m : OrderTracker.t) : list Z := map fst m.

(** ** Scenario data *)


Definition short_snapshot : PositionStateManager.RestState :=
  PositionStateManager.mkRest "-40" "250" "0".


Definition unparsed_response : BotRunner.AsterPositionResponse :=
  BotRunner.mkResponse "n/a" "0" "0".

Definition two_orders : OrderTracker.t :=
  OrderTracker.trackOrder
    (OrderTracker.trackOrder [] (mkOrder short 50 5 99 "v1-short" 1000) 1000)
    (mkOrder long 100 5 100 "v1-long" 2000) 2000.

(** The winning and the losing trades, as [getStats] filters them. *)
Definition winning (l : list TradeStatistics.TradeRecord)
    : list TradeStatistics.TradeRecord :=
  filter (fun t => Qltb 0 (TradeStatistics.pnl t)) l.

Definition losing (l : list TradeStatistics.TradeRecord)
    : list TradeStatistics.TradeRecord :=
  filter (fun t => Qltb (TradeStatistics.pnl t) 0) l.

(** What every reachable orchestrator satisfies besides [good]: no entry
    before the warm-up is over, entries at strictly increasing times none of
    which is after the bar clock, at most 100 remembered signal keys. *)
Definition tidy (b : BotRunner.t) : Prop :=
  ((BotRunner.barCount b <= BotRunner.WARMUP_BARS)%Z -> entries b = []) /\
  StronglySorted Z.lt (entries b) /\
  Forall (fun t => (t <= BotRunner.lastBarCloseTime b)%Z) (entries b) /\
  (len (BotRunner.processedSignals b) <= 100)%Z.

(** The key of a signal on a bar is among the remembered keys. *)
Definition remembered (b : BotRunner.t) (sg : StrategySignal)
    (bar : SyntheticBar) : bool :=
  existsb (fun k => PositionSide_eqb (fst k) (type sg)
                    && (snd k =? endTime bar)%Z)
          (BotRunner.processedSignals b).

(** The orchestrator between the bar clock's tick and the end of
    [handleBarClose]: all entries are before the bar that is closing. *)
Definition at_bar (b : BotRunner.t) (bar : SyntheticBar) : Prop :=
  tidy b /\ BotRunner.lastBarCloseTime b = endTime bar /\
  Forall (fun x => (x < endTime bar)%Z) (entries b).

(** The position [closePosition] leaves. *)
Definition flat_position : PositionState := mkPosition flat 0 None None.

(** The orchestrator of [protectiveExitsAt] after the trailing extrema
    have been moved. *)
Definition trailed (b : BotRunner.t) (bar : SyntheticBar) : BotRunner.t :=
  match pos_side (BotRunner.position b) with
  | long =>
      match BotRunner.highestPrice b with
      | None =>
          BotRunner.with_trailing b (Some (close bar))
            (BotRunner.lowestPrice b)
      | Some h =>
          if Qltb h (close bar)
          then BotRunner.with_trailing b (Some (close bar))
                 (BotRunner.lowestPrice b)
          else b
      end
  | short =>
      match BotRunner.lowestPrice b with
      | None =>
          BotRunner.with_trailing b (BotRunner.highestPrice b)
            (Some (close bar))
      | Some l =>
          if Qltb (close bar) l
          then BotRunner.with_trailing b (BotRunner.highestPrice b)
                 (Some (close bar))
          else b
      end
  | flat => b
  end.

(** The argument the poll handler passes to [updateFromRest]. *)
Definition polled (p : BotRunner.AsterPositionResponse)
    : PositionStateManager.RestState :=
  PositionStateManager.mkRest (BotRunner.positionAmt p)
    (BotRunner.or_zero_string (BotRunner.resp_entryPrice p))
    (BotRunner.or_zero_string (BotRunner.unRealizedProfit p)).

(** The signal of a call that returned one. *)
Definition signal_of (o : option StrategySignal) : StrategySignal :=
  match o with Some s => s | None => long_signal end.

Definition bar_100 : SyntheticBar := one_tick_bar 2 100.
Definition bar_90 : SyntheticBar := one_tick_bar 3 90.

(** The hybrid engine after closes 99 and 100, the second a V1 long. *)
Definition after_100 : PeachHybridEngine.t :=
  fst (PeachHybridEngine.update after_99 bar_100).

Definition v1_long_at_100 : StrategySignal :=
  signal_of (snd (PeachHybridEngine.update after_99 bar_100)).

Definition v1_short_at_90 : StrategySignal :=
  signal_of (snd (PeachHybridEngine.update after_100 bar_90)).

(** A state manager that has counted one failure, in an orchestrator. *)
Definition failing_bot : BotRunner.t :=
  BotRunner.with_stateManager fresh_bot long_local.

Definition short_response : BotRunner.AsterPositionResponse :=
  BotRunner.mkResponse "-40" "250" "0".

(** An executor that rejects every order. *)
Definition rejecting : BotRunner.Env :=
  BotRunner.mkEnv 0 BotRunner.OtherError true.

Definition warmup_ticks : list BotRunner.Event := firstn 8 reentry_ticks.

Definition long_response : BotRunner.AsterPositionResponse :=
  BotRunner.mkResponse "100" "100.5" "0".

(** ** Calls in flight *)

(** The bar clock of the orchestrator with the entries recorded so far. *)
Definition clock (b : BotRunner.t) : list Z * Z * Z :=
  (entries b, BotRunner.lastBarCloseTime b, BotRunner.barCount b).

(** The times of the entries whose orders are in flight. *)
Definition entering (r : BotRunner.Async.Running) : list Z :=
  flat_map (fun p =>
              match p with
              | BotRunner.Async.Entering _ order => [ord_timestamp order]
              | BotRunner.Async.Closing _ _ => []
              end)
           (BotRunner.Async.inFlight r).

(** Nothing is entered or about to be entered during the warm-up, and an
    entry that is recorded or in flight carries the end time of a bar that
    has closed. *)
Definition on_the_clock (r : BotRunner.Async.Running) : Prop :=
  ((BotRunner.barCount (BotRunner.Async.bot r) <= BotRunner.WARMUP_BARS)%Z ->
   entries (BotRunner.Async.bot r) = [] /\ entering r = []) /\
  Forall (fun t =>
            (t <= BotRunner.lastBarCloseTime (BotRunner.Async.bot r))%Z)
         (entries (BotRunner.Async.bot r) ++ entering r).

(** The risk settings of test-bot.ts with a budget of one flip per hour. *)
Definition one_flip_risk : BotRunner.RiskConfig :=
  BotRunner.mkRisk 100 5 1 None None (Some false) (Some 2) (Some 1%Z) None
                   (Some false) (Some 25).

Definition live_app : BotRunner.AppConfig :=
  BotRunner.mkApp BotRunner.live (BotRunner.peach_hybrid test_peach_config)
                  one_flip_risk.

Definition live_bot : BotRunner.t :=
  BotRunner.mk live_app (VirtualBarBuilder.mk None 30000)
    (BotRunner.Peach fresh_engine) (PositionStateManager.new 0) []
    TradeStatistics.new (mkPosition flat 0 None None) [] false 0 [] 0 None
    None 0 0 0 0 [].

Definition handle_tick (k : Z) (p : Q) : BotRunner.Async.Turn :=
  BotRunner.Async.Handle (on_tick k 0 p).

(** A balance of 1000, eleven bars at 100, a bar at 99 (V1 short) and a bar
    at 102 (V1 long); the two orders settle after the tick that closes the
    second of them. *)
Definition slow_executor_turns : list BotRunner.Async.Turn :=
  [BotRunner.Async.Handle (BotRunner.OnRestBalance calm (Some 1000));
   handle_tick 1 100; handle_tick 2 100; handle_tick 3 100; handle_tick 4 100;
   handle_tick 5 100; handle_tick 6 100; handle_tick 7 100; handle_tick 8 100;
   handle_tick 9 100; handle_tick 10 100; handle_tick 11 100;
   handle_tick 12 99; handle_tick 13 102; handle_tick 14 102;
   BotRunner.Async.Settle 0 0 BotRunner.Resolved;
   BotRunner.Async.Settle 0 0 BotRunner.Resolved].

(** The same, the second order settling first. *)
Definition overtaking_turns : list BotRunner.Async.Turn :=
  firstn 15 slow_executor_turns
  ++ [BotRunner.Async.Settle 1 0 BotRunner.Resolved;
      BotRunner.Async.Settle 0 0 BotRunner.Resolved].

Definition live_run (tns : list BotRunner.Async.Turn)
    : BotRunner.Async.Running :=
  BotRunner.Async.run DecimalReader.parseFloat
    (BotRunner.Async.mkRunning live_bot []) tns.

(** A call of [closePosition] in flight. *)
Definition closing (p : BotRunner.Async.Pending) : Prop :=
  match p with
  | BotRunner.Async.Closing _ _ => True
  | BotRunner.Async.Entering _ _ => False
  end.

(** Every entry in flight is on a side. *)
Definition sided (r : BotRunner.Async.Running) : Prop :=
  Forall (fun p =>
            match p with
            | BotRunner.Async.Entering side _ => side <> flat
            | BotRunner.Async.Closing _ _ => True
            end)
         (BotRunner.Async.inFlight r).

(** What the flip budget is about: the configuration, the recorded entries
    and the bar clock. *)
Definition ledger (b : BotRunner.t) : BotRunner.AppConfig * list Z * Z :=
  (BotRunner.config b, entries b, BotRunner.lastBarCloseTime b).

(** [r'] comes from [r] by calls of [closePosition] and at most one call of
    [enterPosition], for an entry at time [ts] that [canFlip] has let
    pass. *)
Definition queued (r r' : BotRunner.Async.Running) (ts : Z) : Prop :=
  exists l,
    Forall closing l /\
    ((BotRunner.Async.inFlight r' = BotRunner.Async.inFlight r ++ l /\
      (BotRunner.flipHistory (BotRunner.Async.bot r')
       = BotRunner.flipHistory (BotRunner.Async.bot r) \/
       BotRunner.flipHistory (BotRunner.Async.bot r')
       = since (ts - BotRunner.HOUR_MS)
           (BotRunner.flipHistory (BotRunner.Async.bot r)))) \/
     (exists side order,
         BotRunner.Async.inFlight r'
         = BotRunner.Async.inFlight r
           ++ l ++ [BotRunner.Async.Entering side order] /\
         side <> flat /\ ord_timestamp order = ts /\
         BotRunner.flipHistory (BotRunner.Async.bot r')
         = since (ts - BotRunner.HOUR_MS)
             (BotRunner.flipHistory (BotRunner.Async.bot r)) /\
         (len (BotRunner.flipHistory (BotRunner.Async.bot r'))
          < BotRunner.maxFlipsPerHour
              (BotRunner.risk (BotRunner.config (BotRunner.Async.bot r))))%Z)).

(** What the orchestrator on configuration [c] satisfies while no tick is
    handled with the order of an entry in flight: the flip history and the
    windows are in order, and an entry in flight was sent on the last bar,
    with the flip history pruned for it and the budget not used up. *)
Definition budgeted (c : BotRunner.AppConfig) (r : BotRunner.Async.Running)
    : Prop :=
  BotRunner.config (BotRunner.Async.bot r) = c /\
  flip_inv (BotRunner.Async.bot r) /\ sided r /\
  (entering r = [] \/
   (entering r = [BotRunner.lastBarCloseTime (BotRunner.Async.bot r)] /\
    BotRunner.flipHistory (BotRunner.Async.bot r)
    = since (BotRunner.lastBarCloseTime (BotRunner.Async.bot r)
             - BotRunner.HOUR_MS)
        (entries (BotRunner.Async.bot r)) /\
    (len (BotRunner.flipHistory (BotRunner.Async.bot r))
     < BotRunner.maxFlipsPerHour (BotRunner.risk c))%Z)).

(** No tick is handled while the order of an entry is in flight. *)
Fixpoint orders_settle_in_time (parseFloat : string -> number)
    (r : BotRunner.Async.Running) (tns : list BotRunner.Async.Turn) : Prop :=
  match tns with
  | [] => True
  | tn :: rest =>
      match tn with
      | BotRunner.Async.Handle (BotRunner.OnTick _ _) => entering r = []
      | _ => True
      end /\
      orders_settle_in_time parseFloat (BotRunner.Async.turn parseFloat r tn)
        rest
  end.

(** The turns of [slow_executor_turns] with an executor that answers before
    the next tick: the short entry settles, and the long signal of the next
    bar meets a budget that is used up. *)
Definition prompt_executor_turns : list BotRunner.Async.Turn :=
  firstn 14 slow_executor_turns
  ++ [BotRunner.Async.Settle 0 0 BotRunner.Resolved; handle_tick 14 102].

(** The recorded entries are in order and not after the bar clock, and an
    entry in flight was sent on the last bar, after every recorded one. *)
Definition in_order (r : BotRunner.Async.Running) : Prop :=
  StronglySorted Z.lt (entries (BotRunner.Async.bot r)) /\
  Forall (fun t => (t <= BotRunner.lastBarCloseTime (BotRunner.Async.bot r))%Z)
         (entries (BotRunner.Async.bot r)) /\
  (entering r = [] \/
   (entering r = [BotRunner.lastBarCloseTime (BotRunner.Async.bot r)] /\
    Forall (fun t =>
              (t < BotRunner.lastBarCloseTime (BotRunner.Async.bot r))%Z)
           (entries (BotRunner.Async.bot r)))).

(** An executor that answers at once: the calls that an event has left in
    flight, at most three, settle before the next event, the oldest
    first. *)
Definition settling (evs : list BotRunner.Event) : list BotRunner.Async.Turn :=
  flat_map (fun ev =>
              [BotRunner.Async.Handle ev;
               BotRunner.Async.Settle 0 0 BotRunner.Resolved;
               BotRunner.Async.Settle 0 0 BotRunner.Resolved;
               BotRunner.Async.Settle 0 0 BotRunner.Resolved])
           evs.

(** The orchestrator after twelve ticks of [reentry_ticks] and two polls
    that did not reconcile: flat, eleven bars counted, trading frozen until
    60 s; the next tick closes the bar at 101 on which the engine signals a
    V1 long. *)
Definition frozen_at_bar_12 : BotRunner.t :=
  bot_run fresh_bot
    (firstn 12 reentry_ticks
     ++ [BotRunner.OnRestPosition calm unparsed_response;
         BotRunner.OnRestPosition calm unparsed_response]).

(** * Properties *)

Lemma Qltb_true (a b : Q) : Qltb a b = true <-> a < b.
Proof.
  unfold Qltb. rewrite negb_true_iff. split; intro H.
  - apply Qnot_le_lt. intro L. apply Qle_bool_iff in L. congruence.
  - destruct (Qle_bool b a) eqn:E; [|reflexivity].
    apply Qle_bool_iff in E. lra.
Qed.

Lemma Qltb_false (a b : Q) : Qltb a b = false <-> b <= a.
Proof.
  unfold Qltb. rewrite negb_false_iff. apply Qle_bool_iff.
Qed.

Lemma Qle_bool_false (a b : Q) : Qle_bool a b = false <-> b < a.
Proof.
  split; intro H.
  - apply Qnot_le_lt. intro L. apply Qle_bool_iff in L. congruence.
  - destruct (Qle_bool a b) eqn:E; [|reflexivity].
    apply Qle_bool_iff in E. lra.
Qed.

Lemma qmax_l (a b : Q) : a <= qmax a b.
Proof.
  unfold qmax. destruct (Qle_bool a b) eqn:E.
  - now apply Qle_bool_iff. 
  - lra.
Qed.

Lemma qmax_r (a b : Q) : b <= qmax a b.
Proof.
  unfold qmax. destruct (Qle_bool a b) eqn:E.
  - lra.
  - apply Qle_bool_false in E. lra.
Qed.

Lemma qmin_l (a b : Q) : qmin a b <= a.
Proof.
  unfold qmin. destruct (Qle_bool a b) eqn:E.
  - lra.
  - apply Qle_bool_false in E. lra.
Qed.

Lemma qmin_r (a b : Q) : qmin a b <= b.
Proof.
  unfold qmin. destruct (Qle_bool a b) eqn:E.
  - now apply Qle_bool_iff.
  - lra.
Qed.

Section BarBuilder.

Import VirtualBarBuilder.

Lemma createBar_ok (tk : Tick) : tick_ok tk -> bar_ok (createBar tk).
Proof.
  intros [_ Hs]. unfold bar_ok, createBar; simpl.
  repeat split; try lra; try lia.
  destruct (size tk); lra.
Qed.

Lemma pushTick_update_ok (cur : SyntheticBar) (tk : Tick) :
  bar_ok cur -> tick_ok tk -> (endTime cur <= timestamp tk)%Z ->
  bar_ok (mkBar (startTime cur) (timestamp tk) (open cur)
            (qmax (high cur) (price tk)) (qmin (low cur) (price tk))
            (price tk)
            (match truthy_size tk with
             | Some s => volume cur + s
             | None => volume cur
             end)).
Proof.
  intros (Hlo & Hoh & Hlc & Hch & Hv & Ht) [_ Hs] Hle.
  unfold bar_ok; simpl.
  pose proof (qmax_l (high cur) (price tk)).
  pose proof (qmax_r (high cur) (price tk)).
  pose proof (qmin_l (low cur) (price tk)).
  pose proof (qmin_r (low cur) (price tk)).
  repeat split; try lra; try lia.
  unfold truthy_size. destruct (size tk) as [s|]; [|lra].
  destruct (Qeq_bool s 0); lra.
Qed.

Lemma feed_invariant (ticks : list Tick) :
  forall (b : t) (t0 : Z),
    (forall cur, bar b = Some cur -> bar_ok cur /\ (endTime cur <= t0)%Z) ->
    Forall tick_ok ticks ->
    nondecreasing_from t0 ticks ->
    let bars := snd (feed b ticks) in
    Forall bar_ok bars /\ consecutive_ok bars /\
    (forall cur, bar b = Some cur -> starts_from (startTime cur) bars).
Proof.
  induction ticks as [|tk rest IH]; intros b t0 Hb Hok Hnd; simpl.
  - repeat split; auto. 
  - inversion Hok as [|? ? Htk Hrest]; subst. destruct Hnd as [Ht0 Hnd].
    unfold pushTick.
    destruct (bar b) as [cur|] eqn:Eb.
    + destruct (Hb cur eq_refl) as [Hcur Hend].
      destruct (timeframeMs b <=? timestamp tk - startTime cur)%Z eqn:Etf.
      * (* the open bar closes, the tick opens the next one *)
        specialize (IH (mk (Some (createBar tk)) (timeframeMs b)) (timestamp tk)).
        destruct (feed (mk (Some (createBar tk)) (timeframeMs b)) rest)
          as [b2 bars] eqn:Ef.
        simpl in IH.
        destruct IH as (Hall & Hcons & Hstart); auto.
        { intros c Hc. inversion Hc; subst. split.
          - now apply createBar_ok.
          - simpl. lia. }
        simpl. repeat split.
        -- constructor; assumption.
        -- specialize (Hstart (createBar tk) eq_refl). simpl in Hstart.
           destruct bars as [|b1 bars']; [exact I|].
           simpl in Hstart. split; [lia|exact Hcons].
        -- intros c Hc. inversion Hc; subst. simpl. lia.
      * (* the tick updates the open bar *)
        set (cur' := mkBar (startTime cur) (timestamp tk) (open cur)
                       (qmax (high cur) (price tk)) (qmin (low cur) (price tk))
                       (price tk)
                       (match truthy_size tk with
                        | Some s => volume cur + s
                        | None => volume cur
                        end)).
        specialize (IH (mk (Some cur') (timeframeMs b)) (timestamp tk)).
        destruct (feed (mk (Some cur') (timeframeMs b)) rest) as [b2 bars] eqn:Ef.
        simpl in IH.
        destruct IH as (Hall & Hcons & Hstart); auto.
        { intros c Hc. inversion Hc; subst. split.
          - apply pushTick_update_ok; auto. lia.
          - simpl. lia. }
        simpl. repeat split; auto.
        intros c Hc. inversion Hc; subst.
        exact (Hstart cur' eq_refl).
    + specialize (IH (mk (Some (createBar tk)) (timeframeMs b)) (timestamp tk)).
      destruct (feed (mk (Some (createBar tk)) (timeframeMs b)) rest)
        as [b2 bars] eqn:Ef.
      simpl in IH.
      destruct IH as (Hall & Hcons & Hstart); auto.
      { intros c Hc. inversion Hc; subst. split.
        - now apply createBar_ok.
        - simpl. lia. }
      simpl. repeat split; auto. intros c Hc. discriminate.
Qed.

(** C9.  Ticks with non-decreasing timestamps, non-negative sizes and
    positive prices, fed to a builder fresh from its constructor: every
    closed bar has [low <= open, close <= high], a non-negative volume and
    [startTime <= endTime], and each closed bar starts no earlier than the
    bar closed before it ended. *)
Theorem bar_builder_emits_well_formed_bars
    (timeframeMs : Z) (b0 : t) (ticks : list Tick) :
  new timeframeMs = Some b0 ->
  Forall tick_ok ticks ->
  nondecreasing ticks ->
  Forall bar_ok (snd (feed b0 ticks)) /\ consecutive_ok (snd (feed b0 ticks)).
Proof.
  intros Hnew Hok Hnd.
  unfold new in Hnew. destruct (timeframeMs <=? 0)%Z; [discriminate|].
  inversion Hnew; subst b0; clear Hnew.
  destruct ticks as [|tk rest].
  - simpl. split; [constructor|exact I].
  - pose proof (feed_invariant (tk :: rest) (mk None timeframeMs) (timestamp tk))
      as H.
    simpl in H. destruct H as (Hall & Hcons & _); auto.
    + intros c Hc; discriminate.
    + split; [lia|exact Hnd].
Qed.

End BarBuilder.

Section RSIProofs.
Import RSI.

Lemma rsi_general_strict (g l : Q) :
  0 < g -> 0 < l ->
  0 < 100 - 100 / (1 + g / l) /\ 100 - 100 / (1 + g / l) < 100.
Proof.
  intros Hg Hl.
  assert (Hq : 0 < g / l) by (apply Qlt_shift_div_l; lra).
  assert (Hx : 1 < 1 + g / l) by lra.
  assert (H1 : 100 / (1 + g / l) < 100) by (apply Qlt_shift_div_r; lra).
  assert (H2 : 0 < 100 / (1 + g / l)) by (apply Qlt_shift_div_l; lra).
  lra.
Qed.

Lemma rsiOf_loss_zero_gain (g l : Q) : l == 0 -> 0 < g -> rsiOf g l = 100.
Proof.
  intros Hl Hg. unfold rsiOf.
  apply Qeq_bool_iff in Hl. rewrite Hl.
  apply Qltb_true in Hg. now rewrite Hg.
Qed.

Lemma rsiOf_loss_zero_flat (g l : Q) : l == 0 -> ~ 0 < g -> rsiOf g l = 50.
Proof.
  intros Hl Hg. unfold rsiOf.
  apply Qeq_bool_iff in Hl. rewrite Hl.
  destruct (Qltb 0 g) eqn:E; [|reflexivity].
  apply Qltb_true in E. contradiction.
Qed.

Lemma rsiOf_gain_zero (g l : Q) : ~ l == 0 -> g == 0 -> rsiOf g l = 0.
Proof.
  intros Hl Hg. unfold rsiOf.
  destruct (Qeq_bool l 0) eqn:E.
  - apply Qeq_bool_iff in E. contradiction.
  - apply Qeq_bool_iff in Hg. now rewrite Hg.
Qed.

Lemma rsiOf_general (g l : Q) :
  ~ l == 0 -> ~ g == 0 -> rsiOf g l = 100 - 100 / (1 + g / l).
Proof.
  intros Hl Hg. unfold rsiOf.
  destruct (Qeq_bool l 0) eqn:El.
  - apply Qeq_bool_iff in El. contradiction.
  - destruct (Qeq_bool g 0) eqn:Eg; [|reflexivity].
    apply Qeq_bool_iff in Eg. contradiction.
Qed.

Lemma rsiOf_in_range (g l : Q) : 0 <= g -> 0 <= l -> in_range (rsiOf g l).
Proof.
  intros Hg Hl. unfold rsiOf, in_range.
  destruct (Qeq_bool l 0) eqn:El.
  - destruct (Qltb 0 g); lra.
  - destruct (Qeq_bool g 0) eqn:Eg; [lra|].
    assert (~ l == 0) by (intro C; apply Qeq_bool_iff in C; congruence).
    assert (~ g == 0) by (intro C; apply Qeq_bool_iff in C; congruence).
    destruct (rsi_general_strict g l); lra.
Qed.

Lemma inject_Z_pos (n : Z) : (0 < n)%Z -> 0 < inject_Z n.
Proof. intro H. unfold Qlt; simpl. lia. Qed.

Lemma inject_Z_nonneg (n : Z) : (0 <= n)%Z -> 0 <= inject_Z n.
Proof. intro H. unfold Qle; simpl. lia. Qed.

Lemma alpha_bounds (n : Z) : (2 <= n)%Z -> 0 < 1 / inject_Z n /\ 1 / inject_Z n <= 1.
Proof.
  intro H.
  assert (Hn : 0 < inject_Z n) by (apply inject_Z_pos; lia).
  assert (H2 : 2 <= inject_Z n) by (unfold Qle; simpl; lia).
  split.
  - apply Qlt_shift_div_l; lra.
  - apply Qle_shift_div_r; lra.
Qed.

Lemma simple_mean_nonneg (a x : Q) (n : Z) :
  0 <= a -> 0 <= x -> (1 <= n)%Z ->
  0 <= (a * inject_Z (n - 1) + x) / inject_Z n.
Proof.
  intros Ha Hx Hn.
  assert (0 < inject_Z n) by (apply inject_Z_pos; lia).
  assert (0 <= inject_Z (n - 1)) by (apply inject_Z_nonneg; lia).
  assert (0 <= a * inject_Z (n - 1)) by (apply Qmult_le_0_compat; assumption).
  apply Qle_shift_div_l; lra.
Qed.

Lemma ewma_nonneg (a x al : Q) :
  0 <= a -> 0 <= x -> 0 < al -> al <= 1 -> 0 <= a * (1 - al) + x * al.
Proof.
  intros Ha Hx H0 H1.
  assert (0 <= a * (1 - al)) by (apply Qmult_le_0_compat; lra).
  assert (0 <= x * al) by (apply Qmult_le_0_compat; lra).
  lra.
Qed.

Lemma new_wf (n : Z) (r : t) : new n = Some r -> wf r.
Proof.
  unfold new. destruct (n <? 2)%Z eqn:E; [discriminate|].
  intro H; inversion H; subst; clear H. apply Z.ltb_ge in E.
  unfold wf; simpl.
  split; [lra|]. split; [lra|]. split; [lia|]. split; [lia|].
  split; [reflexivity|]. discriminate.
Qed.

Lemma update_wf (r : t) (x : Q) :
  wf r -> wf (fst (update r x)) /\ in_range (snd (update r x)).
Proof.
  intros (Hg & Hl & Hc & Hlen & Hal & Hv).
  unfold update. destruct (prevValue r) as [prev|].
  - cbv zeta. cbn [fst snd].
    set (gain := qmax (x - prev) 0).
    set (loss := qmax (- (x - prev)) 0).
    assert (Hgain : 0 <= gain) by apply qmax_r.
    assert (Hloss : 0 <= loss) by apply qmax_r.
    destruct (alpha_bounds (length r) Hlen) as [Ha0 Ha1].
    set (g := if (updateCount r + 1 <=? length r)%Z then _ else _).
    set (l := if (updateCount r + 1 <=? length r)%Z then _ else _).
    assert (Hg' : 0 <= g).
    { subst g. destruct (updateCount r + 1 <=? length r)%Z.
      - apply simple_mean_nonneg; auto; lia.
      - rewrite Hal. apply ewma_nonneg; auto. }
    assert (Hl' : 0 <= l).
    { subst l. destruct (updateCount r + 1 <=? length r)%Z.
      - apply simple_mean_nonneg; auto; lia.
      - rewrite Hal. apply ewma_nonneg; auto. }
    pose proof (rsiOf_in_range g l Hg' Hl') as Hr.
    split; [|exact Hr].
    unfold wf; simpl.
    split; [exact Hg'|]. split; [exact Hl'|]. split; [lia|].
    split; [exact Hlen|]. split; [exact Hal|].
    intros v Hsome. inversion Hsome; subst. exact Hr.
  - simpl. split; [|unfold in_range; lra].
    unfold wf; simpl.
    split; [exact Hg|]. split; [exact Hl|]. split; [lia|].
    split; [exact Hlen|]. split; [exact Hal|].
    intros v Hsome. inversion Hsome; subst. unfold in_range; lra.
Qed.

Lemma run_in_range (xs : list Q) :
  forall r, wf r ->
    wf (fst (RSI_run r xs)) /\ Forall in_range (snd (RSI_run r xs)).
Proof.
  induction xs as [|x rest IH]; intros r Hr; simpl.
  - split; [assumption|constructor].
  - destruct (update_wf r x Hr) as [Hw Ho].
    destruct (update r x) as [r1 out]. simpl in Hw, Ho.
    destruct (IH r1 Hw) as [Hw2 Ho2].
    destruct (RSI_run r1 rest) as [r2 outs]. simpl in *.
    split; [assumption|constructor; assumption].
Qed.

(** C10.  An RSI of length at least 2 can be constructed, and on every
    sequence of numbers every value returned by [update], and the value
    stored, lies between 0 and 100, the bounds included: the first update
    returns 50; every later update returns [rsiOf] of the new averages,
    which is 100 when the average loss is 0 and the average gain positive,
    50 when both are 0, 0 when only the average gain is 0, and otherwise
    [100 - 100 / (1 + avgGain / avgLoss)], between 0 and 100. *)
Theorem rsi_outputs_between_0_and_100 (n : Z) :
  (2 <= n)%Z ->
  exists r0, new n = Some r0 /\
    (forall xs,
        Forall in_range (snd (RSI_run r0 xs)) /\
        (forall v, rsiValue (fst (RSI_run r0 xs)) = Some v -> in_range v)) /\
    (forall x, snd (update r0 x) = 50) /\
    (forall r x prev, prevValue r = Some prev ->
        snd (update r x)
        = rsiOf (avgGain (fst (update r x))) (avgLoss (fst (update r x)))) /\
    (forall g l, l == 0 -> 0 < g -> rsiOf g l = 100) /\
    (forall g l, l == 0 -> ~ 0 < g -> rsiOf g l = 50) /\
    (forall g l, ~ l == 0 -> g == 0 -> rsiOf g l = 0) /\
    (forall g l, 0 < g -> 0 < l ->
        rsiOf g l = 100 - 100 / (1 + g / l) /\ in_range (rsiOf g l)).
Proof.
  intro Hn.
  assert (Hnew : new n = Some (mk 0 0 None n (1 / inject_Z n) false None 0)).
  { unfold new. destruct (n <? 2)%Z eqn:E; [apply Z.ltb_lt in E; lia|reflexivity]. }
  eexists; split; [exact Hnew|].
  pose proof (new_wf _ _ Hnew) as Hwf.
  split; [|split; [|split; [|split; [|split; [|split]]]]].
  - intro xs. destruct (run_in_range xs _ Hwf) as [(_ & _ & _ & _ & _ & H) Ho].
    split; assumption.
  - intro x. reflexivity.
  - intros r x prev Hp. unfold update. rewrite Hp. reflexivity.
  - apply rsiOf_loss_zero_gain.
  - apply rsiOf_loss_zero_flat.
  - apply rsiOf_gain_zero.
  - intros g l Hg Hl. rewrite rsiOf_general by lra.
    split; [reflexivity|].
    destruct (rsi_general_strict g l Hg Hl). unfold in_range. lra.
Qed.

End RSIProofs.

Section ADXProofs.
Import ADX.

Lemma new_cold (n : Z) (a : t) : new n = Some a -> adx_cold a.
Proof.
  unfold new. destruct (n <? 2)%Z eqn:E; [discriminate|].
  apply Z.ltb_ge in E. intro H; inversion H; subst; clear H.
  unfold adx_cold; simpl. split; [reflexivity|]. split; [lia|].
  split; [reflexivity|lia].
Qed.

Ltac cold_fields :=
  cbn [fst snd adxValue length dxValues updateCount].

Lemma update_cold (a : t) (h l c : Q) :
  adx_cold a ->
  adx_cold (fst (update a h l c)) /\ snd (update a h l c) = None /\
  length (fst (update a h l c)) = length a /\
  (updateCount a <= updateCount (fst (update a h l c))
   <= updateCount a + 1)%Z.
Proof.
  intros (Hv & Hlen & Hdx & Hc). unfold update.
  destruct (prevHigh a) as [pH|], (prevLow a) as [pL|], (prevClose a) as [pC|];
    try solve [unfold adx_cold; cold_fields;
               repeat (split; try assumption; try reflexivity; try lia)].
  cbv zeta.
  destruct (updateCount a + 1 <? length a + 1)%Z eqn:Elt.
  - apply Z.ltb_lt in Elt. unfold adx_cold; cold_fields.
    split; [|split; [reflexivity|split; [reflexivity|lia]]].
    split; [exact Hv|]. split; [exact Hlen|]. split; [|lia].
    intros _. apply Hdx. lia.
  - apply Z.ltb_ge in Elt.
    destruct (updateCount a + 1 =? length a + 1)%Z eqn:Eeq.
    + apply Z.eqb_eq in Eeq.
      rewrite Hdx by lia.
      change (len (push [] ?x)) with 1%Z.
      destruct (length a <=? 1)%Z eqn:E1; [apply Z.leb_le in E1; lia|].
      unfold adx_cold; cold_fields.
      split; [|split; [exact Hv|split; [reflexivity|lia]]].
      split; [exact Hv|]. split; [exact Hlen|]. split; [|lia].
      intros Hle. lia.
    + apply Z.eqb_neq in Eeq. rewrite Hv.
      unfold adx_cold; cold_fields.
      split; [|split; [reflexivity|split; [reflexivity|lia]]].
      split; [reflexivity|]. split; [exact Hlen|]. split; [|lia].
      intros Hle. lia.
Qed.

Lemma run_cold (xs : list HLC) :
  forall a, adx_cold a -> adx_cold (ADX_run a xs).
Proof.
  induction xs as [|[[h l] c] rest IH]; intros a Ha; simpl.
  - exact Ha.
  - apply IH. unfold ADX_step. apply update_cold. exact Ha.
Qed.

End ADXProofs.

Section EngineProofs.
Import PeachHybridEngine.

Lemma checkV1System_frame (e : t) (p f m s mf ms : Q) (r : option Q) :
  let e' := fst (checkV1System e p f m s mf ms r) in
  adx e' = adx e /\ v2RsiHistory e' = v2RsiHistory e /\
  volumeHistory e' = volumeHistory e /\ position e' = position e /\
  config e' = config e.
Proof.
  unfold checkV1System. destruct r as [rsi|]; [|cbn; auto].
  destruct (v1BarsSinceLastSignal e <? minBarsBetween (v1 (config e)))%Z;
    [cbn; auto|].
  destruct (negb (priceMoveMet e p)); [cbn; auto|].
  cbv zeta.
  destruct (longLookOf _ _ _ _ _ _ _ && negb (v1LastLongLook e));
    [cbn; auto|].
  destruct (shortLookOf _ _ _ _ _ _ _ && negb (v1LastShortLook e));
    cbn; auto.
Qed.

Lemma len_push {A : Type} (l : list A) (x : A) : len (push l x) = (len l + 1)%Z.
Proof. unfold len, push. rewrite length_app, Nat2Z.inj_add. reflexivity. Qed.

Lemma len_shift {A : Type} (l : list A) :
  l <> [] -> len (shift l) = (len l - 1)%Z.
Proof.
  destruct l; [congruence|]. intros _. unfold len, shift.
  cbn [tl List.length]. rewrite Nat2Z.inj_succ. lia.
Qed.

Lemma len_nonneg {A : Type} (l : list A) : (0 <= len l)%Z.
Proof. unfold len. lia. Qed.

Lemma update_fields (e : t) (bar : SyntheticBar) :
  let e' := fst (update e bar) in
  adx e' = fst (ADX.update (adx e) (high bar) (low bar) (close bar)) /\
  v2RsiHistory e' =
    (let h0 := push (v2RsiHistory e) (snd (RSI.update (v2Rsi e) (close bar))) in
     if (2 <? len h0)%Z then shift h0 else h0) /\
  position e' = position e /\ config e' = config e.
Proof.
  unfold update.
  destruct (EMA.update (v1EmaFast e) (close bar)) as [f1 v1f].
  destruct (EMA.update (v1EmaMid e) (close bar)) as [m1 v1m].
  destruct (EMA.update (v1EmaSlow e) (close bar)) as [s1 v1s].
  destruct (EMA.update (v1EmaMicroFast e) (close bar)) as [mf v1mf].
  destruct (EMA.update (v1EmaMicroSlow e) (close bar)) as [ms v1ms].
  destruct (RSI.update (v1Rsi e) (close bar)) as [r1 v1r].
  destruct (EMA.update (v2EmaFast e) (close bar)) as [f2 v2f].
  destruct (EMA.update (v2EmaMid e) (close bar)) as [m2 v2m].
  destruct (EMA.update (v2EmaSlow e) (close bar)) as [s2 v2s].
  destruct (RSI.update (v2Rsi e) (close bar)) as [r2 v2r].
  destruct (ADX.update (adx e) (high bar) (low bar) (close bar)) as [a o].
  cbv zeta.
  match goal with
  | |- context [checkV1System ?e1 ?p ?f ?m ?s ?x ?y ?r] =>
      pose proof (checkV1System_frame e1 p f m s x y r) as H;
      destruct (checkV1System e1 p f m s x y r) as [e2 sg]
  end.
  cbn [fst snd] in *. destruct H as (Ha & Hh & _ & Hp & Hc).
  destruct sg; cbn [fst snd]; rewrite Ha, Hh, Hp, Hc; cbn; auto.
Qed.

Ltac destruct_news :=
  repeat match goal with
         | |- context [EMA.new ?x] =>
             destruct (EMA.new x); try (cbn; discriminate)
         | |- context [RSI.new ?x] =>
             destruct (RSI.new x); try (cbn; discriminate)
         end.

Lemma new_inv (c : PeachConfig) (e : t) : new c = Some e -> engine_inv e.
Proof.
  unfold new. destruct_news.
  destruct (ADX.new 14) as [a|] eqn:Ea; [|discriminate].
  intro H; inversion H; subst; clear H.
  split; [|split]; cbn.
  - exact (new_cold 14 a Ea).
  - lia.
  - unfold ADX.new in Ea. cbn in Ea. inversion Ea. reflexivity.
Qed.

Lemma update_inv (e : t) (bar : SyntheticBar) :
  engine_inv e -> engine_inv (fst (update e bar)).
Proof.
  intros (Ha & Hh & Hn). destruct (update_fields e bar) as (Ea & Eh & _ & _).
  split; [|split].
  - rewrite Ea. apply update_cold. exact Ha.
  - rewrite Eh. cbv zeta.
    set (h0 := push (v2RsiHistory e) _).
    assert (Hl : len h0 = (len (v2RsiHistory e) + 1)%Z) by apply len_push.
    destruct (2 <? len h0)%Z eqn:E.
    + rewrite len_shift; [lia|].
      intro C. rewrite C in Hl. pose proof (len_nonneg (v2RsiHistory e)).
      unfold len in Hl at 1. simpl in Hl. lia.
    + apply Z.ltb_ge in E. exact E.
  - rewrite Ea.
    destruct (update_cold (adx e) (high bar) (low bar) (close bar) Ha)
      as (_ & _ & Hl & _).
    rewrite Hl. exact Hn.

Qed.

Lemma engine_call_inv (e : t) (c : EngineCall) :
  engine_inv e -> engine_inv (engine_call e c).
Proof.
  destruct c; simpl.
  - apply update_inv.
  - intros H; exact H.
Qed.

Lemma engine_run_inv (cs : list EngineCall) :
  forall e, engine_inv e -> engine_inv (engine_run e cs).
Proof.
  induction cs as [|c rest IH]; intros e He; simpl.
  - exact He.
  - apply IH. apply engine_call_inv. exact He.
Qed.

Lemma cold_allows (e : t) (thr : Q) :
  adx_cold (adx e) -> shouldAllowTrading e thr = true.
Proof.
  intros (Hv & _). unfold shouldAllowTrading, ADX.isReady. now rewrite Hv.
Qed.

Lemma short_history_no_exit (e : t) (bar : SyntheticBar) :
  (len (v2RsiHistory e) <= 2)%Z -> checkExitConditions e bar = noExit.
Proof.
  intro H. unfold checkExitConditions.
  destruct (position e) as [[| |]|]; try reflexivity;
    (destruct (3 <=? len (v2RsiHistory e))%Z eqn:E;
     [apply Z.leb_le in E; lia|reflexivity]).
Qed.

(** On every sequence of calls the ADX of the hybrid engine keeps the length
    14 and the value null, so the regime gate is open at every threshold. *)
Lemma regime_gate_always_open
    (c : PeachConfig) (e0 : t) (calls : list EngineCall) :
  new c = Some e0 ->
  ADX.length (adx (engine_run e0 calls)) = 14%Z /\
  ADX.value (adx (engine_run e0 calls)) = None /\
  ADX.isReady (adx (engine_run e0 calls)) = false /\
  forall threshold, shouldAllowTrading (engine_run e0 calls) threshold = true.
Proof.
  intro Hnew.
  pose proof (engine_run_inv calls e0 (new_inv c e0 Hnew)) as (Hc & _ & Hn).
  split; [exact Hn|].
  destruct Hc as (Hv & Hrest).
  split; [exact Hv|]. split.
  - unfold ADX.isReady. now rewrite Hv.
  - intro thr. apply cold_allows. split; assumption.
Qed.

(** C1.  In every state a hybrid engine can reach from its constructor by
    calls of [update] and [setPosition], [v2RsiHistory] holds at most two
    samples, so [checkExitConditions], which asks for three, reports
    [shouldExit = false] with the empty reason for every bar, whatever the
    position side and the last RSI samples are. *)
Theorem exit_detector_never_fires
    (c : PeachConfig) (e0 : t) (calls : list EngineCall) (bar : SyntheticBar) :
  new c = Some e0 ->
  (len (v2RsiHistory (engine_run e0 calls)) <= 2)%Z /\
  checkExitConditions (engine_run e0 calls) bar = noExit.
Proof.
  intro Hnew.
  pose proof (engine_run_inv calls e0 (new_inv c e0 Hnew)) as (_ & Hh & _).
  split; [exact Hh|]. apply short_history_no_exit. exact Hh.
Qed.

End EngineProofs.

Section ADXCount.
Import ADX.

Lemma update_primed (a : t) (x : HLC) : primed (ADX_step a x).
Proof.
  destruct x as [[h l] c]. unfold ADX_step, update.
  destruct (prevHigh a), (prevLow a), (prevClose a);
    try (cbn; repeat split; discriminate).
  cbv zeta. destruct (updateCount a + 1 <? length a + 1)%Z;
    cbn [fst]; unfold primed; cbn [prevHigh prevLow prevClose];
    repeat split; discriminate.
Qed.

Lemma update_counts (a : t) (x : HLC) :
  primed a -> updateCount (ADX_step a x) = (updateCount a + 1)%Z.
Proof.
  intros (Hh & Hl & Hc). destruct x as [[h l] c]. unfold ADX_step, update.
  destruct (prevHigh a); [|congruence].
  destruct (prevLow a); [|congruence].
  destruct (prevClose a); [|congruence].
  cbv zeta. destruct (updateCount a + 1 <? length a + 1)%Z; reflexivity.
Qed.

Lemma run_counts (xs : list HLC) :
  forall a, primed a -> updateCount (ADX_run a xs) = (updateCount a + len xs)%Z.
Proof.
  induction xs as [|x rest IH]; intros a Ha.
  - simpl. unfold len; simpl. lia.
  - change (ADX_run a (x :: rest)) with (ADX_run (ADX_step a x) rest).
    rewrite IH by apply update_primed.
    rewrite update_counts by assumption.
    unfold len. cbn [List.length]. rewrite Nat2Z.inj_succ. lia.
Qed.

(** C2.  An ADX can only be constructed with a length of at least 2; after
    the first sample, which only primes the previous values, [updateCount]
    counts the samples, and the ADX value is null after every sequence of
    samples: it is null while [updateCount < 2 * length] and it stays null
    beyond. *)
Theorem adx_value_stays_null (n : Z) (a0 : t) (x : HLC) (xs : list HLC) :
  new n = Some a0 ->
  (2 <= n)%Z /\
  updateCount (ADX_run a0 (x :: xs)) = len xs /\
  value (ADX_run a0 (x :: xs)) = None.
Proof.
  intro Hnew. pose proof (new_cold n a0 Hnew) as Hcold.
  split; [|split].
  - unfold new in Hnew. destruct (n <? 2)%Z eqn:E; [discriminate|].
    now apply Z.ltb_ge in E.
  - change (ADX_run a0 (x :: xs)) with (ADX_run (ADX_step a0 x) xs).
    rewrite run_counts by apply update_primed.
    unfold new in Hnew. destruct (n <? 2)%Z; [discriminate|].
    inversion Hnew; subst. destruct x as [[h l] c]. reflexivity.
  - apply (run_cold (x :: xs) a0 Hcold).
Qed.

End ADXCount.

Section V1Trigger.
Import PeachHybridEngine.

Lemma long_not_short (c : PeachV1Config) (f m s mf ms rsi : Q) :
  longLookOf c f m s mf ms rsi = true -> shortLookOf c f m s mf ms rsi = false.
Proof.
  unfold longLookOf, shortLookOf, bullStackOf, bearStackOf. intro H.
  apply andb_true_iff in H as [H _]. apply andb_true_iff in H as [H _].
  apply andb_true_iff in H as [H _]. apply Qltb_true in H.
  destruct (Qltb f m) eqn:E; [|reflexivity].
  apply Qltb_true in E. lra.
Qed.

Lemma update_staged (e : t) (bar : SyntheticBar) :
  update e bar
  = match snd (v1Check e bar) with
    | Some sg => (fst (v1Check e bar), Some sg)
    | None => (fst (v1Check e bar), v2Check e bar)
    end.
Proof.
  unfold v2Check, v1Check, fed, update.
  destruct (EMA.update (v1EmaFast e) (close bar)) as [f1 v1f].
  destruct (EMA.update (v1EmaMid e) (close bar)) as [m1 v1m].
  destruct (EMA.update (v1EmaSlow e) (close bar)) as [s1 v1s].
  destruct (EMA.update (v1EmaMicroFast e) (close bar)) as [mf v1mf].
  destruct (EMA.update (v1EmaMicroSlow e) (close bar)) as [ms v1ms].
  destruct (RSI.update (v1Rsi e) (close bar)) as [r1 v1r].
  destruct (EMA.update (v2EmaFast e) (close bar)) as [f2 v2f].
  destruct (EMA.update (v2EmaMid e) (close bar)) as [m2 v2m].
  destruct (EMA.update (v2EmaSlow e) (close bar)) as [s2 v2s].
  destruct (RSI.update (v2Rsi e) (close bar)) as [r2 v2r].
  destruct (ADX.update (adx e) (high bar) (low bar) (close bar)) as [a o].
  cbv zeta. cbn [fst snd].
  match goal with
  | |- context [checkV1System ?e1 ?p ?f ?m ?s ?x ?y ?r] =>
      destruct (checkV1System e1 p f m s x y r) as [e2 sg]
  end.
  cbn [fst snd]. destruct sg; reflexivity.
Qed.

Lemma checkV2System_is_v2 (e : t) (p f m s : Q) (rsi : option Q)
    (vol o c : Q) (sg : StrategySignal) :
  checkV2System e p f m s rsi vol o c = Some sg ->
  system sg = Some "v2"%string.
Proof.
  unfold checkV2System. destruct rsi as [rsi|]; [|discriminate].
  destruct (len (v2RsiHistory e) <? 2)%Z; [discriminate|]. cbv zeta.
  repeat match goal with
         | |- (if ?c then _ else _) = _ -> _ => destruct c
         end; intro H; inversion H; reflexivity.
Qed.

Lemma update_v1_part (e : t) (bar : SyntheticBar) :
  fst (update e bar) = fst (v1Check e bar) /\
  (forall sg, is_v1 sg ->
     snd (update e bar) = Some sg <-> snd (v1Check e bar) = Some sg).
Proof.
  rewrite update_staged.
  destruct (snd (v1Check e bar)) as [s1|] eqn:E1; cbn [fst snd].
  - split; [reflexivity|]. intros sg _. reflexivity.
  - split; [reflexivity|]. intros sg Hv1. split; [|discriminate].
    intro H2. exfalso. unfold v2Check in H2.
    apply checkV2System_is_v2 in H2.
    unfold is_v1 in Hv1. congruence.
Qed.

(** C4.  With [minMovePercent = 0.10] and [minBarsBetween = 1], after a V1
    long stamped at price 100: on a bar that closes at 100.05 [update]
    returns no V1 signal and leaves the V1 looks and stamped prices as they
    are, the bar counter one higher; a bar that closes at 100.15 passes the
    min-move filter against the long price, and [update] returns a V1 long
    on it exactly when [longLook] holds on the bar, the last evaluated
    [longLook] was false, and the close has also moved 0.10 percent from the
    short price if one is stamped. *)
Theorem v1_refires_only_on_a_rising_edge (e : t) (bar : SyntheticBar) :
  minMovePercent (v1 (config e)) = 1 # 10 ->
  minBarsBetween (v1 (config e)) = 1%Z ->
  v1LastLongPrice e = 100 ->
  (0 <= v1BarsSinceLastSignal e)%Z ->
  let e' := fst (update e bar) in
  (close bar = 10005 # 100 ->
   (forall sg, snd (update e bar) = Some sg -> ~ is_v1 sg) /\
   v1LastLongLook e' = v1LastLongLook e /\
   v1LastShortLook e' = v1LastShortLook e /\
   v1LastLongPrice e' = 100 /\
   v1LastShortPrice e' = v1LastShortPrice e /\
   v1BarsSinceLastSignal e' = (v1BarsSinceLastSignal e + 1)%Z) /\
  (close bar = 10015 # 100 ->
   moveMet (v1 (config e)) (close bar) (v1LastLongPrice e) = true /\
   ((exists sg, snd (update e bar) = Some sg /\ type sg = long /\ is_v1 sg)
    <->
    longLookAt e bar = true /\ v1LastLongLook e = false /\
    (Qltb 0 (v1LastShortPrice e) = true ->
     moveMet (v1 (config e)) (close bar) (v1LastShortPrice e) = true))).
Proof.
  intros Hmove Hbars Hlong Hsince e'.
  destruct (update_v1_part e bar) as [Hfst Hsnd].
  assert (Hgate : (v1BarsSinceLastSignal (fed e bar)
                   <? minBarsBetween (v1 (config (fed e bar))))%Z = false).
  { change (config (fed e bar)) with (config e).
    change (v1BarsSinceLastSignal (fed e bar))
      with (v1BarsSinceLastSignal e + 1)%Z.
    rewrite Hbars. apply Z.ltb_ge. lia. }
  split; intro Hclose.
  - assert (Hnear : priceMoveMet (fed e bar) (close bar) = false).
    { unfold priceMoveMet, moveMet.
      change (config (fed e bar)) with (config e).
      change (v1LastLongPrice (fed e bar)) with (v1LastLongPrice e).
      rewrite Hlong, Hmove, Hclose.
      destruct (Qltb 0 (v1LastShortPrice (fed e bar))); reflexivity. }
    assert (Hcheck : v1Check e bar = (fed e bar, None)).
    { unfold v1Check, checkV1System. rewrite Hgate, Hnear. reflexivity. }
    split.
    + intros sg Hsg Hv1. apply (Hsnd sg Hv1) in Hsg.
      rewrite Hcheck in Hsg. discriminate.
    + subst e'. rewrite Hfst, Hcheck. cbn [fst].
      repeat apply conj; try reflexivity. exact Hlong.
  - assert (Hfar : moveMet (v1 (config e)) (close bar) (v1LastLongPrice e)
                   = true).
    { unfold moveMet. rewrite Hlong, Hmove, Hclose. reflexivity. }
    split; [exact Hfar|].
    assert (Hmet : priceMoveMet (fed e bar) (close bar)
                   = if Qltb 0 (v1LastShortPrice e)
                     then moveMet (v1 (config e)) (close bar)
                            (v1LastShortPrice e)
                     else true).
    { unfold priceMoveMet.
      change (config (fed e bar)) with (config e).
      change (v1LastLongPrice (fed e bar)) with (v1LastLongPrice e).
      change (v1LastShortPrice (fed e bar)) with (v1LastShortPrice e).
      rewrite Hfar. rewrite Hlong. cbn [Qltb Qle_bool negb].
      destruct (Qltb 0 (v1LastShortPrice e)); reflexivity. }
    assert (Hiff : (exists sg, snd (v1Check e bar) = Some sg /\
                               type sg = long /\ is_v1 sg)
                   <-> longLookAt e bar = true /\ v1LastLongLook e = false /\
                       (Qltb 0 (v1LastShortPrice e) = true ->
                        moveMet (v1 (config e)) (close bar)
                          (v1LastShortPrice e) = true)).
    { unfold v1Check, checkV1System. rewrite Hgate, Hmet.
      change (config (fed e bar)) with (config e).
      change (v1LastLongLook (fed e bar)) with (v1LastLongLook e).
      change (v1LastShortLook (fed e bar)) with (v1LastShortLook e).
      fold (longLookAt e bar).
      destruct (Qltb 0 (v1LastShortPrice e)) eqn:Es.
      - destruct (moveMet (v1 (config e)) (close bar) (v1LastShortPrice e))
          eqn:Em; cbn [negb].
        + cbv zeta.
          destruct (longLookAt e bar) eqn:El;
            destruct (v1LastLongLook e) eqn:Ell; cbn [andb negb].
          * match goal with
            | |- context [if ?c then _ else _] => destruct c
            end; cbn [snd]; split.
            -- intros (sg & H & Ht & _). inversion H; subst. discriminate.
            -- intros (_ & H & _). discriminate.
            -- intros (sg & H & _). discriminate.
            -- intros (_ & H & _). discriminate.
          * cbn [snd]. split; [intros _; auto|].
            intros _. eexists. repeat split.
          * match goal with
            | |- context [if ?c then _ else _] => destruct c
            end; cbn [snd]; split.
            -- intros (sg & H & Ht & _). inversion H; subst. discriminate.
            -- intros (H & _). discriminate.
            -- intros (sg & H & _). discriminate.
            -- intros (H & _). discriminate.
          * match goal with
            | |- context [if ?c then _ else _] => destruct c
            end; cbn [snd]; split.
            -- intros (sg & H & Ht & _). inversion H; subst. discriminate.
            -- intros (H & _). discriminate.
            -- intros (sg & H & _). discriminate.
            -- intros (H & _). discriminate.
        + cbn [snd]. split.
          * intros (sg & H & _). discriminate.
          * intros (_ & _ & H). specialize (H eq_refl). discriminate.
      - cbn [negb]. cbv zeta.
        destruct (longLookAt e bar) eqn:El;
          destruct (v1LastLongLook e) eqn:Ell; cbn [andb negb].
        + match goal with
          | |- context [if ?c then _ else _] => destruct c
          end; cbn [snd]; split.
          * intros (sg & H & Ht & _). inversion H; subst. discriminate.
          * intros (_ & H & _). discriminate.
          * intros (sg & H & _). discriminate.
          * intros (_ & H & _). discriminate.
        + cbn [snd]. split; [intros _; repeat split; discriminate|].
          intros _. eexists. repeat split.
        + match goal with
          | |- context [if ?c then _ else _] => destruct c
          end; cbn [snd]; split.
          * intros (sg & H & Ht & _). inversion H; subst. discriminate.
          * intros (H & _). discriminate.
          * intros (sg & H & _). discriminate.
          * intros (H & _). discriminate.
        + match goal with
          | |- context [if ?c then _ else _] => destruct c
          end; cbn [snd]; split.
          * intros (sg & H & Ht & _). inversion H; subst. discriminate.
          * intros (H & _). discriminate.
          * intros (sg & H & _). discriminate.
          * intros (H & _). discriminate. }
    rewrite <- Hiff. split.
    + intros (sg & H & Ht & Hv). exists sg. repeat split; auto.
      apply (Hsnd sg Hv). exact H.
    + intros (sg & H & Ht & Hv). exists sg. repeat split; auto.
      apply (Hsnd sg Hv). exact H.
Qed.

End V1Trigger.

Section Reconcile.
Import PositionStateManager.

Variable parseFloat : string -> number.

Lemma normalize_flat (r : RestState) :
  value_is (parseFloat (positionAmt r)) 0 ->
  n_side (normalize parseFloat r) = flat /\
  value_is (n_size (normalize parseFloat r)) 0.
Proof.
  intro H. unfold normalize; cbn [n_side n_size].
  destruct (parseFloat (positionAmt r)) as [|a]; [destruct H|].
  cbn [value_is] in H. cbn [nltb nabs value_is].
  assert (Qltb 0 a = false) by (apply Qltb_false; lra).
  assert (Qltb a 0 = false) by (apply Qltb_false; lra).
  rewrite H0, H1. split; [reflexivity|].
  rewrite H. reflexivity.
Qed.

Lemma updateFromRest_flat (m : t) (now : Z) (r : RestState) :
  side (state m) <> flat ->
  value_is (parseFloat (positionAmt r)) 0 ->
  updateFromRest parseFloat m now r
  = (overwrite m now (normalize parseFloat r), true).
Proof.
  intros Hside Hamt. destruct (normalize_flat r Hamt) as [Hflat _].
  unfold updateFromRest. cbv zeta.
  destruct (reconcile _ _); [reflexivity|].
  cbn [n_side]. rewrite Hflat.
  destruct (side (state m)); try reflexivity. congruence.
Qed.

End Reconcile.

Create Rewrite HintDb frame.

Section Orchestrator.
Import BotRunner.

Lemma len_app_plus {A : Type} (l l' : list A) :
  len (l ++ l') = (len l + len l')%Z.
Proof. unfold len. rewrite length_app, Nat2Z.inj_add. reflexivity. Qed.

Lemma entryTimes_app (l l' : list Emitted) :
  entryTimes (l ++ l') = entryTimes l ++ entryTimes l'.
Proof.
  induction l as [|e l IH]; simpl; [reflexivity|].
  destruct (entryTime e); simpl; now rewrite IH.
Qed.

Lemma entries_emit (b : t) (e : Emitted) :
  entries (emit b e)
  = entries b ++ match entryTime e with Some t => [t] | None => [] end.
Proof.
  unfold entries, emit, push; cbn [emitted]. rewrite entryTimes_app.
  simpl. destruct (entryTime e); reflexivity.
Qed.

Lemma core_emit (b : t) (e : Emitted) :
  entryTime e = None -> core (emit b e) = core b.
Proof.
  intro H. unfold core. rewrite entries_emit, H, app_nil_r. reflexivity.
Qed.

Lemma core_log (b : t) (m : string) : core (log b m) = core b.
Proof. apply core_emit. reflexivity. Qed.

Lemma core_with_barBuilder b x : core (with_barBuilder b x) = core b.
Proof. reflexivity. Qed.
Lemma core_with_stateManager b x : core (with_stateManager b x) = core b.
Proof. reflexivity. Qed.
Lemma core_with_orderTracker b x : core (with_orderTracker b x) = core b.
Proof. reflexivity. Qed.
Lemma core_with_tradeStats b x : core (with_tradeStats b x) = core b.
Proof. reflexivity. Qed.
Lemma core_with_position b x : core (with_position b x) = core b.
Proof. reflexivity. Qed.
Lemma core_with_frozen b x u : core (with_frozen b x u) = core b.
Proof. reflexivity. Qed.
Lemma core_with_processedSignals b x : core (with_processedSignals b x) = core b.
Proof. reflexivity. Qed.
Lemma core_with_trailing b h l : core (with_trailing b h l) = core b.
Proof. reflexivity. Qed.
Lemma core_with_balance b x l : core (with_balance b x l) = core b.
Proof. reflexivity. Qed.

Lemma core_engineSetPosition b s : core (engineSetPosition b s) = core b.
Proof.
  unfold engineSetPosition, core, engine_view.
  destruct (engine b) eqn:E; cbn [engine with_engine]; rewrite ?E; reflexivity.
Qed.

Lemma core_logTradeStats b : core (logTradeStats b) = core b.
Proof.
  unfold logTradeStats. destruct (0 <? _)%Z; [apply core_log|reflexivity].
Qed.

#[local] Hint Rewrite core_log core_with_barBuilder
  core_with_stateManager core_with_orderTracker core_with_tradeStats
  core_with_position core_with_frozen core_with_processedSignals
  core_with_trailing core_with_balance core_engineSetPosition
  core_logTradeStats : frame.

Lemma core_closePosition b env why meta :
  core (closePosition b env why meta) = core b.
Proof.
  unfold closePosition.
  destruct (PositionSide_eqb _ flat); [reflexivity|].
  destruct (negb (closeResolves env)); [reflexivity|].
  cbv zeta. rewrite core_emit by reflexivity.
  destruct (TradeStatistics.getRecentTrades _ 1);
    autorewrite with frame; reflexivity.
Qed.

#[local] Hint Rewrite core_closePosition : frame.

Lemma core_protectiveExitsAt b env bar entry :
  core (protectiveExitsAt b env bar entry) = core b.
Proof.
  unfold protectiveExitsAt. cbv zeta.
  set (b1 := match pos_side (position b) with
             | long => _ | short => _ | flat => _ end).
  assert (H1 : core b1 = core b).
  { subst b1. destruct (pos_side (position b)); [| |reflexivity].
    - destruct (highestPrice b); [destruct (Qltb _ _)|]; reflexivity.
    - destruct (lowestPrice b); [destruct (Qltb _ _)|]; reflexivity. }
  clearbody b1.
  repeat match goal with
         | |- context [if ?c then _ else _] => destruct c
         | |- context [match positive ?x with _ => _ end] =>
             destruct (positive x)
         end;
    autorewrite with frame; exact H1.
Qed.

Lemma core_evaluateProtectiveExits b env bar :
  core (evaluateProtectiveExits b env bar) = core b.
Proof.
  unfold evaluateProtectiveExits.
  destruct (sideIs b flat); [reflexivity|].
  destruct (entryPrice (position b)); [|reflexivity].
  destruct (Qeq_bool q 0); [reflexivity|apply core_protectiveExitsAt].
Qed.

Ltac fields :=
  cbn [config flipHistory emitted lastBarCloseTime barCount positionOpenedAt
       engine position stateManager tradingFrozen
       with_barBuilder with_engine with_stateManager with_orderTracker
       with_tradeStats with_position with_flipHistory with_frozen
       with_processedSignals with_barClock with_trailing
       with_positionOpenedAt with_balance emit log recordFlip].

Lemma engineSetPosition_fields b s :
  config (engineSetPosition b s) = config b /\
  flipHistory (engineSetPosition b s) = flipHistory b /\
  emitted (engineSetPosition b s) = emitted b /\
  engine_view (engineSetPosition b s) = engine_view b /\
  lastBarCloseTime (engineSetPosition b s) = lastBarCloseTime b /\
  barCount (engineSetPosition b s) = barCount b /\
  positionOpenedAt (engineSetPosition b s) = positionOpenedAt b /\
  position (engineSetPosition b s) = position b.
Proof.
  unfold engineSetPosition, engine_view.
  destruct (engine b) eqn:E; cbn [engine with_engine]; rewrite ?E;
    repeat split; reflexivity.
Qed.

(** What [enterPosition] does to the gated fields: nothing, or one entry. *)
Lemma enterPosition_cases b env side order :
  side <> flat ->
  let b' := enterPosition b env side order in
  core b' = core b \/
  (config b' = config b /\
   flipHistory b' = flipHistory b ++ [ord_timestamp order] /\
   entries b' = entries b ++ [ord_timestamp order] /\
   lastBarCloseTime b' = lastBarCloseTime b /\
   barCount b' = barCount b /\
   positionOpenedAt b' = barCount b /\
   engine_view b' = engine_view b).
Proof.
  intros Hside b'. subst b'. unfold enterPosition.
  set (b0 := log b "Checking balance before entering position").
  assert (H0 : core b0 = core b) by apply core_log.
  cbv zeta.
  destruct (match mode _ with dry_run => false | live => _ end).
  - left. autorewrite with frame. exact H0.
  - destruct (enterOutcome env).
    + right.
      match goal with
      | |- context [engineSetPosition ?x side] =>
          remember x as bx eqn:Ebx;
          destruct (engineSetPosition_fields bx side)
            as (Ec & Ef & Ee & Ev & El & Eb & Eo & Ep)
      end.
      unfold entries.
      change (engine_view (emit ?x ?e)) with (engine_view x).
      change (engine_view (recordFlip ?x ?e)) with (engine_view x).
      change (engine_view (with_tradeStats ?x ?e)) with (engine_view x).
      fields. rewrite ?Ec, ?Ef, ?Ee, ?Ev, ?El, ?Eb, ?Eo, ?Ep.
      clear Ec Ef Ee Ev El Eb Eo Ep. subst bx. fields.
      unfold push. rewrite entryTimes_app.
      cbn [entryTimes entryTime pos_side openedAt].
      replace (PositionSide_eqb side flat) with false
        by (destruct side; [reflexivity|reflexivity|congruence]).
      subst b0. unfold log. fields. unfold push.
      rewrite entryTimes_app. cbn [entryTimes entryTime]. rewrite app_nil_r.
      repeat split.
    + left. autorewrite with frame. exact H0.
    + left. exact H0.
Qed.

Lemma core_inv b b' :
  core b' = core b ->
  config b' = config b /\ flipHistory b' = flipHistory b /\
  entries b' = entries b /\ lastBarCloseTime b' = lastBarCloseTime b /\
  barCount b' = barCount b /\ positionOpenedAt b' = positionOpenedAt b /\
  engine_view b' = engine_view b.
Proof. unfold core. intro H. inversion H. repeat split; assumption. Qed.

Lemma side_not_flat_cases (s p : PositionSide) :
  s <> flat -> PositionSide_eqb p s = false ->
  PositionSide_eqb p (opposite s) = false -> p = flat.
Proof. destruct s, p; simpl; congruence. Qed.

Lemma core_unentered b x fh : core x = core b -> unentered b x fh.
Proof.
  intro Hx. destruct (core_inv _ _ Hx) as (? & ? & ? & ? & ? & ? & ?).
  unfold unentered. repeat split; auto.
Qed.

Lemma applySignal_cases b env sg bar :
  let b' := applySignal b env sg bar in
  let fh := since (endTime bar - HOUR_MS) (flipHistory b) in
  unentered b b' fh \/
  (entered b b' fh (endTime bar) /\
   (len fh < maxFlipsPerHour (risk (config b)))%Z /\
   pos_side (position b) <> type sg /\
   (pos_side (position b) <> flat ->
    (MIN_HOLD_BARS <= barCount b - positionOpenedAt b)%Z)).
Proof.
  intros b' fh. subst b'. unfold applySignal.
  set (r := risk (config b)).
  destruct (regimeBlocks b).
  { left. apply core_unentered, core_log. }
  cbv zeta.
  set (order := mkOrder _ _ _ _ _ _).
  assert (Hts : ord_timestamp order = endTime bar) by reflexivity.
  clearbody order.
  destruct (type sg) eqn:Etype;
    [| |left; apply core_unentered; reflexivity].
  all: destruct (PositionSide_eqb (pos_side (position b)) _) eqn:Esame;
    [left; apply core_unentered; reflexivity|].
  all: unfold canFlip; cbv zeta;
    change (filter (fun t : Z => (endTime bar - HOUR_MS <=? t)%Z)
                   (flipHistory b)) with fh;
    set (b1 := with_flipHistory b fh);
    change (config (with_flipHistory b fh)) with (config b);
    assert (H1 : config b1 = config b /\ entries b1 = entries b /\
                 lastBarCloseTime b1 = lastBarCloseTime b /\
                 barCount b1 = barCount b /\
                 positionOpenedAt b1 = positionOpenedAt b /\
                 engine_view b1 = engine_view b /\
                 flipHistory b1 = fh /\ position b1 = position b)
      by (repeat split; reflexivity);
    destruct H1 as (Hc1 & He1 & Hl1 & Hb1 & Ho1 & Hv1 & Hf1 & Hp1);
    assert (Hq1 : forall x, core x = core b1 -> unentered b x fh)
      by (intros x Hx;
          destruct (core_inv _ _ Hx) as (? & ? & ? & ? & ? & ? & ?);
          unfold unentered; repeat split; try congruence; right; congruence);
    destruct (maxFlipsPerHour (risk (config b)) <=? len fh)%Z eqn:Ebudget;
    cbn [negb];
    [left; apply Hq1; apply core_log|];
    apply Z.leb_gt in Ebudget.
  all: destruct (PositionSide_eqb (pos_side (position b1)) (opposite _)) eqn:Eopp.
  all: try (destruct (barCount b1 - positionOpenedAt b1 <? MIN_HOLD_BARS)%Z
              eqn:Ehold; [left; apply Hq1; apply core_log|];
            apply Z.ltb_ge in Ehold).
  all: match goal with
       | |- context [enterPosition ?x ?en ?s ?od] =>
           let Hx := fresh "Hx" in
           assert (Hx : core x = core b1)
             by (try apply core_closePosition; reflexivity);
           let Hs := fresh "Hs" in
           assert (Hs : s <> flat) by discriminate;
           destruct (enterPosition_cases x en s od Hs) as [Hn|Hy];
           [left; apply Hq1; congruence|];
           destruct (core_inv _ _ Hx) as (Xc & Xf & Xe & Xl & Xb & Xo & Xv);
           destruct Hy as (Yc & Yf & Ye & Yl & Yb & Yo & Yv);
           right
       end.
  all: rewrite Hts in *.
  all: unfold entered; repeat split; try congruence.
  all: try exact Ebudget.
  all: try (intro C; rewrite C in Esame; discriminate Esame).
  all: try (intros _; rewrite <- Hb1, <- Ho1; exact Ehold).
  all: intro Hnf; exfalso; apply Hnf; rewrite Hp1 in Eopp;
    eapply side_not_flat_cases; [|exact Esame|exact Eopp]; discriminate.
Qed.

Lemma since_app c l l' : since c (l ++ l') = since c l ++ since c l'.
Proof. apply filter_app. Qed.

Lemma since_since c c' l : (c <= c')%Z -> since c' (since c l) = since c' l.
Proof.
  intro H. unfold since. induction l as [|x l IH]; simpl; [reflexivity|].
  destruct (c <=? x)%Z eqn:E1; simpl.
  - destruct (c' <=? x)%Z; now rewrite IH.
  - destruct (c' <=? x)%Z eqn:E2; [|exact IH].
    apply Z.leb_le in E2. apply Z.leb_gt in E1. lia.
Qed.

Lemma filter_len_le {A : Type} (p q : A -> bool) (l : list A) :
  (forall x, p x = true -> q x = true) ->
  (len (filter p l) <= len (filter q l))%Z.
Proof.
  intro H. unfold len. induction l as [|x l IH]; simpl; [lia|].
  destruct (p x) eqn:E.
  - rewrite (H x E). simpl. lia.
  - destruct (q x); simpl; lia.
Qed.

Lemma window_ok_entry m ts t :
  window_ok m ts -> (len (since (t - HOUR_MS) ts) < m)%Z ->
  window_ok m (ts ++ [t]).
Proof.
  intros Hw Hb w. rewrite filter_app, len_app_plus.
  - cbn [filter]. destruct (in_window w t) eqn:E.
    + unfold in_window in E. apply andb_true_iff in E as [E1 E2].
      apply Z.leb_le in E1, E2.
      assert (len (filter (in_window w) ts) <= len (since (t - HOUR_MS) ts))%Z.
      { apply filter_len_le. intros x Hx. unfold in_window in Hx.
        apply andb_true_iff in Hx as [H1 _]. apply Z.leb_le in H1.
        apply Z.leb_le. lia. }
      change (len [t]) with 1%Z. lia.
    + change (len []) with 0%Z. specialize (Hw w). lia.
Qed.

Lemma flip_inv_unentered b b' :
  unentered b b' (since (lastBarCloseTime b - HOUR_MS) (flipHistory b)) ->
  flip_inv b -> flip_inv b'.
Proof.
  intros (Hc & He & Hl & _ & _ & _ & Hf) (Hw & cutoff & Hcut & Hfh).
  unfold flip_inv. rewrite Hc, He, Hl. split; [exact Hw|].
  destruct Hf as [Hf|Hf]; rewrite Hf.
  - exists cutoff. split; assumption.
  - exists (lastBarCloseTime b - HOUR_MS)%Z. split; [lia|].
    rewrite Hfh. apply since_since. exact Hcut.
Qed.

Lemma flip_inv_core b b' : core b' = core b -> flip_inv b -> flip_inv b'.
Proof. intro H. apply flip_inv_unentered, core_unentered, H. Qed.

Lemma flip_inv_entered b b' :
  entered b b' (since (lastBarCloseTime b - HOUR_MS) (flipHistory b))
          (lastBarCloseTime b) ->
  (len (since (lastBarCloseTime b - HOUR_MS) (flipHistory b))
   < maxFlipsPerHour (risk (config b)))%Z ->
  flip_inv b -> flip_inv b'.
Proof.
  intros (Hc & Hf & He & Hl & _) Hb (Hw & cutoff & Hcut & Hfh).
  assert (Hfh' : since (lastBarCloseTime b - HOUR_MS) (flipHistory b)
                 = since (lastBarCloseTime b - HOUR_MS) (entries b))
    by (rewrite Hfh; apply since_since; exact Hcut).
  unfold flip_inv. rewrite Hc, He, Hl, Hf. split.
  - apply window_ok_entry; [exact Hw|]. rewrite <- Hfh'. lia.
  - exists (lastBarCloseTime b - HOUR_MS)%Z. split; [lia|].
    rewrite since_app, Hfh'. f_equal.
    unfold since. cbn [filter].
    replace (lastBarCloseTime b - HOUR_MS <=? lastBarCloseTime b)%Z with true;
      [reflexivity|].
    symmetry. apply Z.leb_le. unfold HOUR_MS. lia.
Qed.

Lemma applySignal_flip_inv b env sg bar :
  endTime bar = lastBarCloseTime b ->
  flip_inv b -> flip_inv (applySignal b env sg bar).
Proof.
  intros Hts Hinv.
  destruct (applySignal_cases b env sg bar) as [Hn|(Hy & Hb & _)];
    rewrite Hts in *.
  - eapply flip_inv_unentered; eassumption.
  - eapply flip_inv_entered; eassumption.
Qed.

Lemma engine_ok_view b b' :
  engine_view b' = engine_view b -> engine_ok b -> engine_ok b'.
Proof.
  unfold engine_view, engine_ok, engine_inv.
  destruct (engine b'), (engine b); try discriminate; auto.
  intro H; inversion H as [[Ha Hh]]. rewrite Ha, Hh. auto.
Qed.

Lemma applySignal_config b env sg bar :
  config (applySignal b env sg bar) = config b.
Proof.
  destruct (applySignal_cases b env sg bar) as [(Hc & _)|((Hc & _) & _)];
    exact Hc.
Qed.

Lemma engine_ok_core b b' : core b' = core b -> engine_ok b -> engine_ok b'.
Proof. intro H. apply engine_ok_view. apply (core_inv _ _ H). Qed.

Lemma applySignal_engine_ok b env sg bar :
  engine_ok b -> engine_ok (applySignal b env sg bar).
Proof.
  apply engine_ok_view.
  destruct (applySignal_cases b env sg bar)
    as [(_ & _ & _ & _ & _ & Hv & _)|((_ & _ & _ & _ & _ & _ & Hv) & _)];
    exact Hv.
Qed.

(** The bar clock moves on: the cut-off stays behind it. *)
Lemma flip_inv_barClock b last count :
  (lastBarCloseTime b <= last)%Z ->
  flip_inv b -> flip_inv (with_barClock b last count).
Proof.
  intros Hle (Hw & cutoff & Hcut & Hfh). split; [exact Hw|].
  exists cutoff. split; [cbn [lastBarCloseTime with_barClock]; lia|exact Hfh].
Qed.

Lemma good_core c b b' : core b' = core b -> good c b -> good c b'.
Proof.
  intros H (Hc & Hf & He). split; [|split].
  - destruct (core_inv _ _ H) as (Hc' & _). congruence.
  - eapply flip_inv_core; eassumption.
  - eapply engine_ok_core; eassumption.
Qed.

Lemma core_logIndicators b : core (logIndicators b) = core b.
Proof.
  unfold logIndicators. destruct (_ =? 0)%Z; [|reflexivity].
  destruct (engine b) eqn:E; apply core_log.
Qed.

Lemma flip_inv_same b b' :
  config b' = config b -> entries b' = entries b ->
  lastBarCloseTime b' = lastBarCloseTime b ->
  flipHistory b' = flipHistory b -> flip_inv b -> flip_inv b'.
Proof.
  intros Hc He Hl Hf. unfold flip_inv. rewrite Hc, He, Hl, Hf. auto.
Qed.

Lemma updateEngine_good c b bar :
  good c b ->
  good c (fst (updateEngine b bar)) /\
  lastBarCloseTime (fst (updateEngine b bar)) = lastBarCloseTime b.
Proof.
  intros (Hc & Hf & He). unfold updateEngine, good, engine_ok in *.
  destruct (engine b) as [we|pe] eqn:E.
  - destruct (WatermellonEngine.update we (close bar)) as [e' sg].
    cbn [fst]. split; [split; [exact Hc|split; [|exact I]]|reflexivity].
    eapply flip_inv_same; [..|exact Hf]; reflexivity.
  - pose proof (update_inv pe bar He) as Hu.
    destruct (PeachHybridEngine.update pe bar) as [e' sg].
    cbn [fst] in *. split; [split; [exact Hc|split; [|exact Hu]]|reflexivity].
    eapply flip_inv_same; [..|exact Hf]; reflexivity.
Qed.

Lemma dispatchSignal_good c b env bar signal :
  lastBarCloseTime b = endTime bar ->
  good c b -> good c (dispatchSignal b env bar signal).
Proof.
  intros Hl Hg. unfold dispatchSignal.
  destruct signal as [sg|]; [|exact Hg].
  cbv zeta. destruct (existsb _ _); [exact Hg|].
  match goal with
  | |- good c (applySignal ?x _ _ _) =>
      assert (Hx : core x = core b)
        by (rewrite core_log, core_emit by reflexivity; reflexivity);
      pose proof (good_core _ _ _ Hx Hg) as (Hc & Hf & He);
      assert (Hlx : endTime bar = lastBarCloseTime x)
        by (destruct (core_inv _ _ Hx) as (_ & _ & _ & H & _); congruence)
  end.
  split; [|split].
  - rewrite applySignal_config. exact Hc.
  - apply applySignal_flip_inv; assumption.
  - apply applySignal_engine_ok; assumption.
Qed.

Lemma handleBarClose_good c b env bar :
  good c b -> good c (handleBarClose b env bar).
Proof.
  intros Hg. unfold handleBarClose.
  destruct (endTime bar <=? lastBarCloseTime b)%Z eqn:Estale; [exact Hg|].
  apply Z.leb_gt in Estale.
  set (b1 := with_barClock b (endTime bar) (barCount b + 1)).
  assert (Hg1 : good c b1).
  { destruct Hg as (Hc & Hf & He). split; [exact Hc|split].
    - apply flip_inv_barClock; [lia|exact Hf].
    - exact He. }
  assert (Hl1 : lastBarCloseTime b1 = endTime bar) by reflexivity.
  clearbody b1. cbv zeta.
  destruct (barCount b1 <=? WARMUP_BARS)%Z.
  { destruct (barCount b1 =? 1)%Z;
      match goal with
      | |- context [if ?c then _ else _] => destruct c
      end;
      (eapply good_core; [|exact Hg1]); autorewrite with frame; reflexivity. }
  destruct (tradingFrozen b1 && (now env <? freezeUntil b1)%Z).
  { eapply good_core; [|exact Hg1]. apply core_log. }
  set (b2 := if tradingFrozen b1 then _ else b1).
  assert (H2 : core b2 = core b1)
    by (subst b2; destruct (tradingFrozen b1); reflexivity).
  assert (Hg2 : good c b2) by (eapply good_core; eassumption).
  assert (Hl2 : lastBarCloseTime b2 = endTime bar)
    by (destruct (core_inv _ _ H2) as (_ & _ & _ & Hl & _); congruence).
  clearbody b2. clear H2 Hg1 Hl1 b1 Hg Estale.
  destruct (PeachHybridEngine.shouldExit _).
  { eapply good_core; [|exact Hg2]. autorewrite with frame. reflexivity. }
  destruct (updateEngine_good c b2 bar Hg2) as [Hg3 Hl3].
  destruct (updateEngine b2 bar) as [b3 signal]. cbn [fst] in *.
  apply dispatchSignal_good.
  - destruct (core_inv _ _ (core_logIndicators b3)) as (_ & _ & _ & Hl & _).
    congruence.
  - eapply good_core; [apply core_logIndicators|exact Hg3].
Qed.

Lemma handleTick_good c b env tick :
  good c b -> good c (handleTick b env tick).
Proof.
  intro Hg. unfold handleTick.
  destruct (VirtualBarBuilder.pushTick (barBuilder b) tick) as [bb closed].
  destruct closed as [bar|].
  - apply handleBarClose_good.
    eapply good_core; [|exact Hg].
    rewrite core_evaluateProtectiveExits. reflexivity.
  - eapply good_core; [|exact Hg]. reflexivity.
Qed.

Section WithParseFloat.

Variable parseFloat : string -> number.

Lemma core_onRestPosition b env p :
  core (onRestPosition parseFloat b env p) = core b.
Proof.
  unfold onRestPosition.
  destruct (PositionStateManager.updateFromRest _ _ _ _) as [sm ok].
  destruct ok; cbn [negb].
  - destruct (negb (neqb _ _)); reflexivity.
  - destruct (PositionStateManager.shouldFreezeTrading _).
    + unfold freezeTrading. autorewrite with frame. reflexivity.
    + autorewrite with frame. reflexivity.
Qed.

Lemma core_onRestBalance b env u : core (onRestBalance b env u) = core b.
Proof.
  unfold onRestBalance. destruct u; [|apply core_log].
  destruct (_ || _); autorewrite with frame; reflexivity.
Qed.

Lemma step_good c b ev : good c b -> good c (step parseFloat b ev).
Proof.
  intro Hg. destruct ev; cbn [step].
  - apply handleTick_good, Hg.
  - eapply good_core; [apply core_onRestPosition|exact Hg].
  - eapply good_core; [apply core_onRestBalance|exact Hg].
  - eapply good_core; [|exact Hg]. unfold unfreeze.
    autorewrite with frame. reflexivity.
  - eapply good_core; [|exact Hg]. reflexivity.
Qed.

Lemma run_good c evs :
  forall b, good c b -> good c (run parseFloat b evs).
Proof.
  induction evs as [|ev rest IH]; intros b Hg; [exact Hg|].
  apply IH, step_good, Hg.
Qed.

End WithParseFloat.

Lemma new_good c now saved b0 : new c now saved = Some b0 -> good c b0.
Proof.
  unfold new.
  destruct (VirtualBarBuilder.new _) as [bb|]; [|discriminate].
  destruct (match strategy c with
            | watermellon wc => _ | peach_hybrid pc => _ end)
    as [eng|] eqn:Eeng; [|discriminate].
  intro H; inversion H; subst b0; clear H.
  match goal with
  | |- good c (loadWarmState ?x now saved) =>
      assert (Hcore : core (loadWarmState x now saved) =
                      (c, [], [], lastBarCloseTime (loadWarmState x now saved),
                       0%Z, 0%Z, engine_view x))
        by (unfold loadWarmState; destruct saved;
            [rewrite core_log|]; reflexivity);
      set (b0 := loadWarmState x now saved) in *;
      assert (Hx : engine_ok x)
  end.
  { unfold engine_ok; cbn [engine].
    destruct (strategy c) as [wc|pc].
    - destruct (WatermellonEngine.new wc); inversion Eeng. exact I.
    - destruct (PeachHybridEngine.new pc) as [e|] eqn:En; inversion Eeng.
      eapply new_inv; eassumption. }
  clearbody b0. cbv delta [core] in Hcore. cbv beta in Hcore.
  injection Hcore as Hc Hf He Hb Ho Hv.
  split; [exact Hc|split].
  - unfold flip_inv. rewrite Hc, He, Hf. split.
    + intro w. simpl. unfold len. simpl. lia.
    + exists (lastBarCloseTime b0 - HOUR_MS)%Z. split; [lia|reflexivity].
  - eapply engine_ok_view; [|exact Hx]. exact Hv.
Qed.

End Orchestrator.

Section OrchestratorClaims.
Import BotRunner.

#[local] Hint Rewrite core_log core_with_barBuilder
  core_with_stateManager core_with_orderTracker core_with_tradeStats
  core_with_position core_with_frozen core_with_processedSignals
  core_with_trailing core_with_balance core_engineSetPosition
  core_logTradeStats core_closePosition : frame.









Lemma lastBarCloseTime_evaluateProtectiveExits b env bar :
  lastBarCloseTime (evaluateProtectiveExits b env bar) = lastBarCloseTime b.
Proof.
  destruct (core_inv _ _ (core_evaluateProtectiveExits b env bar))
    as (_ & _ & _ & H & _).
  exact H.
Qed.

(** C6.  A closed bar with [endTime <= lastBarCloseTime] is a no-op of
    [handleBarClose]; a tick that closes such a bar changes the orchestrator
    by the bar builder and by [evaluateProtectiveExits] only, and with a flat
    position (or without an entry price) by the bar builder only. *)
Theorem stale_bar_close_is_skipped b env bar :
  (endTime bar <= lastBarCloseTime b)%Z ->
  handleBarClose b env bar = b /\
  (forall tick bb,
      VirtualBarBuilder.pushTick (barBuilder b) tick = (bb, Some bar) ->
      handleTick b env tick
      = evaluateProtectiveExits (with_barBuilder b bb) env bar /\
      (pos_side (position b) = flat \/ entryPrice (position b) = None ->
       handleTick b env tick = with_barBuilder b bb)).
Proof.
  intro Hstale.
  assert (Hclose : forall x, lastBarCloseTime x = lastBarCloseTime b ->
                             handleBarClose x env bar = x).
  { intros x Hx. unfold handleBarClose. rewrite Hx.
    apply Z.leb_le in Hstale. rewrite Hstale. reflexivity. }
  split; [apply Hclose; reflexivity|].
  intros tick bb Hpush.
  assert (Htick : handleTick b env tick
                  = evaluateProtectiveExits (with_barBuilder b bb) env bar).
  { unfold handleTick. rewrite Hpush. apply Hclose.
    rewrite lastBarCloseTime_evaluateProtectiveExits. reflexivity. }
  split; [exact Htick|].
  intro Hflat. rewrite Htick. unfold evaluateProtectiveExits, sideIs.
  cbn [position with_barBuilder].
  destruct Hflat as [Hf|Hf]; rewrite Hf; [reflexivity|].
  destruct (PositionSide_eqb _ flat); reflexivity.
Qed.

Lemma since_two t0 :
  since (t0 + 1200000 - HOUR_MS) [t0; (t0 + 600000)%Z] = [t0; (t0 + 600000)%Z].
Proof.
  unfold since, HOUR_MS. cbn [filter].
  replace (t0 + 1200000 - 60 * 60 * 1000 <=? t0)%Z with true
    by (symmetry; apply Z.leb_le; lia).
  replace (t0 + 1200000 - 60 * 60 * 1000 <=? t0 + 600000)%Z with true
    by (symmetry; apply Z.leb_le; lia).
  reflexivity.
Qed.

Section WithParseFloat.
Variable parseFloat : string -> number.

(** C3.  The ADX of a hybrid engine has length 14, and on every sequence of
    calls its value is null, [isReady] is false and [shouldAllowTrading] is
    true at every threshold; in every state the orchestrator reaches from
    its constructor the regime filter of [applySignal] lets the signal
    pass. *)
Theorem regime_gate_never_blocks :
  (forall c e0 calls,
      PeachHybridEngine.new c = Some e0 ->
      ADX.length (PeachHybridEngine.adx (engine_run e0 calls)) = 14%Z /\
      ADX.value (PeachHybridEngine.adx (engine_run e0 calls)) = None /\
      ADX.isReady (PeachHybridEngine.adx (engine_run e0 calls)) = false /\
      forall threshold,
        PeachHybridEngine.shouldAllowTrading (engine_run e0 calls) threshold
        = true) /\
  (forall c now saved b0 evs,
      new c now saved = Some b0 ->
      regimeBlocks (run parseFloat b0 evs) = false).
Proof.
  split; [exact regime_gate_always_open|].
  intros c now saved b0 evs Hnew.
  pose proof (run_good parseFloat c evs b0 (new_good c now saved b0 Hnew))
    as (_ & _ & He).
  unfold engine_ok in He. unfold regimeBlocks.
  destruct (engine (run parseFloat b0 evs)) as [we|pe]; [reflexivity|].
  destruct He as (Hcold & _).
  rewrite (cold_allows pe _ Hcold). cbn. apply andb_false_r.
Qed.

(** C8.  When the local side is not flat and the exchange's position amount
    reads as the number 0, [updateFromRest] returns true with the local state
    flat, of size 0, and the failure counter 0; the orchestrator's handler then also
    clears the pending order and sets its position flat. *)
Theorem exchange_flat_overrides_local
    (m : PositionStateManager.t) (b : t) (env : Env) (now : Z)
    (r : PositionStateManager.RestState) (p : AsterPositionResponse) :
  (PositionStateManager.side (PositionStateManager.state m) <> flat ->
   value_is (parseFloat (PositionStateManager.positionAmt r)) 0 ->
   let '(m', ok) := PositionStateManager.updateFromRest parseFloat m now r in
   ok = true /\
   PositionStateManager.side (PositionStateManager.state m') = flat /\
   value_is (PositionStateManager.size (PositionStateManager.state m')) 0 /\
   PositionStateManager.reconciliationFailures m' = 0%Z) /\
  (PositionStateManager.side (PositionStateManager.state (stateManager b))
   <> flat ->
   value_is (parseFloat (positionAmt p)) 0 ->
   let b' := onRestPosition parseFloat b env p in
   PositionStateManager.pendingOrder
     (PositionStateManager.state (stateManager b')) = None /\
   PositionStateManager.side (PositionStateManager.state (stateManager b'))
   = flat /\
   PositionStateManager.reconciliationFailures (stateManager b') = 0%Z /\
   pos_side (position b') = flat /\ value_is (pos_size (position b')) 0).
Proof.
  split.
  - intros Hside Hamt.
    rewrite (updateFromRest_flat parseFloat m now r Hside Hamt).
    destruct (normalize_flat parseFloat r Hamt) as [Hf Hs].
    cbv beta iota. unfold PositionStateManager.overwrite.
    cbn [PositionStateManager.state PositionStateManager.side
         PositionStateManager.size PositionStateManager.reconciliationFailures].
    repeat split; auto.
  - intros Hside Hamt b'. subst b'. unfold onRestPosition.
    set (r' := PositionStateManager.mkRest _ _ _).
    assert (Hamt' : value_is (parseFloat (PositionStateManager.positionAmt r')) 0)
      by exact Hamt.
    rewrite (updateFromRest_flat parseFloat _ (BotRunner.now env) r' Hside Hamt').
    destruct (normalize_flat parseFloat r' Hamt') as [Hf Hs].
    cbn [negb].
    assert (Hz : neqb (parseFloat (positionAmt p)) 0 = true).
    { destruct (parseFloat (positionAmt p)) as [|a]; [destruct Hamt|].
      apply Qeq_bool_iff. exact Hamt. }
    rewrite Hz. cbn [negb].
    unfold PositionStateManager.clearPendingOrder,
      PositionStateManager.withPending, PositionStateManager.getState,
      PositionStateManager.overwrite.
    cbn [stateManager position with_stateManager with_position pos_side
         pos_size PositionStateManager.state PositionStateManager.side
         PositionStateManager.size PositionStateManager.pendingOrder
         PositionStateManager.reconciliationFailures].
    repeat split; auto.
Qed.

End WithParseFloat.

End OrchestratorClaims.

Lemma fresh_engine_new :
  PeachHybridEngine.new test_peach_config = Some fresh_engine.
Proof. reflexivity. Qed.

Lemma fresh_bot_new : BotRunner.new hybrid_app 0 None = Some fresh_bot.
Proof. reflexivity. Qed.

Lemma warm_long_bot_new :
  BotRunner.new hybrid_app 0 (Some warm_long) = Some warm_long_bot.
Proof. reflexivity. Qed.

Lemma warm_flat_bot_new :
  BotRunner.new hybrid_app 0 (Some warm_flat) = Some warm_flat_bot.
Proof. reflexivity. Qed.

Lemma bar_builder_emits_well_formed_bars_witness :
  Forall bar_ok
    (snd (VirtualBarBuilder.feed (VirtualBarBuilder.mk None 30000) test_ticks))
  /\ consecutive_ok
       (snd (VirtualBarBuilder.feed (VirtualBarBuilder.mk None 30000)
               test_ticks)).
Proof.
  apply (bar_builder_emits_well_formed_bars 30000
           (VirtualBarBuilder.mk None 30000) test_ticks).
  - reflexivity.
  - unfold test_ticks, tick_ok.
    repeat (constructor; [cbn [price size]; split;
                          [reflexivity|try exact I; discriminate]|]).
    constructor.
  - cbn. repeat split; discriminate.
Defined.

Lemma rsi_outputs_between_0_and_100_witness :
  exists r0, RSI.new 14 = Some r0 /\
    Forall in_range (snd (RSI_run r0 test_closes)).
Proof.
  destruct (rsi_outputs_between_0_and_100 14) as (r0 & Hnew & Hrun & _).
  - discriminate.
  - exists r0. split; [exact Hnew|]. apply Hrun.
Defined.

Lemma adx_value_stays_null_witness :
  (2 * 2 <= ADX.updateCount (ADX_run (fresh_adx 2) adx_samples))%Z /\
  ADX.value (ADX_run (fresh_adx 2) adx_samples) = None.
Proof.
  destruct (adx_value_stays_null 2 (fresh_adx 2) (101, 99, 100)
              (tl adx_samples) eq_refl) as (_ & Hcount & Hnull).
  split; [|exact Hnull].
  change ((101, 99, 100) :: tl adx_samples) with adx_samples in Hcount.
  rewrite Hcount. discriminate.
Defined.

Lemma exit_detector_never_fires_witness :
  map Qred (snd (RSI_run (fresh_rsi 14) [100; 101; 100; 99]))
  = [50; 100; 50; 100 # 3] /\
  PeachHybridEngine.position (engine_run fresh_engine falling_calls)
  = Some long /\
  (len (PeachHybridEngine.v2RsiHistory (engine_run fresh_engine falling_calls))
   <= 2)%Z /\
  PeachHybridEngine.checkExitConditions (engine_run fresh_engine falling_calls)
    (one_tick_bar 4 99) = PeachHybridEngine.noExit.
Proof.
  split; [vm_compute; reflexivity|].
  split; [vm_compute; reflexivity|].
  exact (exit_detector_never_fires test_peach_config fresh_engine
           falling_calls (one_tick_bar 4 99) fresh_engine_new).
Defined.

Lemma v1_refires_only_on_a_rising_edge_witness :
  (forall sg,
      snd (PeachHybridEngine.update
             (engine_after fresh_engine (firstn 2 s2_bars))
             (one_tick_bar 3 (10005 # 100))) = Some sg -> ~ is_v1 sg) /\
  PeachHybridEngine.v1BarsSinceLastSignal
    (engine_after fresh_engine (firstn 3 s2_bars)) = 1%Z /\
  PeachHybridEngine.v1LastLongLook
    (engine_after fresh_engine (firstn 3 s2_bars)) = true /\
  ~ (exists sg,
        snd (PeachHybridEngine.update
               (engine_after fresh_engine (firstn 3 s2_bars))
               (one_tick_bar 4 (10015 # 100))) = Some sg /\
        type sg = long /\ is_v1 sg).
Proof.
  assert (G1 : PeachHybridEngine.minMovePercent
                 (PeachHybridEngine.v1
                    (PeachHybridEngine.config
                       (engine_after fresh_engine (firstn 2 s2_bars))))
               = 1 # 10) by (vm_compute; reflexivity).
  assert (G2 : PeachHybridEngine.minBarsBetween
                 (PeachHybridEngine.v1
                    (PeachHybridEngine.config
                       (engine_after fresh_engine (firstn 2 s2_bars))))
               = 1%Z) by (vm_compute; reflexivity).
  assert (G3 : PeachHybridEngine.v1LastLongPrice
                 (engine_after fresh_engine (firstn 2 s2_bars)) = 100)
    by (vm_compute; reflexivity).
  assert (G4 : (0 <= PeachHybridEngine.v1BarsSinceLastSignal
                       (engine_after fresh_engine (firstn 2 s2_bars)))%Z)
    by (vm_compute; discriminate).
  assert (H1 : PeachHybridEngine.minMovePercent
                 (PeachHybridEngine.v1
                    (PeachHybridEngine.config
                       (engine_after fresh_engine (firstn 3 s2_bars))))
               = 1 # 10) by (vm_compute; reflexivity).
  assert (H2 : PeachHybridEngine.minBarsBetween
                 (PeachHybridEngine.v1
                    (PeachHybridEngine.config
                       (engine_after fresh_engine (firstn 3 s2_bars))))
               = 1%Z) by (vm_compute; reflexivity).
  assert (H3 : PeachHybridEngine.v1LastLongPrice
                 (engine_after fresh_engine (firstn 3 s2_bars)) = 100)
    by (vm_compute; reflexivity).
  assert (H4 : (0 <= PeachHybridEngine.v1BarsSinceLastSignal
                       (engine_after fresh_engine (firstn 3 s2_bars)))%Z)
    by (vm_compute; discriminate).
  assert (H5 : PeachHybridEngine.v1LastLongLook
                 (engine_after fresh_engine (firstn 3 s2_bars)) = true)
    by (vm_compute; reflexivity).
  pose proof (v1_refires_only_on_a_rising_edge
                (engine_after fresh_engine (firstn 2 s2_bars))
                (one_tick_bar 3 (10005 # 100)) G1 G2 G3 G4) as [Hnear _].
  destruct (Hnear eq_refl) as [Hnone _].
  split; [exact Hnone|].
  split; [vm_compute; reflexivity|].
  split; [exact H5|].
  pose proof (v1_refires_only_on_a_rising_edge
                (engine_after fresh_engine (firstn 3 s2_bars))
                (one_tick_bar 4 (10015 # 100)) H1 H2 H3 H4) as [_ Hfar].
  destruct (Hfar eq_refl) as [_ Hiff].
  intro Hex. apply Hiff in Hex. destruct Hex as (_ & Hll & _).
  rewrite H5 in Hll. discriminate Hll.
Defined.

Lemma stale_bar_close_is_skipped_witness :
  let b1 := BotRunner.handleTick warm_flat_bot calm stale_first in
  BotRunner.handleBarClose b1 calm stale_bar = b1 /\
  BotRunner.handleTick b1 calm stale_second
  = BotRunner.with_barBuilder b1
      (VirtualBarBuilder.mk (Some (VirtualBarBuilder.createBar stale_second))
                            30000).
Proof.
  intro b1.
  destruct (stale_bar_close_is_skipped b1 calm stale_bar) as [Hclose Htick].
  - vm_compute. discriminate.
  - split; [exact Hclose|].
    refine (proj2 (Htick stale_second _ _) _).
    + vm_compute. reflexivity.
    + left. vm_compute. reflexivity.
Defined.

Lemma regime_gate_never_blocks_witness :
  PeachHybridEngine.shouldAllowTrading (engine_run fresh_engine falling_calls)
    25 = true /\
  BotRunner.regimeBlocks (bot_run fresh_bot reentry_ticks) = false.
Proof.
  unfold bot_run.
  pose proof (regime_gate_never_blocks DecimalReader.parseFloat)
    as [Hengine Hbot].
  split.
  - exact (proj2 (proj2 (proj2 (Hengine test_peach_config fresh_engine
                                  falling_calls fresh_engine_new))) 25).
  - exact (Hbot hybrid_app 0%Z None fresh_bot reentry_ticks fresh_bot_new).
Defined.


Lemma exchange_flat_overrides_local_witness :
  snd (PositionStateManager.updateFromRest DecimalReader.parseFloat
         long_local 7 (PositionStateManager.mkRest "0" "0" "0")) = true /\
  PositionStateManager.pendingOrder
    (PositionStateManager.state
       (BotRunner.stateManager
          (BotRunner.onRestPosition DecimalReader.parseFloat
             (BotRunner.with_stateManager fresh_bot long_local) calm
             flat_response))) = None.
Proof.
  destruct (exchange_flat_overrides_local DecimalReader.parseFloat
              long_local (BotRunner.with_stateManager fresh_bot long_local)
              calm 7 (PositionStateManager.mkRest "0" "0" "0") flat_response)
    as [Hm Hb].
  split.
  - assert (H1 : PositionStateManager.side
                   (PositionStateManager.state long_local) <> flat)
      by discriminate.
    assert (H2 : value_is (DecimalReader.parseFloat "0") 0)
      by (vm_compute; reflexivity).
    specialize (Hm H1 H2).
    destruct (PositionStateManager.updateFromRest _ _ _ _) as [m' ok].
    exact (proj1 Hm).
  - refine (proj1 (Hb _ _)); [discriminate|vm_compute; reflexivity].
Defined.

(** C10, as stated, fails in the arithmetic the code runs on: an RSI of
    length 14 that is fed the closes 1000, 1001, 1000, 999, ... returns
    exactly 0 at its 475th update while both running averages are positive,
    so the value of the general formula is not strictly between 0 and 100;
    an input that is not a number makes the next value [NaN], and so do the
    finite inputs [2^1023, -2^1023, 2^1023], whose differences overflow;
    [NaN] is not between 0 and 100 either. *)
Lemma rsi_is_exactly_0_between_positive_averages :
  let r := RSIDouble_run (fresh_rsi_double 14) long_decline in
  RSIDouble.new 14 = Some (fresh_rsi_double 14) /\
  RSIDouble.updateCount r = 475%Z /\
  RSIDouble.rsiValue r = Some 0%float /\
  PrimFloat.ltb 0%float (RSIDouble.avgGain r) = true /\
  PrimFloat.ltb 0%float (RSIDouble.avgLoss r) = true /\
  PrimFloat.is_nan
    (snd (RSIDouble.update
            (RSIDouble_run (fresh_rsi_double 14) [100%float])
            PrimFloat.nan)) = true /\
  PrimFloat.is_nan
    (snd (RSIDouble.update
            (RSIDouble_run (fresh_rsi_double 14)
               [0x1p+1023%float; (-0x1p+1023)%float])
            0x1p+1023%float)) = true.
Proof.
  vm_compute. repeat split.
Qed.

(** C4, as stated, fails: after the V1 long at 100.00 and the suppressed
    bar at 100.05, the bar at 100.15 satisfies [longLook] and [update]
    returns no signal. *)
Lemma s2_long_look_at_100_15_emits_nothing :
  engine_signals fresh_engine s2_bars
  = [None; Some "v1-long"%string; None; None] /\
  PeachHybridEngine.v1LastLongPrice (engine_after fresh_engine (firstn 2 s2_bars))
  = 100 /\
  v1LongLookNow (engine_after fresh_engine (firstn 3 s2_bars)) = true /\
  v1LongLookNow (engine_after fresh_engine s2_bars) = true /\
  snd (PeachHybridEngine.update (engine_after fresh_engine (firstn 3 s2_bars))
         (one_tick_bar 4 (10015 # 100))) = None.
Proof. vm_compute. repeat split; reflexivity. Qed.


(** C6, as stated, fails: a tick closes a bar that ended before
    [lastBarCloseTime], and the emergency stop closes the long position. *)
Lemma stale_bar_still_triggers_emergency_stop :
  let b1 := BotRunner.handleTick warm_long_bot calm stale_first in
  snd (VirtualBarBuilder.pushTick (BotRunner.barBuilder b1) stale_second)
  = Some stale_bar /\
  (endTime stale_bar <= BotRunner.lastBarCloseTime b1)%Z /\
  pos_side (BotRunner.position b1) = long /\
  pos_side (BotRunner.position (BotRunner.handleTick b1 calm stale_second))
  = flat /\
  BotRunner.handleTick b1 calm stale_second
  <> BotRunner.with_barBuilder b1
       (fst (VirtualBarBuilder.pushTick (BotRunner.barBuilder b1) stale_second)).
Proof.
  vm_compute. repeat split; try reflexivity; discriminate.
Qed.

(** * Further properties *)

Section EMAProofs.
Import EMA.

Lemma ema_update_initialized (e : t) (x : Q) :
  initialized (fst (update e x)) = true /\
  current (fst (update e x)) = snd (update e x).
Proof.
  unfold update. destruct (negb (initialized e)); cbn; split; reflexivity.
Qed.

Lemma last_cons_default {A : Type} (l : list A) :
  forall a d, last (a :: l) d = last l a.
Proof.
  induction l as [|y l IH]; intros a d; [reflexivity|].
  change (last (a :: y :: l) d) with (last (y :: l) d).
  rewrite (IH y d), (IH y a). reflexivity.
Qed.

Lemma EMA_run_cons (e : t) (x : Q) (xs : list Q) :
  EMA_run e (x :: xs)
  = (fst (EMA_run (fst (update e x)) xs),
     snd (update e x) :: snd (EMA_run (fst (update e x)) xs)).
Proof.
  simpl. destruct (update e x) as [e1 o]. cbn [fst snd].
  destruct (EMA_run e1 xs). reflexivity.
Qed.

Lemma ema_run_initialized (xs : list Q) :
  forall e, initialized e = true -> initialized (fst (EMA_run e xs)) = true.
Proof.
  induction xs as [|x xs IH]; intros e H; [exact H|].
  rewrite EMA_run_cons. cbn [fst]. apply IH. apply ema_update_initialized.
Qed.

Lemma ema_run_value (xs : list Q) :
  forall e,
    value (fst (EMA_run e xs))
    = last (map Some (snd (EMA_run e xs))) (value e).
Proof.
  induction xs as [|x xs IH]; intro e; simpl; [reflexivity|].
  pose proof (ema_update_initialized e x) as [Hi Hc].
  destruct (update e x) as [e1 out] eqn:Eu. cbn [fst snd] in *.
  specialize (IH e1).
  destruct (EMA_run e1 xs) as [e2 outs] eqn:Er. cbn [fst snd] in *.
  rewrite IH. cbn [map].
  assert (Hv : value e1 = Some out).
  { unfold value. rewrite Hi, Hc. reflexivity. }
  rewrite Hv. symmetry. apply last_cons_default.
Qed.

Lemma ema_ready_after_first_update (n : Z) (xs : list Q) :
  match new n with
  | None => (n <= 0)%Z
  | Some e =>
      (0 < n)%Z /\
      value (fst (EMA_run e xs)) = last (map Some (snd (EMA_run e xs))) None /\
      isReady (fst (EMA_run e xs)) = negb (len xs =? 0)%Z
  end.
Proof.
  unfold new. destruct (n <=? 0)%Z eqn:E.
  - apply Z.leb_le in E. exact E.
  - apply Z.leb_gt in E. split; [exact E|]. split.
    + rewrite ema_run_value. reflexivity.
    + destruct xs as [|x xs]; [reflexivity|].
      change (len (x :: xs) =? 0)%Z with (Z.of_nat (S (List.length xs)) =? 0)%Z.
      replace (Z.of_nat (S (List.length xs)) =? 0)%Z with false
        by (symmetry; apply Z.eqb_neq; lia).
      cbn [negb]. unfold isReady. rewrite EMA_run_cons. cbn [fst].
      apply ema_run_initialized. apply ema_update_initialized.
Qed.

End EMAProofs.

Section RSIMore.
Import RSI.

Lemma RSI_run_cons (r : t) (x : Q) (xs : list Q) :
  RSI_run r (x :: xs)
  = (fst (RSI_run (fst (update r x)) xs),
     snd (update r x) :: snd (RSI_run (fst (update r x)) xs)).
Proof.
  simpl. destruct (update r x) as [r1 o]. cbn [fst snd].
  destruct (RSI_run r1 xs). reflexivity.
Qed.

Lemma rsi_seen_update (n k : Z) (r : t) (x : Q) :
  (2 <= n)%Z -> (0 <= k)%Z -> rsi_seen n k r ->
  rsi_seen n (k + 1) (fst (update r x)).
Proof.
  intros Hn Hk (Hlen & H0 & H1). unfold update.
  destruct (prevValue r) as [prev|] eqn:Ep.
  - assert (Hk1 : (1 <= k)%Z).
    { destruct (Z.eq_dec k 0) as [E|E]; [|lia].
      destruct (H0 E) as [C _]. discriminate. }
    destruct (H1 Hk1) as (_ & Hc & Hr).
    cbv zeta. cbn [fst]. unfold rsi_seen.
    cbn [length prevValue ready updateCount].
    split; [exact Hlen|]. split; [intro; lia|]. intros _.
    split; [discriminate|]. split; [lia|].
    rewrite Hc, Hlen, Hr.
    destruct (n <=? k)%Z eqn:E1, (n <=? k + 1)%Z eqn:E2; cbn; try reflexivity.
    apply Z.leb_le in E1. apply Z.leb_gt in E2. lia.
  - assert (Hk0 : k = 0%Z).
    { destruct (Z.eq_dec k 0) as [E|E]; [exact E|].
      destruct (H1 ltac:(lia)) as (C & _). contradiction. }
    destruct (H0 Hk0) as [_ Hr]. subst k.
    cbn [fst]. unfold rsi_seen. cbn [length prevValue ready updateCount].
    split; [exact Hlen|]. split; [intro; lia|]. intros _.
    split; [discriminate|]. split; [reflexivity|].
    rewrite Hr. symmetry. apply Z.leb_gt. lia.
Qed.

Lemma rsi_seen_run (n : Z) (xs : list Q) :
  (2 <= n)%Z ->
  forall k r, (0 <= k)%Z -> rsi_seen n k r ->
    rsi_seen n (k + len xs) (fst (RSI_run r xs)).
Proof.
  intro Hn. induction xs as [|x xs IH]; intros k r Hk H.
  - change (len (@nil Q)) with 0%Z. rewrite Z.add_0_r. exact H.
  - rewrite RSI_run_cons. cbn [fst].
    replace (k + len (x :: xs))%Z with (k + 1 + len xs)%Z
      by (unfold len; cbn [List.length]; lia).
    apply IH; [lia|]. apply rsi_seen_update; assumption.
Qed.

Lemma rsi_ready_after_length_updates (n : Z) (xs : list Q) :
  match new n with
  | None => (n < 2)%Z
  | Some r => isReady (fst (RSI_run r xs)) = (n <=? len xs)%Z
  end.
Proof.
  unfold new. destruct (n <? 2)%Z eqn:E.
  - apply Z.ltb_lt in E. exact E.
  - apply Z.ltb_ge in E.
    set (r := mk _ _ _ _ _ _ _ _).
    assert (H : rsi_seen n 0 r).
    { unfold rsi_seen, r; cbn. split; [reflexivity|].
      split; [intros _; split; reflexivity|]. intro; lia. }
    pose proof (rsi_seen_run n xs E 0%Z r (Z.le_refl 0) H) as (_ & H0 & H1).
    rewrite Z.add_0_l in H0, H1. unfold isReady.
    destruct (Z.eq_dec (len xs) 0) as [E0|E0].
    + destruct (H0 E0) as [_ Hr]. rewrite Hr, E0.
      symmetry. apply Z.leb_gt. lia.
    + assert (0 <= len xs)%Z by (unfold len; lia).
      destruct (H1 ltac:(lia)) as (_ & _ & Hr). exact Hr.
Qed.

Lemma qmax_pos (d : Q) : 0 < d -> qmax d 0 = d.
Proof.
  intro H. unfold qmax. destruct (Qle_bool d 0) eqn:E; [|reflexivity].
  apply Qle_bool_iff in E. lra.
Qed.

Lemma qmax_neg (d : Q) : d <= 0 -> qmax d 0 = 0.
Proof.
  intro H. unfold qmax. destruct (Qle_bool d 0) eqn:E; [reflexivity|].
  apply Qle_bool_false in E. lra.
Qed.

Lemma mean_step_zero (a : Q) (n : Z) :
  a == 0 -> (a * inject_Z (n - 1) + 0) / inject_Z n == 0.
Proof. intro H. rewrite H. unfold Qdiv. ring. Qed.

Lemma ewma_step_zero (a al : Q) : a == 0 -> a * (1 - al) + 0 * al == 0.
Proof. intro H. rewrite H. ring. Qed.

Lemma mean_step_pos (a x : Q) (n : Z) :
  0 <= a -> 0 < x -> (1 <= n)%Z ->
  0 < (a * inject_Z (n - 1) + x) / inject_Z n.
Proof.
  intros Ha Hx Hn.
  assert (0 < inject_Z n) by (apply inject_Z_pos; lia).
  assert (0 <= inject_Z (n - 1)) by (apply inject_Z_nonneg; lia).
  assert (0 <= a * inject_Z (n - 1)) by (apply Qmult_le_0_compat; assumption).
  apply Qlt_shift_div_l; lra.
Qed.

Lemma ewma_step_pos (a x al : Q) :
  0 <= a -> 0 < x -> 0 < al -> al <= 1 -> 0 < a * (1 - al) + x * al.
Proof.
  intros Ha Hx H0 H1.
  assert (0 <= a * (1 - al)) by (apply Qmult_le_0_compat; lra).
  assert (0 < x * al) by (apply Qmult_lt_0_compat; lra).
  lra.
Qed.

Lemma update_rising (r : t) (p x : Q) :
  no_loss r -> prevValue r = Some p -> p < x ->
  no_loss (fst (update r x)) /\ prevValue (fst (update r x)) = Some x /\
  snd (update r x) = 100.
Proof.
  intros (Hl & Hg & Hc & Hn & Ha) Hp Hx. unfold update. rewrite Hp.
  cbv zeta. cbn [fst snd].
  rewrite (qmax_pos (x - p)) by lra. rewrite (qmax_neg (- (x - p))) by lra.
  destruct (alpha_bounds (length r) Hn) as [A0 A1]. rewrite <- Ha in A0, A1.
  set (g' := if (updateCount r + 1 <=? length r)%Z then _ else _).
  set (l' := if (updateCount r + 1 <=? length r)%Z then _ else _).
  assert (Hl' : l' == 0).
  { unfold l'. destruct (updateCount r + 1 <=? length r)%Z.
    - apply mean_step_zero; exact Hl.
    - apply ewma_step_zero; exact Hl. }
  assert (Hg' : 0 < g').
  { unfold g'. destruct (updateCount r + 1 <=? length r)%Z.
    - apply mean_step_pos; [exact Hg|lra|lia].
    - apply ewma_step_pos; [exact Hg|lra|exact A0|exact A1]. }
  split; [|split; [reflexivity|apply rsiOf_loss_zero_gain; assumption]].
  unfold no_loss. cbn [avgLoss avgGain updateCount length alpha].
  split; [exact Hl'|]. split; [lra|]. split; [lia|]. split; assumption.
Qed.

Lemma update_falling (r : t) (p x : Q) :
  no_gain r -> prevValue r = Some p -> x < p ->
  no_gain (fst (update r x)) /\ prevValue (fst (update r x)) = Some x /\
  snd (update r x) = 0.
Proof.
  intros (Hg & Hl & Hc & Hn & Ha) Hp Hx. unfold update. rewrite Hp.
  cbv zeta. cbn [fst snd].
  rewrite (qmax_neg (x - p)) by lra. rewrite (qmax_pos (- (x - p))) by lra.
  destruct (alpha_bounds (length r) Hn) as [A0 A1]. rewrite <- Ha in A0, A1.
  set (g' := if (updateCount r + 1 <=? length r)%Z then _ else _).
  set (l' := if (updateCount r + 1 <=? length r)%Z then _ else _).
  assert (Hg' : g' == 0).
  { unfold g'. destruct (updateCount r + 1 <=? length r)%Z.
    - apply mean_step_zero; exact Hg.
    - apply ewma_step_zero; exact Hg. }
  assert (Hl' : 0 < l').
  { unfold l'. destruct (updateCount r + 1 <=? length r)%Z.
    - apply mean_step_pos; [exact Hl|lra|lia].
    - apply ewma_step_pos; [exact Hl|lra|exact A0|exact A1]. }
  split; [|split; [reflexivity|apply rsiOf_gain_zero; [lra|assumption]]].
  unfold no_gain. cbn [avgLoss avgGain updateCount length alpha].
  split; [exact Hg'|]. split; [lra|]. split; [lia|]. split; assumption.
Qed.

Lemma run_rising (xs : list Q) :
  forall r p, no_loss r -> prevValue r = Some p -> rising_from p xs ->
    snd (RSI_run r xs) = repeat 100 (List.length xs).
Proof.
  induction xs as [|x xs IH]; intros r p Hr Hp Hxs; [reflexivity|].
  destruct Hxs as [Hx Hrest]. rewrite RSI_run_cons. cbn [snd].
  destruct (update_rising r p x Hr Hp Hx) as (Hr' & Hp' & Ho).
  rewrite Ho, (IH _ x Hr' Hp' Hrest). reflexivity.
Qed.

Lemma run_falling (xs : list Q) :
  forall r p, no_gain r -> prevValue r = Some p -> falling_from p xs ->
    snd (RSI_run r xs) = repeat 0 (List.length xs).
Proof.
  induction xs as [|x xs IH]; intros r p Hr Hp Hxs; [reflexivity|].
  destruct Hxs as [Hx Hrest]. rewrite RSI_run_cons. cbn [snd].
  destruct (update_falling r p x Hr Hp Hx) as (Hr' & Hp' & Ho).
  rewrite Ho, (IH _ x Hr' Hp' Hrest). reflexivity.
Qed.

(** X2.  The RSI saturates: on a series whose every value is above the
    one before it a new RSI returns 50 and then 100 at every update, and on
    a series whose every value is below the one before it 50 and then 0. *)
Theorem rsi_saturates_on_monotone_series
    (n : Z) (r : t) (x0 : Q) (xs : list Q) :
  new n = Some r ->
  (rising_from x0 xs ->
   snd (RSI_run r (x0 :: xs)) = 50 :: repeat 100 (List.length xs)) /\
  (falling_from x0 xs ->
   snd (RSI_run r (x0 :: xs)) = 50 :: repeat 0 (List.length xs)).
Proof.
  unfold new. destruct (n <? 2)%Z eqn:E; [discriminate|].
  apply Z.ltb_ge in E. intro H; inversion H; subst; clear H.
  rewrite RSI_run_cons. unfold update at 2 4. cbn [prevValue snd].
  unfold update; cbn [prevValue fst avgGain avgLoss length alpha ready].
  split; intro Hxs; f_equal.
  - apply (run_rising xs _ x0); [|reflexivity|exact Hxs].
    unfold no_loss; cbn. split; [reflexivity|]. split; [lra|].
    split; [lia|]. split; [exact E|reflexivity].
  - apply (run_falling xs _ x0); [|reflexivity|exact Hxs].
    unfold no_gain; cbn. split; [reflexivity|]. split; [lra|].
    split; [lia|]. split; [exact E|reflexivity].
Qed.

End RSIMore.

(** X3.  When the indicators are ready.  The EMA constructor throws
    exactly for a length that is not positive and the RSI constructor for a
    length below 2.  The getter [value] of an EMA throws until the first
    [update] and from then on returns what the latest [update] returned;
    an EMA is ready from its first update on, an RSI of length [n] from its
    [n]-th. *)
Theorem indicators_are_ready_after_their_samples (n : Z) (xs : list Q) :
  match EMA.new n with
  | None => (n <= 0)%Z
  | Some e =>
      (0 < n)%Z /\
      EMA.value (fst (EMA_run e xs))
      = last (map Some (snd (EMA_run e xs))) None /\
      EMA.isReady (fst (EMA_run e xs)) = negb (len xs =? 0)%Z
  end /\
  match RSI.new n with
  | None => (n < 2)%Z
  | Some r => RSI.isReady (fst (RSI_run r xs)) = (n <=? len xs)%Z
  end.
Proof.
  split; [apply ema_ready_after_first_update
         |apply rsi_ready_after_length_updates].
Qed.

Section BarBuilderMore.
Import VirtualBarBuilder.

Lemma feed_cons (b : t) (tk : Tick) (rest : list Tick) :
  feed b (tk :: rest)
  = (fst (feed (fst (pushTick b tk)) rest),
     match snd (pushTick b tk) with
     | Some c => c :: snd (feed (fst (pushTick b tk)) rest)
     | None => snd (feed (fst (pushTick b tk)) rest)
     end).
Proof.
  simpl. destruct (pushTick b tk) as [b1 closed]. cbn [fst snd].
  destruct (feed b1 rest). reflexivity.
Qed.

Lemma pushTick_span (b : t) (tk : Tick) :
  (0 < timeframeMs b)%Z -> open_span_ok b ->
  timeframeMs (fst (pushTick b tk)) = timeframeMs b /\
  open_span_ok (fst (pushTick b tk)) /\
  match snd (pushTick b tk) with
  | Some c =>
      bar b = Some c /\ (endTime c - startTime c < timeframeMs b)%Z /\
      exists nb, bar (fst (pushTick b tk)) = Some nb /\
                 (startTime c + timeframeMs b <= startTime nb)%Z
  | None =>
      forall cur, bar b = Some cur ->
        exists nb, bar (fst (pushTick b tk)) = Some nb /\
                   startTime nb = startTime cur
  end.
Proof.
  intros Htf Hopen. unfold pushTick, open_span_ok in *.
  destruct (bar b) as [cur|] eqn:Eb.
  - cbv zeta.
    destruct (timeframeMs b <=? timestamp tk - startTime cur)%Z eqn:E;
      cbn [fst snd bar timeframeMs createBar startTime endTime].
    + apply Z.leb_le in E. split; [reflexivity|]. split; [lia|].
      split; [reflexivity|]. split; [exact Hopen|].
      eexists; split; [reflexivity|]. unfold createBar; cbn [startTime]. lia.
    + apply Z.leb_gt in E. split; [reflexivity|]. split; [lia|].
      intros c Hc; inversion Hc; subst.
      eexists; split; [reflexivity|]. reflexivity.
  - cbn [fst snd bar timeframeMs createBar startTime endTime].
    split; [reflexivity|]. split; [lia|]. intros c Hc; discriminate.
Qed.

Lemma feed_spans (tf : Z) (ticks : list Tick) :
  (0 < tf)%Z ->
  forall b, timeframeMs b = tf -> open_span_ok b ->
    Forall (fun c => (endTime c - startTime c < tf)%Z) (snd (feed b ticks)) /\
    starts_apart tf (snd (feed b ticks)) /\
    (forall cur c, bar b = Some cur -> hd_error (snd (feed b ticks)) = Some c ->
                   startTime c = startTime cur).
Proof.
  intro Htf. induction ticks as [|tk rest IH]; intros b Hb Hopen.
  - simpl. split; [constructor|]. split; [exact I|]. intros; discriminate.
  - rewrite feed_cons. cbn [snd].
    destruct (pushTick_span b tk ltac:(lia) Hopen) as (Htf' & Hopen' & Hc).
    rewrite Hb in *.
    destruct (IH (fst (pushTick b tk)) Htf' Hopen') as (Hs & Ha & Hh).
    destruct (snd (pushTick b tk)) as [c|].
    + destruct Hc as (Hbc & Hspan & nb & Hnb & Hstart).
      split; [constructor; assumption|]. split.
      * destruct (snd (feed (fst (pushTick b tk)) rest)) as [|c2 more] eqn:Ef;
          [exact I|].
        cbn [starts_apart]. split; [|exact Ha].
        rewrite (Hh nb c2 Hnb eq_refl). exact Hstart.
      * intros cur c' Hcur Hhd. cbn in Hhd. inversion Hhd; subst.
        rewrite Hbc in Hcur. inversion Hcur; subst. reflexivity.
    + split; [exact Hs|]. split; [exact Ha|].
      intros cur c' Hcur Hhd. destruct (Hc cur Hcur) as (nb & Hnb & Hst).
      rewrite <- Hst. apply (Hh nb c' Hnb Hhd).
Qed.

(** X5.  Every bar the builder emits spans less than one timeframe from
    its first to its last tick, and each emitted bar starts at least one
    timeframe after the bar before it started, whatever the order of the
    ticks' timestamps. *)
Theorem emitted_bars_span_less_than_a_timeframe
    (tf : Z) (b : t) (ticks : list Tick) :
  new tf = Some b ->
  Forall (fun c => (endTime c - startTime c < tf)%Z) (snd (feed b ticks)) /\
  starts_apart tf (snd (feed b ticks)).
Proof.
  unfold new. destruct (tf <=? 0)%Z eqn:E; [discriminate|].
  apply Z.leb_gt in E. intro H; inversion H; subst; clear H.
  destruct (feed_spans tf ticks E (mk None tf) eq_refl I) as (H1 & H2 & _).
  split; assumption.
Qed.

End BarBuilderMore.

Section ADXWindows.
Import ADX.

Lemma Forall_push (P : Q -> Prop) (l : list Q) (x : Q) :
  Forall P l -> P x -> Forall P (push l x).
Proof.
  intros Hl Hx. unfold push. apply Forall_app. split; [exact Hl|].
  constructor; [exact Hx|constructor].
Qed.

Lemma Forall_shift (P : Q -> Prop) (l : list Q) :
  Forall P l -> Forall P (shift l).
Proof. intro H. destruct l; [exact H|]. inversion H; assumption. Qed.

Lemma push_not_nil {A : Type} (l : list A) (x : A) : push l x <> [].
Proof. unfold push. destruct l; discriminate. Qed.

(** The window after one more sample. *)
Lemma window_step (n k : Z) (l : list Q) (x : Q) :
  (2 <= n)%Z -> (0 <= k)%Z -> len l = Z.min n k -> Forall (Qle 0) l -> 0 <= x ->
  let l0 := push l x in
  forall over : bool, over = (n <? len l0)%Z ->
  len (if over then shift l0 else l0) = Z.min n (k + 1) /\
  Forall (Qle 0) (if over then shift l0 else l0).
Proof.
  intros Hn Hk Hl Hf Hx l0 over Ho.
  assert (H0 : len l0 = (len l + 1)%Z) by apply len_push.
  destruct over.
  - symmetry in Ho. apply Z.ltb_lt in Ho. split.
    + rewrite len_shift by apply push_not_nil. lia.
    + apply Forall_shift, Forall_push; assumption.
  - symmetry in Ho. apply Z.ltb_ge in Ho. split; [lia|].
    apply Forall_push; assumption.
Qed.

Lemma adx_windows_update (a : t) (h l c : Q) :
  adx_windows a -> adx_windows (fst (update a h l c)).
Proof.
  intros (Ht & Hp & Hm & Ft & Fp & Fm & Hc & Hn). unfold update.
  destruct (prevHigh a) as [pH|], (prevLow a) as [pL|], (prevClose a) as [pC|];
    try solve [unfold adx_windows; cbn; repeat (split; try assumption)].
  cbv zeta.
  set (tr := qmax (qmax (h - l) (Qabs (h - pC))) (Qabs (l - pC))).
  set (pdm := if Qltb pH h && Qltb pL l then qmax (h - pH) 0 else 0).
  set (mdm := if Qltb h pH && Qltb l pL then qmax (pL - l) 0 else 0).
  assert (Htr : 0 <= tr).
  { unfold tr. pose proof (qmax_r (qmax (h - l) (Qabs (h - pC))) (Qabs (l - pC))).
    pose proof (Qabs_nonneg (l - pC)). lra. }
  assert (Hpdm : 0 <= pdm).
  { unfold pdm. destruct (Qltb pH h && Qltb pL l); [apply qmax_r|lra]. }
  assert (Hmdm : 0 <= mdm).
  { unfold mdm. destruct (Qltb h pH && Qltb l pL); [apply qmax_r|lra]. }
  assert (Ho2 : (length a <? len (push (plusDMValues a) pdm))%Z
                = (length a <? len (push (trValues a) tr))%Z).
  { rewrite !len_push, Hp. reflexivity. }
  assert (Ho3 : (length a <? len (push (minusDMValues a) mdm))%Z
                = (length a <? len (push (trValues a) tr))%Z).
  { rewrite !len_push, Hm. reflexivity. }
  destruct (window_step (length a) (updateCount a) (trValues a) tr
              Hn Hc Ht Ft Htr _ eq_refl) as [L1 F1].
  destruct (window_step (length a) (updateCount a) (plusDMValues a) pdm
              Hn Hc ltac:(lia) Fp Hpdm _ (eq_sym Ho2)) as [L2 F2].
  destruct (window_step (length a) (updateCount a) (minusDMValues a) mdm
              Hn Hc ltac:(lia) Fm Hmdm _ (eq_sym Ho3)) as [L3 F3].
  destruct (updateCount a + 1 <? length a + 1)%Z;
    unfold adx_windows;
    cbn [fst trValues plusDMValues minusDMValues updateCount length];
    (split; [exact L1|]); (split; [lia|]); (split; [lia|]);
    (split; [exact F1|]); (split; [exact F2|]); (split; [exact F3|]);
    split; [lia|exact Hn|lia|exact Hn].
Qed.

Lemma adx_windows_run (xs : list HLC) :
  forall a, adx_windows a -> adx_windows (ADX_run a xs).
Proof.
  induction xs as [|x xs IH]; intros a Ha; [exact Ha|].
  change (ADX_run a (x :: xs)) with (ADX_run (ADX_step a x) xs).
  apply IH. destruct x as [[h l] c]. apply adx_windows_update. exact Ha.
Qed.

Lemma adx_length_update (a : t) (h l c : Q) :
  length (fst (update a h l c)) = length a.
Proof.
  unfold update.
  destruct (prevHigh a), (prevLow a), (prevClose a); try reflexivity.
  cbv zeta. destruct (updateCount a + 1 <? length a + 1)%Z; reflexivity.
Qed.

Lemma adx_length_run (xs : list HLC) :
  forall a, length (ADX_run a xs) = length a.
Proof.
  induction xs as [|x xs IH]; intro a; [reflexivity|].
  change (ADX_run a (x :: xs)) with (ADX_run (ADX_step a x) xs).
  rewrite IH. destruct x as [[h l] c]. apply adx_length_update.
Qed.

(** X6.  The three sample windows of an ADX of length [n] (true range,
    +DM, -DM) are always as long as each other, hold one sample for every
    update after the first up to [n] samples, and never hold a negative
    number. *)
Theorem adx_windows_hold_the_last_samples
    (n : Z) (a : t) (x : HLC) (xs : list HLC) :
  new n = Some a ->
  let a' := ADX_run a (x :: xs) in
  len (trValues a') = Z.min n (len xs) /\
  len (plusDMValues a') = Z.min n (len xs) /\
  len (minusDMValues a') = Z.min n (len xs) /\
  Forall (Qle 0) (trValues a' ++ plusDMValues a' ++ minusDMValues a').
Proof.
  intros Hnew a'. unfold new in Hnew.
  destruct (n <? 2)%Z eqn:E; [discriminate|].
  apply Z.ltb_ge in E. injection Hnew as Hnew.
  assert (Ha : adx_windows (ADX_step a x)).
  { destruct x as [[h l] c]. apply adx_windows_update.
    subst a. unfold adx_windows; cbn.
    repeat apply conj; first [lia | constructor]. }
  pose proof (adx_windows_run xs _ Ha) as (Ht & Hp & Hm & Ft & Fp & Fm & _).
  pose proof (run_counts xs _ (update_primed a x)) as Hc.
  assert (H0 : updateCount (ADX_step a x) = 0%Z).
  { destruct x as [[h l] c]. subst a. reflexivity. }
  assert (Hl : length (ADX_run (ADX_step a x) xs) = n).
  { rewrite adx_length_run. destruct x as [[h l] c]. subst a. reflexivity. }
  change (ADX_run a (x :: xs)) with (ADX_run (ADX_step a x) xs) in a'.
  fold a' in Ht, Hp, Hm, Ft, Fp, Fm, Hc, Hl.
  rewrite Hl, Hc, H0, Z.add_0_l in Ht.
  split; [exact Ht|]. split; [lia|]. split; [lia|].
  apply Forall_app; split; [exact Ft|]. apply Forall_app; split; assumption.
Qed.

End ADXWindows.

Section WatermellonProofs.
Import WatermellonEngine.

Lemma stacks_exclusive (f m s : Q) :
  Qltb m f && Qltb s m = true -> Qltb f m && Qltb m s = false.
Proof.
  intro H. apply andb_true_iff in H as [H _]. apply Qltb_true in H.
  destruct (Qltb f m) eqn:E; [|reflexivity]. apply Qltb_true in E. lra.
Qed.

Lemma stacks_exclusive' (f m s : Q) :
  Qltb f m && Qltb m s = true -> Qltb m f && Qltb s m = false.
Proof.
  intro H. apply andb_true_iff in H as [H _]. apply Qltb_true in H.
  destruct (Qltb m f) eqn:E; [|reflexivity]. apply Qltb_true in E. lra.
Qed.

Lemma watermellon_signal (e : t) (p : Q) (e' : t) (s : StrategySignal) :
  update e p = (e', Some s) ->
  signal_consistent s /\
  match type s with
  | long => lastLongLook e = false /\ lastLongLook e' = true
  | short => lastShortLook e = false /\ lastShortLook e' = true
  | flat => False
  end.
Proof.
  unfold update.
  destruct (EMA.update (emaFast e) p) as [f fv].
  destruct (EMA.update (emaMid e) p) as [m mv].
  destruct (EMA.update (emaSlow e) p) as [sl sv].
  destruct (RSI.update (rsi e) p) as [r rv].
  cbv zeta.
  destruct (Qltb mv fv && Qltb sv mv) eqn:Ebull;
    destruct (Qltb fv mv && Qltb mv sv) eqn:Ebear;
    try (rewrite (stacks_exclusive _ _ _ Ebull) in Ebear; discriminate);
    cbn [andb];
    repeat match goal with
           | |- context [Qltb ?a ?b] => destruct (Qltb a b)
           end;
    cbn [andb];
    destruct (lastLongLook e), (lastShortLook e); cbn [negb andb];
    intro H; inversion H; subst; clear H;
    unfold signal_consistent; cbn; repeat split; reflexivity.
Qed.

(** X7.  The trend engine is edge-triggered: it never returns two
    signals of the same type on two bars in a row, and every signal it
    returns is consistent with its trend snapshot. *)
Theorem watermellon_never_repeats_a_signal (e : t) (p q : Q) :
  match snd (update e p), snd (update (fst (update e p)) q) with
  | Some s1, Some s2 => type s1 <> type s2
  | _, _ => True
  end /\
  match snd (update e p) with
  | Some s => signal_consistent s
  | None => True
  end.
Proof.
  destruct (update e p) as [e1 [s1|]] eqn:E1; cbn [fst snd];
    [|split; exact I].
  destruct (watermellon_signal e p e1 s1 E1) as [Hc H1].
  split; [|exact Hc].
  destruct (update e1 q) as [e2 [s2|]] eqn:E2; cbn [fst snd]; [|exact I].
  destruct (watermellon_signal e1 q e2 s2 E2) as [_ H2].
  intro Heq. rewrite <- Heq in H2.
  destruct (type s1); [| |exact H1].
  - destruct H1 as [_ A], H2 as [B _]. congruence.
  - destruct H1 as [_ A], H2 as [B _]. congruence.
Qed.

End WatermellonProofs.

Section HybridProofs.
Import PeachHybridEngine.

(** What [checkV1System] does, case by case. *)
Lemma checkV1System_cases (e : t) (p f m s mf ms rsi : Q) :
  let c := v1 (config e) in
  let r := checkV1System e p f m s mf ms (Some rsi) in
  (snd r = None /\
   (fst r = e \/
    ((minBarsBetween c <= v1BarsSinceLastSignal e)%Z /\
     priceMoveMet e p = true /\
     fst r = setV1 e (longLookOf c f m s mf ms rsi)
               (shortLookOf c f m s mf ms rsi) (v1LastLongPrice e)
               (v1LastShortPrice e) (v1BarsSinceLastSignal e)))) \/
  (exists sg,
      snd r = Some sg /\ is_v1 sg /\ signal_consistent sg /\
      (minBarsBetween c <= v1BarsSinceLastSignal e)%Z /\
      priceMoveMet e p = true /\
      v1BarsSinceLastSignal (fst r) = 0%Z /\
      config (fst r) = config e).
Proof.
  intros c r. unfold r, checkV1System. fold c.
  destruct (v1BarsSinceLastSignal e <? minBarsBetween c)%Z eqn:Eb;
    [left; cbn; auto|].
  apply Z.ltb_ge in Eb.
  destruct (priceMoveMet e p) eqn:Em; cbn [negb]; [|left; cbn; auto].
  cbv zeta.
  destruct (longLookOf c f m s mf ms rsi) eqn:El.
  - pose proof (long_not_short c f m s mf ms rsi El) as Es. rewrite Es.
    assert (Hbull : bullStackOf f m s = true).
    { unfold longLookOf in El. apply andb_true_iff in El as [El _].
      apply andb_true_iff in El as [El _]. exact El. }
    assert (Hbear : bearStackOf f m s = false).
    { apply stacks_exclusive. exact Hbull. }
    rewrite Hbull, Hbear.
    destruct (v1LastLongLook e); cbn [negb andb].
    + left. cbn [fst snd]. split; [reflexivity|]. right. auto.
    + right. eexists. cbn [fst snd]. split; [reflexivity|].
      unfold is_v1, signal_consistent; cbn. repeat split; auto.
  - cbn [andb].
    destruct (shortLookOf c f m s mf ms rsi) eqn:Es; cbn [andb].
    + assert (Hbear : bearStackOf f m s = true).
      { unfold shortLookOf in Es. apply andb_true_iff in Es as [Es _].
        apply andb_true_iff in Es as [Es _]. exact Es. }
      assert (Hbull : bullStackOf f m s = false).
      { apply stacks_exclusive'. exact Hbear. }
      rewrite Hbull, Hbear.
      destruct (v1LastShortLook e); cbn [negb].
      * left. cbn [fst snd]. split; [reflexivity|]. right. auto.
      * right. eexists. cbn [fst snd]. split; [reflexivity|].
        unfold is_v1, signal_consistent; cbn. repeat split; auto.
    + left. cbn [fst snd]. split; [reflexivity|]. right. auto.
Qed.

Lemma checkV2System_cases (e : t) (p f m s : Q) (rsi : option Q)
    (vol o c : Q) (sg : StrategySignal) :
  checkV2System e p f m s rsi vol o c = Some sg ->
  system sg = Some "v2"%string /\ signal_consistent sg.
Proof.
  unfold checkV2System. destruct rsi as [rsi|]; [|discriminate].
  destruct (len (v2RsiHistory e) <? 2)%Z; [discriminate|].
  cbv zeta.
  destruct (Qltb m f && Qltb s m) eqn:Ebull.
  - rewrite (stacks_exclusive _ _ _ Ebull). rewrite !andb_false_r, andb_true_r.
    match goal with |- (if ?c then _ else _) = _ -> _ => destruct c end;
      [|discriminate].
    intro H; inversion H; subst; clear H.
    unfold signal_consistent; cbn. repeat split; reflexivity.
  - rewrite !andb_false_r.
    destruct (Qltb f m && Qltb m s) eqn:Ebear;
      [|rewrite !andb_false_r; discriminate].
    rewrite andb_true_r.
    match goal with |- (if ?c then _ else _) = _ -> _ => destruct c end;
      [|discriminate].
    intro H; inversion H; subst; clear H.
    unfold signal_consistent; cbn. repeat split; reflexivity.
Qed.

(** X8.  Every signal the hybrid engine returns is consistent: it is a
    long or a short, it comes from V1 or V2, and its trend snapshot has the
    stack, the look and the trigger of its own side set and none of the
    other side. *)
Theorem hybrid_signals_are_consistent (e : t) (bar : SyntheticBar) :
  match snd (update e bar) with
  | Some sg =>
      signal_consistent sg /\
      (system sg = Some "v1"%string \/ system sg = Some "v2"%string)
  | None => True
  end.
Proof.
  rewrite update_staged. unfold v1Check.
  match goal with
  | |- context [checkV1System ?e1 ?p ?f ?m ?s ?x ?y (Some ?r)] =>
      pose proof (checkV1System_cases e1 p f m s x y r) as H;
      pose proof (checkV2System_cases
                    (fst (checkV1System e1 p f m s x y (Some r)))) as H2
  end.
  cbv zeta in H. unfold v2Check, v1Check.
  destruct H as [[Hn _]|(sg & Hs & Hv1 & Hc & _)].
  - rewrite Hn. cbn [snd].
    match goal with
    | |- context [checkV2System ?e2 ?p ?f ?m ?s ?r ?v ?o ?c] =>
        specialize (H2 p f m s r v o c);
        destruct (checkV2System e2 p f m s r v o c) as [sg|]
    end; [|exact I].
    destruct (H2 sg eq_refl) as [A B]. split; [exact B|right; exact A].
  - rewrite Hs. cbn [snd]. split; [exact Hc|left; exact Hv1].
Qed.

Lemma checkV1System_sets_v1_only (e : t) (p f m s mf ms : Q) (r : option Q) :
  exists ll sl lp sp bars,
    fst (checkV1System e p f m s mf ms r) = setV1 e ll sl lp sp bars.
Proof.
  assert (Hid : e = setV1 e (v1LastLongLook e) (v1LastShortLook e)
                      (v1LastLongPrice e) (v1LastShortPrice e)
                      (v1BarsSinceLastSignal e)) by (destruct e; reflexivity).
  unfold checkV1System. destruct r as [rsi|];
    [|cbn [fst]; do 5 eexists; exact Hid].
  destruct (v1BarsSinceLastSignal e <? minBarsBetween (v1 (config e)))%Z;
    [cbn [fst]; do 5 eexists; exact Hid|].
  destruct (negb (priceMoveMet e p)); [cbn [fst]; do 5 eexists; exact Hid|].
  cbv zeta.
  destruct (longLookOf _ _ _ _ _ _ _ && negb (v1LastLongLook e));
    [cbn [fst]; do 5 eexists; reflexivity|].
  destruct (shortLookOf _ _ _ _ _ _ _ && negb (v1LastShortLook e));
    cbn [fst]; do 5 eexists; reflexivity.
Qed.

Lemma update_sets (e : t) (bar : SyntheticBar) :
  exists ll sl lp sp bars,
    fst (update e bar) = setV1 (fed e bar) ll sl lp sp bars.
Proof.
  rewrite update_staged.
  assert (H : fst (match snd (v1Check e bar) with
                   | Some sg => (fst (v1Check e bar), Some sg)
                   | None => (fst (v1Check e bar), v2Check e bar)
                   end) = fst (v1Check e bar))
    by (destruct (snd (v1Check e bar)); reflexivity).
  rewrite H. unfold v1Check. apply checkV1System_sets_v1_only.
Qed.

Lemma update_v1_outcome (e : t) (bar : SyntheticBar) :
  let e' := fst (update e bar) in
  config e' = config e /\
  ((0 <= v1BarsSinceLastSignal e)%Z ->
   (0 <= v1BarsSinceLastSignal e' <= v1BarsSinceLastSignal e + 1)%Z) /\
  (forall sg, snd (update e bar) = Some sg -> is_v1 sg ->
     (minBarsBetween (v1 (config e)) <= v1BarsSinceLastSignal e + 1)%Z /\
     v1BarsSinceLastSignal e' = 0%Z /\
     priceMoveMet (fed e bar) (close bar) = true).
Proof.
  cbv zeta. rewrite update_staged. unfold v1Check.
  match goal with
  | |- context [checkV1System ?e1 ?p ?f ?m ?s ?x ?y (Some ?r)] =>
      pose proof (checkV1System_cases e1 p f m s x y r) as H;
      pose proof (checkV2System_cases
                    (fst (checkV1System e1 p f m s x y (Some r)))) as H2
  end.
  cbv zeta in H. unfold v2Check, v1Check.
  change (config (fed e bar)) with (config e) in H.
  change (v1BarsSinceLastSignal (fed e bar))
    with (v1BarsSinceLastSignal e + 1)%Z in H.
  destruct H as [[Hn Hf]|(sg & Hs & Hv1 & Hc & Hb & Hm & H0 & Hcfg)].
  - rewrite Hn. cbn [fst snd].
    assert (Hfields :
      config (fst (checkV1System (fed e bar) (close bar)
        (snd (EMA.update (v1EmaFast e) (close bar)))
        (snd (EMA.update (v1EmaMid e) (close bar)))
        (snd (EMA.update (v1EmaSlow e) (close bar)))
        (snd (EMA.update (v1EmaMicroFast e) (close bar)))
        (snd (EMA.update (v1EmaMicroSlow e) (close bar)))
        (Some (snd (RSI.update (v1Rsi e) (close bar)))))) = config e /\
      v1BarsSinceLastSignal (fst (checkV1System (fed e bar) (close bar)
        (snd (EMA.update (v1EmaFast e) (close bar)))
        (snd (EMA.update (v1EmaMid e) (close bar)))
        (snd (EMA.update (v1EmaSlow e) (close bar)))
        (snd (EMA.update (v1EmaMicroFast e) (close bar)))
        (snd (EMA.update (v1EmaMicroSlow e) (close bar)))
        (Some (snd (RSI.update (v1Rsi e) (close bar))))))
      = (v1BarsSinceLastSignal e + 1)%Z).
    { destruct Hf as [Hf|(_ & _ & Hf)]; rewrite Hf; split; reflexivity. }
    destruct Hfields as [Hcfg Hbars]. rewrite Hcfg, Hbars.
    split; [reflexivity|]. split; [intro; lia|].
    intros sg Hsg Hv1.
    match type of Hsg with
    | checkV2System ?e2 ?p ?f ?m ?s ?r ?v ?o ?c = _ =>
        destruct (H2 p f m s r v o c sg Hsg) as [A _]
    end.
    unfold is_v1 in Hv1. rewrite A in Hv1. discriminate.
  - rewrite Hs. cbn [fst snd]. rewrite H0, Hcfg.
    split; [reflexivity|]. split; [intro; lia|].
    intros sg' _ _. split; [exact Hb|]. split; [reflexivity|exact Hm].
Qed.

Lemma engine_after_cons (e : t) (bar : SyntheticBar) (bars : list SyntheticBar) :
  engine_after e (bar :: bars) = engine_after (fst (update e bar)) bars.
Proof. reflexivity. Qed.

Lemma engine_after_bars (bars : list SyntheticBar) :
  forall e, (0 <= v1BarsSinceLastSignal e)%Z ->
    config (engine_after e bars) = config e /\
    (0 <= v1BarsSinceLastSignal (engine_after e bars)
     <= v1BarsSinceLastSignal e + len bars)%Z.
Proof.
  induction bars as [|bar bars IH]; intros e He.
  - change (engine_after e []) with e. unfold len; cbn. split; [reflexivity|lia].
  - rewrite engine_after_cons.
    destruct (update_v1_outcome e bar) as (Hc & Hb & _). specialize (Hb He).
    destruct (IH (fst (update e bar)) ltac:(lia)) as [Hc' Hb'].
    rewrite Hc', Hc. split; [reflexivity|].
    replace (len (bar :: bars)) with (1 + len bars)%Z
      by (unfold len; cbn [List.length]; lia).
    lia.
Qed.

(** X9.  V1 signals are at least [minBarsBetween] bars apart: when
    [update] returns a V1 signal and, [k] bars later, returns a V1 signal
    again, then [minBarsBetween <= k], whatever V2 did in between. *)
Theorem v1_signals_respect_the_cooldown
    (e : t) (bar0 : SyntheticBar) (bars : list SyntheticBar)
    (bar : SyntheticBar) (s0 s : StrategySignal) :
  snd (update e bar0) = Some s0 -> is_v1 s0 ->
  snd (update (engine_after (fst (update e bar0)) bars) bar) = Some s ->
  is_v1 s ->
  (minBarsBetween (v1 (config e)) <= len bars + 1)%Z.
Proof.
  intros H0 Hv0 H1 Hv1.
  destruct (update_v1_outcome e bar0) as (Hc0 & _ & Hs0).
  destruct (Hs0 s0 H0 Hv0) as (_ & Hz & _).
  destruct (engine_after_bars bars (fst (update e bar0)) ltac:(lia))
    as [Hc Hb].
  destruct (update_v1_outcome (engine_after (fst (update e bar0)) bars) bar)
    as (_ & _ & Hs1).
  destruct (Hs1 s H1 Hv1) as (Hmin & _ & _).
  rewrite Hc, Hc0 in Hmin. lia.
Qed.

(** X10.  A V1 signal needs the price to have moved: when [update]
    returns a V1 signal on a bar, the close of the bar is at least
    [minMovePercent] percent away from the price of the last V1 long and
    from the price of the last V1 short, for each of the two that has been
    stamped. *)
Theorem v1_signals_respect_the_minimum_move
    (e : t) (bar : SyntheticBar) (sg : StrategySignal) :
  snd (update e bar) = Some sg -> is_v1 sg ->
  (0 < v1LastLongPrice e ->
   minMovePercent (v1 (config e))
   <= movePercent (close bar) (v1LastLongPrice e)) /\
  (0 < v1LastShortPrice e ->
   minMovePercent (v1 (config e))
   <= movePercent (close bar) (v1LastShortPrice e)).
Proof.
  intros Hs Hv. destruct (update_v1_outcome e bar) as (_ & _ & H).
  destruct (H sg Hs Hv) as (_ & _ & Hm). clear H.
  unfold priceMoveMet in Hm.
  change (v1LastLongPrice (fed e bar)) with (v1LastLongPrice e) in Hm.
  change (v1LastShortPrice (fed e bar)) with (v1LastShortPrice e) in Hm.
  change (config (fed e bar)) with (config e) in Hm.
  unfold moveMet, movePercent in *.
  split; intro Hp; apply Qltb_true in Hp; rewrite Hp in Hm.
  - destruct (Qltb 0 (v1LastShortPrice e)).
    + apply andb_true_iff in Hm as [Hm _]. apply Qle_bool_iff. exact Hm.
    + apply Qle_bool_iff. exact Hm.
  - apply andb_true_iff in Hm as [_ Hm]. apply Qle_bool_iff. exact Hm.
Qed.

Lemma setPosition_fed (e : t) (side : PositionSide) (bar : SyntheticBar) :
  fed (setPosition e side) bar = setPosition (fed e bar) side.
Proof. reflexivity. Qed.

Lemma checkV1System_setPosition
    (e : t) (side : PositionSide) (p f m s mf ms : Q) (r : option Q) :
  checkV1System (setPosition e side) p f m s mf ms r
  = (setPosition (fst (checkV1System e p f m s mf ms r)) side,
     snd (checkV1System e p f m s mf ms r)).
Proof.
  unfold checkV1System. destruct r as [rsi|]; [|reflexivity].
  change (config (setPosition e side)) with (config e).
  change (v1BarsSinceLastSignal (setPosition e side))
    with (v1BarsSinceLastSignal e).
  change (priceMoveMet (setPosition e side) p) with (priceMoveMet e p).
  change (v1LastLongLook (setPosition e side)) with (v1LastLongLook e).
  change (v1LastShortLook (setPosition e side)) with (v1LastShortLook e).
  destruct (v1BarsSinceLastSignal e <? minBarsBetween (v1 (config e)))%Z;
    [reflexivity|].
  destruct (negb (priceMoveMet e p)); [reflexivity|].
  cbv zeta.
  destruct (longLookOf _ _ _ _ _ _ _ && negb (v1LastLongLook e));
    [reflexivity|].
  destruct (shortLookOf _ _ _ _ _ _ _ && negb (v1LastShortLook e));
    reflexivity.
Qed.

(** X11.  The signals of the hybrid engine do not depend on the position
    it was told: [setPosition] before an [update] gives the same signal as
    without it, and the same engine as [setPosition] after the [update]. *)
Theorem signals_do_not_depend_on_the_position
    (e : t) (side : PositionSide) (bar : SyntheticBar) :
  update (setPosition e side) bar
  = (setPosition (fst (update e bar)) side, snd (update e bar)).
Proof.
  rewrite !update_staged. unfold v2Check, v1Check.
  rewrite setPosition_fed.
  change (v1EmaFast (setPosition e side)) with (v1EmaFast e).
  change (v1EmaMid (setPosition e side)) with (v1EmaMid e).
  change (v1EmaSlow (setPosition e side)) with (v1EmaSlow e).
  change (v1EmaMicroFast (setPosition e side)) with (v1EmaMicroFast e).
  change (v1EmaMicroSlow (setPosition e side)) with (v1EmaMicroSlow e).
  change (v1Rsi (setPosition e side)) with (v1Rsi e).
  change (v2EmaFast (setPosition e side)) with (v2EmaFast e).
  change (v2EmaMid (setPosition e side)) with (v2EmaMid e).
  change (v2EmaSlow (setPosition e side)) with (v2EmaSlow e).
  change (v2Rsi (setPosition e side)) with (v2Rsi e).
  rewrite checkV1System_setPosition. cbn [fst snd].
  match goal with
  | |- context [checkV1System ?e1 ?p ?f ?m ?s ?x ?y ?r] =>
      destruct (checkV1System e1 p f m s x y r) as [e2 [sg|]]
  end; reflexivity.
Qed.

Lemma slice_last_app {A : Type} (n : nat) (l l' : list A) :
  slice_last n (slice_last n l ++ l') = slice_last n (l ++ l').
Proof.
  unfold slice_last.
  assert (Hk : (List.length l - n <= List.length l)%nat) by lia.
  assert (H1 : skipn (List.length l - n) l ++ l'
               = skipn (List.length l - n) (l ++ l')).
  { rewrite skipn_app.
    replace (List.length l - n - List.length l)%nat with 0%nat by lia.
    reflexivity. }
  rewrite H1, skipn_skipn. f_equal.
  rewrite length_skipn, !length_app. lia.
Qed.

(** Pushing onto a window of at most [n] entries and shifting when it has
    grown beyond [n] keeps the last [n] entries. *)
Lemma push_shift_slice {A : Type} (n : nat) (l : list A) (x : A) :
  (List.length l <= n)%nat ->
  (if (Z.of_nat n <? len (push l x))%Z then shift (push l x) else push l x)
  = slice_last n (l ++ [x]).
Proof.
  intro Hl. unfold slice_last, push, shift, len.
  rewrite length_app. cbn [List.length].
  destruct (Z.of_nat n <? Z.of_nat (List.length l + 1))%Z eqn:E.
  - apply Z.ltb_lt in E.
    replace (List.length l + 1 - n)%nat with 1%nat by lia.
    destruct (l ++ [x]); reflexivity.
  - apply Z.ltb_ge in E.
    replace (List.length l + 1 - n)%nat with 0%nat by lia. reflexivity.
Qed.

Lemma slice_last_length {A : Type} (n : nat) (l : list A) :
  (List.length (slice_last n l) <= n)%nat.
Proof. unfold slice_last. rewrite length_skipn. lia. Qed.

Lemma update_histories (e : t) (bar : SyntheticBar) :
  (List.length (volumeHistory e) <= volume_window (config e))%nat ->
  (List.length (v2RsiHistory e) <= 2)%nat ->
  let e' := fst (update e bar) in
  config e' = config e /\
  v2Rsi e' = fst (RSI.update (v2Rsi e) (close bar)) /\
  volumeHistory e'
  = slice_last (volume_window (config e)) (volumeHistory e ++ [volume bar]) /\
  v2RsiHistory e'
  = slice_last 2 (v2RsiHistory e
                  ++ [snd (RSI.update (v2Rsi e) (close bar))]).
Proof.
  intros Hv Hh. cbv zeta.
  destruct (update_sets e bar) as (ll & sl & lp & sp & bars & H).
  rewrite H. unfold setV1, fed.
  cbn [config v2Rsi volumeHistory v2RsiHistory].
  split; [reflexivity|]. split; [reflexivity|]. split.
  - rewrite <- push_shift_slice by exact Hv. unfold volume_window.
    rewrite Z2Nat.id by lia. reflexivity.
  - rewrite <- push_shift_slice by exact Hh. reflexivity.
Qed.

Lemma engine_after_histories (bars : list SyntheticBar) :
  forall e,
    (List.length (volumeHistory e) <= volume_window (config e))%nat ->
    (List.length (v2RsiHistory e) <= 2)%nat ->
    volumeHistory (engine_after e bars)
    = slice_last (volume_window (config e))
        (volumeHistory e ++ map volume bars) /\
    v2RsiHistory (engine_after e bars)
    = slice_last 2
        (v2RsiHistory e ++ snd (RSI_run (v2Rsi e) (map close bars))).
Proof.
  induction bars as [|bar bars IH]; intros e Hv Hh.
  - change (engine_after e []) with e. cbn [map RSI_run snd].
    rewrite !app_nil_r. unfold slice_last.
    replace (List.length (volumeHistory e) - volume_window (config e))%nat
      with 0%nat by lia.
    replace (List.length (v2RsiHistory e) - 2)%nat with 0%nat by lia.
    split; reflexivity.
  - rewrite engine_after_cons.
    destruct (update_histories e bar Hv Hh) as (Hc & Hr & Hvol & Hrsi).
    destruct (IH (fst (update e bar))) as [IHv IHr].
    + rewrite Hc, Hvol. apply slice_last_length.
    + rewrite Hrsi. apply slice_last_length.
    + rewrite IHv, IHr, Hc, Hvol, Hrsi, Hr. cbn [map].
      rewrite RSI_run_cons. cbn [snd].
      rewrite !slice_last_app, <- !app_assoc. split; reflexivity.
Qed.

(** X12.  The two histories of the hybrid engine are sliding windows:
    after any sequence of bars [volumeHistory] holds the volumes of the
    last [max(volumeLookback, 10)] bars and [v2RsiHistory] the last two
    values of the V2 RSI, in the order of the bars. *)
Theorem engine_histories_are_sliding_windows
    (c : PeachConfig) (e : t) (bars : list SyntheticBar) :
  new c = Some e ->
  volumeHistory (engine_after e bars)
  = slice_last (Z.to_nat (Z.max (volumeLookback (v2 c)) 10))
      (map volume bars) /\
  v2RsiHistory (engine_after e bars)
  = slice_last 2 (snd (RSI_run (v2Rsi e) (map close bars))).
Proof.
  intro Hnew.
  assert (H : config e = c /\ volumeHistory e = [] /\ v2RsiHistory e = []).
  { revert Hnew. unfold new.
    repeat match goal with
           | |- context [EMA.new ?x] =>
               destruct (EMA.new x); try (cbn; discriminate)
           | |- context [RSI.new ?x] =>
               destruct (RSI.new x); try (cbn; discriminate)
           | |- context [ADX.new ?x] =>
               destruct (ADX.new x); try (cbn; discriminate)
           end.
    intro H; inversion H; subst; clear H. cbn. auto. }
  destruct H as (Hc & Hv & Hh).
  destruct (engine_after_histories bars e) as [A B].
  - rewrite Hv. cbn. lia.
  - rewrite Hh. cbn. lia.
  - rewrite A, B, Hc, Hv, Hh. split; reflexivity.
Qed.

End HybridProofs.

Section StateManagerProofs.
Import PositionStateManager.

Variable parseFloat : string -> number.










Lemma updateFromRest_fails (m : t) (now : Z) (r : RestState) :
  snd (updateFromRest parseFloat m now r) = false ->
  state (fst (updateFromRest parseFloat m now r)) = state m /\
  reconciliationFailures (fst (updateFromRest parseFloat m now r))
  = (reconciliationFailures m + 1)%Z.
Proof.
  unfold updateFromRest. cbv zeta.
  repeat match goal with
         | |- context [if ?c then _ else _] => destruct c
         end; cbn [fst snd]; try discriminate; intros _;
    split; reflexivity.
Qed.


End StateManagerProofs.

Section OrderTrackerProofs.
Import OrderTracker.

Lemma get_set_same (m : t) (k : Z) (v : OrderConfirmation) :
  get (set m k v) k = Some v.
Proof.
  induction m as [|[k' v'] m IH]; cbn [set get].
  - rewrite Z.eqb_refl. reflexivity.
  - destruct (k' =? k)%Z eqn:E; cbn [get].
    + rewrite Z.eqb_refl. reflexivity.
    + rewrite E. exact IH.
Qed.

Lemma get_set_other (m : t) (k k' : Z) (v : OrderConfirmation) :
  k' <> k -> get (set m k v) k' = get m k'.
Proof.
  intro Hk. induction m as [|[k0 v0] m IH]; cbn [set get].
  - replace (k =? k')%Z with false by (symmetry; apply Z.eqb_neq; congruence).
    reflexivity.
  - destruct (k0 =? k)%Z eqn:E; cbn [get].
    + apply Z.eqb_eq in E. subst k0.
      replace (k =? k')%Z with false
        by (symmetry; apply Z.eqb_neq; congruence).
      reflexivity.
    + destruct (k0 =? k')%Z; [reflexivity|exact IH].
Qed.

Lemma get_delete_same (m : t) (k : Z) : get (delete m k) k = None.
Proof.
  unfold delete. induction m as [|[k' v'] m IH]; cbn [filter get fst];
    [reflexivity|].
  destruct (k' =? k)%Z eqn:E; cbn [negb]; [exact IH|].
  cbn [get]. rewrite E. exact IH.
Qed.

Lemma get_delete_other (m : t) (k k' : Z) :
  k' <> k -> get (delete m k) k' = get m k'.
Proof.
  intro Hk. unfold delete.
  induction m as [|[k0 v0] m IH]; cbn [filter get fst]; [reflexivity|].
  destruct (k0 =? k)%Z eqn:E; cbn [negb get].
  - apply Z.eqb_eq in E. subst k0.
    replace (k =? k')%Z with false by (symmetry; apply Z.eqb_neq; congruence).
    exact IH.
  - destruct (k0 =? k')%Z; [reflexivity|exact IH].
Qed.

(** X15.  The life of a tracked order: [trackOrder] stores it
    unconfirmed under its id and touches no other id, so that the tracker
    has pending orders; its expiry timer removes it if it is still
    unconfirmed and nothing else; once [confirmOrder] has confirmed it, the
    expiry timer leaves it in place; [clearOrder] removes it and
    [clearAll] leaves no order. *)
Theorem tracked_order_is_confirmed_or_expires
    (m : t) (o : TradeInstruction) (id now : Z) :
  let pending :=
    mkConfirmation id (ord_side o) (ord_size o) (ord_price o)
      (ord_timestamp o) false None in
  let m1 := trackOrder m o id in
  get m1 id = Some pending /\ hasPendingOrders m1 = true /\
  get (expire m1 id) id = None /\
  snd (confirmOrder m1 now id) = true /\
  get (expire (fst (confirmOrder m1 now id)) id) id
  = Some (confirmed_at now pending) /\
  get (clearOrder m1 id) id = None /\
  hasPendingOrders (clearAll m1) = false /\
  (forall k, k <> id ->
     get m1 k = get m k /\ get (expire m1 id) k = get m k /\
     get (fst (confirmOrder m1 now id)) k = get m k /\
     get (clearOrder m1 id) k = get m k).
Proof.
  intros pending m1.
  assert (H1 : get m1 id = Some pending) by apply get_set_same.
  assert (He : expire m1 id = delete m1 id).
  { unfold expire. rewrite H1. reflexivity. }
  assert (Hc : confirmOrder m1 now id
               = (set m1 id (confirmed_at now pending), true)).
  { unfold confirmOrder. rewrite H1. reflexivity. }
  split; [exact H1|]. split.
  { unfold hasPendingOrders. apply Z.ltb_lt.
    destruct m1 as [|kv rest]; [discriminate H1|].
    unfold len. cbn [List.length]. lia. }
  split; [rewrite He; apply get_delete_same|].
  rewrite Hc. cbn [fst snd]. split; [reflexivity|]. split.
  { unfold expire. rewrite get_set_same. cbn. apply get_set_same. }
  split; [apply get_delete_same|]. split; [reflexivity|].
  intros k Hk. split; [apply get_set_other; exact Hk|]. split.
  - rewrite He, get_delete_other by exact Hk.
    apply get_set_other; exact Hk.
  - split.
    + rewrite get_set_other by exact Hk. apply get_set_other; exact Hk.
    + unfold clearOrder. rewrite get_delete_other by exact Hk.
      apply get_set_other; exact Hk.
Qed.

Lemma find_get (p : Z * OrderConfirmation -> bool) (m : t)
    (k : Z) (o : OrderConfirmation) :
  NoDup (keys m) -> find p m = Some (k, o) -> get m k = Some o.
Proof.
  unfold keys. induction m as [|[k' v'] m IH]; intros Hn Hf; [discriminate|].
  cbn [map fst] in Hn. inversion Hn as [|? ? Hnotin Hn']; subst.
  cbn [find] in Hf. cbn [get].
  destruct (p (k', v')) eqn:Ep.
  - inversion Hf; subst. rewrite Z.eqb_refl. reflexivity.
  - destruct (k' =? k)%Z eqn:E.
    + apply Z.eqb_eq in E. subst k'. exfalso. apply Hnotin.
      apply find_some in Hf as [Hin _].
      apply (in_map fst) in Hin. exact Hin.
    + apply IH; assumption.
Qed.

Lemma keys_set (m : t) (k : Z) (v : OrderConfirmation) :
  NoDup (keys m) -> NoDup (keys (set m k v)) /\
  (forall x, In x (keys (set m k v)) -> x = k \/ In x (keys m)).
Proof.
  unfold keys. induction m as [|[k' v'] m IH]; intro Hn; cbn [set map fst].
  - split; [constructor; [intros []|constructor]|].
    intros x [Hx|[]]; left; congruence.
  - inversion Hn as [|? ? Hnotin Hn']; subst.
    destruct (k' =? k)%Z eqn:E; cbn [map fst].
    + apply Z.eqb_eq in E. subst k'. split; [exact Hn|].
      intros x Hx. right. exact Hx.
    + destruct (IH Hn') as [IH1 IH2]. split.
      * constructor; [|exact IH1]. intro Hin.
        destruct (IH2 k' Hin) as [Hk|Hk].
        -- apply Z.eqb_neq in E. congruence.
        -- contradiction.
      * intros x [Hx|Hx]; [right; left; exact Hx|].
        destruct (IH2 x Hx) as [Hk|Hk]; [left; exact Hk|right; right; exact Hk].
Qed.

(** X16.  A position change confirms one order: among the orders that
    are unconfirmed, of the reported side and within 0.0001 of the reported
    size, [confirmByPositionChange] confirms the one tracked first and
    changes no other order; without such an order it changes nothing.  The
    ids of a tracker stay unique. *)
Theorem position_change_confirms_one_order
    (m : t) (now : Z) (sd : PositionSide) (sz : Q) :
  NoDup (keys m) ->
  let m' := confirmByPositionChange m now sd sz in
  NoDup (keys m') /\
  match find (awaits sd sz) m with
  | Some (k, o) =>
      get m k = Some o /\ get m' k = Some (confirmed_at now o) /\
      forall k', k' <> k -> get m' k' = get m k'
  | None => m' = m
  end.
Proof.
  intros Hn m'. subst m'. unfold confirmByPositionChange.
  change (fun kv : Z * OrderConfirmation =>
            negb (confirmed (snd kv)) && PositionSide_eqb (side (snd kv)) sd
            && nltb (nabs (nsub (size (snd kv)) sz)) (1 # 10000))
    with (awaits sd sz).
  destruct (find (awaits sd sz) m) as [[k o]|] eqn:Ef; [|split; auto].
  pose proof (find_get _ m k o Hn Ef) as Hg.
  unfold confirmOrder. rewrite Hg. cbn [fst].
  fold (confirmed_at now o). split; [apply keys_set; exact Hn|].
  split; [reflexivity|]. split; [apply get_set_same|].
  intros k' Hk. apply get_set_other. exact Hk.
Qed.

End OrderTrackerProofs.

Section TradeStatisticsProofs.
Import TradeStatistics.

Lemma sumPnl_shift (l : list TradeRecord) :
  forall a, fold_left (fun sum t => sum + pnl t) l a == a + sumPnl l.
Proof.
  unfold sumPnl. induction l as [|x l IH]; intro a; simpl; [ring|].
  rewrite (IH (a + pnl x)), (IH (0 + pnl x)). ring.
Qed.

Lemma sumPnl_cons (x : TradeRecord) (l : list TradeRecord) :
  sumPnl (x :: l) == pnl x + sumPnl l.
Proof.
  unfold sumPnl at 1. simpl. rewrite sumPnl_shift. ring.
Qed.

Lemma sumPnl_winning_pos (l : list TradeRecord) :
  0 <= sumPnl (winning l) /\ (winning l <> [] -> 0 < sumPnl (winning l)).
Proof.
  unfold winning. induction l as [|x l [IH1 IH2]]; cbn [filter].
  - split; [unfold sumPnl; simpl; lra|congruence].
  - destruct (Qltb 0 (pnl x)) eqn:E; [|split; assumption].
    apply Qltb_true in E. rewrite sumPnl_cons. split; [lra|intros _; lra].
Qed.

Lemma sumPnl_losing_neg (l : list TradeRecord) :
  sumPnl (losing l) <= 0 /\ (losing l <> [] -> sumPnl (losing l) < 0).
Proof.
  unfold losing. induction l as [|x l [IH1 IH2]]; cbn [filter].
  - split; [unfold sumPnl; simpl; lra|congruence].
  - destruct (Qltb (pnl x) 0) eqn:E; [|split; assumption].
    apply Qltb_true in E. rewrite sumPnl_cons. split; [lra|intros _; lra].
Qed.

Lemma winning_losing_count (l : list TradeRecord) :
  (len (winning l) + len (losing l) <= len l)%Z.
Proof.
  unfold winning, losing, len. induction l as [|x l IH]; cbn [filter];
    [cbn; lia|].
  destruct (Qltb 0 (pnl x)) eqn:E1; destruct (Qltb (pnl x) 0) eqn:E2;
    cbn [List.length]; try lia.
  apply Qltb_true in E1. apply Qltb_true in E2. lra.
Qed.

Lemma drawdown_nonneg (l : list TradeRecord) :
  forall peak dd run, 0 <= dd ->
    0 <= snd (fst (fold_left drawdownStep l (peak, dd, run))).
Proof.
  induction l as [|x l IH]; intros peak dd run Hdd; [exact Hdd|].
  cbn [fold_left]. unfold drawdownStep at 2.
  apply IH. destruct (Qltb dd _) eqn:E; [|exact Hdd].
  apply Qltb_true in E. lra.
Qed.

Lemma fold_qmax_ge (l : list Q) : forall a, a <= fold_left qmax l a.
Proof.
  induction l as [|x l IH]; intro a; cbn [fold_left]; [lra|].
  pose proof (IH (qmax a x)). pose proof (qmax_l a x). lra.
Qed.

Lemma fold_qmin_le (l : list Q) : forall a, fold_left qmin l a <= a.
Proof.
  induction l as [|x l IH]; intro a; cbn [fold_left]; [lra|].
  pose proof (IH (qmin a x)). pose proof (qmin_l a x). lra.
Qed.

Lemma maxOf_winning_nonneg (l : list TradeRecord) :
  0 <= maxOf (map pnl (winning l)).
Proof.
  unfold winning. induction l as [|x l IH]; cbn [filter map]; [cbn; lra|].
  destruct (Qltb 0 (pnl x)) eqn:E; [|exact IH].
  apply Qltb_true in E. cbn [map maxOf].
  pose proof (fold_qmax_ge
                (map pnl (filter (fun t => Qltb 0 (pnl t)) l)) (pnl x)).
  lra.
Qed.

Lemma minOf_losing_nonpos (l : list TradeRecord) :
  minOf (map pnl (losing l)) <= 0.
Proof.
  unfold losing. induction l as [|x l IH]; cbn [filter map]; [cbn; lra|].
  destruct (Qltb (pnl x) 0) eqn:E; [|exact IH].
  apply Qltb_true in E. cbn [map minOf].
  pose proof (fold_qmin_le
                (map pnl (filter (fun t => Qltb (pnl t) 0) l)) (pnl x)).
  lra.
Qed.

Lemma getStats_fields (s : t) :
  len (trades s) <> 0%Z ->
  let st := getStats s in
  let w := winning (trades s) in
  let l := losing (trades s) in
  totalTrades st = len (trades s) /\
  winningTrades st = len w /\ losingTrades st = len l /\
  winRate st = inject_Z (len w) / inject_Z (len (trades s)) * 100 /\
  totalPnL st = sumPnl (trades s) /\
  avgWin st = (if (0 <? len w)%Z then sumPnl w / inject_Z (len w) else 0) /\
  avgLoss st
  = (if (0 <? len l)%Z then Qabs (sumPnl l / inject_Z (len l)) else 0) /\
  maxDrawdown st
  = snd (fst (fold_left drawdownStep (trades s) (0, 0, 0))) /\
  largestWin st = (if (0 <? len w)%Z then maxOf (map pnl w) else 0) /\
  largestLoss st = (if (0 <? len l)%Z then minOf (map pnl l) else 0).
Proof.
  intro Hne. cbv zeta. unfold getStats.
  replace (len (trades s) =? 0)%Z with false
    by (symmetry; apply Z.eqb_neq; exact Hne).
  fold (winning (trades s)). fold (losing (trades s)).
  destruct (fold_left drawdownStep (trades s) (0, 0, 0)) as [[pk dd] run].
  cbn. repeat split; reflexivity.
Qed.

(** X17.  The statistics are well formed for every trade list: winners
    and losers together are no more than the trades, the win rate lies
    between 0 and 100, the average win, the average loss, the maximal
    drawdown and the largest win are not negative, and the largest loss is
    not positive. *)
Theorem trade_statistics_are_well_formed (s : t) :
  let st := getStats s in
  totalTrades st = len (trades s) /\
  (0 <= winningTrades st)%Z /\ (0 <= losingTrades st)%Z /\
  (winningTrades st + losingTrades st <= totalTrades st)%Z /\
  0 <= winRate st /\ winRate st <= 100 /\
  0 <= avgWin st /\ 0 <= avgLoss st /\ 0 <= maxDrawdown st /\
  0 <= largestWin st /\ largestLoss st <= 0.
Proof.
  cbv zeta. destruct (Z.eq_dec (len (trades s)) 0) as [E|E].
  - unfold getStats. rewrite E. cbn.
    repeat apply conj; first [reflexivity | lia | lra].
  - destruct (getStats_fields s E)
      as (H1 & H2 & H3 & H4 & _ & H6 & H7 & H8 & H9 & H10).
    rewrite H1, H2, H3, H4, H6, H7, H8, H9, H10.
    pose proof (winning_losing_count (trades s)) as Hc.
    pose proof (len_nonneg (winning (trades s))) as Hw.
    pose proof (len_nonneg (losing (trades s))) as Hl.
    pose proof (len_nonneg (trades s)) as Ht.
    assert (Htp : 0 < inject_Z (len (trades s)))
      by (apply inject_Z_pos; lia).
    assert (Hwq : 0 <= inject_Z (len (winning (trades s))))
      by (apply inject_Z_nonneg; lia).
    assert (Hwt : inject_Z (len (winning (trades s)))
                  <= inject_Z (len (trades s)))
      by (rewrite <- Zle_Qle; lia).
    split; [reflexivity|]. split; [exact Hw|]. split; [exact Hl|].
    split; [exact Hc|].
    assert (Hr0 : 0 <= inject_Z (len (winning (trades s)))
                       / inject_Z (len (trades s)))
      by (apply Qle_shift_div_l; lra).
    assert (Hr1 : inject_Z (len (winning (trades s)))
                  / inject_Z (len (trades s)) <= 1)
      by (apply Qle_shift_div_r; lra).
    split; [lra|]. split; [lra|]. split.
    { destruct (0 <? len (winning (trades s)))%Z eqn:E0; [|lra].
      apply Z.ltb_lt in E0.
      destruct (sumPnl_winning_pos (trades s)) as [Hs _].
      apply Qle_shift_div_l; [apply inject_Z_pos; exact E0|lra]. }
    split.
    { destruct (0 <? len (losing (trades s)))%Z; [apply Qabs_nonneg|lra]. }
    split; [apply drawdown_nonneg; lra|]. split.
    { destruct (0 <? len (winning (trades s)))%Z;
        [apply maxOf_winning_nonneg|lra]. }
    destruct (0 <? len (losing (trades s)))%Z;
      [apply minOf_losing_nonpos|lra].
Qed.

End TradeStatisticsProofs.

Section KeyManagerProofs.
Import KeyManager.
Local Open Scope string_scope.

Lemma length_append (s1 s2 : string) :
  String.length (s1 ++ s2) = (String.length s1 + String.length s2)%nat.
Proof. induction s1 as [|c s1 IH]; cbn; [reflexivity|now rewrite IH]. Qed.

Lemma substring_prefix (p rest : string) :
  substring 0 (String.length p) (p ++ rest) = p.
Proof.
  induction p as [|c p IH]; cbn.
  - destruct rest; reflexivity.
  - now rewrite IH.
Qed.

Lemma substring_suffix (p s : string) :
  substring (String.length p) (String.length s) (p ++ s) = s.
Proof.
  induction p as [|c p IH]; cbn; [|exact IH].
  induction s as [|c s IHs]; cbn; [reflexivity|now rewrite IHs].
Qed.

(** X19.  A redacted key shows only its first four and its last four
    characters: for a key [p ++ mid ++ s] with [p] and [s] of four
    characters the result is [p], the marker and [s], whatever [mid] is; a
    key of fewer than eight characters is replaced by the marker alone. *)
Theorem redacted_key_hides_the_middle (p mid s short_key : string) :
  String.length p = 4%nat -> String.length s = 4%nat ->
  (String.length short_key < 8)%nat ->
  redactKey (p ++ mid ++ s) = p ++ REDACTED ++ s /\
  redactKey short_key = REDACTED.
Proof.
  intros Hp Hs Hk. unfold redactKey. split.
  - rewrite !length_append, Hp, Hs.
    replace (4 + (String.length mid + 4) <? 8)%nat with false
      by (symmetry; apply Nat.ltb_ge; lia).
    rewrite <- Hp at 1. rewrite substring_prefix. f_equal. f_equal.
    replace (4 + (String.length mid + 4) - 4)%nat
      with (String.length (p ++ mid))%nat by (rewrite length_append; lia).
    rewrite <- Hs at 1.
    replace (p ++ mid ++ s) with ((p ++ mid) ++ s).
    + apply substring_suffix.
    + clear. induction p as [|c p IH]; cbn; [reflexivity|now rewrite IH].
  - replace (String.length short_key <? 8)%nat with true
      by (symmetry; apply Nat.ltb_lt; exact Hk).
    reflexivity.
Qed.

End KeyManagerProofs.

Create Rewrite HintDb psig.

Section OrchestratorMore.
Import BotRunner.

#[local] Hint Rewrite core_log core_with_barBuilder
  core_with_stateManager core_with_orderTracker core_with_tradeStats
  core_with_position core_with_frozen core_with_processedSignals
  core_with_trailing core_with_balance core_engineSetPosition
  core_logTradeStats core_closePosition : frame.

Lemma processedSignals_engineSetPosition b s :
  processedSignals (engineSetPosition b s) = processedSignals b.
Proof. unfold engineSetPosition. destruct (engine b); reflexivity. Qed.

Lemma processedSignals_logTradeStats b :
  processedSignals (logTradeStats b) = processedSignals b.
Proof. unfold logTradeStats. destruct (0 <? _)%Z; reflexivity. Qed.

Ltac ps_fields :=
  cbn [processedSignals with_barBuilder with_engine with_stateManager
       with_orderTracker with_tradeStats with_position with_flipHistory
       with_frozen with_barClock with_trailing with_positionOpenedAt
       with_balance emit log recordFlip].

Lemma processedSignals_closePosition b env why meta :
  processedSignals (closePosition b env why meta) = processedSignals b.
Proof.
  unfold closePosition.
  destruct (PositionSide_eqb _ flat); [reflexivity|].
  destruct (negb (closeResolves env)); [reflexivity|].
  cbv zeta. ps_fields.
  rewrite processedSignals_logTradeStats, processedSignals_engineSetPosition.
  destruct (TradeStatistics.getRecentTrades _ 1); reflexivity.
Qed.

Lemma ps_with_stateManager b x :
  processedSignals (with_stateManager b x) = processedSignals b.
Proof. reflexivity. Qed.
Lemma ps_with_orderTracker b x :
  processedSignals (with_orderTracker b x) = processedSignals b.
Proof. reflexivity. Qed.
Lemma ps_with_tradeStats b x :
  processedSignals (with_tradeStats b x) = processedSignals b.
Proof. reflexivity. Qed.
Lemma ps_with_position b x :
  processedSignals (with_position b x) = processedSignals b.
Proof. reflexivity. Qed.
Lemma ps_with_trailing b h l :
  processedSignals (with_trailing b h l) = processedSignals b.
Proof. reflexivity. Qed.
Lemma ps_with_positionOpenedAt b x :
  processedSignals (with_positionOpenedAt b x) = processedSignals b.
Proof. reflexivity. Qed.
Lemma ps_recordFlip b x :
  processedSignals (recordFlip b x) = processedSignals b.
Proof. reflexivity. Qed.
Lemma ps_emit b x : processedSignals (emit b x) = processedSignals b.
Proof. reflexivity. Qed.
Lemma ps_log b x : processedSignals (log b x) = processedSignals b.
Proof. reflexivity. Qed.

#[local] Hint Rewrite ps_with_stateManager ps_with_orderTracker
  ps_with_tradeStats ps_with_position ps_with_trailing
  ps_with_positionOpenedAt ps_recordFlip ps_emit ps_log
  processedSignals_engineSetPosition processedSignals_logTradeStats : psig.

Lemma processedSignals_enterPosition b env side order :
  processedSignals (enterPosition b env side order) = processedSignals b.
Proof.
  unfold enterPosition. cbv zeta.
  destruct (match mode _ with dry_run => false | live => _ end);
    [reflexivity|].
  destruct (enterOutcome env); try reflexivity.
  autorewrite with psig. reflexivity.
Qed.

Lemma processedSignals_applySignal b env sg bar :
  processedSignals (applySignal b env sg bar) = processedSignals b.
Proof.
  unfold applySignal. destruct (regimeBlocks b); [reflexivity|].
  cbv zeta.
  destruct (type sg); [| |reflexivity];
    (destruct (PositionSide_eqb (pos_side (position b)) _); [reflexivity|]);
    unfold canFlip; cbv zeta;
    (destruct (negb _); [reflexivity|]);
    (destruct (PositionSide_eqb _ (opposite _));
     [destruct (_ <? MIN_HOLD_BARS)%Z; [reflexivity|]|]);
    rewrite processedSignals_enterPosition,
      ?processedSignals_closePosition; reflexivity.
Qed.

Lemma processedSignals_protectiveExitsAt b env bar entry :
  processedSignals (protectiveExitsAt b env bar entry) = processedSignals b.
Proof.
  unfold protectiveExitsAt. cbv zeta.
  set (b1 := match pos_side (position b) with
             | long => _ | short => _ | flat => _ end).
  assert (H1 : processedSignals b1 = processedSignals b).
  { subst b1. destruct (pos_side (position b)); [| |reflexivity].
    - destruct (highestPrice b); [destruct (Qltb _ _)|]; reflexivity.
    - destruct (lowestPrice b); [destruct (Qltb _ _)|]; reflexivity. }
  clearbody b1.
  repeat match goal with
         | |- context [if ?c then _ else _] => destruct c
         | |- context [match positive ?x with _ => _ end] =>
             destruct (positive x)
         end;
    rewrite ?processedSignals_closePosition; exact H1.
Qed.

Lemma processedSignals_evaluateProtectiveExits b env bar :
  processedSignals (evaluateProtectiveExits b env bar) = processedSignals b.
Proof.
  unfold evaluateProtectiveExits.
  destruct (sideIs b flat); [reflexivity|].
  destruct (entryPrice (position b)); [|reflexivity].
  destruct (Qeq_bool q 0);
    [reflexivity|apply processedSignals_protectiveExitsAt].
Qed.

Lemma sorted_snoc (l : list Z) (t : Z) :
  StronglySorted Z.lt l -> Forall (fun x => (x < t)%Z) l ->
  StronglySorted Z.lt (l ++ [t]).
Proof.
  induction l as [|x l IH]; intros Hs Hf; cbn [app].
  - constructor; constructor.
  - inversion Hs as [|? ? Hs' Hx]; subst.
    inversion Hf as [|? ? Hxt Hf']; subst.
    constructor; [apply IH; assumption|].
    apply Forall_app. split; [exact Hx|]. constructor; [exact Hxt|constructor].
Qed.

Lemma tidy_same b b' :
  core b' = core b -> processedSignals b' = processedSignals b ->
  tidy b -> tidy b'.
Proof.
  intros Hc Hp (H1 & H2 & H3 & H4).
  destruct (core_inv _ _ Hc) as (_ & _ & He & Hl & Hb & _).
  unfold tidy. rewrite He, Hl, Hb, Hp.
  split; [exact H1|]. split; [exact H2|]. split; [exact H3|exact H4].
Qed.

Lemma at_bar_same b b' bar :
  core b' = core b -> processedSignals b' = processedSignals b ->
  at_bar b bar -> at_bar b' bar.
Proof.
  intros Hc Hp (Ht & Hl & Hf).
  destruct (core_inv _ _ Hc) as (_ & _ & He & Hl' & _).
  split; [eapply tidy_same; eassumption|]. rewrite He, Hl'. split; assumption.
Qed.

Lemma applySignal_tidy b env sg bar :
  at_bar b bar -> (WARMUP_BARS < barCount b)%Z ->
  tidy (applySignal b env sg bar).
Proof.
  intros ((H1 & H2 & H3 & H4) & Hl & Hf) Hw.
  pose proof (processedSignals_applySignal b env sg bar) as Hp.
  destruct (applySignal_cases b env sg bar) as [Hu|[He _]].
  - destruct Hu as (_ & He & Hl' & Hb & _).
    unfold tidy. rewrite He, Hl', Hb, Hp.
    split; [exact H1|]. split; [exact H2|]. split; [exact H3|exact H4].
  - destruct He as (_ & _ & He & Hl' & Hb & _).
    unfold tidy. rewrite He, Hl', Hb, Hp. split; [intro; lia|].
    split; [apply sorted_snoc; assumption|]. split; [|exact H4].
    apply Forall_app. split; [exact H3|].
    constructor; [lia|constructor].
Qed.

Lemma len_ring {A : Type} (l : list A) (x : A) :
  (len l <= 100)%Z ->
  (len (if (100 <? len (push l x))%Z then shift (push l x) else push l x)
   <= 100)%Z.
Proof.
  intro H. pose proof (len_push l x) as Hp.
  destruct (100 <? len (push l x))%Z eqn:E.
  - rewrite len_shift; [lia|]. unfold push. destruct l; discriminate.
  - apply Z.ltb_ge in E. exact E.
Qed.

Lemma dispatchSignal_tidy b env bar signal :
  at_bar b bar -> (WARMUP_BARS < barCount b)%Z ->
  tidy (dispatchSignal b env bar signal).
Proof.
  intros Hb Hw. unfold dispatchSignal.
  destruct signal as [sg|]; [|exact (proj1 Hb)].
  cbv zeta. destruct (existsb _ _); [exact (proj1 Hb)|].
  match goal with
  | |- tidy (applySignal ?x _ _ _) =>
      assert (Hx : core x = core b)
        by (rewrite core_log, core_emit by reflexivity; reflexivity);
      assert (Hp : (len (processedSignals x) <= 100)%Z)
        by (ps_fields; apply len_ring; exact (proj2 (proj2 (proj2 (proj1 Hb)))))
  end.
  destruct (core_inv _ _ Hx) as (_ & _ & He & Hl' & Hc & _).
  destruct Hb as ((H1 & H2 & H3 & H4) & Hl & Hf).
  apply applySignal_tidy; [|rewrite Hc; exact Hw].
  unfold at_bar, tidy. rewrite He, Hl', Hc.
  split; [|split; assumption].
  split; [exact H1|]. split; [exact H2|]. split; [exact H3|exact Hp].
Qed.

Lemma processedSignals_logIndicators b :
  processedSignals (logIndicators b) = processedSignals b.
Proof.
  unfold logIndicators. destruct (_ =? 0)%Z; [|reflexivity].
  destruct (engine b); reflexivity.
Qed.

Lemma updateEngine_frame b bar :
  let b' := fst (updateEngine b bar) in
  entries b' = entries b /\ lastBarCloseTime b' = lastBarCloseTime b /\
  barCount b' = barCount b /\ processedSignals b' = processedSignals b.
Proof.
  unfold updateEngine. destruct (engine b).
  - destruct (WatermellonEngine.update e (close bar)). cbn. auto.
  - destruct (PeachHybridEngine.update e bar). cbn. auto.
Qed.

Lemma handleBarClose_tidy b env bar :
  tidy b -> tidy (handleBarClose b env bar).
Proof.
  intro Ht. unfold handleBarClose.
  destruct (endTime bar <=? lastBarCloseTime b)%Z eqn:Estale; [exact Ht|].
  apply Z.leb_gt in Estale.
  set (b1 := with_barClock b (endTime bar) (barCount b + 1)).
  assert (Hcount : barCount b1 = (barCount b + 1)%Z) by reflexivity.
  assert (H1 : (barCount b1 <= WARMUP_BARS -> tidy b1)%Z /\
               ((WARMUP_BARS < barCount b1)%Z -> at_bar b1 bar)).
  { destruct Ht as (T1 & T2 & T3 & T4).
    assert (Hlt : Forall (fun x => (x < endTime bar)%Z) (entries b)).
    { eapply Forall_impl; [|exact T3]. cbv beta. intros; lia. }
    assert (Hle : Forall (fun x => (x <= endTime bar)%Z) (entries b)).
    { eapply Forall_impl; [|exact T3]. cbv beta. intros; lia. }
    assert (Ht1 : tidy b1).
    { unfold tidy. split; [|split; [exact T2|split; [exact Hle|exact T4]]].
      intro H. apply T1. change (barCount b1) with (barCount b + 1)%Z in H.
      lia. }
    split; [intros _; exact Ht1|]. intros _.
    split; [exact Ht1|]. split; [reflexivity|exact Hlt]. }
  clearbody b1. cbv zeta.
  destruct (barCount b1 <=? WARMUP_BARS)%Z eqn:Ew.
  { apply Z.leb_le in Ew. destruct H1 as [H1 _]. specialize (H1 Ew).
    destruct (barCount b1 =? 1)%Z;
      match goal with
      | |- context [if ?c then _ else _] => destruct c
      end;
      (eapply tidy_same; [| |exact H1]);
      autorewrite with frame; reflexivity. }
  apply Z.leb_gt in Ew. destruct H1 as [_ H1]. specialize (H1 Ew).
  destruct (tradingFrozen b1 && (now env <? freezeUntil b1)%Z).
  { eapply tidy_same; [| |exact (proj1 H1)]; [apply core_log|reflexivity]. }
  set (b2 := if tradingFrozen b1 then _ else b1).
  assert (H2 : at_bar b2 bar /\ barCount b2 = barCount b1).
  { subst b2. destruct (tradingFrozen b1); split; try reflexivity;
      (eapply at_bar_same; [| |exact H1]); reflexivity. }
  destruct H2 as [H2 Hc2]. clearbody b2.
  destruct (PeachHybridEngine.shouldExit _).
  { eapply tidy_same; [| |exact (proj1 H2)].
    - autorewrite with frame. reflexivity.
    - rewrite processedSignals_closePosition. reflexivity. }
  destruct (updateEngine_frame b2 bar) as (Ue & Ul & Ub & Up).
  destruct (updateEngine b2 bar) as [b3 signal]. cbn [fst] in *.
  apply dispatchSignal_tidy.
  - destruct H2 as ((T1 & T2 & T3 & T4) & Hl & Hf).
    destruct (core_inv _ _ (core_logIndicators b3))
      as (_ & _ & He & Hl' & Hb & _).
    pose proof (processedSignals_logIndicators b3) as Hp.
    unfold at_bar, tidy. rewrite He, Hl', Hb, Hp, Ue, Ul, Ub, Up.
    split; [|split; assumption].
    split; [exact T1|]. split; [exact T2|]. split; [exact T3|exact T4].
  - destruct (core_inv _ _ (core_logIndicators b3))
      as (_ & _ & _ & _ & Hb & _).
    rewrite Hb, Ub, Hc2. exact Ew.
Qed.

Lemma handleTick_tidy b env tick : tidy b -> tidy (handleTick b env tick).
Proof.
  intro Ht. unfold handleTick.
  destruct (VirtualBarBuilder.pushTick (barBuilder b) tick) as [bb closed].
  destruct closed as [bar|].
  - apply handleBarClose_tidy.
    eapply tidy_same; [| |exact Ht].
    + rewrite core_evaluateProtectiveExits. reflexivity.
    + rewrite processedSignals_evaluateProtectiveExits. reflexivity.
  - eapply tidy_same; [| |exact Ht]; reflexivity.
Qed.

Section WithParseFloat.

Variable parseFloat : string -> number.

Lemma processedSignals_onRestPosition b env p :
  processedSignals (onRestPosition parseFloat b env p) = processedSignals b.
Proof.
  unfold onRestPosition.
  destruct (PositionStateManager.updateFromRest _ _ _ _) as [sm ok].
  destruct ok; cbn [negb].
  - destruct (negb (neqb _ _)); reflexivity.
  - destruct (PositionStateManager.shouldFreezeTrading _); reflexivity.
Qed.

Lemma processedSignals_onRestBalance b env u :
  processedSignals (onRestBalance b env u) = processedSignals b.
Proof.
  unfold onRestBalance. destruct u; [|reflexivity].
  destruct (_ || _); reflexivity.
Qed.

Lemma step_tidy b ev : tidy b -> tidy (step parseFloat b ev).
Proof.
  intro Ht. destruct ev; cbn [step].
  - apply handleTick_tidy, Ht.
  - eapply tidy_same; [| |exact Ht];
      [apply core_onRestPosition|apply processedSignals_onRestPosition].
  - eapply tidy_same; [| |exact Ht];
      [apply core_onRestBalance|apply processedSignals_onRestBalance].
  - eapply tidy_same; [| |exact Ht]; [|reflexivity]. unfold unfreeze.
    autorewrite with frame. reflexivity.
  - eapply tidy_same; [| |exact Ht]; reflexivity.
Qed.

Lemma run_tidy evs : forall b, tidy b -> tidy (run parseFloat b evs).
Proof.
  induction evs as [|ev rest IH]; intros b Ht; [exact Ht|].
  apply IH, step_tidy, Ht.
Qed.

Lemma new_tidy c now saved b0 : new c now saved = Some b0 -> tidy b0.
Proof.
  unfold new.
  destruct (VirtualBarBuilder.new _) as [bb|]; [|discriminate].
  destruct (match strategy c with
            | watermellon wc => _ | peach_hybrid pc => _ end)
    as [eng|]; [|discriminate].
  intro H; inversion H; subst b0; clear H.
  match goal with
  | |- tidy (loadWarmState ?x now saved) =>
      assert (He : entries (loadWarmState x now saved) = [] /\
                   processedSignals (loadWarmState x now saved) = [])
        by (unfold loadWarmState; destruct saved; split; reflexivity)
  end.
  destruct He as [He Hp]. unfold tidy. rewrite He, Hp.
  split; [reflexivity|]. split; [constructor|]. split; [constructor|].
  unfold len; cbn; lia.
Qed.

(** X20.  Nothing is entered during the warm-up: in every state the
    orchestrator reaches from its constructor, as long as no more than
    [WARMUP_BARS] bars have been counted no entry has been recorded. *)
Theorem no_entry_during_warmup
    (c : AppConfig) (now : Z) (saved : option Saved) (b0 : t)
    (evs : list Event) :
  new c now saved = Some b0 ->
  (barCount (run parseFloat b0 evs) <= WARMUP_BARS)%Z ->
  entries (run parseFloat b0 evs) = [].
Proof.
  intros Hnew Hw.
  destruct (run_tidy evs b0 (new_tidy c now saved b0 Hnew)) as (H & _).
  apply H, Hw.
Qed.

(** X22.  The orchestrator remembers at most 100 signal keys, in every
    state it reaches from its constructor. *)
Theorem remembered_signal_keys_are_bounded
    (c : AppConfig) (now : Z) (saved : option Saved) (b0 : t)
    (evs : list Event) :
  new c now saved = Some b0 ->
  (len (processedSignals (run parseFloat b0 evs)) <= 100)%Z.
Proof.
  intro Hnew.
  destruct (run_tidy evs b0 (new_tidy c now saved b0 Hnew))
    as (_ & _ & _ & H).
  exact H.
Qed.

End WithParseFloat.

Lemma existsb_snoc {A : Type} (p : A -> bool) (l : list A) (x : A) :
  p x = true -> existsb p (l ++ [x]) = true.
Proof.
  intro H. rewrite existsb_app. cbn. rewrite H. apply orb_true_iff.
  right. reflexivity.
Qed.

Lemma existsb_ring {A : Type} (p : A -> bool) (l : list A) (x : A) :
  p x = true ->
  existsb p (if (100 <? len (push l x))%Z then shift (push l x)
             else push l x) = true.
Proof.
  intro H. destruct (100 <? len (push l x))%Z eqn:E.
  - destruct l as [|y l].
    + apply Z.ltb_lt in E. unfold len, push in E. cbn in E. lia.
    + unfold push, shift. cbn [app tl]. apply existsb_snoc. exact H.
  - apply existsb_snoc. exact H.
Qed.

(** X23.  A signal is dispatched once per bar: after [handleBarClose]
    has dispatched a signal of a type on a bar, the key of the two is
    remembered, and dispatching a signal of that type on that bar again
    changes nothing. *)
Theorem dispatched_signal_is_not_dispatched_again
    (b : t) (env env' : Env) (bar : SyntheticBar) (sg : StrategySignal) :
  let b' := dispatchSignal b env bar (Some sg) in
  remembered b' sg bar = true /\
  dispatchSignal b' env' bar (Some sg) = b'.
Proof.
  intro b'.
  assert (Hr : remembered b' sg bar = true).
  { subst b'. unfold remembered, dispatchSignal. cbn [fst snd].
    destruct (existsb _ (processedSignals b)) eqn:E; [exact E|].
    cbv zeta. rewrite processedSignals_applySignal. ps_fields.
    apply existsb_ring. cbn [fst snd].
    rewrite Z.eqb_refl. destruct (type sg); reflexivity. }
  split; [exact Hr|].
  unfold dispatchSignal at 1. cbn [fst snd].
  unfold remembered in Hr. rewrite Hr. reflexivity.
Qed.

Lemma position_engineSetPosition b s :
  position (engineSetPosition b s) = position b.
Proof. unfold engineSetPosition. destruct (engine b); reflexivity. Qed.

Lemma closePosition_position b env why meta :
  let b' := closePosition b env why meta in
  (position b' = position b \/ position b' = flat_position) /\
  (closeResolves env = true -> pos_side (position b') = flat).
Proof.
  cbv zeta. unfold closePosition.
  destruct (PositionSide_eqb (pos_side (position b)) flat) eqn:Ef.
  - split; [left; reflexivity|]. intros _.
    destruct (pos_side (position b)); cbn in Ef; congruence.
  - destruct (closeResolves env); cbn [negb].
    + split; [right; reflexivity|]. intros _. reflexivity.
    + split; [left; reflexivity|]. discriminate.
Qed.

Lemma trailed_frame b bar :
  position (trailed b bar) = position b /\
  config (trailed b bar) = config b /\
  isPeachHybrid (trailed b bar) = isPeachHybrid b.
Proof.
  unfold trailed. destruct (pos_side (position b)).
  - destruct (highestPrice b); [destruct (Qltb _ _)|]; repeat split.
  - destruct (lowestPrice b); [destruct (Qltb _ _)|]; repeat split.
  - repeat split.
Qed.

Lemma protectiveExitsAt_position b env bar entry :
  position (protectiveExitsAt b env bar entry) = position b \/
  position (protectiveExitsAt b env bar entry) = flat_position.
Proof.
  unfold protectiveExitsAt. cbv zeta. fold (trailed b bar).
  destruct (trailed_frame b bar) as (Hp & _).
  repeat match goal with
         | |- context [if ?c then _ else _] => destruct c
         | |- context [match positive ?x with _ => _ end] =>
             destruct (positive x)
         end;
    try (left; exact Hp);
    match goal with
    | |- context [closePosition ?x ?e ?w ?m] =>
        destruct (closePosition_position x e w m) as [[H|H] _];
        [left; rewrite H; exact Hp|right; exact H]
    end.
Qed.

Lemma evaluateProtectiveExits_position b env bar :
  position (evaluateProtectiveExits b env bar) = position b \/
  position (evaluateProtectiveExits b env bar) = flat_position.
Proof.
  unfold evaluateProtectiveExits.
  destruct (sideIs b flat); [left; reflexivity|].
  destruct (entryPrice (position b)); [|left; reflexivity].
  destruct (Qeq_bool q 0); [left; reflexivity|].
  apply protectiveExitsAt_position.
Qed.

(** X24.  The protective exits only close: [evaluateProtectiveExits]
    leaves the position as it is or makes it flat, and it never records an
    entry. *)
Theorem protective_exits_only_close
    (b : t) (env : Env) (bar : SyntheticBar) :
  let b' := evaluateProtectiveExits b env bar in
  (position b' = position b \/ position b' = flat_position) /\
  entries b' = entries b /\ flipHistory b' = flipHistory b.
Proof.
  cbv zeta.
  destruct (core_inv _ _ (core_evaluateProtectiveExits b env bar))
    as (_ & Hf & He & _).
  split; [|split; assumption].
  apply evaluateProtectiveExits_position.
Qed.

(** X25.  The emergency stop closes the position: with a positive
    [emergencyStopLoss] of [pct] percent, on the hybrid strategy or with
    [useStopLoss] set, a long position whose bar closes at or below
    [entry * (1 - pct / 100)], or a short position whose bar closes at or
    above [entry * (1 + pct / 100)], is flat after
    [evaluateProtectiveExits] when the executor resolves the close. *)
Theorem emergency_stop_closes_the_position
    (b : t) (env : Env) (bar : SyntheticBar) (entry pct : Q) :
  entryPrice (position b) = Some entry -> ~ entry == 0 ->
  positive (emergencyStopLoss (risk (config b))) = Some pct ->
  isPeachHybrid b || truthy (useStopLoss (risk (config b))) = true ->
  closeResolves env = true ->
  (pos_side (position b) = long /\ close bar <= entry * (1 - pct / 100)) \/
  (pos_side (position b) = short /\ entry * (1 + pct / 100) <= close bar) ->
  position (evaluateProtectiveExits b env bar) = flat_position.
Proof.
  intros He Hnz Hpct Hon Hres Hhit.
  assert (Hside : sideIs b flat = false).
  { unfold sideIs. destruct Hhit as [[H _]|[H _]]; rewrite H; reflexivity. }
  unfold evaluateProtectiveExits. rewrite Hside, He.
  replace (Qeq_bool entry 0) with false
    by (symmetry; destruct (Qeq_bool entry 0) eqn:E; [|reflexivity];
        apply Qeq_bool_iff in E; contradiction).
  unfold protectiveExitsAt. cbv zeta. fold (trailed b bar).
  destruct (trailed_frame b bar) as (Hp & Hc & Hh).
  assert (Hclosed : forall x w m, position x = position b ->
            position (closePosition x env w m) = flat_position).
  { intros x w m Hx. unfold closePosition. rewrite Hx.
    replace (PositionSide_eqb (pos_side (position b)) flat) with false
      by (destruct Hhit as [[H _]|[H _]]; rewrite H; reflexivity).
    rewrite Hres. reflexivity. }
  match goal with
  | |- position (if ?c then _ else _) = _ => destruct c
  end; [apply Hclosed; exact Hp|].
  rewrite Hpct, Hh, Hon. cbn [andb].
  assert (Hit :
    (sideIs (trailed b bar) long
     && Qle_bool (close bar)
          (if sideIs (trailed b bar) long then entry * (1 - pct / 100)
           else entry * (1 + pct / 100))
     || sideIs (trailed b bar) short
        && Qle_bool
             (if sideIs (trailed b bar) long then entry * (1 - pct / 100)
              else entry * (1 + pct / 100)) (close bar)) = true).
  { unfold sideIs. rewrite Hp.
    destruct Hhit as [[H L]|[H L]]; rewrite H; cbn [PositionSide_eqb andb orb];
      apply Qle_bool_iff in L; rewrite L; reflexivity. }
  rewrite Hit. apply Hclosed. exact Hp.
Qed.

(** X26.  An entry that is not made changes nothing: when the executor
    rejects the order, or when in live mode the balance is below the
    margin the order needs, [enterPosition] only writes log entries; the
    position, the trackers, the statistics and the flip history are as
    before. *)
Theorem rejected_entry_changes_nothing
    (b : t) (env : Env) (side : PositionSide) (order : TradeInstruction) :
  enterOutcome env <> Resolved \/
  (mode (config b) = live /\
   usdtBalance b < ord_size order / ord_leverage order) ->
  exists msgs, enterPosition b env side order = fold_left log msgs b.
Proof.
  intro H. unfold enterPosition. cbv zeta.
  change (mode (config (log b "Checking balance before entering position")))
    with (mode (config b)).
  change (usdtBalance (log b "Checking balance before entering position"))
    with (usdtBalance b).
  destruct (match mode (config b) with
            | dry_run => false
            | live => Qltb (usdtBalance b) (ord_size order / ord_leverage order)
            end) eqn:Epoor.
  - exists ["Checking balance before entering position";
            "Insufficient balance to enter position"]%string. reflexivity.
  - destruct H as [H|[Hm Hb]].
    + destruct (enterOutcome env); [congruence| |].
      * exists ["Checking balance before entering position";
                "Order failed: Insufficient balance"]%string. reflexivity.
      * exists ["Checking balance before entering position"]%string.
        reflexivity.
    + rewrite Hm in Epoor. apply Qltb_false in Epoor. lra.
Qed.

Lemma frost_engineSetPosition b s :
  tradingFrozen (engineSetPosition b s) = tradingFrozen b /\
  freezeUntil (engineSetPosition b s) = freezeUntil b.
Proof. unfold engineSetPosition. destruct (engine b); split; reflexivity. Qed.

Lemma frost_logTradeStats b :
  tradingFrozen (logTradeStats b) = tradingFrozen b /\
  freezeUntil (logTradeStats b) = freezeUntil b.
Proof. unfold logTradeStats. destruct (0 <? _)%Z; split; reflexivity. Qed.

Lemma frost_closePosition b env why meta :
  tradingFrozen (closePosition b env why meta) = tradingFrozen b /\
  freezeUntil (closePosition b env why meta) = freezeUntil b.
Proof.
  unfold closePosition.
  destruct (PositionSide_eqb _ flat); [split; reflexivity|].
  destruct (negb (closeResolves env)); [split; reflexivity|].
  cbv zeta.
  cbn [tradingFrozen freezeUntil emit with_position with_trailing].
  match goal with
  | |- context [logTradeStats ?x] =>
      destruct (frost_logTradeStats x) as [A1 A2]; rewrite A1, A2; clear A1 A2
  end.
  match goal with
  | |- context [engineSetPosition ?x ?s] =>
      destruct (frost_engineSetPosition x s) as [A1 A2];
      rewrite A1, A2; clear A1 A2
  end.
  destruct (TradeStatistics.getRecentTrades _ 1); split; reflexivity.
Qed.

Lemma frost_evaluateProtectiveExits b env bar :
  tradingFrozen (evaluateProtectiveExits b env bar) = tradingFrozen b /\
  freezeUntil (evaluateProtectiveExits b env bar) = freezeUntil b.
Proof.
  unfold evaluateProtectiveExits.
  destruct (sideIs b flat); [split; reflexivity|].
  destruct (entryPrice (position b)); [|split; reflexivity].
  destruct (Qeq_bool q 0); [split; reflexivity|].
  unfold protectiveExitsAt. cbv zeta. fold (trailed b bar).
  assert (H1 : tradingFrozen (trailed b bar) = tradingFrozen b /\
               freezeUntil (trailed b bar) = freezeUntil b).
  { unfold trailed. destruct (pos_side (position b)); [| |split; reflexivity].
    - destruct (highestPrice b); [destruct (Qltb _ _)|]; split; reflexivity.
    - destruct (lowestPrice b); [destruct (Qltb _ _)|]; split; reflexivity. }
  repeat match goal with
         | |- context [if ?c then _ else _] => destruct c
         | |- context [match positive ?x with _ => _ end] =>
             destruct (positive x)
         end;
    try exact H1;
    match goal with
    | |- context [closePosition ?x ?e ?w ?m] =>
        destruct (frost_closePosition x e w m) as [A1 A2];
        rewrite A1, A2; exact H1
    end.
Qed.

Lemma entries_log b m : entries (log b m) = entries b.
Proof.
  destruct (core_inv _ _ (core_log b m)) as (_ & _ & H & _). exact H.
Qed.

Lemma handleBarClose_frozen b env bar :
  tradingFrozen b = true -> (now env < freezeUntil b)%Z ->
  let b' := handleBarClose b env bar in
  position b' = position b /\ engine b' = engine b /\
  entries b' = entries b /\ flipHistory b' = flipHistory b /\
  tradingFrozen b' = true /\ freezeUntil b' = freezeUntil b.
Proof.
  intros Hf Hn. cbv zeta. unfold handleBarClose.
  destruct (endTime bar <=? lastBarCloseTime b)%Z;
    [repeat split; auto|].
  cbv zeta.
  cbn [barCount tradingFrozen freezeUntil with_barClock].
  destruct (barCount b + 1 <=? WARMUP_BARS)%Z.
  - destruct (barCount b + 1 =? 1)%Z;
      cbn [barCount log emit with_barClock];
      destruct (barCount b + 1 =? WARMUP_BARS)%Z;
      rewrite ?entries_log; repeat split; auto.
  - rewrite Hf. replace (now env <? freezeUntil b)%Z with true
      by (symmetry; apply Z.ltb_lt; exact Hn).
    cbn [andb]. rewrite entries_log. repeat split; auto.
Qed.

(** X28.  A frozen orchestrator does not trade: while [tradingFrozen] is
    set and the freeze has not run out, a tick leaves the position as it is
    or, by a protective exit, flat; it records no entry and no flip, and the
    engine's ADX and RSI history are not fed; the freeze stays as it
    is. *)
Theorem frozen_orchestrator_does_not_trade
    (b : t) (env : Env) (tick : Tick) :
  tradingFrozen b = true -> (now env < freezeUntil b)%Z ->
  let b' := handleTick b env tick in
  (position b' = position b \/ position b' = flat_position) /\
  entries b' = entries b /\ flipHistory b' = flipHistory b /\
  engine_view b' = engine_view b /\
  tradingFrozen b' = true /\ freezeUntil b' = freezeUntil b.
Proof.
  intros Hf Hn. cbv zeta. unfold handleTick.
  destruct (VirtualBarBuilder.pushTick (barBuilder b) tick) as [bb closed].
  destruct closed as [bar|]; [|repeat split; auto].
  set (b1 := with_barBuilder b bb).
  destruct (frost_evaluateProtectiveExits b1 env bar) as [F1 F2].
  destruct (core_inv _ _ (core_evaluateProtectiveExits b1 env bar))
    as (_ & Cf & Ce & _ & _ & _ & Cv).
  pose proof (evaluateProtectiveExits_position b1 env bar) as Hp.
  set (b2 := evaluateProtectiveExits b1 env bar) in *.
  assert (Hf2 : tradingFrozen b2 = true) by (rewrite F1; exact Hf).
  assert (Hn2 : (now env < freezeUntil b2)%Z) by (rewrite F2; exact Hn).
  destruct (handleBarClose_frozen b2 env bar Hf2 Hn2)
    as (Hpos & Heng & Hent & Hflip & Hfro & Hunt).
  rewrite Hpos, Hent, Hflip, Hfro, Hunt, Ce, Cf, F2.
  split; [exact Hp|]. split; [reflexivity|]. split; [reflexivity|].
  split; [|split; reflexivity].
  unfold engine_view. rewrite Heng. exact Cv.
Qed.

Section WithParseFloat2.

Variable parseFloat : string -> number.

Lemma updateFromRest_true (m : PositionStateManager.t) (now : Z)
    (r : PositionStateManager.RestState) :
  snd (PositionStateManager.updateFromRest parseFloat m now r) = true ->
  fst (PositionStateManager.updateFromRest parseFloat m now r)
  = PositionStateManager.overwrite m now
      (PositionStateManager.normalize parseFloat r).
Proof.
  unfold PositionStateManager.updateFromRest. cbv zeta.
  repeat match goal with
         | |- context [if ?c then _ else _] => destruct c
         end; cbn [fst snd]; try discriminate; reflexivity.
Qed.

Lemma confirmByPositionChange_NaN (m : OrderTracker.t) (now : Z)
    (sd : PositionSide) :
  OrderTracker.confirmByPositionChange m now sd NaN = m.
Proof.
  unfold OrderTracker.confirmByPositionChange.
  assert (H : find (fun kv : Z * OrderTracker.OrderConfirmation =>
                      negb (OrderTracker.confirmed (snd kv))
                      && PositionSide_eqb (OrderTracker.side (snd kv)) sd
                      && nltb (nabs (nsub (OrderTracker.size (snd kv)) NaN))
                              (1 # 10000)) m = None).
  { induction m as [|kv m IH]; [reflexivity|]. cbn [find nsub nabs nltb].
    rewrite andb_false_r. exact IH. }
  rewrite H. reflexivity.
Qed.

(** X29.  An accepted poll sets the position: when [updateFromRest]
    accepts the polled position, the orchestrator's position becomes the
    exchange's side and size, with the exchange's entry price when that is
    positive and none otherwise, opened at the time of the poll; a flat
    exchange position whose amount is a number clears the pending order.
    An amount that is not a number makes the position flat with the size
    [NaN] and leaves the pending order and the tracked orders as they are.
    The engine, the trade statistics and the recorded entries are not
    touched. *)
Theorem accepted_poll_sets_the_position
    (b : t) (env : Env) (p : AsterPositionResponse) :
  snd (PositionStateManager.updateFromRest parseFloat (stateManager b)
         (now env) (polled p)) = true ->
  let b' := onRestPosition parseFloat b env p in
  let n := PositionStateManager.normalize parseFloat (polled p) in
  position b'
  = mkPosition (PositionStateManager.n_side n) (PositionStateManager.n_size n)
      (if Qltb 0 (PositionStateManager.n_avgEntry n)
       then Some (PositionStateManager.n_avgEntry n) else None)
      (Some (now env)) /\
  local_snapshot (stateManager b') = n /\
  PositionStateManager.reconciliationFailures (stateManager b') = 0%Z /\
  (PositionStateManager.n_side n = flat ->
   parseFloat (positionAmt p) <> NaN ->
   PositionStateManager.pendingOrder
     (PositionStateManager.state (stateManager b')) = None) /\
  (parseFloat (positionAmt p) = NaN ->
   pos_side (position b') = flat /\ pos_size (position b') = NaN /\
   PositionStateManager.pendingOrder
     (PositionStateManager.state (stateManager b'))
   = PositionStateManager.pendingOrder
       (PositionStateManager.state (stateManager b)) /\
   orderTracker b' = orderTracker b) /\
  engine b' = engine b /\ tradeStats b' = tradeStats b /\
  entries b' = entries b.
Proof.
  intros Hok b' n. subst b'. unfold onRestPosition. fold (polled p).
  pose proof (updateFromRest_true (stateManager b) (now env) (polled p) Hok)
    as Hfst.
  destruct (PositionStateManager.updateFromRest parseFloat (stateManager b)
              (now env) (polled p)) as [sm ok].
  cbn [fst snd] in *. subst ok sm. cbn [negb]. fold n.
  assert (Hflat : PositionStateManager.n_side n = flat ->
                  parseFloat (positionAmt p) <> NaN ->
                  neqb (parseFloat (positionAmt p)) 0 = true).
  { subst n. unfold PositionStateManager.normalize, polled.
    cbn [PositionStateManager.n_side PositionStateManager.positionAmt].
    destruct (parseFloat (positionAmt p)) as [|a]; [congruence|].
    cbn [nltb neqb].
    destruct (Qltb 0 a) eqn:E1; [discriminate|].
    destruct (Qltb a 0) eqn:E2; [discriminate|].
    intros _ _. apply Qltb_false in E1. apply Qltb_false in E2.
    apply Qeq_bool_iff. lra. }
  assert (Hnan : parseFloat (positionAmt p) = NaN ->
                 PositionStateManager.n_side n = flat /\
                 PositionStateManager.n_size n = NaN).
  { intro H. subst n. unfold PositionStateManager.normalize, polled.
    cbn [PositionStateManager.n_side PositionStateManager.n_size
         PositionStateManager.positionAmt].
    rewrite H. split; reflexivity. }
  destruct (neqb (parseFloat (positionAmt p)) 0) eqn:Ez; cbn [negb].
  - unfold PositionStateManager.getState,
      PositionStateManager.clearPendingOrder,
      PositionStateManager.withPending, PositionStateManager.overwrite,
      local_snapshot.
    cbn [stateManager position engine tradeStats with_stateManager
         with_position PositionStateManager.state PositionStateManager.side
         PositionStateManager.size PositionStateManager.avgEntry
         PositionStateManager.unrealizedPnl PositionStateManager.lastUpdate
         PositionStateManager.pendingOrder
         PositionStateManager.reconciliationFailures].
    split; [reflexivity|]. split; [destruct n; reflexivity|].
    split; [reflexivity|]. split; [reflexivity|].
    split; [|repeat split; reflexivity].
    intro H. rewrite H in Ez. discriminate Ez.
  - unfold PositionStateManager.getState, PositionStateManager.overwrite,
      local_snapshot.
    cbn [stateManager position engine tradeStats orderTracker
         with_stateManager with_orderTracker with_position pos_side pos_size
         PositionStateManager.state
         PositionStateManager.side PositionStateManager.size
         PositionStateManager.avgEntry PositionStateManager.unrealizedPnl
         PositionStateManager.lastUpdate PositionStateManager.pendingOrder
         PositionStateManager.reconciliationFailures].
    split; [reflexivity|]. split; [destruct n; reflexivity|].
    split; [reflexivity|].
    split; [intros Hf Hn; specialize (Hflat Hf Hn); discriminate Hflat|].
    split; [|repeat split; reflexivity].
    intro H. destruct (Hnan H) as [Hs Hz]. rewrite H.
    cbn [nabs nltb]. rewrite confirmByPositionChange_NaN.
    repeat split; assumption.
Qed.

(** X30.  Trading is frozen at the second failed poll in a row: when
    [updateFromRest] rejects the polled position the orchestrator keeps its
    position and counts the failure, and it freezes trading for 60 s exactly
    when at least one failure had been counted before; the timer's callback
    then clears the flag and the counter. *)
Theorem second_failed_poll_freezes_trading
    (b : t) (env : Env) (p : AsterPositionResponse) :
  snd (PositionStateManager.updateFromRest parseFloat (stateManager b)
         (now env)
         (PositionStateManager.mkRest (positionAmt p)
            (or_zero_string (resp_entryPrice p))
            (or_zero_string (unRealizedProfit p)))) = false ->
  let b' := onRestPosition parseFloat b env p in
  position b' = position b /\
  PositionStateManager.reconciliationFailures (stateManager b')
  = (PositionStateManager.reconciliationFailures (stateManager b) + 1)%Z /\
  (if (1 <=? PositionStateManager.reconciliationFailures (stateManager b))%Z
   then tradingFrozen b' = true /\ freezeUntil b' = (now env + 60000)%Z
   else tradingFrozen b' = tradingFrozen b /\ freezeUntil b' = freezeUntil b)
  /\
  tradingFrozen (unfreeze b') = false /\
  PositionStateManager.shouldFreezeTrading (stateManager (unfreeze b'))
  = false.
Proof.
  intros Hfail b'. subst b'. unfold onRestPosition.
  pose proof (updateFromRest_fails parseFloat (stateManager b) (now env)
                (PositionStateManager.mkRest (positionAmt p)
                   (or_zero_string (resp_entryPrice p))
                   (or_zero_string (unRealizedProfit p))) Hfail) as Hf.
  destruct (PositionStateManager.updateFromRest _ _ _ _) as [sm ok].
  cbn [fst snd] in *. subst ok. cbn [negb]. destruct Hf as [_ Hf].
  unfold PositionStateManager.shouldFreezeTrading,
    PositionStateManager.maxReconciliationFailures.
  cbn [stateManager log emit with_stateManager]. rewrite Hf.
  destruct (2 <=? PositionStateManager.reconciliationFailures (stateManager b)
                  + 1)%Z eqn:E2;
    destruct (1 <=? PositionStateManager.reconciliationFailures
                      (stateManager b))%Z eqn:E1;
    try (apply Z.leb_le in E2; apply Z.leb_gt in E1; lia);
    try (apply Z.leb_gt in E2; apply Z.leb_le in E1; lia);
    cbn; rewrite ?Hf; repeat split; reflexivity.
Qed.

End WithParseFloat2.

End OrchestratorMore.

(** * Calls in flight *)

Section InFlight.
Import BotRunner.
Import BotRunner.Async.

#[local] Hint Rewrite core_log core_with_barBuilder
  core_with_stateManager core_with_orderTracker core_with_tradeStats
  core_with_position core_with_frozen core_with_processedSignals
  core_with_trailing core_with_balance core_engineSetPosition
  core_logTradeStats : frame.

Lemma clock_core b b' : core b' = core b -> clock b' = clock b.
Proof.
  intro H. destruct (core_inv _ _ H) as (_ & _ & He & Hl & Hc & _).
  unfold clock. rewrite He, Hl, Hc. reflexivity.
Qed.

Lemma clock_log b m : clock (log b m) = clock b.
Proof. apply clock_core, core_log. Qed.

Lemma clock_with_flipHistory b fh : clock (with_flipHistory b fh) = clock b.
Proof. reflexivity. Qed.

Lemma clock_canFlip b ts : clock (fst (canFlip b ts)) = clock b.
Proof. reflexivity. Qed.

Lemma entering_await r p :
  entering (await r p)
  = entering r ++ match p with
                  | Entering _ order => [ord_timestamp order]
                  | Closing _ _ => []
                  end.
Proof.
  unfold entering, await, push; cbn [inFlight].
  rewrite flat_map_app. cbn [flat_map]. rewrite app_nil_r. reflexivity.
Qed.

Lemma entering_onBot r b : entering (onBot r b) = entering r.
Proof. reflexivity. Qed.

(** A call of [closePosition] leaves the orchestrator as it is: what it
    does to it waits for the executor. *)
Lemma closePosition_waits r why meta :
  bot (Async.closePosition r why meta) = bot r /\
  entering (Async.closePosition r why meta) = entering r.
Proof.
  unfold Async.closePosition.
  destruct (PositionSide_eqb _ flat); [split; reflexivity|].
  cbv zeta. rewrite entering_await, app_nil_r. split; reflexivity.
Qed.

Lemma enterPosition_waits r side order :
  clock (bot (Async.enterPosition r side order)) = clock (bot r) /\
  (entering (Async.enterPosition r side order) = entering r \/
   entering (Async.enterPosition r side order)
   = entering r ++ [ord_timestamp order]).
Proof.
  unfold Async.enterPosition. cbv zeta.
  destruct (match mode _ with dry_run => false | live => _ end).
  - cbn [bot onBot]. rewrite !clock_log. split; [reflexivity|left; reflexivity].
  - rewrite entering_await. cbn [bot onBot await].
    rewrite clock_log. split; [reflexivity|right; reflexivity].
Qed.

Lemma applySignal_waits r sg bar :
  clock (bot (Async.applySignal r sg bar)) = clock (bot r) /\
  (entering (Async.applySignal r sg bar) = entering r \/
   entering (Async.applySignal r sg bar) = entering r ++ [endTime bar]).
Proof.
  unfold Async.applySignal. cbv zeta.
  destruct (regimeBlocks (bot r)).
  { cbn [bot onBot]. rewrite clock_log. split; [reflexivity|left; reflexivity]. }
  assert (Hgen : forall sd order,
             ord_timestamp order = endTime bar ->
             let x :=
               if PositionSide_eqb (pos_side (position (bot r))) sd then r
               else
                 let '(b1, ok) := canFlip (bot r) (endTime bar) in
                 if negb ok then
                   onBot r
                     (log b1
                        match sd with
                        | long => "Flip budget exhausted, ignoring long signal"
                        | _ => "Flip budget exhausted, ignoring short signal"
                        end)
                 else if PositionSide_eqb (pos_side (position b1)) (opposite sd)
                 then
                   if (barCount b1 - positionOpenedAt b1 <? MIN_HOLD_BARS)%Z
                   then
                     onBot r
                       (log b1
                          "Minimum hold time not met, ignoring flip signal")
                   else
                     Async.enterPosition
                       (Async.closePosition (onBot r b1)
                          match sd with
                          | long => "flip-long"
                          | _ => "flip-short"
                          end
                          (Some (mkMeta None (Some (close bar)))))
                       sd order
                 else Async.enterPosition (onBot r b1) sd order in
             clock (bot x) = clock (bot r) /\
             (entering x = entering r \/
              entering x = entering r ++ [endTime bar])).
  { intros sd order Hts x. subst x.
    destruct (PositionSide_eqb _ sd); [split; [reflexivity|left; reflexivity]|].
    unfold canFlip. cbv zeta.
    set (b1 := with_flipHistory (bot r) _).
    destruct (negb _).
    { cbn [bot onBot]. rewrite clock_log. split; [reflexivity|left; reflexivity]. }
    destruct (PositionSide_eqb _ (opposite sd)).
    - destruct (_ <? MIN_HOLD_BARS)%Z.
      { cbn [bot onBot]. rewrite clock_log.
        split; [reflexivity|left; reflexivity]. }
      match goal with
      | |- context [Async.enterPosition ?r2 sd order] =>
          destruct (enterPosition_waits r2 sd order) as [Hc He];
          destruct (closePosition_waits (onBot r b1)
                      match sd with long => "flip-long" | _ => "flip-short" end
                      (Some (mkMeta None (Some (close bar))))) as [Hb Hn]
      end.
      rewrite Hc, Hb, Hts in *. rewrite Hn in He. cbn [bot onBot].
      split; [reflexivity|exact He].
    - destruct (enterPosition_waits (onBot r b1) sd order) as [Hc He].
      rewrite Hc, Hts in *. cbn [bot onBot].
      split; [reflexivity|exact He]. }
  destruct (type sg) eqn:Et.
  - apply Hgen. reflexivity.
  - apply Hgen. reflexivity.
  - split; [reflexivity|left; reflexivity].
Qed.

Lemma clock_trailing r bar :
  clock
    match pos_side (position (bot r)) with
    | long =>
        match highestPrice (bot r) with
        | None => with_trailing (bot r) (Some (close bar)) (lowestPrice (bot r))
        | Some h =>
            if Qltb h (close bar)
            then with_trailing (bot r) (Some (close bar)) (lowestPrice (bot r))
            else bot r
        end
    | short =>
        match lowestPrice (bot r) with
        | None => with_trailing (bot r) (highestPrice (bot r)) (Some (close bar))
        | Some l =>
            if Qltb (close bar) l
            then with_trailing (bot r) (highestPrice (bot r)) (Some (close bar))
            else bot r
        end
    | flat => bot r
    end
  = clock (bot r).
Proof.
  destruct (pos_side (position (bot r))); [| |reflexivity].
  - destruct (highestPrice (bot r)); [destruct (Qltb _ _)|]; reflexivity.
  - destruct (lowestPrice (bot r)); [destruct (Qltb _ _)|]; reflexivity.
Qed.

Lemma protectiveExitsAt_waits r bar entry :
  clock (bot (Async.protectiveExitsAt r bar entry)) = clock (bot r) /\
  entering (Async.protectiveExitsAt r bar entry) = entering r.
Proof.
  unfold Async.protectiveExitsAt. cbv zeta.
  pose proof (clock_trailing r bar) as Ht.
  set (b1 := match pos_side (position (bot r)) with
             | long => _ | short => _ | flat => _ end) in *.
  clearbody b1.
  repeat match goal with
         | |- context [if ?c then _ else _] => destruct c
         | |- context [match ?c with Some _ => _ | None => _ end] => destruct c
         end;
    try match goal with
        | |- context [Async.closePosition ?x ?w ?m] =>
            let Hb := fresh "Hb" in
            let Hn := fresh "Hn" in
            destruct (closePosition_waits x w m) as [Hb Hn];
            rewrite Hb, Hn
        end;
    cbn [bot onBot]; rewrite ?entering_onBot, ?clock_log, Ht;
    split; reflexivity.
Qed.

Lemma evaluateProtectiveExits_waits r bar :
  clock (bot (Async.evaluateProtectiveExits r bar)) = clock (bot r) /\
  entering (Async.evaluateProtectiveExits r bar) = entering r.
Proof.
  unfold Async.evaluateProtectiveExits.
  destruct (sideIs (bot r) flat); [split; reflexivity|].
  destruct (entryPrice (position (bot r))) as [entry|]; [|split; reflexivity].
  destruct (Qeq_bool entry 0); [split; reflexivity|].
  apply protectiveExitsAt_waits.
Qed.

Lemma clock_with_processedSignals b ps :
  clock (with_processedSignals b ps) = clock b.
Proof. reflexivity. Qed.

Lemma clock_emit_signal b sg bar : clock (emit b (EmitSignal sg bar)) = clock b.
Proof. apply clock_core, core_emit. reflexivity. Qed.

Lemma dispatchSignal_waits r bar signal :
  clock (bot (Async.dispatchSignal r bar signal)) = clock (bot r) /\
  (entering (Async.dispatchSignal r bar signal) = entering r \/
   entering (Async.dispatchSignal r bar signal) = entering r ++ [endTime bar]).
Proof.
  unfold Async.dispatchSignal. destruct signal as [sg|];
    [|split; [reflexivity|left; reflexivity]].
  cbv zeta. destruct (existsb _ _); [split; [reflexivity|left; reflexivity]|].
  match goal with
  | |- context [Async.applySignal ?x sg bar] =>
      destruct (applySignal_waits x sg bar) as [Hc He]
  end.
  rewrite Hc. cbn [bot onBot] in *.
  rewrite clock_log, clock_emit_signal, clock_with_processedSignals.
  split; [reflexivity|exact He].
Qed.

Lemma clock_updateEngine b bar : clock (fst (updateEngine b bar)) = clock b.
Proof.
  unfold updateEngine. destruct (engine b) as [e|e].
  - destruct (WatermellonEngine.update e (close bar)); reflexivity.
  - destruct (PeachHybridEngine.update e bar); reflexivity.
Qed.

Lemma clock_logIndicators b : clock (logIndicators b) = clock b.
Proof.
  unfold logIndicators. destruct (_ =? 0)%Z; [|reflexivity].
  destruct (engine b); apply clock_log.
Qed.

(** What a bar close does to the clock: nothing, or it moves the clock to
    the bar and counts it; an entry that it starts is at the bar's end, after
    the warm-up. *)
Lemma handleBarClose_waits r now bar :
  let r' := Async.handleBarClose r now bar in
  entries (bot r') = entries (bot r) /\
  ((lastBarCloseTime (bot r') = lastBarCloseTime (bot r) /\
    barCount (bot r') = barCount (bot r) /\ entering r' = entering r) \/
   ((lastBarCloseTime (bot r) < endTime bar)%Z /\
    lastBarCloseTime (bot r') = endTime bar /\
    barCount (bot r') = (barCount (bot r) + 1)%Z /\
    (entering r' = entering r \/
     ((WARMUP_BARS < barCount (bot r'))%Z /\
      entering r' = entering r ++ [endTime bar])))).
Proof.
  cbv zeta. unfold Async.handleBarClose. cbv zeta.
  destruct (endTime bar <=? lastBarCloseTime (bot r))%Z eqn:Es.
  { split; [reflexivity|]. left. repeat split; reflexivity. }
  apply Z.leb_gt in Es.
  set (b1 := with_barClock (bot r) (endTime bar) (barCount (bot r) + 1)).
  assert (Hb1 : clock b1
                = (entries (bot r), endTime bar, (barCount (bot r) + 1)%Z))
    by reflexivity.
  assert (Hdone : forall x,
             clock (bot x) = clock b1 ->
             (entering x = entering r \/
              ((WARMUP_BARS < barCount b1)%Z /\
               entering x = entering r ++ [endTime bar])) ->
             entries (bot x) = entries (bot r) /\
             ((lastBarCloseTime (bot x) = lastBarCloseTime (bot r) /\
               barCount (bot x) = barCount (bot r) /\
               entering x = entering r) \/
              ((lastBarCloseTime (bot r) < endTime bar)%Z /\
               lastBarCloseTime (bot x) = endTime bar /\
               barCount (bot x) = (barCount (bot r) + 1)%Z /\
               (entering x = entering r \/
                ((WARMUP_BARS < barCount (bot x))%Z /\
                 entering x = entering r ++ [endTime bar]))))).
  { intros x Hx He. rewrite Hb1 in Hx. unfold clock in Hx.
    injection Hx as H1 H2 H3. split; [exact H1|]. right.
    split; [exact Es|]. split; [exact H2|]. split; [exact H3|].
    destruct He as [He|[Hw He]]; [left; exact He|right].
    split; [|exact He]. rewrite H3. exact Hw. }
  destruct (barCount b1 <=? WARMUP_BARS)%Z eqn:Ew.
  { apply Hdone; [|left; reflexivity]. cbn [bot onBot].
    destruct (barCount b1 =? 1)%Z;
      match goal with
      | |- context [if ?c then _ else _] => destruct c
      end; rewrite ?clock_log; reflexivity. }
  apply Z.leb_gt in Ew.
  destruct (tradingFrozen b1 && (now <? freezeUntil b1)%Z).
  { apply Hdone; [|left; reflexivity]. cbn [bot onBot]. apply clock_log. }
  set (b2 := if tradingFrozen b1 then with_frozen b1 false (freezeUntil b1)
             else b1).
  assert (Hb2 : clock b2 = clock b1)
    by (subst b2; destruct (tradingFrozen b1); reflexivity).
  destruct (PeachHybridEngine.shouldExit (exitCheck b2 bar)).
  { match goal with
    | |- context [Async.closePosition ?x ?w ?m] =>
        destruct (closePosition_waits x w m) as [Hb Hn]
    end.
    apply Hdone; [|left; exact Hn].
    rewrite Hb. cbn [bot onBot]. rewrite clock_log. exact Hb2. }
  pose proof (clock_updateEngine b2 bar) as Hu.
  destruct (updateEngine b2 bar) as [b3 signal]. cbn [fst] in Hu.
  destruct (dispatchSignal_waits (onBot r (logIndicators b3)) bar signal)
    as [Hc He].
  apply Hdone.
  - rewrite Hc. cbn [bot onBot]. rewrite clock_logIndicators, Hu. exact Hb2.
  - rewrite entering_onBot in He. destruct He as [He|He]; [left; exact He|].
    right. split; [exact Ew|exact He].
Qed.

Lemma Forall_le_trans (l : list Z) (a c : Z) :
  (a <= c)%Z -> Forall (fun t => (t <= a)%Z) l -> Forall (fun t => (t <= c)%Z) l.
Proof.
  intros Hac H. eapply Forall_impl; [|exact H]. cbv beta. intros; lia.
Qed.

Lemma handleTick_on_the_clock r now tick :
  on_the_clock r -> on_the_clock (Async.handleTick r now tick).
Proof.
  intros [Hw Hf]. unfold Async.handleTick.
  destruct (VirtualBarBuilder.pushTick (barBuilder (bot r)) tick)
    as [bb closed].
  set (r1 := onBot r (with_barBuilder (bot r) bb)).
  assert (H1 : on_the_clock r1) by (split; assumption).
  destruct closed as [bar|]; [|exact H1].
  destruct (evaluateProtectiveExits_waits r1 bar) as [Hc He].
  set (r2 := Async.evaluateProtectiveExits r1 bar) in *.
  unfold clock in Hc. injection Hc as C1 C2 C3.
  assert (H2 : on_the_clock r2).
  { unfold on_the_clock. rewrite C1, C2, C3, He. exact H1. }
  clear Hw Hf H1 He C1 C2 C3. clearbody r2. clear r1.
  destruct H2 as [Hw Hf].
  pose proof (handleBarClose_waits r2 now bar) as H. cbv zeta in H.
  set (r3 := Async.handleBarClose r2 now bar) in *. clearbody r3.
  destruct H as [He [(Hl & Hc & Hn)|(Hlt & Hl & Hc & Hn)]].
  - unfold on_the_clock. rewrite He, Hl, Hc, Hn. split; assumption.
  - unfold on_the_clock. rewrite He, Hl, Hc. split.
    + intro Hle. assert (Hle' : (barCount (bot r2) <= WARMUP_BARS)%Z) by lia.
      destruct (Hw Hle') as [A B]. split; [exact A|].
      destruct Hn as [Hn|[Hgt _]]; [rewrite Hn; exact B|lia].
    + assert (Hold : Forall (fun t => (t <= endTime bar)%Z)
                            (entries (bot r2) ++ entering r2))
        by (apply (Forall_le_trans _ (lastBarCloseTime (bot r2))); [lia|exact Hf]).
      destruct Hn as [Hn|[_ Hn]]; rewrite Hn; [exact Hold|].
      rewrite app_assoc. apply Forall_app. split; [exact Hold|].
      constructor; [lia|constructor].
Qed.

Lemma clock_closePositionResumed b now why exitPrice :
  clock (closePositionResumed b now why exitPrice) = clock b.
Proof.
  apply clock_core. unfold closePositionResumed. cbv zeta.
  rewrite core_emit by reflexivity.
  autorewrite with frame.
  destruct (TradeStatistics.getRecentTrades _ 1); autorewrite with frame;
    reflexivity.
Qed.

Ltac bot_fields :=
  cbn [config flipHistory emitted lastBarCloseTime barCount positionOpenedAt
       engine position stateManager tradingFrozen
       with_barBuilder with_engine with_stateManager with_orderTracker
       with_tradeStats with_position with_flipHistory with_frozen
       with_processedSignals with_barClock with_trailing
       with_positionOpenedAt with_balance emit log recordFlip].

(** The rest of [enterPosition], when the call has resolved: one entry and
    one flip at the order's time, [positionOpenedAt] at the [barCount] of
    that moment. *)
Lemma enterPositionResumed_resolved b now side order :
  let b' := enterPositionResumed b now Resolved side order in
  config b' = config b /\
  flipHistory b' = flipHistory b ++ [ord_timestamp order] /\
  entries b'
  = entries b
    ++ (if PositionSide_eqb side flat then [] else [ord_timestamp order]) /\
  lastBarCloseTime b' = lastBarCloseTime b /\
  barCount b' = barCount b /\
  positionOpenedAt b' = barCount b /\
  pos_side (position b') = side.
Proof.
  intros b'. subst b'. unfold enterPositionResumed. cbv zeta.
  match goal with
  | |- context [engineSetPosition ?x side] =>
      remember x as bx eqn:Ebx;
      destruct (engineSetPosition_fields bx side)
        as (Ec & Ef & Ee & Ev & El & Eb & Eo & Ep)
  end.
  unfold entries.
  bot_fields. rewrite ?Ec, ?Ef, ?Ee, ?El, ?Eb, ?Eo, ?Ep.
  clear Ec Ef Ee Ev El Eb Eo Ep. subst bx. bot_fields.
  unfold push. rewrite entryTimes_app.
  cbn [entryTimes entryTime pos_side openedAt].
  destruct (PositionSide_eqb side flat); repeat split.
Qed.

Lemma enterPositionResumed_rejected b now outcome side order :
  outcome <> Resolved ->
  core (enterPositionResumed b now outcome side order) = core b.
Proof.
  intro H. unfold enterPositionResumed.
  destruct outcome; [congruence|apply core_log|reflexivity].
Qed.

Lemma clock_enterPositionResumed b now outcome side order :
  exists l,
    (l = [] \/ l = [ord_timestamp order]) /\
    clock (enterPositionResumed b now outcome side order)
    = (entries b ++ l, lastBarCloseTime b, barCount b).
Proof.
  destruct outcome.
  - destruct (enterPositionResumed_resolved b now side order)
      as (_ & _ & He & Hl & Hc & _).
    exists (if PositionSide_eqb side flat then [] else [ord_timestamp order]).
    split; [destruct (PositionSide_eqb side flat); auto|].
    unfold clock. rewrite He, Hl, Hc. reflexivity.
  - exists []. split; [left; reflexivity|].
    rewrite (clock_core _ _ (enterPositionResumed_rejected b now BalanceError
                               side order ltac:(discriminate))).
    unfold clock. rewrite app_nil_r. reflexivity.
  - exists []. split; [left; reflexivity|].
    unfold clock. rewrite app_nil_r. reflexivity.
Qed.

Lemma entering_settled (r : Running) (i : nat) (p : Pending) (b : t) :
  nth_error (inFlight r) i = Some p ->
  incl (entering
          (mkRunning b (firstn i (inFlight r) ++ skipn (S i) (inFlight r))))
       (entering r) /\
  match p with
  | Entering _ order => In (ord_timestamp order) (entering r)
  | Closing _ _ => True
  end.
Proof.
  unfold entering; cbn [inFlight]. generalize (inFlight r) as l.
  induction i as [|i IH]; intros [|x l] H; try discriminate.
  - cbn in H. injection H as ->. cbn [firstn skipn app flat_map]. split.
    + apply incl_appr, incl_refl.
    + destruct p; [|exact I]. left. reflexivity.
  - cbn [nth_error] in H. destruct (IH l H) as [I1 I2].
    cbn [firstn skipn app flat_map] in *. split.
    + apply incl_app; [apply incl_appl, incl_refl|apply incl_appr, I1].
    + destruct p; [|exact I]. apply in_or_app. right. exact I2.
Qed.

Lemma Forall_incl (P : Z -> Prop) (l l' : list Z) :
  incl l l' -> Forall P l' -> Forall P l.
Proof.
  intros Hi H. rewrite Forall_forall in *. intros x Hx. apply H, Hi, Hx.
Qed.

Lemma settle_on_the_clock r i now outcome :
  on_the_clock r -> on_the_clock (settle r i now outcome).
Proof.
  intros [Hw Hf]. unfold settle.
  destruct (nth_error (inFlight r) i) as [p|] eqn:En; [|split; assumption].
  cbv zeta.
  apply Forall_app in Hf as [Hfe Hfi].
  assert (Hrest : forall b,
            clock b = clock (bot r) ->
            on_the_clock
              (mkRunning b
                 (firstn i (inFlight r) ++ skipn (S i) (inFlight r)))).
  { intros b Hb. destruct (entering_settled r i p b En) as [Hin _].
    unfold clock in Hb. injection Hb as B1 B2 B3.
    unfold on_the_clock. cbn [bot]. rewrite B1, B2, B3. split.
    - intro Hle. destruct (Hw Hle) as [A B]. split; [exact A|].
      rewrite B in Hin. apply incl_l_nil. exact Hin.
    - apply Forall_app. split; [exact Hfe|].
      apply (Forall_incl _ _ _ Hin Hfi). }
  destruct p as [side order|why exitPrice].
  - destruct (entering_settled r i _ (bot r) En) as [_ Hin].
    destruct (clock_enterPositionResumed (bot r) now outcome side order)
      as (l & Hl & Hc).
    destruct (entering_settled r i _
                (enterPositionResumed (bot r) now outcome side order) En)
      as [Hincl _].
    unfold clock in Hc. injection Hc as C1 C2 C3.
    unfold on_the_clock. cbn [bot]. rewrite C1, C2, C3. split.
    + intro Hle. destruct (Hw Hle) as [_ B]. rewrite B in Hin. destruct Hin.
    + apply Forall_app. split.
      * apply Forall_app. split; [exact Hfe|].
        destruct Hl as [->| ->]; [constructor|].
        constructor; [|constructor].
        rewrite Forall_forall in Hfi. apply Hfi. exact Hin.
      * apply (Forall_incl _ _ _ Hincl Hfi).
  - destruct outcome.
    + apply Hrest. apply clock_closePositionResumed.
    + apply Hrest. reflexivity.
    + apply Hrest. reflexivity.
Qed.

Section WithParseFloat.

Variable parseFloat : string -> number.

Lemma clock_step b ev :
  match ev with OnTick _ _ => True | _ => clock (step parseFloat b ev) = clock b end.
Proof.
  destruct ev; [exact I| | | |]; cbn [step]; apply clock_core.
  - apply core_onRestPosition.
  - apply core_onRestBalance.
  - unfold unfreeze. autorewrite with frame. reflexivity.
  - autorewrite with frame. reflexivity.
Qed.

Lemma onBot_on_the_clock r b :
  clock b = clock (bot r) -> on_the_clock r -> on_the_clock (onBot r b).
Proof.
  intros Hc H. unfold clock in Hc. injection Hc as C1 C2 C3.
  unfold on_the_clock. rewrite entering_onBot. cbn [bot onBot].
  rewrite C1, C2, C3. exact H.
Qed.

Lemma turn_on_the_clock r tn :
  on_the_clock r -> on_the_clock (turn parseFloat r tn).
Proof.
  intro H. destruct tn as [ev|i now outcome];
    [|apply settle_on_the_clock; exact H].
  pose proof (clock_step (bot r) ev) as Hc.
  destruct ev; cbn [turn];
    [apply handleTick_on_the_clock; exact H| | | |];
    apply onBot_on_the_clock; assumption.
Qed.

Lemma run_on_the_clock tns :
  forall r, on_the_clock r -> on_the_clock (Async.run parseFloat r tns).
Proof.
  induction tns as [|tn tns IH]; intros r H; [exact H|].
  apply IH, turn_on_the_clock, H.
Qed.

Lemma new_on_the_clock c now saved b0 :
  new c now saved = Some b0 -> on_the_clock (mkRunning b0 []).
Proof.
  intro H. destruct (new_tidy c now saved b0 H) as (Hw & _ & Hf & _).
  split.
  - intro Hle. split; [apply Hw; exact Hle|reflexivity].
  - cbn [bot]. unfold entering; cbn [inFlight flat_map].
    rewrite app_nil_r. exact Hf.
Qed.

End WithParseFloat.

End InFlight.

Section Budget.
Import BotRunner.
Import BotRunner.Async.

Lemma applySignal_records_nothing r sg bar :
  position (bot (Async.applySignal r sg bar)) = position (bot r) /\
  (flipHistory (bot (Async.applySignal r sg bar)) = flipHistory (bot r) \/
   flipHistory (bot (Async.applySignal r sg bar))
   = since (endTime bar - HOUR_MS) (flipHistory (bot r))).
Proof.
  unfold Async.applySignal. cbv zeta.
  destruct (regimeBlocks (bot r)); [split; [reflexivity|left; reflexivity]|].
  assert (Hgen : forall sd order,
             let x :=
               if PositionSide_eqb (pos_side (position (bot r))) sd then r
               else
                 let '(b1, ok) := canFlip (bot r) (endTime bar) in
                 if negb ok then
                   onBot r
                     (log b1
                        match sd with
                        | long => "Flip budget exhausted, ignoring long signal"
                        | _ => "Flip budget exhausted, ignoring short signal"
                        end)
                 else if PositionSide_eqb (pos_side (position b1)) (opposite sd)
                 then
                   if (barCount b1 - positionOpenedAt b1 <? MIN_HOLD_BARS)%Z
                   then
                     onBot r
                       (log b1
                          "Minimum hold time not met, ignoring flip signal")
                   else
                     Async.enterPosition
                       (Async.closePosition (onBot r b1)
                          match sd with
                          | long => "flip-long"
                          | _ => "flip-short"
                          end
                          (Some (mkMeta None (Some (close bar)))))
                       sd order
                 else Async.enterPosition (onBot r b1) sd order in
             position (bot x) = position (bot r) /\
             (flipHistory (bot x) = flipHistory (bot r) \/
              flipHistory (bot x)
              = since (endTime bar - HOUR_MS) (flipHistory (bot r)))).
  { intros sd order x. subst x.
    destruct (PositionSide_eqb _ sd); [split; [reflexivity|left; reflexivity]|].
    unfold canFlip. cbv zeta.
    set (b1 := with_flipHistory (bot r) _).
    destruct (negb _); [split; [reflexivity|right; reflexivity]|].
    destruct (PositionSide_eqb _ (opposite sd)).
    - destruct (_ <? MIN_HOLD_BARS)%Z;
        [split; [reflexivity|right; reflexivity]|].
      unfold Async.enterPosition. cbv zeta.
      match goal with
      | |- context [Async.closePosition ?a ?b ?c] =>
          destruct (closePosition_waits a b c) as [Hb _]
      end.
      destruct (match mode _ with dry_run => false | live => _ end);
        cbn [bot onBot await]; rewrite Hb;
        (split; [reflexivity|right; reflexivity]).
    - unfold Async.enterPosition. cbv zeta.
      destruct (match mode _ with dry_run => false | live => _ end);
        (split; [reflexivity|right; reflexivity]). }
  destruct (type sg) eqn:Et.
  - apply Hgen.
  - apply Hgen.
  - split; [reflexivity|left; reflexivity].
Qed.

Lemma budget_exhausted_in_flight r sg bar t0 :
  maxFlipsPerHour (risk (config (bot r))) = 2%Z ->
  regimeBlocks (bot r) = false ->
  flipHistory (bot r) = [t0; (t0 + 600000)%Z] ->
  endTime bar = (t0 + 1200000)%Z ->
  type sg <> flat ->
  pos_side (position (bot r)) <> type sg ->
  Async.applySignal r sg bar
  = onBot r
      (log (with_flipHistory (bot r) [t0; (t0 + 600000)%Z])
           (match type sg with
            | long => "Flip budget exhausted, ignoring long signal"
            | _ => "Flip budget exhausted, ignoring short signal"
            end)).
Proof.
  intros Hmax Hgate Hfh Hend Hsg Hside.
  unfold Async.applySignal. rewrite Hgate. cbv zeta.
  assert (Hne : PositionSide_eqb (pos_side (position (bot r))) (type sg)
                = false)
    by (destruct (pos_side (position (bot r))), (type sg); simpl; congruence).
  unfold canFlip. cbv zeta. rewrite Hend, Hfh.
  change (filter (fun t : Z => (t0 + 1200000 - HOUR_MS <=? t)%Z)
                 [t0; (t0 + 600000)%Z])
    with (since (t0 + 1200000 - HOUR_MS) [t0; (t0 + 600000)%Z]).
  rewrite since_two.
  cbn [config with_flipHistory]. rewrite Hmax.
  destruct (type sg); try congruence; rewrite Hne; reflexivity.
Qed.

Lemma settle_records r i now side order :
  nth_error (inFlight r) i = Some (Entering side order) ->
  side <> flat ->
  pos_side (position (bot (settle r i now Resolved))) = side /\
  entries (bot (settle r i now Resolved))
  = entries (bot r) ++ [ord_timestamp order] /\
  flipHistory (bot (settle r i now Resolved))
  = flipHistory (bot r) ++ [ord_timestamp order].
Proof.
  intros Hn Hs. unfold settle. rewrite Hn. cbv zeta. cbn [bot].
  destruct (enterPositionResumed_resolved (bot r) now side order)
    as (_ & Hf & He & _ & _ & _ & Hp).
  rewrite Hp, He, Hf.
  destruct side; [repeat split|repeat split|congruence].
Qed.

End Budget.

Section SettledInTime.
Import BotRunner.
Import BotRunner.Async.

#[local] Hint Rewrite core_log core_with_barBuilder
  core_with_stateManager core_with_orderTracker core_with_tradeStats
  core_with_position core_with_frozen core_with_processedSignals
  core_with_trailing core_with_balance core_engineSetPosition
  core_logTradeStats : frame.

Lemma entering_closings r r' l :
  Forall closing l -> inFlight r' = inFlight r ++ l ->
  entering r' = entering r.
Proof.
  intros Hl H. unfold entering. rewrite H, flat_map_app. clear H.
  replace (flat_map _ l) with (@nil Z); [apply app_nil_r|].
  induction Hl as [|p l Hp _ IH]; [reflexivity|].
  destruct p; [destruct Hp|]. cbn [flat_map app]. exact IH.
Qed.

Lemma sided_closings r r' l :
  Forall closing l -> inFlight r' = inFlight r ++ l -> sided r -> sided r'.
Proof.
  intros Hl H Hs. unfold sided in *. rewrite H. apply Forall_app.
  split; [exact Hs|]. clear H.
  induction Hl as [|p l Hp _ IH]; constructor; [|exact IH].
  destruct p; [destruct Hp|exact I].
Qed.

Lemma closePosition_queues r why meta :
  bot (Async.closePosition r why meta) = bot r /\
  exists l, Forall closing l /\
            inFlight (Async.closePosition r why meta) = inFlight r ++ l.
Proof.
  unfold Async.closePosition.
  destruct (PositionSide_eqb _ flat).
  - split; [reflexivity|]. exists []. split; [constructor|].
    symmetry. apply app_nil_r.
  - cbv zeta. split; [reflexivity|].
    match goal with |- context [await r ?p] => exists [p] end.
    split; [constructor; [exact I|constructor]|reflexivity].
Qed.

Lemma enterPosition_queues r side order :
  core (bot (Async.enterPosition r side order)) = core (bot r) /\
  (inFlight (Async.enterPosition r side order) = inFlight r \/
   inFlight (Async.enterPosition r side order)
   = inFlight r ++ [Entering side order]).
Proof.
  unfold Async.enterPosition. cbv zeta.
  destruct (match mode _ with dry_run => false | live => _ end).
  - cbn [bot onBot inFlight]. rewrite !core_log. split; [reflexivity|left; reflexivity].
  - cbn [bot onBot await inFlight]. rewrite core_log.
    split; [reflexivity|right; reflexivity].
Qed.

Lemma ledger_core b b' : core b' = core b -> ledger b' = ledger b.
Proof.
  intro H. destruct (core_inv _ _ H) as (Hc & _ & He & Hl & _).
  unfold ledger. rewrite Hc, He, Hl. reflexivity.
Qed.

Lemma queued_nothing r r' ts :
  inFlight r' = inFlight r -> flipHistory (bot r') = flipHistory (bot r) ->
  queued r r' ts.
Proof.
  intros Hi Hf. exists []. split; [constructor|]. left.
  rewrite app_nil_r. split; [exact Hi|left; exact Hf].
Qed.

(** A signal that is applied leaves the ledger as it is; it sends the order
    of an entry only when [canFlip] has pruned the flip history and found
    the budget not used up. *)
Lemma applySignal_queues r sg bar :
  ledger (bot (Async.applySignal r sg bar)) = ledger (bot r) /\
  queued r (Async.applySignal r sg bar) (endTime bar).
Proof.
  unfold Async.applySignal. cbv zeta.
  destruct (regimeBlocks (bot r)).
  { split; [apply ledger_core, core_log|apply queued_nothing; reflexivity]. }
  assert (Hgen : forall sd order,
             sd <> flat -> ord_timestamp order = endTime bar ->
             let x :=
               if PositionSide_eqb (pos_side (position (bot r))) sd then r
               else
                 let '(b1, ok) := canFlip (bot r) (endTime bar) in
                 if negb ok then
                   onBot r
                     (log b1
                        match sd with
                        | long => "Flip budget exhausted, ignoring long signal"
                        | _ => "Flip budget exhausted, ignoring short signal"
                        end)
                 else if PositionSide_eqb (pos_side (position b1)) (opposite sd)
                 then
                   if (barCount b1 - positionOpenedAt b1 <? MIN_HOLD_BARS)%Z
                   then
                     onBot r
                       (log b1
                          "Minimum hold time not met, ignoring flip signal")
                   else
                     Async.enterPosition
                       (Async.closePosition (onBot r b1)
                          match sd with
                          | long => "flip-long"
                          | _ => "flip-short"
                          end
                          (Some (mkMeta None (Some (close bar)))))
                       sd order
                 else Async.enterPosition (onBot r b1) sd order in
             ledger (bot x) = ledger (bot r) /\ queued r x (endTime bar)).
  { intros sd order Hsd Hts x. subst x.
    destruct (PositionSide_eqb _ sd);
      [split; [reflexivity|apply queued_nothing; reflexivity]|].
    unfold canFlip. cbv zeta.
    change (filter (fun t : Z => (endTime bar - HOUR_MS <=? t)%Z)
                   (flipHistory (bot r)))
      with (since (endTime bar - HOUR_MS) (flipHistory (bot r))).
    set (fh := since (endTime bar - HOUR_MS) (flipHistory (bot r))).
    set (b1 := with_flipHistory (bot r) fh).
    assert (Hpruned : forall x,
               inFlight x = inFlight r -> core (bot x) = core b1 ->
               ledger (bot x) = ledger (bot r) /\ queued r x (endTime bar)).
    { intros x Hi Hc. split; [rewrite (ledger_core _ _ Hc); reflexivity|].
      exists []. split; [constructor|]. left. rewrite app_nil_r.
      split; [exact Hi|right].
      destruct (core_inv _ _ Hc) as (_ & Hf & _). exact Hf. }
    destruct (negb (negb _)) eqn:Eok.
    { apply Hpruned; [reflexivity|apply core_log]. }
    rewrite negb_involutive in Eok. apply Z.leb_gt in Eok.
    assert (Hsent : forall x l,
               Forall closing l -> bot x = b1 -> inFlight x = inFlight r ++ l ->
               ledger (bot (Async.enterPosition x sd order)) = ledger (bot r) /\
               queued r (Async.enterPosition x sd order) (endTime bar)).
    { intros x l Hl Hb Hi.
      destruct (enterPosition_queues x sd order) as [Hc Hq].
      rewrite Hb in Hc.
      destruct (core_inv _ _ Hc) as (Hcf & Hf & _).
      split; [rewrite (ledger_core _ _ Hc); reflexivity|].
      exists l. split; [exact Hl|].
      destruct Hq as [Hq|Hq]; rewrite Hq, Hi.
      - left. split; [reflexivity|right; exact Hf].
      - right. exists sd, order. rewrite <- app_assoc.
        split; [reflexivity|]. split; [exact Hsd|]. split; [exact Hts|].
        split; [exact Hf|]. rewrite Hf. exact Eok. }
    destruct (PositionSide_eqb _ (opposite sd)).
    - destruct (_ <? MIN_HOLD_BARS)%Z;
        [apply Hpruned; [reflexivity|apply core_log]|].
      match goal with
      | |- context [Async.closePosition ?a ?w ?m] =>
          destruct (closePosition_queues a w m) as [Hb (l & Hl & Hi)]
      end.
      apply (Hsent _ l Hl); [exact Hb|exact Hi].
    - apply (Hsent _ [] (Forall_nil _)); [reflexivity|].
      symmetry. apply app_nil_r. }
  destruct (type sg) eqn:Et.
  - apply Hgen; [discriminate|reflexivity].
  - apply Hgen; [discriminate|reflexivity].
  - split; [reflexivity|apply queued_nothing; reflexivity].
Qed.

Lemma core_trailing r bar :
  core
    match pos_side (position (bot r)) with
    | long =>
        match highestPrice (bot r) with
        | None => with_trailing (bot r) (Some (close bar)) (lowestPrice (bot r))
        | Some h =>
            if Qltb h (close bar)
            then with_trailing (bot r) (Some (close bar)) (lowestPrice (bot r))
            else bot r
        end
    | short =>
        match lowestPrice (bot r) with
        | None => with_trailing (bot r) (highestPrice (bot r)) (Some (close bar))
        | Some l =>
            if Qltb (close bar) l
            then with_trailing (bot r) (highestPrice (bot r)) (Some (close bar))
            else bot r
        end
    | flat => bot r
    end
  = core (bot r).
Proof.
  destruct (pos_side (position (bot r))); [| |reflexivity].
  - destruct (highestPrice (bot r)); [destruct (Qltb _ _)|]; reflexivity.
  - destruct (lowestPrice (bot r)); [destruct (Qltb _ _)|]; reflexivity.
Qed.

Lemma closings_nil r : inFlight r = inFlight r ++ [].
Proof. symmetry. apply app_nil_r. Qed.

(** The protective exits only send calls of [closePosition]. *)
Lemma protectiveExitsAt_queues r bar entry :
  core (bot (Async.protectiveExitsAt r bar entry)) = core (bot r) /\
  exists l, Forall closing l /\
            inFlight (Async.protectiveExitsAt r bar entry) = inFlight r ++ l.
Proof.
  unfold Async.protectiveExitsAt. cbv zeta.
  pose proof (core_trailing r bar) as Ht.
  set (b1 := match pos_side (position (bot r)) with
             | long => _ | short => _ | flat => _ end) in *.
  clearbody b1.
  repeat match goal with
         | |- context [if ?c then _ else _] => destruct c
         | |- context [match ?c with Some _ => _ | None => _ end] => destruct c
         end;
    try match goal with
        | |- context [Async.closePosition ?x ?w ?m] =>
            let Hb := fresh "Hb" in
            let l := fresh "l" in
            let Hl := fresh "Hl" in
            let Hi := fresh "Hi" in
            destruct (closePosition_queues x w m) as [Hb (l & Hl & Hi)];
            rewrite Hb; cbn [bot onBot]; rewrite core_log, Ht;
            split; [reflexivity|exists l; split; [exact Hl|exact Hi]]
        end;
    cbn [bot onBot inFlight]; rewrite Ht;
    (split; [reflexivity|exists []; split; [constructor|apply closings_nil]]).
Qed.

Lemma evaluateProtectiveExits_queues r bar :
  core (bot (Async.evaluateProtectiveExits r bar)) = core (bot r) /\
  exists l, Forall closing l /\
            inFlight (Async.evaluateProtectiveExits r bar) = inFlight r ++ l.
Proof.
  assert (Hsame : core (bot r) = core (bot r) /\
                  exists l, Forall closing l /\ inFlight r = inFlight r ++ l)
    by (split; [reflexivity|exists []; split; [constructor|apply closings_nil]]).
  unfold Async.evaluateProtectiveExits.
  destruct (sideIs (bot r) flat); [exact Hsame|].
  destruct (entryPrice (position (bot r))) as [entry|]; [|exact Hsame].
  destruct (Qeq_bool entry 0); [exact Hsame|].
  apply protectiveExitsAt_queues.
Qed.

Lemma queued_onBot r b r' ts :
  flipHistory b = flipHistory (bot r) -> config b = config (bot r) ->
  queued (onBot r b) r' ts -> queued r r' ts.
Proof.
  intros Hf Hc (l & Hl & H). exists l. split; [exact Hl|].
  cbn [bot onBot inFlight] in H. rewrite Hf, Hc in H. exact H.
Qed.

Lemma dispatchSignal_queues r bar signal :
  ledger (bot (Async.dispatchSignal r bar signal)) = ledger (bot r) /\
  queued r (Async.dispatchSignal r bar signal) (endTime bar).
Proof.
  unfold Async.dispatchSignal. destruct signal as [sg|];
    [|split; [reflexivity|apply queued_nothing; reflexivity]].
  cbv zeta.
  destruct (existsb _ _);
    [split; [reflexivity|apply queued_nothing; reflexivity]|].
  match goal with
  | |- context [Async.applySignal (onBot r ?b6) sg bar] =>
      destruct (applySignal_queues (onBot r b6) sg bar) as [Hl Hq];
      assert (Hc : core b6 = core (bot r))
        by (rewrite core_log, core_emit by reflexivity; reflexivity)
  end.
  destruct (core_inv _ _ Hc) as (Hcf & Hf & _).
  split.
  - rewrite Hl. cbn [bot onBot]. apply ledger_core, Hc.
  - apply (queued_onBot _ _ _ _ Hf Hcf Hq).
Qed.

Lemma ledger_updateEngine b bar :
  ledger (fst (updateEngine b bar)) = ledger b /\
  flipHistory (fst (updateEngine b bar)) = flipHistory b.
Proof.
  unfold updateEngine. destruct (engine b) as [e|e].
  - destruct (WatermellonEngine.update e (close bar)); split; reflexivity.
  - destruct (PeachHybridEngine.update e bar); split; reflexivity.
Qed.

(** What a bar close does to the ledger: nothing when the bar is stale;
    otherwise the clock moves to the bar, and an entry that is sent is sent
    for the bar's end time. *)
Lemma handleBarClose_queues r now bar :
  let r' := Async.handleBarClose r now bar in
  config (bot r') = config (bot r) /\ entries (bot r') = entries (bot r) /\
  ((lastBarCloseTime (bot r') = lastBarCloseTime (bot r) /\
    flipHistory (bot r') = flipHistory (bot r) /\
    inFlight r' = inFlight r) \/
   ((lastBarCloseTime (bot r) < endTime bar)%Z /\
    lastBarCloseTime (bot r') = endTime bar /\
    queued r r' (endTime bar))).
Proof.
  cbv zeta. unfold Async.handleBarClose. cbv zeta.
  destruct (endTime bar <=? lastBarCloseTime (bot r))%Z eqn:Es.
  { split; [reflexivity|]. split; [reflexivity|]. left.
    repeat split; reflexivity. }
  apply Z.leb_gt in Es.
  set (b1 := with_barClock (bot r) (endTime bar) (barCount (bot r) + 1)).
  assert (Hb1 : ledger b1 = (config (bot r), entries (bot r), endTime bar))
    by reflexivity.
  assert (Hf1 : flipHistory b1 = flipHistory (bot r)) by reflexivity.
  assert (Hdone : forall x,
             ledger (bot x) = ledger b1 -> queued (onBot r b1) x (endTime bar) ->
             config (bot x) = config (bot r) /\
             entries (bot x) = entries (bot r) /\
             ((lastBarCloseTime (bot x) = lastBarCloseTime (bot r) /\
               flipHistory (bot x) = flipHistory (bot r) /\
               inFlight x = inFlight r) \/
              ((lastBarCloseTime (bot r) < endTime bar)%Z /\
               lastBarCloseTime (bot x) = endTime bar /\
               queued r x (endTime bar)))).
  { intros x Hx Hq. rewrite Hb1 in Hx. unfold ledger in Hx.
    injection Hx as H1 H2 H3. split; [exact H1|]. split; [exact H2|]. right.
    split; [exact Es|]. split; [exact H3|].
    apply (queued_onBot r b1 x _ Hf1 eq_refl Hq). }
  assert (Hquiet : forall x,
             core x = core b1 ->
             queued (onBot r b1) (onBot r x) (endTime bar)).
  { intros x Hx. destruct (core_inv _ _ Hx) as (_ & Hf & _).
    apply queued_nothing; [reflexivity|exact Hf]. }
  destruct (barCount b1 <=? WARMUP_BARS)%Z eqn:Ew.
  { match goal with
    | |- context [onBot r ?x] =>
        assert (Hc : core x = core b1)
          by (destruct (barCount b1 =? 1)%Z;
              match goal with
              | |- context [if ?c then _ else _] => destruct c
              end; rewrite ?core_log; reflexivity)
    end.
    apply Hdone; [apply ledger_core, Hc|apply Hquiet, Hc]. }
  destruct (tradingFrozen b1 && (now <? freezeUntil b1)%Z).
  { apply Hdone; [apply ledger_core, core_log|apply Hquiet, core_log]. }
  set (b2 := if tradingFrozen b1 then with_frozen b1 false (freezeUntil b1)
             else b1).
  assert (Hb2 : core b2 = core b1)
    by (subst b2; destruct (tradingFrozen b1); reflexivity).
  destruct (core_inv _ _ Hb2) as (Hc2 & Hf2 & _).
  destruct (PeachHybridEngine.shouldExit (exitCheck b2 bar)).
  { match goal with
    | |- context [Async.closePosition ?x ?w ?m] =>
        destruct (closePosition_queues x w m) as [Hb (l & Hl & Hi)]
    end.
    apply Hdone.
    - rewrite Hb. cbn [bot onBot]. apply ledger_core.
      rewrite core_log. exact Hb2.
    - exists l. split; [exact Hl|]. left. split; [exact Hi|left].
      rewrite Hb. cbn [bot onBot]. exact Hf2. }
  destruct (ledger_updateEngine b2 bar) as [Hu Hfu].
  destruct (updateEngine b2 bar) as [b3 signal]. cbn [fst] in Hu, Hfu.
  destruct (dispatchSignal_queues (onBot r (logIndicators b3)) bar signal)
    as [Hl Hq].
  assert (Hli : core (logIndicators b3) = core b3) by apply core_logIndicators.
  destruct (core_inv _ _ Hli) as (Hc3 & Hf3 & _).
  assert (Hcu : config b3 = config b2)
    by (unfold ledger in Hu; injection Hu as H1 _ _; exact H1).
  apply Hdone.
  - rewrite Hl. cbn [bot onBot]. rewrite (ledger_core _ _ Hli), Hu.
    apply ledger_core, Hb2.
  - apply (queued_onBot (onBot r b1) (logIndicators b3)); cbn [bot onBot].
    + rewrite Hf3, Hfu. exact Hf2.
    + rewrite Hc3, Hcu. exact Hc2.
    + exact Hq.
Qed.

Lemma flip_inv_ledger b b' :
  config b' = config b -> entries b' = entries b ->
  (lastBarCloseTime b <= lastBarCloseTime b')%Z ->
  (flipHistory b' = flipHistory b \/
   flipHistory b' = since (lastBarCloseTime b' - HOUR_MS) (flipHistory b)) ->
  flip_inv b ->
  flip_inv b' /\
  (flipHistory b' = since (lastBarCloseTime b' - HOUR_MS) (flipHistory b) ->
   flipHistory b' = since (lastBarCloseTime b' - HOUR_MS) (entries b')).
Proof.
  intros Hc He Hl Hf [Hw (cutoff & Hcut & Hfh)].
  assert (Hp : since (lastBarCloseTime b' - HOUR_MS) (flipHistory b)
               = since (lastBarCloseTime b' - HOUR_MS) (entries b'))
    by (rewrite Hfh, He; apply since_since; lia).
  split.
  - split; [rewrite Hc, He; exact Hw|].
    destruct Hf as [Hf|Hf].
    + exists cutoff. split; [lia|]. rewrite Hf, He. exact Hfh.
    + exists (lastBarCloseTime b' - HOUR_MS)%Z. split; [lia|].
      rewrite Hf. exact Hp.
  - intro Hf'. rewrite Hf'. exact Hp.
Qed.

Lemma entering_sent r r' l side order :
  Forall closing l ->
  inFlight r' = inFlight r ++ l ++ [Entering side order] ->
  entering r' = entering r ++ [ord_timestamp order].
Proof.
  intros Hl H. unfold entering. rewrite H, !flat_map_app. clear H.
  replace (flat_map _ l) with (@nil Z); [cbn [flat_map app]; reflexivity|].
  induction Hl as [|p l Hp _ IH]; [reflexivity|].
  destruct p; [destruct Hp|]. cbn [flat_map app]. exact IH.
Qed.

Lemma sided_sent r r' l side order :
  Forall closing l -> side <> flat ->
  inFlight r' = inFlight r ++ l ++ [Entering side order] ->
  sided r -> sided r'.
Proof.
  intros Hl Hs H Hr. unfold sided in *. rewrite H.
  apply Forall_app. split; [exact Hr|]. apply Forall_app. split.
  - clear H. induction Hl as [|p l Hp _ IH]; constructor; [|exact IH].
    destruct p; [destruct Hp|exact I].
  - constructor; [exact Hs|constructor].
Qed.

(** A step that leaves the ledger and sends only calls of [closePosition]
    keeps the orchestrator within its budget. *)
Lemma budgeted_quiet c r r' l :
  config (bot r') = config (bot r) -> entries (bot r') = entries (bot r) ->
  lastBarCloseTime (bot r') = lastBarCloseTime (bot r) ->
  flipHistory (bot r') = flipHistory (bot r) ->
  Forall closing l -> inFlight r' = inFlight r ++ l ->
  budgeted c r -> budgeted c r'.
Proof.
  intros Hc He Hl Hf Hcl Hi (Bc & Bf & Bs & Be).
  split; [rewrite Hc; exact Bc|].
  split; [apply (flip_inv_same (bot r)); assumption|].
  split; [apply (sided_closings r r' l); assumption|].
  rewrite (entering_closings r r' l Hcl Hi), Hl, Hf, He. exact Be.
Qed.

Lemma budgeted_core c r b :
  core b = core (bot r) -> budgeted c r -> budgeted c (onBot r b).
Proof.
  intros H. destruct (core_inv _ _ H) as (Hc & Hf & He & Hl & _).
  apply (budgeted_quiet c r (onBot r b) []); try assumption;
    [apply Forall_nil|exact (closings_nil r)].
Qed.

(** A tick that is handled while no order of an entry is in flight keeps
    the orchestrator within its budget. *)
Lemma handleTick_budgeted c r now tick :
  entering r = [] -> budgeted c r -> budgeted c (Async.handleTick r now tick).
Proof.
  intros Hnone Hb. unfold Async.handleTick.
  destruct (VirtualBarBuilder.pushTick (barBuilder (bot r)) tick)
    as [bb closed].
  set (r1 := onBot r (with_barBuilder (bot r) bb)).
  assert (Hb1 : budgeted c r1)
    by (apply budgeted_core; [apply core_with_barBuilder|exact Hb]).
  assert (Hn1 : entering r1 = []) by exact Hnone.
  destruct closed as [bar|]; [|exact Hb1].
  destruct (evaluateProtectiveExits_queues r1 bar) as [Hc (l0 & Hl0 & Hi0)].
  set (r2 := Async.evaluateProtectiveExits r1 bar) in *.
  destruct (core_inv _ _ Hc) as (Hc2 & Hf2 & He2 & Hl2 & _).
  assert (Hb2 : budgeted c r2)
    by (apply (budgeted_quiet c r1 r2 l0); assumption).
  assert (Hn2 : entering r2 = [])
    by (rewrite (entering_closings r1 r2 l0 Hl0 Hi0); exact Hn1).
  destruct (handleBarClose_queues r2 now bar) as (Hcf & Hen & Hcase).
  set (r3 := Async.handleBarClose r2 now bar) in *.
  destruct Hcase as [(Hl & Hf & Hi)|(Hlt & Hl & (l & Hcl & Hq))].
  { apply (budgeted_quiet c r2 r3 []); try assumption;
      [apply Forall_nil|rewrite app_nil_r; exact Hi]. }
  destruct Hb2 as (Bc & Bf & Bs & _).
  assert (Hle : (lastBarCloseTime (bot r2) <= lastBarCloseTime (bot r3))%Z)
    by lia.
  destruct Hq as [(Hi & Hf)|(side & order & Hi & Hs & Hts & Hf & Hlen)].
  - rewrite <- Hl in Hf.
    destruct (flip_inv_ledger (bot r2) (bot r3) Hcf Hen Hle Hf Bf) as [Hinv _].
    split; [rewrite Hcf; exact Bc|]. split; [exact Hinv|].
    split; [apply (sided_closings r2 r3 l); assumption|].
    left. rewrite (entering_closings r2 r3 l Hcl Hi). exact Hn2.
  - rewrite <- Hl in Hf.
    destruct (flip_inv_ledger (bot r2) (bot r3) Hcf Hen Hle
                (or_intror Hf) Bf) as [Hinv Hpr].
    split; [rewrite Hcf; exact Bc|]. split; [exact Hinv|].
    split; [apply (sided_sent r2 r3 l side order); assumption|].
    right. rewrite (entering_sent r2 r3 l side order Hcl Hi), Hn2, Hts, Hl.
    split; [reflexivity|]. split; [rewrite <- Hl; apply Hpr, Hf|].
    rewrite <- Bc. exact Hlen.
Qed.

Lemma core_closePositionResumed b now why exitPrice :
  core (closePositionResumed b now why exitPrice) = core b.
Proof.
  unfold closePositionResumed. cbv zeta.
  rewrite core_emit by reflexivity.
  autorewrite with frame.
  destruct (TradeStatistics.getRecentTrades _ 1); autorewrite with frame;
    reflexivity.
Qed.

(** The entries in flight without the call that settles. *)
Lemma entering_split r i p b :
  nth_error (inFlight r) i = Some p ->
  exists l1 l2,
    entering r
    = l1 ++ match p with
            | Entering _ order => [ord_timestamp order]
            | Closing _ _ => []
            end ++ l2 /\
    entering
      (mkRunning b (firstn i (inFlight r) ++ skipn (S i) (inFlight r)))
    = l1 ++ l2.
Proof.
  unfold entering; cbn [inFlight]. generalize (inFlight r) as l.
  induction i as [|i IH]; intros [|x l] H; try discriminate.
  - cbn in H. injection H as ->. exists [], (flat_map
      (fun p0 => match p0 with
                 | Entering _ order => [ord_timestamp order]
                 | Closing _ _ => []
                 end) l).
    cbn [firstn skipn app flat_map]. split; reflexivity.
  - cbn [nth_error] in H. destruct (IH l H) as (l1 & l2 & E1 & E2).
    exists (match x with
            | Entering _ order => [ord_timestamp order]
            | Closing _ _ => []
            end ++ l1), l2.
    change (firstn (S i) (x :: l)) with (x :: firstn i l).
    change (skipn (S (S i)) (x :: l)) with (skipn (S i) l).
    cbn [app flat_map]. rewrite E1, E2, <- !app_assoc.
    split; reflexivity.
Qed.

Lemma Forall_without {A : Type} (P : A -> Prop) (i : nat) :
  forall l, Forall P l -> Forall P (firstn i l ++ skipn (S i) l).
Proof.
  induction i as [|i IH]; intros [|x l] H; try exact H.
  - inversion H; assumption.
  - inversion H; subst.
    change (firstn (S i) (x :: l)) with (x :: firstn i l).
    change (skipn (S (S i)) (x :: l)) with (skipn (S i) l).
    cbn [app]. constructor; [assumption|apply IH; assumption].
Qed.

Lemma sided_settled r i b :
  sided r ->
  sided (mkRunning b (firstn i (inFlight r) ++ skipn (S i) (inFlight r))).
Proof. apply Forall_without. Qed.

(** A call that settles keeps the orchestrator within its budget: the
    entry that is recorded is the one [canFlip] has let pass. *)
Lemma settle_budgeted c r i now outcome :
  budgeted c r -> budgeted c (settle r i now outcome).
Proof.
  intros (Bc & Bf & Bs & Be). unfold settle.
  destruct (nth_error (inFlight r) i) as [p|] eqn:En;
    [|exact (conj Bc (conj Bf (conj Bs Be)))].
  cbv zeta.
  set (others := firstn i (inFlight r) ++ skipn (S i) (inFlight r)).
  assert (Hother : forall b,
             core b = core (bot r) ->
             entering (mkRunning b others) = entering r \/
             entering (mkRunning b others) = [] ->
             budgeted c (mkRunning b others)).
  { intros b Hb Hent.
    destruct (core_inv _ _ Hb) as (Hc & Hf & He & Hl & _).
    split; [cbn [bot]; rewrite Hc; exact Bc|].
    split; [exact (flip_inv_core _ _ Hb Bf)|].
    split; [apply sided_settled; exact Bs|].
    destruct Hent as [Hent|Hent]; [|left; exact Hent].
    rewrite Hent. cbn [bot]. rewrite Hl, Hf, He. exact Be. }
  destruct p as [side order|why exitPrice].
  - assert (Hside : side <> flat).
    { unfold sided in Bs. rewrite Forall_forall in Bs.
      exact (Bs _ (nth_error_In _ _ En)). }
    destruct (entering_split r i _
                (enterPositionResumed (bot r) now outcome side order) En)
      as (l1 & l2 & E1 & E2).
    destruct Be as [Be|(Be & Bh & Bl)];
      [rewrite Be in E1; destruct l1; discriminate|].
    rewrite Be in E1.
    assert (Hl1 : l1 = [] /\ l2 = [] /\
                  ord_timestamp order = lastBarCloseTime (bot r)).
    { destruct l1 as [|x l1]; cbn [app] in E1.
      - injection E1 as E1 E1'. repeat split; congruence.
      - injection E1 as _ E1. destruct l1; discriminate. }
    destruct Hl1 as (-> & -> & Hts). cbn [app] in E2.
    destruct outcome.
    + destruct (enterPositionResumed_resolved (bot r) now side order)
        as (Hc & Hf & He & Hl & _).
      replace (PositionSide_eqb side flat) with false in He
        by (destruct side; [reflexivity|reflexivity|congruence]).
      destruct Bf as [Hw (cutoff & Hcut & Hfh)].
      split; [cbn [bot]; rewrite Hc; exact Bc|]. split.
      * cbn [bot]. split.
        -- rewrite Hc, He. apply window_ok_entry; [exact Hw|].
           rewrite Hts, <- Bh, Bc. lia.
        -- exists (lastBarCloseTime (bot r) - HOUR_MS)%Z.
           split; [rewrite Hl; lia|].
           rewrite Hf, He, since_app, <- Bh, Hts. f_equal.
           unfold since. cbn [filter].
           replace (lastBarCloseTime (bot r) - HOUR_MS
                    <=? lastBarCloseTime (bot r))%Z with true; [reflexivity|].
           symmetry. apply Z.leb_le. unfold HOUR_MS. lia.
      * split; [apply sided_settled; exact Bs|left; exact E2].
    + apply Hother; [|right; exact E2].
      apply enterPositionResumed_rejected. discriminate.
    + apply Hother; [|right; exact E2].
      apply enterPositionResumed_rejected. discriminate.
  - assert (Hent : forall b, entering (mkRunning b others) = entering r).
    { intro b. destruct (entering_split r i _ b En) as (l1 & l2 & E1 & E2).
      unfold others. rewrite E1, E2. reflexivity. }
    destruct outcome.
    + apply Hother; [apply core_closePositionResumed|left; apply Hent].
    + apply Hother; [reflexivity|left; apply Hent].
    + apply Hother; [reflexivity|left; apply Hent].
Qed.

Section WithParseFloat.

Variable parseFloat : string -> number.

Lemma core_step b ev :
  match ev with
  | OnTick _ _ => True
  | _ => core (step parseFloat b ev) = core b
  end.
Proof.
  destruct ev; [exact I| | | |]; cbn [step].
  - apply core_onRestPosition.
  - apply core_onRestBalance.
  - unfold unfreeze. autorewrite with frame. reflexivity.
  - autorewrite with frame. reflexivity.
Qed.

Lemma run_budgeted c tns :
  forall r,
    budgeted c r -> orders_settle_in_time parseFloat r tns ->
    budgeted c (Async.run parseFloat r tns).
Proof.
  induction tns as [|tn tns IH]; intros r Hb Hs; [exact Hb|].
  destruct Hs as [Hnow Hrest]. apply IH; [|exact Hrest].
  destruct tn as [ev|i now outcome]; [|apply settle_budgeted; exact Hb].
  pose proof (core_step (bot r) ev) as Hc.
  destruct ev; cbn [turn];
    [apply handleTick_budgeted; assumption| | | |];
    apply budgeted_core; assumption.
Qed.

Lemma new_budgeted c now saved b0 :
  new c now saved = Some b0 -> budgeted c (mkRunning b0 []).
Proof.
  intro H. destruct (new_good c now saved b0 H) as (Hc & Hf & _).
  split; [exact Hc|]. split; [exact Hf|].
  split; [constructor|left; reflexivity].
Qed.

(** C7.  The flip budget holds as long as orders settle in time, and only
    then.  With a non-negative [maxFlipsPerHour], after every sequence of
    turns from the constructor in which no tick is handled while the order
    of an entry is in flight, no closed window of one hour holds more than
    [maxFlipsPerHour] recorded entries.  [canFlip] keeps the timestamps of
    the last hour and refuses when [maxFlipsPerHour] or more remain; with a
    budget of 2 and flips at [t0] and [t0 + 10 min], a signal at
    [t0 + 20 min] against the current side is answered by the log "Flip
    budget exhausted, ..." and nothing else.  But the budget is checked when
    the signal arrives and spent when the order settles: a signal that is
    applied leaves the position and the recorded entries as they are and
    only prunes the flip history, whether or not it has sent an order, and
    when the order of an entry settles, the entry and the flip are recorded
    without the budget being looked at again. *)
Theorem flip_budget_overlooks_orders_in_flight
    (c : AppConfig) (now : Z) (saved : option Saved) (b0 : t)
    (tns : list Turn) :
  (0 <= maxFlipsPerHour (risk c))%Z ->
  new c now saved = Some b0 ->
  (orders_settle_in_time parseFloat (mkRunning b0 []) tns ->
   forall w,
     (len (filter (in_window w)
             (entries (bot (Async.run parseFloat (mkRunning b0 []) tns))))
      <= maxFlipsPerHour (risk c))%Z) /\
  (forall b ts,
      flipHistory (fst (canFlip b ts)) = since (ts - HOUR_MS) (flipHistory b) /\
      snd (canFlip b ts)
      = negb (maxFlipsPerHour (risk (config b))
              <=? len (since (ts - HOUR_MS) (flipHistory b)))%Z) /\
  (forall r sg bar t0,
      maxFlipsPerHour (risk (config (bot r))) = 2%Z ->
      regimeBlocks (bot r) = false ->
      flipHistory (bot r) = [t0; (t0 + 600000)%Z] ->
      endTime bar = (t0 + 1200000)%Z ->
      type sg <> flat ->
      pos_side (position (bot r)) <> type sg ->
      Async.applySignal r sg bar
      = onBot r
          (log (with_flipHistory (bot r) [t0; (t0 + 600000)%Z])
               (match type sg with
                | long => "Flip budget exhausted, ignoring long signal"
                | _ => "Flip budget exhausted, ignoring short signal"
                end))) /\
  (forall r sg bar,
      position (bot (Async.applySignal r sg bar)) = position (bot r) /\
      entries (bot (Async.applySignal r sg bar)) = entries (bot r) /\
      (flipHistory (bot (Async.applySignal r sg bar)) = flipHistory (bot r) \/
       flipHistory (bot (Async.applySignal r sg bar))
       = since (endTime bar - HOUR_MS) (flipHistory (bot r)))) /\
  (forall r i now' side order,
      nth_error (inFlight r) i = Some (Entering side order) ->
      side <> flat ->
      pos_side (position (bot (settle r i now' Resolved))) = side /\
      entries (bot (settle r i now' Resolved))
      = entries (bot r) ++ [ord_timestamp order] /\
      flipHistory (bot (settle r i now' Resolved))
      = flipHistory (bot r) ++ [ord_timestamp order]).
Proof.
  intros Hmax Hnew.
  split; [|split; [|split; [|split]]].
  - intros Hs w.
    destruct (run_budgeted c tns _ (new_budgeted c now saved b0 Hnew) Hs)
      as (Hc & (Hw & _) & _).
    specialize (Hw w). rewrite Hc in Hw. lia.
  - intros b ts. split; reflexivity.
  - intros. apply budget_exhausted_in_flight; assumption.
  - intros r sg bar.
    destruct (applySignal_records_nothing r sg bar) as [Hp Hf].
    destruct (applySignal_waits r sg bar) as [Hc _].
    unfold clock in Hc. injection Hc as He _ _.
    split; [exact Hp|]. split; [exact He|exact Hf].
  - intros. apply settle_records; assumption.
Qed.

End WithParseFloat.

End SettledInTime.

Section EntriesInOrder.
Import BotRunner.
Import BotRunner.Async.

Lemma queued_after r r2 r3 l0 ts :
  Forall closing l0 -> inFlight r2 = inFlight r ++ l0 ->
  flipHistory (bot r2) = flipHistory (bot r) ->
  config (bot r2) = config (bot r) ->
  queued r2 r3 ts -> queued r r3 ts.
Proof.
  intros Hl0 Hi Hf Hc (l & Hl & H). exists (l0 ++ l).
  split; [apply Forall_app; split; assumption|].
  rewrite Hi, Hf, Hc in H.
  destruct H as [(H1 & H2)|(side & order & H1 & H2)].
  - left. rewrite <- app_assoc in H1. split; assumption.
  - right. exists side, order. rewrite <- !app_assoc in H1.
    rewrite <- app_assoc. split; assumption.
Qed.

(** What a tick does to the ledger: it leaves it, or it moves the clock to
    a later bar and sends at most one entry, for that bar's end time. *)
Lemma handleTick_queues r now tick :
  let r' := Async.handleTick r now tick in
  config (bot r') = config (bot r) /\ entries (bot r') = entries (bot r) /\
  ((lastBarCloseTime (bot r') = lastBarCloseTime (bot r) /\
    flipHistory (bot r') = flipHistory (bot r) /\
    exists l, Forall closing l /\ inFlight r' = inFlight r ++ l) \/
   ((lastBarCloseTime (bot r) < lastBarCloseTime (bot r'))%Z /\
    queued r r' (lastBarCloseTime (bot r')))).
Proof.
  cbv zeta. unfold Async.handleTick.
  destruct (VirtualBarBuilder.pushTick (barBuilder (bot r)) tick)
    as [bb closed].
  set (r1 := onBot r (with_barBuilder (bot r) bb)).
  destruct closed as [bar|].
  2:{ split; [reflexivity|]. split; [reflexivity|]. left.
      split; [reflexivity|]. split; [reflexivity|].
      exists []. split; [apply Forall_nil|exact (closings_nil r)]. }
  destruct (evaluateProtectiveExits_queues r1 bar) as [Hc (l0 & Hl0 & Hi0)].
  set (r2 := Async.evaluateProtectiveExits r1 bar) in *.
  destruct (core_inv _ _ Hc) as (Hc2 & Hf2 & He2 & Hl2 & _).
  change (bot r1) with (with_barBuilder (bot r) bb) in Hc2, Hf2, He2, Hl2.
  change (config (with_barBuilder (bot r) bb)) with (config (bot r)) in Hc2.
  change (flipHistory (with_barBuilder (bot r) bb))
    with (flipHistory (bot r)) in Hf2.
  change (entries (with_barBuilder (bot r) bb)) with (entries (bot r)) in He2.
  change (lastBarCloseTime (with_barBuilder (bot r) bb))
    with (lastBarCloseTime (bot r)) in Hl2.
  change (inFlight r1) with (inFlight r) in Hi0.
  destruct (handleBarClose_queues r2 now bar) as (Hcf & Hen & Hcase).
  set (r3 := Async.handleBarClose r2 now bar) in *.
  split; [rewrite Hcf; exact Hc2|]. split; [rewrite Hen; exact He2|].
  destruct Hcase as [(Hl & Hf & Hi)|(Hlt & Hl & Hq)].
  - left. split; [rewrite Hl; exact Hl2|]. split; [rewrite Hf; exact Hf2|].
    exists l0. split; [exact Hl0|]. rewrite Hi. exact Hi0.
  - right. rewrite Hl. split; [rewrite <- Hl2; exact Hlt|].
    apply (queued_after r r2 r3 l0); assumption.
Qed.

Lemma handleTick_in_order r now tick :
  entering r = [] -> in_order r -> in_order (Async.handleTick r now tick).
Proof.
  intros Hnone (Hs & Hf & _).
  destruct (handleTick_queues r now tick) as (_ & He & Hcase).
  set (r' := Async.handleTick r now tick) in *.
  destruct Hcase as [(Hl & _ & l & Hcl & Hi)|(Hlt & l & Hcl & Hq)].
  - split; [rewrite He; exact Hs|]. split; [rewrite He, Hl; exact Hf|].
    left. rewrite (entering_closings r r' l Hcl Hi). exact Hnone.
  - split; [rewrite He; exact Hs|].
    assert (Hlt' : Forall (fun t => (t < lastBarCloseTime (bot r'))%Z)
                          (entries (bot r'))).
    { rewrite He. rewrite Forall_forall in *. intros x Hx.
      specialize (Hf x Hx). lia. }
    split.
    { rewrite Forall_forall in *. intros x Hx. specialize (Hlt' x Hx). lia. }
    destruct Hq as [(Hi & _)|(side & order & Hi & _ & Hts & _)].
    + left. rewrite (entering_closings r r' l Hcl Hi). exact Hnone.
    + right. rewrite (entering_sent r r' l side order Hcl Hi), Hnone, Hts.
      split; [reflexivity|exact Hlt'].
Qed.

Lemma in_order_core r b others :
  core b = core (bot r) ->
  entering (mkRunning b others) = entering r \/
  entering (mkRunning b others) = [] ->
  in_order r -> in_order (mkRunning b others).
Proof.
  intros Hb Hent (Hs & Hf & He).
  destruct (core_inv _ _ Hb) as (_ & _ & Hen & Hl & _).
  unfold in_order. cbn [bot]. rewrite Hen, Hl.
  split; [exact Hs|]. split; [exact Hf|].
  destruct Hent as [Hent|Hent]; [rewrite Hent; exact He|left; exact Hent].
Qed.

Lemma settle_in_order r i now outcome :
  in_order r -> in_order (settle r i now outcome).
Proof.
  intros Hin. unfold settle.
  destruct (nth_error (inFlight r) i) as [p|] eqn:En; [|exact Hin].
  cbv zeta.
  set (others := firstn i (inFlight r) ++ skipn (S i) (inFlight r)).
  destruct p as [side order|why exitPrice].
  - destruct (entering_split r i _
                (enterPositionResumed (bot r) now outcome side order) En)
      as (l1 & l2 & E1 & E2).
    destruct Hin as (Hs & Hf & He).
    destruct He as [He|(He & Hlt)];
      [rewrite He in E1; destruct l1; discriminate|].
    rewrite He in E1.
    assert (Hl1 : l1 = [] /\ l2 = [] /\
                  ord_timestamp order = lastBarCloseTime (bot r)).
    { destruct l1 as [|x l1]; cbn [app] in E1.
      - injection E1 as E1 E1'. repeat split; congruence.
      - injection E1 as _ E1. destruct l1; discriminate. }
    destruct Hl1 as (-> & -> & Hts). cbn [app] in E2.
    destruct outcome.
    + destruct (enterPositionResumed_resolved (bot r) now side order)
        as (_ & _ & Hen & Hl & _).
      unfold in_order. cbn [bot]. rewrite Hen, Hl, Hts.
      destruct (PositionSide_eqb side flat).
      * rewrite app_nil_r. split; [exact Hs|]. split; [exact Hf|].
        left. exact E2.
      * split; [apply sorted_snoc; assumption|]. split.
        -- apply Forall_app. split; [exact Hf|].
           constructor; [lia|constructor].
        -- left. exact E2.
    + apply (in_order_core r);
        [apply enterPositionResumed_rejected; discriminate|right; exact E2|].
      split; [exact Hs|]. split; [exact Hf|]. right. split; assumption.
    + apply (in_order_core r);
        [apply enterPositionResumed_rejected; discriminate|right; exact E2|].
      split; [exact Hs|]. split; [exact Hf|]. right. split; assumption.
  - assert (Hent : forall b, entering (mkRunning b others) = entering r).
    { intro b. destruct (entering_split r i _ b En) as (l1 & l2 & E1 & E2).
      unfold others. rewrite E1, E2. reflexivity. }
    destruct outcome.
    + apply (in_order_core r);
        [apply core_closePositionResumed|left; apply Hent|exact Hin].
    + apply (in_order_core r); [reflexivity|left; apply Hent|exact Hin].
    + apply (in_order_core r); [reflexivity|left; apply Hent|exact Hin].
Qed.

Section WithParseFloat.

Variable parseFloat : string -> number.

Lemma run_in_order tns :
  forall r,
    in_order r -> orders_settle_in_time parseFloat r tns ->
    in_order (Async.run parseFloat r tns).
Proof.
  induction tns as [|tn tns IH]; intros r Hb Hs; [exact Hb|].
  destruct Hs as [Hnow Hrest]. apply IH; [|exact Hrest].
  destruct tn as [ev|i now outcome]; [|apply settle_in_order; exact Hb].
  pose proof (core_step parseFloat (bot r) ev) as Hc.
  destruct ev; cbn [turn];
    [apply handleTick_in_order; assumption| | | |];
    (apply (in_order_core r); [exact Hc|left; reflexivity|exact Hb]).
Qed.

Lemma new_in_order c now saved b0 :
  new c now saved = Some b0 -> in_order (mkRunning b0 []).
Proof.
  intro H. destruct (new_tidy c now saved b0 H) as (_ & Hs & Hf & _).
  split; [exact Hs|]. split; [exact Hf|left; reflexivity].
Qed.

(** X21.  Entries follow the bar clock, whenever the executor answers: in
    every state the orchestrator reaches from its constructor, with calls
    of the executor settling in any order and at any later time, nothing
    has been entered and no entry is in flight while no more than
    [WARMUP_BARS] bars have been counted, and every entry recorded or in
    flight carries the end time of a bar that has closed, none later than
    the last one.  When no tick is handled while the order of an entry is
    in flight, the times of the recorded entries are strictly increasing:
    one entry per bar at most. *)
Theorem entries_follow_the_bar_clock
    (c : AppConfig) (now : Z) (saved : option Saved) (b0 : t)
    (tns : list (Turn)) :
  new c now saved = Some b0 ->
  let r := Async.run parseFloat (mkRunning b0 []) tns in
  ((barCount (bot r) <= WARMUP_BARS)%Z ->
   entries (bot r) = [] /\ entering r = []) /\
  Forall (fun t => (t <= lastBarCloseTime (bot r))%Z)
         (entries (bot r) ++ entering r) /\
  (orders_settle_in_time parseFloat (mkRunning b0 []) tns ->
   StronglySorted Z.lt (entries (bot r))).
Proof.
  intros Hnew r.
  destruct (run_on_the_clock parseFloat tns _
              (new_on_the_clock c now saved b0 Hnew)) as [Hw Hf].
  split; [exact Hw|]. split; [exact Hf|].
  intro Hs.
  exact (proj1 (run_in_order tns _ (new_in_order c now saved b0 Hnew) Hs)).
Qed.

End WithParseFloat.

End EntriesInOrder.

(** ** Witnesses of the further properties *)

Lemma rsi_saturates_on_monotone_series_witness :
  snd (RSI_run (fresh_rsi 14) [100; 101; 102; 103]) = [50; 100; 100; 100] /\
  snd (RSI_run (fresh_rsi 14) [103; 102; 101]) = [50; 0; 0].
Proof.
  pose proof (rsi_saturates_on_monotone_series 14 (fresh_rsi 14) 100
                [101; 102; 103] eq_refl) as [Hup _].
  pose proof (rsi_saturates_on_monotone_series 14 (fresh_rsi 14) 103
                [102; 101] eq_refl) as [_ Hdown].
  split.
  - apply Hup. cbn [rising_from]. repeat split; lra.
  - apply Hdown. cbn [falling_from]. repeat split; lra.
Defined.

Lemma emitted_bars_span_less_than_a_timeframe_witness :
  Forall (fun c => (endTime c - startTime c < 30000)%Z)
         (snd (VirtualBarBuilder.feed (VirtualBarBuilder.mk None 30000)
                 test_ticks)) /\
  starts_apart 30000
    (snd (VirtualBarBuilder.feed (VirtualBarBuilder.mk None 30000)
            test_ticks)).
Proof.
  exact (emitted_bars_span_less_than_a_timeframe 30000
           (VirtualBarBuilder.mk None 30000) test_ticks eq_refl).
Defined.

Lemma adx_windows_hold_the_last_samples_witness :
  let a' :=
    ADX_run (fresh_adx 2)
      ((101, 99, 100)
       :: [(102, 100, 101); (103, 101, 102); (104, 102, 103)]) in
  len (ADX.trValues a')
  = Z.min 2 (len [(102, 100, 101); (103, 101, 102); (104, 102, 103)]) /\
  len (ADX.plusDMValues a')
  = Z.min 2 (len [(102, 100, 101); (103, 101, 102); (104, 102, 103)]) /\
  len (ADX.minusDMValues a')
  = Z.min 2 (len [(102, 100, 101); (103, 101, 102); (104, 102, 103)]) /\
  Forall (Qle 0)
    (ADX.trValues a' ++ ADX.plusDMValues a' ++ ADX.minusDMValues a').
Proof.
  exact (adx_windows_hold_the_last_samples 2 (fresh_adx 2) (101, 99, 100)
           [(102, 100, 101); (103, 101, 102); (104, 102, 103)] eq_refl).
Defined.

Lemma v1_signals_respect_the_cooldown_witness :
  (PeachHybridEngine.minBarsBetween
     (PeachHybridEngine.v1 (PeachHybridEngine.config after_99))
   <= len (@nil SyntheticBar) + 1)%Z.
Proof.
  apply (v1_signals_respect_the_cooldown after_99 bar_100 [] bar_90
           v1_long_at_100 v1_short_at_90).
  - vm_compute. reflexivity.
  - vm_compute. reflexivity.
  - vm_compute. reflexivity.
  - vm_compute. reflexivity.
Defined.

Lemma v1_signals_respect_the_minimum_move_witness :
  (0 < PeachHybridEngine.v1LastLongPrice after_100 ->
   PeachHybridEngine.minMovePercent
     (PeachHybridEngine.v1 (PeachHybridEngine.config after_100))
   <= movePercent (close bar_90)
        (PeachHybridEngine.v1LastLongPrice after_100)) /\
  (0 < PeachHybridEngine.v1LastShortPrice after_100 ->
   PeachHybridEngine.minMovePercent
     (PeachHybridEngine.v1 (PeachHybridEngine.config after_100))
   <= movePercent (close bar_90)
        (PeachHybridEngine.v1LastShortPrice after_100)).
Proof.
  apply (v1_signals_respect_the_minimum_move after_100 bar_90
           v1_short_at_90).
  - vm_compute. reflexivity.
  - vm_compute. reflexivity.
Defined.

Lemma engine_histories_are_sliding_windows_witness :
  PeachHybridEngine.volumeHistory (engine_after fresh_engine s2_bars)
  = slice_last
      (Z.to_nat
         (Z.max (PeachHybridEngine.volumeLookback
                   (PeachHybridEngine.v2 test_peach_config)) 10))
      (map volume s2_bars) /\
  PeachHybridEngine.v2RsiHistory (engine_after fresh_engine s2_bars)
  = slice_last 2
      (snd (RSI_run (PeachHybridEngine.v2Rsi fresh_engine)
              (map close s2_bars))).
Proof.
  exact (engine_histories_are_sliding_windows test_peach_config fresh_engine
           s2_bars fresh_engine_new).
Defined.


Lemma position_change_confirms_one_order_witness :
  let m' := OrderTracker.confirmByPositionChange two_orders 7 long 100 in
  NoDup (keys m') /\
  match find (awaits long 100) two_orders with
  | Some (k, o) =>
      OrderTracker.get two_orders k = Some o /\
      OrderTracker.get m' k = Some (confirmed_at 7 o) /\
      forall k', k' <> k -> OrderTracker.get m' k' = OrderTracker.get two_orders k'
  | None => m' = two_orders
  end.
Proof.
  apply (position_change_confirms_one_order two_orders 7 long 100).
  unfold keys, two_orders. cbn.
  constructor; [intros [H|[]]; discriminate H|].
  constructor; [intros []|constructor].
Defined.

Lemma redacted_key_hides_the_middle_witness :
  KeyManager.redactKey ("abcd" ++ "efghijkl" ++ "wxyz")
  = ("abcd" ++ KeyManager.REDACTED ++ "wxyz")%string /\
  KeyManager.redactKey "short" = KeyManager.REDACTED.
Proof.
  apply (redacted_key_hides_the_middle "abcd" "efghijkl" "wxyz" "short").
  - reflexivity.
  - reflexivity.
  - cbn. lia.
Defined.

Lemma no_entry_during_warmup_witness :
  entries (bot_run fresh_bot warmup_ticks) = [].
Proof.
  unfold bot_run.
  apply (no_entry_during_warmup DecimalReader.parseFloat hybrid_app 0 None
           fresh_bot warmup_ticks fresh_bot_new).
  vm_compute. discriminate.
Defined.

Lemma remembered_signal_keys_are_bounded_witness :
  (len (BotRunner.processedSignals (bot_run fresh_bot reentry_ticks))
   <= 100)%Z.
Proof.
  unfold bot_run.
  exact (remembered_signal_keys_are_bounded DecimalReader.parseFloat
           hybrid_app 0 None fresh_bot reentry_ticks fresh_bot_new).
Defined.

Lemma emergency_stop_closes_the_position_witness :
  BotRunner.position
    (BotRunner.evaluateProtectiveExits warm_long_bot calm stale_bar)
  = flat_position.
Proof.
  apply (emergency_stop_closes_the_position warm_long_bot calm stale_bar
           100 2).
  - reflexivity.
  - intro H. vm_compute in H. discriminate H.
  - reflexivity.
  - reflexivity.
  - reflexivity.
  - left. split; [reflexivity|]. vm_compute. discriminate.
Defined.

Lemma rejected_entry_changes_nothing_witness :
  exists msgs,
    BotRunner.enterPosition fresh_bot rejecting long
      (mkOrder long 100 5 100 "v1-long" 1330000)
    = fold_left BotRunner.log msgs fresh_bot.
Proof.
  apply (rejected_entry_changes_nothing fresh_bot rejecting long
           (mkOrder long 100 5 100 "v1-long" 1330000)).
  left. discriminate.
Defined.

Lemma second_failed_poll_freezes_trading_witness :
  let b' :=
    BotRunner.onRestPosition DecimalReader.parseFloat failing_bot calm
      short_response in
  BotRunner.position b' = BotRunner.position failing_bot /\
  PositionStateManager.reconciliationFailures (BotRunner.stateManager b')
  = (PositionStateManager.reconciliationFailures
       (BotRunner.stateManager failing_bot) + 1)%Z /\
  (if (1 <=? PositionStateManager.reconciliationFailures
               (BotRunner.stateManager failing_bot))%Z
   then BotRunner.tradingFrozen b' = true /\
        BotRunner.freezeUntil b' = (BotRunner.now calm + 60000)%Z
   else BotRunner.tradingFrozen b' = BotRunner.tradingFrozen failing_bot /\
        BotRunner.freezeUntil b' = BotRunner.freezeUntil failing_bot) /\
  BotRunner.tradingFrozen (BotRunner.unfreeze b') = false /\
  PositionStateManager.shouldFreezeTrading
    (BotRunner.stateManager (BotRunner.unfreeze b')) = false.
Proof.
  apply (second_failed_poll_freezes_trading DecimalReader.parseFloat
           failing_bot calm short_response).
  vm_compute. reflexivity.
Defined.

Lemma accepted_poll_sets_the_position_witness :
  BotRunner.position
    (BotRunner.onRestPosition DecimalReader.parseFloat fresh_bot calm
       long_response)
  = mkPosition long 100 (Some (1005 # 10)) (Some 0%Z) /\
  pos_size
    (BotRunner.position
       (BotRunner.onRestPosition DecimalReader.parseFloat failing_bot calm
          unparsed_response)) = NaN /\
  PositionStateManager.pendingOrder
    (PositionStateManager.state
       (BotRunner.stateManager
          (BotRunner.onRestPosition DecimalReader.parseFloat failing_bot calm
             unparsed_response)))
  = PositionStateManager.pendingOrder
      (PositionStateManager.state (BotRunner.stateManager failing_bot)).
Proof.
  assert (H1 : snd (PositionStateManager.updateFromRest
                      DecimalReader.parseFloat
                      (BotRunner.stateManager fresh_bot) (BotRunner.now calm)
                      (polled long_response)) = true)
    by (vm_compute; reflexivity).
  assert (H2 : snd (PositionStateManager.updateFromRest
                      DecimalReader.parseFloat
                      (BotRunner.stateManager failing_bot)
                      (BotRunner.now calm) (polled unparsed_response)) = true)
    by (vm_compute; reflexivity).
  pose proof (accepted_poll_sets_the_position DecimalReader.parseFloat
                fresh_bot calm long_response H1) as [Hpos _].
  pose proof (accepted_poll_sets_the_position DecimalReader.parseFloat
                failing_bot calm unparsed_response H2)
    as (_ & _ & _ & _ & Hnan & _).
  split.
  - rewrite Hpos. vm_compute. reflexivity.
  - assert (H3 : DecimalReader.parseFloat
                   (BotRunner.positionAmt unparsed_response) = NaN)
      by (vm_compute; reflexivity).
    destruct (Hnan H3) as (_ & Hsize & Hpend & _).
    split; [exact Hsize|exact Hpend].
Defined.

Lemma flip_budget_overlooks_orders_in_flight_witness :
  BotRunner.new live_app 0 None = Some live_bot /\
  orders_settle_in_time DecimalReader.parseFloat
    (BotRunner.Async.mkRunning live_bot []) prompt_executor_turns /\
  entries (BotRunner.Async.bot (live_run prompt_executor_turns))
  = [1330000%Z] /\
  last (BotRunner.emitted (BotRunner.Async.bot (live_run prompt_executor_turns)))
       (BotRunner.EmitLog EmptyString)
  = BotRunner.EmitLog "Flip budget exhausted, ignoring long signal" /\
  forall w,
    (len (filter (in_window w)
            (entries (BotRunner.Async.bot (live_run prompt_executor_turns))))
     <= 1)%Z.
Proof.
  assert (H0 : (0 <= BotRunner.maxFlipsPerHour (BotRunner.risk live_app))%Z)
    by (vm_compute; discriminate).
  assert (H1 : BotRunner.new live_app 0 None = Some live_bot)
    by (vm_compute; reflexivity).
  assert (H2 : orders_settle_in_time DecimalReader.parseFloat
                 (BotRunner.Async.mkRunning live_bot [])
                 prompt_executor_turns)
    by (vm_compute; repeat split).
  split; [exact H1|]. split; [exact H2|].
  split; [vm_compute; reflexivity|]. split; [vm_compute; reflexivity|].
  pose proof (flip_budget_overlooks_orders_in_flight
                DecimalReader.parseFloat live_app 0 None live_bot
                prompt_executor_turns H0 H1) as [Hw _].
  unfold live_run. exact (Hw H2).
Defined.

(** C7, as stated, fails with an executor that takes time: in live mode
    with [maxFlipsPerHour = 1] and a balance of 1000, the bar that closes at
    1330000 brings a V1 short and the bar that closes at 1360000 a V1 long;
    both pass [canFlip] while the first order is in flight, and when the
    two orders have settled two entries 30 s apart are recorded, in one
    window of an hour.  When the second order settles first the recorded
    times even decrease. *)
Lemma two_entries_on_a_budget_of_one :
  BotRunner.new live_app 0 None = Some live_bot /\
  BotRunner.maxFlipsPerHour (BotRunner.risk (BotRunner.config live_bot)) = 1%Z /\
  map (fun p => match p with
                | BotRunner.Async.Entering side order =>
                    Some (side, ord_timestamp order)
                | BotRunner.Async.Closing _ _ => None
                end)
      (BotRunner.Async.inFlight (live_run (firstn 15 slow_executor_turns)))
  = [Some (short, 1330000%Z); Some (long, 1360000%Z)] /\
  entries (BotRunner.Async.bot (live_run (firstn 15 slow_executor_turns))) = [] /\
  entries (BotRunner.Async.bot (live_run slow_executor_turns))
  = [1330000%Z; 1360000%Z] /\
  len (filter (in_window 1330000)
         (entries (BotRunner.Async.bot (live_run slow_executor_turns)))) = 2%Z /\
  entries (BotRunner.Async.bot (live_run overtaking_turns))
  = [1360000%Z; 1330000%Z].
Proof. vm_compute. repeat split. Qed.

Lemma entries_follow_the_bar_clock_witness :
  BotRunner.new live_app 0 None = Some live_bot /\
  entries (BotRunner.Async.bot (live_run (firstn 16 slow_executor_turns)))
  = [1330000%Z] /\
  entering (live_run (firstn 16 slow_executor_turns)) = [1360000%Z] /\
  BotRunner.lastBarCloseTime
    (BotRunner.Async.bot (live_run (firstn 16 slow_executor_turns)))
  = 1360000%Z /\
  Forall (fun t =>
            (t <= BotRunner.lastBarCloseTime
                    (BotRunner.Async.bot
                       (live_run (firstn 16 slow_executor_turns))))%Z)
         (entries
            (BotRunner.Async.bot (live_run (firstn 16 slow_executor_turns)))
          ++ entering (live_run (firstn 16 slow_executor_turns))) /\
  BotRunner.new hybrid_app 0 None = Some fresh_bot /\
  orders_settle_in_time DecimalReader.parseFloat
    (BotRunner.Async.mkRunning fresh_bot []) (settling reentry_ticks) /\
  entries
    (BotRunner.Async.bot
       (BotRunner.Async.run DecimalReader.parseFloat
          (BotRunner.Async.mkRunning fresh_bot []) (settling reentry_ticks)))
  = [1330000%Z; 1391000%Z] /\
  StronglySorted Z.lt
    (entries
       (BotRunner.Async.bot
          (BotRunner.Async.run DecimalReader.parseFloat
             (BotRunner.Async.mkRunning fresh_bot [])
             (settling reentry_ticks)))).
Proof.
  assert (H1 : BotRunner.new live_app 0 None = Some live_bot)
    by (vm_compute; reflexivity).
  assert (H2 : BotRunner.new hybrid_app 0 None = Some fresh_bot)
    by (vm_compute; reflexivity).
  assert (H3 : orders_settle_in_time DecimalReader.parseFloat
                 (BotRunner.Async.mkRunning fresh_bot [])
                 (settling reentry_ticks))
    by (vm_compute; repeat split).
  split; [exact H1|].
  split; [vm_compute; reflexivity|]. split; [vm_compute; reflexivity|].
  split; [vm_compute; reflexivity|].
  split.
  { pose proof (entries_follow_the_bar_clock DecimalReader.parseFloat
                  live_app 0 None live_bot (firstn 16 slow_executor_turns) H1)
      as (_ & Hf & _).
    unfold live_run. exact Hf. }
  split; [exact H2|]. split; [exact H3|].
  split; [vm_compute; reflexivity|].
  pose proof (entries_follow_the_bar_clock DecimalReader.parseFloat
                hybrid_app 0 None fresh_bot (settling reentry_ticks) H2)
    as (_ & _ & Hs).
  exact (Hs H3).
Defined.

Lemma frozen_orchestrator_does_not_trade_witness :
  BotRunner.barCount frozen_at_bar_12 = 11%Z /\
  option_map close
    (snd (VirtualBarBuilder.pushTick (BotRunner.barBuilder frozen_at_bar_12)
            (tick_in 13 0 (989 # 10))))
  = Some 101 /\
  entries
    (BotRunner.handleTick (bot_run fresh_bot (firstn 12 reentry_ticks)) calm
       (tick_in 13 0 (989 # 10)))
  = [1330000%Z] /\
  (let b' :=
     BotRunner.handleTick frozen_at_bar_12 calm (tick_in 13 0 (989 # 10)) in
   (BotRunner.position b' = BotRunner.position frozen_at_bar_12 \/
    BotRunner.position b' = flat_position) /\
   entries b' = entries frozen_at_bar_12 /\
   BotRunner.flipHistory b' = BotRunner.flipHistory frozen_at_bar_12 /\
   engine_view b' = engine_view frozen_at_bar_12 /\
   BotRunner.tradingFrozen b' = true /\
   BotRunner.freezeUntil b' = BotRunner.freezeUntil frozen_at_bar_12).
Proof.
  split; [vm_compute; reflexivity|].
  split; [vm_compute; reflexivity|].
  split; [vm_compute; reflexivity|].
  assert (H1 : BotRunner.tradingFrozen frozen_at_bar_12 = true)
    by (vm_compute; reflexivity).
  assert (H2 : (BotRunner.now calm < BotRunner.freezeUntil frozen_at_bar_12)%Z)
    by (vm_compute; reflexivity).
  exact (frozen_orchestrator_does_not_trade frozen_at_bar_12 calm
           (tick_in 13 0 (989 # 10)) H1 H2).
Defined.
